(* ===== verification/_CoqProject ===== *)
-Q . S2P
Prelude.v
StrUtil.v
Logger.v
World.v
Json.v
Regex.v
Validation.v
CredSpec.v
Metadata.v
K5Platform.v
K5Int.v
K5Thread.v
K5Buf.v
Kinit.v
Util.v
Klist.v
Krb.v
Utf16.v
Confine.v
Lease.v
Lifecycle.v
Aws.v
ArnLease.v
ArnLifecycle.v
Renewal.v
SelfTest.v
Rpc.v
Store.v
Service.v
Daemon.v
