(* ===== verification/Prelude.v ===== *)
(** * credentials-fetcher: a verification library

    credentials-fetcher is a daemon of a container host. It creates, renews and
    deletes Kerberos tickets for group Managed Service Accounts (gMSA) on behalf
    of containers, which ask for them over gRPC on a local socket. A request
    carries credential specifications (JSON) or the ARNs of such; the daemon
    gets a ticket for the machine or for a user, reads the account's password
    over LDAP, makes the account's ticket in a directory of its own, and records
    the tickets of the request, a lease, in a metadata file. A thread renews the
    tickets that are about to expire.

    ** Files, in dependency order

    - [Prelude]: outcomes ([Ok], [Throw], [Undefined]), the state and error monad
      [M], loops with [break], strings, the rules for triples, tactics and hints.
    - [StrUtil] (string routines of [class Util] in [common/util.hpp],
      [parse_cred_file_path] of [daemon/src/daemon.cpp], lease ids).
    - [Logger] ([class CF_logger] of [common/daemon.h]).
    - [World]: what the daemon acts on. A file system (paths resolved component
      by component), the environment, the logger, and the class [Platform] for
      shell commands, clock and random device. [Script] is a scripted platform
      on which the definitions are evaluated.
    - [Json]: the class [JsonCpp] for jsoncpp with the behaviour relied on in
      [JsonCppLaws], and a concrete instance [Tree].
    - [Regex]: [std::regex] as a backtracking matcher with captures.
    - [Validation] ([isValidDomain] and the character filters of
      [api/src/gmsa_service.cpp], [auth/kerberos/src/krb.cpp],
      [metadata/src/metadata.cpp]).
    - [CredSpec] (the ticket records of [common/daemon.h], [parse_cred_spec] and
      [parse_cred_spec_domainless] of [api/src/gmsa_service.cpp]).
    - [Metadata] ([metadata/src/metadata.cpp]).
    - [Kinit] ([auth/kinit_client/kinit.c] and [kinit_kdb.c]): class [Krb5] for
      the Kerberos library, whose objects are owned and released.
    - The inline functions of the Kerberos headers of [auth/kinit_client], which
      are compiled into [kinit.c]: [K5Platform] and [K5Int] ([k5-platform.h], [k5-int.h]:
      byte order, data, allocation, freeing of secrets, timestamps), [K5Thread]
      (initialisation once, of [k5-thread.h] and [k5-platform.h]) and [K5Buf]
      (buffers and socket addresses, of [k5-buf.h] and [socket-utils.h]). The
      program calls none of them.
    - [Util] (the rest of [class Util]: commands, configuration, LDAP, tickets of
      a user or the machine).
    - [Klist] ([get_ticket_expiration], [is_ticket_ready_for_renewal] of
      [auth/kerberos/src/krb.cpp]) and [Krb] (the rest of that file).
    - [Utf16]: the decoder of [auth/kerberos/src/utf16_decode/Program.cs], which
      [Krb] runs through a pipe, and its self test in [class Util].
    - [Confine]: the rules for [confined P s0 m Q], which says that [m] changes
      the file system only at [P] whatever its outcome, for every routine above.
    - [Lease] (four handlers of [api/src/gmsa_service.cpp] and
      [ProcessCredSpecFile]) and [Lifecycle] (what their replies promise);
      [Aws] and [ArnLease] (the handlers for ARNs and the AWS access they use)
      and [ArnLifecycle] (what the reply to a request for ARNs promises).
    - [Renewal] ([renewal/src/renewal.cpp]), [SelfTest] (the tests that main runs
      under [--self_test]), [Rpc] ([RunServer], [HandleRpcs], the call objects and
      the client [HealthCheck]).
    - [Store]: the specification of the service, a map from lease ids to tickets and
      the set of the ids whose record is not relied on, with the steps a request may
      take, answered or ended by an exception (only the latter unsettles an id), and
      the refinement of it by the handlers of [Rpc], with passes of [Renewal]
      between the requests.
    - [Service]: runs of the server of [Rpc], and the credential specification file
      main reads before one, as the life of the store.
    - [Daemon] ([daemon/src/daemon.cpp], [configuration/src/config.cpp]): the
      command line, the threads and main, which puts the parts together.

    A definition has the name of the routine it models; a loop body or a branch
    that became a definition of its own says so in its comment. A C++ routine
    that returns a pair, writes through a reference or changes a ticket behind a
    pointer returns the new value. The state is [world]: handlers are
    [M (world X)], [k5_begin] and [k5_kinit] run over [kst] (the world with the
    handles they hold), the server over [server].

    ** What the theorems show

    - The service: runs of the server, the lease made from the credential
      specification file before them, and the restarts after an exception refine the
      store of leases, up to the point where a run reaches undefined behaviour, if
      one does ([service_refines_store], by [lease_store_refinement] for the
      handlers); a request, however it ends, leaves the leases of others alone ([requests_isolated]); what is stored is
      found by the renewal ([stored_leases_renewable]).
    - Leases: an OK reply means that every ticket of the request is made and
      recorded, an error that nothing is ([lease_recorded],
      [domainless_lease_recorded], [cred_spec_file_recorded]); creating one
      touches nothing but its own fresh directory ([create_lease_confined],
      [create_domainless_lease_confined]), makes one ticket per account, the first
      ([parse_credspecs_spec]), and cleans up exactly its tickets' paths
      ([failed_lease_cleanup]). All this is for accounts that are not named [.] or
      [..]: the filter of the accounts lets [..] through, and such a request can
      leave the directory of the lease, or be answered with OK though the accounts
      after it have nothing ([dotdot_account_escapes], [dotdot_account_stops]). A lease is
      recorded so that it can be read back, up to the first path the reader refuses
      ([metadata_roundtrip], [read_meta_data_json_safe]), and deleted without
      touching others ([delete_krb_tickets_spec]); an unchecked id can
      ([delete_krb_tickets_parent]).
    - Leases from ARNs: what an OK reply and an error mean for the accounts of one
      task, with or without a lease ([arn_lease_recorded], [second_request_path]).
      Whatever is requested, they stay in the directory of the leases
      ([arn_lease_confined]); what the loop takes from its elements, and what
      becomes of a request that fails or holds a test element ([arn_lease_outcomes]); which S3 object is read
      ([s3_object_of_arn_spec]).
    - Tickets: the password that reaches kinit ([kinit_with_password_spec],
      [find_password_spec]), its encoding ([EncodeToUTF8_correct],
      [test_utf16_decode_spec]), the Kerberos client's ownership of handles and
      buffers, whatever the library prompts for ([my_kinit_main_safe]), principals, retries and codes
      ([get_machine_principal_form], [find_dn_spec], [execute_ldapsearch_retry],
      [user_ticket_status]).
    - Renewal: when a ticket is due, from the output of [klist]
      ([ticket_renewal_spec]), what the attempts do
      ([renew_attempts_unrolled], [renew_gmsa_ticket_unrolled]), which files are
      looked at ([get_meta_data_file_paths_spec]), what is reported
      ([renew_domainless_reports_nothing]), and how long the thread lives
      ([krb_ticket_renew_handler_spec]).
    - The process: one waiting object for each rpc, one reply to each request, the
      use of a freed object and the assertion that a lost reply fails
      ([rpc_server_spec]); whatever is asked, the loop can answer it in order
      ([rpc_server_answers]); the command line
      ([main_command_line]), the self tests ([self_test_spec]), the start of the
      threads ([start_thread_never_exits]) and the end of the main loop
      ([main_loop_spec]).
    - The headers of Kerberos: loads and stores of integers are those of their byte
      order on every machine, where they are defined ([byte_orders_agree],
      [loads_after_stores]); timestamps ([timestamps_spec]); copies and comparisons
      ([k5memdup_spec], [data_eq_spec]); secrets are gone when freed
      ([zapfree_spec]); an initialiser runs once ([initializer_runs_once]); integers
      in buffers and ports of addresses ([k5_buf_add_spec], [sa_port_spec]).
    - Input and text: [isValidDomain_rfc1123], [regex_correct],
      [forbidden_characters], [credspec_readers_sound], [split_string_spec],
      [get_base_dn_spec], [lease_id_spec], [parse_cred_file_path_spec],
      [retrieve_variable_spec], [exec_shell_cmd_complete],
      [check_file_permissions_spec]; the logger: what the file and the ring hold
      ([logger_all_spec]), [log_file_bounded], [ring_index_values].

    ** Fuel

    [getlines] and [read_pipe] run on the length of their input, of which each
    turn consumes at least a character ([getlines_spec],
    [exec_shell_cmd_complete]); the star of [match_all] on the length of what is
    left, each turn consuming ([regex_correct]); [renew_loop] on 3 for a loop of
    at most two turns ([renew_gmsa_ticket_unrolled]). Three loops never end by
    themselves: [renewal_loop] runs a given number of turns, [watchdog_loop] and
    [HandleRpcs] run on a list of what each look at the shutdown flag finds, and
    all say when they are still running.

    ** Bounds of the model

    The libraries (jsoncpp, Kerberos, AWS, gRPC, glib), popen, pthread and
    systemd are parameters. What a theorem needs of external programs is a hypothesis
    of it: that they write only some set of files ([ExternalIn], [commands_change]),
    which are the caches for the lease theorems ([external_caches]). Left out: what is printed to stdout, stderr and the
    systemd journal; symbolic links, umask, and access rights (the daemon runs as
    root) beyond the bits [check_file_permissions] reads; the overwriting of freed
    secrets ([OPENSSL_cleanse]), whose only visible effect, clearing a string, is
    modelled; allocation failure. A relative path is resolved from the root
    directory, where systemd starts a service. Threads are not interleaved within
    a handler: a handler runs to its end, and what others do between the turns of
    the renewal thread and between the events of the server is arbitrary. The
    logger copies of the renewal thread are the logger of the world. Not modelled:
    the generated code of [protos/credentialsfetcher.proto], whose messages are
    [rpc_request] and [rpc_reply]; the test client, the samples and the deployment
    scripts; the rest of the Kerberos headers copied into [auth/kinit_client], which
    is declarations, configuration, trace formats, and renamed functions of the
    system and the library that the program does not use.

    Two things the service theorems leave to the reader. A request for leases from
    ARNs whose mount paths name several tasks is confined to the directory of the
    leases ([arn_lease_confined]), but is not a step of the store: all its tickets are
    recorded under the last task. And a pass of the renewal thread during a handler
    would change only caches ([confined_renewal_pass]), as the programs the handler
    itself runs may; what the two threads do to each other's default credential cache
    is in the programs, which are parameters. *)
From stdpp Require Export base tactics option list strings gmap sets fin_maps pretty.
From Stdlib Require Export Ascii ZArith Lia.
From stdpp Require Import options.
From Stdlib Require String.

(** ** Scope of the development's notations *)
Declare Scope cf_scope.
Delimit Scope cf_scope with cf.

(** ** Outcomes of C++ code

    [Ok a] is a normal return, [Throw e] a C++ exception whose [what()] is
    [e], and [Undefined e] undefined behaviour (reading freed memory,
    dereferencing a null [FILE*], running past a buffer): once reached, nothing
    is known of the process. *)
Inductive outcome (A : Type) : Type :=
| Ok (a : A)
| Throw (what : string)
| Undefined (what : string).
Arguments Ok {A} a.
Arguments Throw {A} what.
Arguments Undefined {A} what.

(** ** The state and error monad of the handlers

    A computation of type [M W A] reads and writes a world [W]; the world
    reached before an exception is kept, because C++ does not roll back. *)
Definition M (W A : Type) : Type := W → outcome A * W.

Definition throw {W A} (e : string) : M W A := λ w, (Throw e, w).
Definition undefined {W A} (e : string) : M W A := λ w, (Undefined e, w).
Definition get_world {W} : M W W := λ w, (Ok w, w).
Definition put_world {W} (w : W) : M W unit := λ _, (Ok tt, w).
Definition gets {W A} (f : W → A) : M W A := λ w, (Ok (f w), w).
Definition modify {W} (f : W → W) : M W unit := λ w, (Ok tt, f w).

#[global] Instance M_ret {W} : MRet (M W) := λ A a w, (Ok a, w).
#[global] Instance M_bind {W} : MBind (M W) := λ A B k m w,
  match m w with
  | (Ok a, w') => k a w'
  | (Throw e, w') => (Throw e, w')
  | (Undefined e, w') => (Undefined e, w')
  end.

#[global] Instance M_fmap {W} : FMap (M W) := λ A B f m, m ≫= λ a, mret (f a).

(** [lift o] runs a computation that does not touch the world. *)
Definition lift {W A} (o : outcome A) : M W A := λ w, (o, w).

(** [try_catch m h]: a [try] block with a handler for every exception.
    Undefined behaviour is not caught. *)
Definition try_catch {W A} (m : M W A) (h : string → M W A) : M W A := λ w,
  match m w with
  | (Throw e, w') => h e w'
  | r => r
  end.

#[global] Instance outcome_ret : MRet outcome := λ A, Ok.
#[global] Instance outcome_bind : MBind outcome := λ A B k o,
  match o with
  | Ok a => k a
  | Throw e => Throw e
  | Undefined e => Undefined e
  end.

(** ** Loops with [break]

    The body of a [for] loop returns [Next s] to go on with the loop state [s]
    and [Break s] to leave the loop. *)
Inductive ctl (S : Type) : Type :=
| Next (s : S)
| Break (s : S).
Arguments Next {S} s.
Arguments Break {S} s.

Fixpoint for_each {W A S} (body : S → A → M W (ctl S)) (s : S) (l : list A) : M W S :=
  match l with
  | [] => mret s
  | a :: l' =>
    c ← body s a;
    match c with
    | Next s' => for_each body s' l'
    | Break s' => mret s'
    end
  end.

(** ** std::string operations

    A [std::string] is a Rocq [string]; each character is a byte. *)
Definition str_empty (s : string) : bool :=
  match s with EmptyString => true | _ => false end.

Fixpoint str_drop (n : nat) (s : string) : string :=
  match n, s with
  | O, _ => s
  | S n', String _ s' => str_drop n' s'
  | S _, EmptyString => EmptyString
  end.

Fixpoint str_take (n : nat) (s : string) : string :=
  match n, s with
  | O, _ => EmptyString
  | S n', String c s' => String c (str_take n' s')
  | S _, EmptyString => EmptyString
  end.

(** [s.find(pat)]: offset of the first occurrence, [None] for [npos]. *)
Fixpoint str_find (pat s : string) : option nat :=
  if String.prefix pat s then Some 0
  else match s with
       | EmptyString => None
       | String _ s' => S <$> str_find pat s'
       end.

(** [s.find(ch) != npos] *)
Fixpoint has_char (c : ascii) (s : string) : bool :=
  match s with
  | EmptyString => false
  | String d s' => bool_decide (c = d) || has_char c s'
  end.

(** [s.substr(pos)]: [std::out_of_range] when [pos] is past the end. *)
Definition str_substr (pos : nat) (s : string) : outcome string :=
  if decide (pos ≤ String.length s) then Ok (str_drop pos s)
  else Throw "basic_string::substr".

(** Concatenation of a list of strings with a separator. *)
Fixpoint str_join (sep : string) (l : list string) : string :=
  match l with
  | [] => ""
  | [x] => x
  | x :: l' => x +:+ sep +:+ str_join sep l'
  end.

Fixpoint str_concat (l : list string) : string :=
  match l with
  | [] => ""
  | x :: l' => x +:+ str_concat l'
  end.

Fixpoint str_forall (P : ascii → bool) (s : string) : bool :=
  match s with
  | EmptyString => true
  | String c s' => P c && str_forall P s'
  end.

Fixpoint str_map (f : ascii → ascii) (s : string) : string :=
  match s with
  | EmptyString => EmptyString
  | String c s' => String (f c) (str_map f s')
  end.

Definition char_of (n : nat) : ascii := Ascii.ascii_of_nat n.
Definition code_of (c : ascii) : nat := Ascii.nat_of_ascii c.
Definition nl : ascii := char_of 10.

(** [std::to_string] of an [int]. *)
Definition to_string (z : Z) : string := pretty z.

(** ** Total-correctness triples

    [triple P m Q E]: from every world in [P], [m] has no undefined behaviour;
    if it returns [a] the result and world are in [Q], and if it throws they
    are in [E]. Since [m] is a function, this is total correctness.
    [triple_upto U] allows undefined behaviour in the worlds of [U]. *)
Definition triple_upto {W A} (U : W → Prop) (P : W → Prop) (m : M W A)
    (Q : A → W → Prop) (E : string → W → Prop) : Prop :=
  ∀ w, P w →
    match m w with
    | (Ok a, w') => Q a w'
    | (Throw e, w') => E e w'
    | (Undefined _, w') => U w'
    end.

Abbreviation triple := (triple_upto (λ _, False)).

Notation "{{ P } } m {{ Q | E } }" := (triple P m Q E)
  (at level 0, P, m, Q, E at level 200, format "{{  P  } }  m  {{  Q  |  E  } }") : cf_scope.

(** ** Lemmas on strings *)
#[local] Arguments String.append !_ _ /.

Lemma str_app_nil_r (s : string) : s +:+ "" = s.
Proof. induction s as [|c s IH]; cbn; [done|by rewrite IH]. Qed.

Lemma str_app_assoc (a b c : string) : (a +:+ b) +:+ c = a +:+ (b +:+ c).
Proof. induction a as [|x a IH]; cbn; [done|by rewrite IH]. Qed.

Lemma str_app_length (a b : string) :
  String.length (a +:+ b) = String.length a + String.length b.
Proof. induction a as [|x a IH]; cbn; [done|by rewrite IH]. Qed.

Lemma str_app_cons c a b : String c a +:+ b = String c (a +:+ b).
Proof. done. Qed.

Lemma str_app_inj_l (a b c : string) : a +:+ b = a +:+ c → b = c.
Proof. induction a as [|x a IH]; cbn; [done|intros [= ?]; auto]. Qed.

Lemma str_app_eq_nil (a b : string) : a +:+ b = "" ↔ a = "" ∧ b = "".
Proof.
  destruct a; cbn; split; intros H; try done; [by destruct H|by destruct H].
Qed.

Lemma str_take_drop n s : str_take n s +:+ str_drop n s = s.
Proof.
  revert n. induction s as [|c s IH]; intros [|n]; cbn; try done. by rewrite IH.
Qed.

Lemma str_take_app a b : str_take (String.length a) (a +:+ b) = a.
Proof. induction a as [|c a IH]; cbn; [by destruct b|f_equal; apply IH]. Qed.

Lemma str_drop_app a b : str_drop (String.length a) (a +:+ b) = b.
Proof. by induction a as [|c a IH]. Qed.

Lemma str_take_all n s : String.length s ≤ n → str_take n s = s.
Proof.
  revert n. induction s as [|c s IH]; intros [|n]; cbn; intros H; try done; [lia|].
  rewrite IH; [done|lia].
Qed.

Lemma str_take_length n s : String.length (str_take n s) = min n (String.length s).
Proof.
  revert n. induction s as [|c s IH]; intros [|n]; cbn; try done. by rewrite IH.
Qed.

Lemma str_drop_length n s : String.length (str_drop n s) = String.length s - n.
Proof. revert n. induction s as [|c s IH]; intros [|n]; cbn; auto. Qed.

Lemma str_empty_true s : str_empty s = true ↔ s = "".
Proof. by destruct s. Qed.

Lemma str_empty_false s : str_empty s = false ↔ s ≠ "".
Proof. by destruct s. Qed.

Lemma str_prefix_spec p s : String.prefix p s = true ↔ ∃ t, s = p +:+ t.
Proof.
  revert s. induction p as [|c p IH]; intros [|d s]; cbn.
  - naive_solver.
  - naive_solver.
  - split; [done|]. by intros [t Ht].
  - destruct (ascii_dec c d) as [->|Hne].
    + rewrite IH. split; intros [t Ht]; exists t; congruence.
    + split; [done|]. intros [t Ht]. congruence.
Qed.

(** The offset [str_find] returns is an occurrence, and the first one. *)
Lemma str_find_Some p s i :
  str_find p s = Some i →
  (∃ b, s = str_take i s +:+ p +:+ b) ∧ i + String.length p ≤ String.length s.
Proof.
  revert i. induction s as [|c s IH]; intros i; cbn -[String.prefix].
  - destruct (String.prefix p "") eqn:Hp; [|done]. intros [= <-].
    apply str_prefix_spec in Hp as [t Ht].
    symmetry in Ht. apply str_app_eq_nil in Ht as [-> ->]. cbn. eauto.
  - destruct (String.prefix p (String c s)) eqn:Hp.
    + intros [= <-]. apply str_prefix_spec in Hp as [t Ht].
      assert (Hl := f_equal String.length Ht). rewrite str_app_length in Hl.
      cbn in Hl |- *. split; [eauto|lia].
    + intros (j & Hj & ->)%fmap_Some. destruct (IH _ Hj) as [[b Hb] Hlen].
      cbn. split; [|lia]. exists b. congruence.
Qed.

Lemma str_find_None p s : str_find p s = None → ∀ a b, s ≠ a +:+ p +:+ b.
Proof.
  induction s as [|c s IH]; cbn -[String.prefix].
  - destruct (String.prefix p "") eqn:Hp; [done|]. intros _ a b Hab.
    symmetry in Hab. apply str_app_eq_nil in Hab as [-> [-> ->]%str_app_eq_nil]. done.
  - destruct (String.prefix p (String c s)) eqn:Hp; [done|].
    intros Hf%fmap_None a b Hab. destruct a as [|d a]; cbn in Hab.
    + assert (String.prefix p (String c s) = true); [|congruence].
      apply str_prefix_spec. eauto.
    + simplify_eq. by eapply IH.
Qed.

Lemma str_find_is_Some p s : is_Some (str_find p s) ↔ ∃ a b, s = a +:+ p +:+ b.
Proof.
  split.
  - intros [i [[b Hb] _]%str_find_Some]. eauto.
  - intros (a & b & Hab). destruct (str_find p s) as [i|] eqn:Hf; [eauto|].
    by destruct (str_find_None _ _ Hf a b).
Qed.

Lemma has_char_app c a b : has_char c (a +:+ b) = has_char c a || has_char c b.
Proof. induction a as [|d a IH]; cbn; [done|by rewrite IH, orb_assoc]. Qed.

Lemma has_char_spec c s : has_char c s = true ↔ ∃ a b, s = a +:+ String c b.
Proof.
  induction s as [|d s IH]; cbn.
  - split; [done|]. intros ([|??] & b & ?); done.
  - rewrite orb_true_iff, bool_decide_eq_true, IH. split.
    + intros [->|(a & b & ->)]; [by exists "", s|by exists (String d a), b].
    + intros ([|e a] & b & Heq); cbn in Heq; simplify_eq; eauto.
Qed.

Lemma str_find_char c a b :
  has_char c a = false → str_find (String c "") (a +:+ String c b) = Some (String.length a).
Proof.
  assert (Hp : ∀ d r, String.prefix (String c "") (String d r) = bool_decide (c = d)).
  { intros d r. cbn. destruct (ascii_dec c d) as [->|Hne].
    - rewrite bool_decide_true by done. by destruct r.
    - by rewrite bool_decide_false. }
  induction a as [|d a IH]; cbn -[String.prefix].
  - intros _. by rewrite Hp, bool_decide_true.
  - rewrite Hp. intros [-> Ha]%orb_false_iff. by rewrite IH.
Qed.

Lemma str_find_char_None c s : str_find (String c "") s = None ↔ has_char c s = false.
Proof.
  rewrite <-not_true_iff_false, has_char_spec, eq_None_not_Some, str_find_is_Some. done.
Qed.

Lemma str_forall_app P a b : str_forall P (a +:+ b) = str_forall P a && str_forall P b.
Proof. induction a as [|d a IH]; cbn; [done|by rewrite IH, andb_assoc]. Qed.

Lemma str_forall_has_char P s c :
  str_forall P s = true → has_char c s = true → P c = true.
Proof.
  induction s as [|d s IH]; cbn; [done|].
  rewrite andb_true_iff, orb_true_iff, bool_decide_eq_true.
  intros [??] [->|?]; auto.
Qed.

Lemma str_forall_spec P s :
  str_forall P s = true ↔ ∀ c, has_char c s = true → P c = true.
Proof.
  split; [eauto using str_forall_has_char|].
  induction s as [|d s IH]; cbn; [done|]. intros H. apply andb_true_iff. split.
  - apply H. by rewrite bool_decide_true.
  - apply IH. intros c Hc. apply H. by rewrite Hc, orb_true_r.
Qed.

Lemma str_map_length f s : String.length (str_map f s) = String.length s.
Proof. induction s as [|c s IH]; cbn; [done|by rewrite IH]. Qed.

Lemma str_map_app f a b : str_map f (a +:+ b) = str_map f a +:+ str_map f b.
Proof. induction a as [|c a IH]; cbn; [done|by rewrite IH]. Qed.

Lemma str_substr_ok pos s r :
  str_substr pos s = Ok r ↔ pos ≤ String.length s ∧ r = str_drop pos s.
Proof. unfold str_substr. case_decide; naive_solver. Qed.

Lemma str_join_cons sep x l :
  l ≠ [] → str_join sep (x :: l) = x +:+ sep +:+ str_join sep l.
Proof. by destruct l. Qed.

Lemma str_join_app sep l1 l2 :
  l1 ≠ [] → l2 ≠ [] →
  str_join sep (l1 ++ l2) = str_join sep l1 +:+ sep +:+ str_join sep l2.
Proof.
  intros H1 H2. induction l1 as [|x l1 IH]; [done|]. rewrite <-app_comm_cons.
  destruct (decide (l1 = [])) as [->|Hne].
  - by rewrite str_join_cons.
  - rewrite !str_join_cons, IH, !str_app_assoc; [done..|].
    intros [-> _]%app_eq_nil. done.
Qed.

Lemma str_join_nil_app l1 l2 : str_join "" (l1 ++ l2) = str_join "" l1 +:+ str_join "" l2.
Proof.
  destruct l1 as [|x l1]; [done|]. destruct l2 as [|y l2]; [by rewrite app_nil_r, str_app_nil_r|].
  by rewrite str_join_app.
Qed.

Create Rewrite HintDb strings.
Create HintDb triples.
#[export] Hint Rewrite str_app_nil_r str_app_assoc str_app_length
  str_map_length str_map_app has_char_app str_forall_app : strings.

(** ** Rules for triples *)
Section triples.
Context {W : Type} {U : W → Prop}.
Implicit Types (P : W → Prop).

Lemma triple_weaken {A} P P' (m : M W A) Q Q' E E' :
  triple_upto U P' m Q' E' → (∀ w, P w → P' w) →
  (∀ a w, Q' a w → Q a w) → (∀ e w, E' e w → E e w) → triple_upto U P m Q E.
Proof.
  intros Hm HP HQ HE w Hw. specialize (Hm w (HP w Hw)).
  destruct (m w) as [[a|e|u] w']; eauto.
Qed.

Lemma triple_ret {A} P (a : A) Q E :
  (∀ w, P w → Q a w) → triple_upto U P (mret a) Q E.
Proof. intros H w Hw. cbn. auto. Qed.

Lemma triple_throw {A} P e (Q : A → W → Prop) E :
  (∀ w, P w → E e w) → triple_upto U P (throw e) Q E.
Proof. intros H w Hw. cbn. auto. Qed.

Lemma triple_bind {A B} P (m : M W A) (k : A → M W B) R Q E :
  triple_upto U P m R E → (∀ a, triple_upto U (R a) (k a) Q E) → triple_upto U P (m ≫= k) Q E.
Proof.
  intros Hm Hk w Hw. specialize (Hm w Hw). unfold mbind, M_bind.
  destruct (m w) as [[a|e|u] w']; [by apply Hk|done|done].
Qed.

Lemma triple_gets {A} P (f : W → A) Q E :
  (∀ w, P w → Q (f w) w) → triple_upto U P (gets f) Q E.
Proof. intros H w Hw. cbn. auto. Qed.

Lemma triple_modify P (f : W → W) Q E :
  (∀ w, P w → Q tt (f w)) → triple_upto U P (modify f) Q E.
Proof. intros H w Hw. cbn. auto. Qed.

Lemma triple_lift {A} P (o : outcome A) Q E :
  (∀ w, P w → match o with
              | Ok a => Q a w | Throw e => E e w | Undefined _ => U w end) →
  triple_upto U P (lift o) Q E.
Proof. intros H w Hw. specialize (H w Hw). unfold lift. by destruct o. Qed.

Lemma triple_catch {A} P (m : M W A) h Q E E' :
  triple_upto U P m Q E' → (∀ e, triple_upto U (E' e) (h e) Q E) → triple_upto U P (try_catch m h) Q E.
Proof.
  intros Hm Hh w Hw. specialize (Hm w Hw). unfold try_catch.
  destruct (m w) as [[a|e|u] w']; [done|by apply Hh|done].
Qed.

(** The rule for a loop with [break]: [I] holds before each iteration, and
    what the body establishes on [break] is the loop's postcondition. *)
Lemma triple_for_each {A S} (I : S → list A → W → Prop) (body : S → A → M W (ctl S))
    (Q : S → W → Prop) E l s :
  (∀ s a l', triple_upto U (I s (a :: l')) (body s a)
     (λ c w, match c with Next s' => I s' l' w | Break s' => Q s' w end) E) →
  (∀ s w, I s [] w → Q s w) →
  triple_upto U (I s l) (for_each body s l) Q E.
Proof.
  intros Hbody Hend. revert s. induction l as [|a l IH]; intros s; cbn.
  - apply triple_ret, Hend.
  - eapply triple_bind; [apply Hbody|]. intros [s'|s'].
    + apply IH.
    + apply triple_ret. auto.
Qed.

Lemma triple_if {A} (b : bool) P (m1 m2 : M W A) Q E :
  (b = true → triple_upto U P m1 Q E) → (b = false → triple_upto U P m2 Q E) →
  triple_upto U P (if b then m1 else m2) Q E.
Proof. destruct b; auto. Qed.

End triples.

#[export] Hint Resolve triple_ret triple_gets triple_modify triple_throw : triples.

(** [for_each] unfolds one element at a time. *)
Lemma for_each_nil {W A S} (body : S → A → M W (ctl S)) s :
  for_each body s [] = mret s.
Proof. done. Qed.

Lemma for_each_cons {W A S} (body : S → A → M W (ctl S)) s a l :
  for_each body s (a :: l) =
  body s a ≫= λ c, match c with Next s' => for_each body s' l | Break s' => mret s' end.
Proof. done. Qed.

(** [bind_ok] inverts a successful sequence. *)
Lemma M_bind_ext {W A B} (m : M W A) (k k' : A → M W B) w :
  (∀ a w', k a w' = k' a w') → (m ≫= k) w = (m ≫= k') w.
Proof. intros Hk. unfold mbind, M_bind. by destruct (m w) as [[a|e|e] w']. Qed.

Lemma M_bind_unit {W} (m : M W unit) w : (m ≫= λ _, mret tt) w = m w.
Proof. unfold mbind, M_bind. by destruct (m w) as [[[]|e|e] w']. Qed.

Lemma bind_ok {W A B} (m : M W A) (k : A → M W B) w b w' :
  (m ≫= k) w = (Ok b, w') ↔ ∃ a w1, m w = (Ok a, w1) ∧ k a w1 = (Ok b, w').
Proof.
  unfold mbind, M_bind. split.
  - destruct (m w) as [[a|e|u] w1]; intros H; [eauto|done|done].
  - by intros (a & w1 & -> & ->).
Qed.

Lemma fmap_ok {W A B} (f : A → B) (m : M W A) w b w' :
  (f <$> m) w = (Ok b, w') ↔ ∃ a, m w = (Ok a, w') ∧ b = f a.
Proof.
  split.
  - intros (a & w1 & Hm & [= <- <-])%bind_ok. eauto.
  - intros (a & Hm & ->). apply bind_ok. by exists a, w'.
Qed.

(** Case analysis on the outcome of every computation in the context. *)
Ltac destruct_run :=
  match goal with
  | |- context [match ?m ?w with pair _ _ => _ end] =>
    let a := fresh "a" in let w' := fresh "w" in
    destruct (m w) as [[a|a|a] w'] eqn:?
  | H : context [match ?m ?w with pair _ _ => _ end] |- _ =>
    let a := fresh "a" in let w' := fresh "w" in
    destruct (m w) as [[a|a|a] w'] eqn:?
  end.
