(* ===== verification/StrUtil.v ===== *)
(** * String utilities of [class Util] and the daemon

    [common/util.hpp] keeps the string routines every other part calls:
    [split_string] (a [std::getline] loop), [ltrim], [rtrim],
    [remove_trailing_dot_and_newline], [get_base_dn], [clearString];
    [daemon/src/daemon.cpp] adds [parse_cred_file_path] and
    [api/src/gmsa_service.cpp] adds [secureClearString] and the hexadecimal
    [generate_lease_id]. *)
From S2P Require Import Prelude.
From stdpp Require Import options.

(** ** Characters *)
Definition isspace (c : ascii) : bool :=
  let n := code_of c in bool_decide (n = 32 ∨ (9 ≤ n ∧ n ≤ 13)).

Definition toupper (c : ascii) : ascii :=
  let n := code_of c in
  if decide (97 ≤ n ∧ n ≤ 122) then char_of (n - 32) else c.

(** [std::transform( s.begin(), s.end(), s.begin(), toupper )] *)
Definition transform_toupper (s : string) : string := str_map toupper s.

(** ** Streams: std::getline *)

(** [break_at d s] is the text before the first [d] and, when there is one,
    the text after it. *)
Fixpoint break_at (d : ascii) (s : string) : string * option string :=
  match s with
  | EmptyString => (EmptyString, None)
  | String c s' =>
    if decide (c = d) then (EmptyString, Some s')
    else let '(t, r) := break_at d s' in (String c t, r)
  end.

(** [std::getline( stream, token, d )] on a stream that still holds [s]: the
    token and what the stream holds afterwards; [None] when nothing can be
    extracted (end of file), which is when the stream tests false. *)
Definition getline (d : ascii) (s : string) : option (string * string) :=
  match s with
  | EmptyString => None
  | _ => let '(t, r) := break_at d s in Some (t, default EmptyString r)
  end.

(** [while ( std::getline( stream, token, d ) ) results.push_back( token );] *)
Fixpoint getlines (fuel : nat) (d : ascii) (s : string) : list string :=
  match fuel with
  | O => []
  | S fuel' =>
    match getline d s with
    | None => []
    | Some (t, r) => t :: getlines fuel' d r
    end
  end.

Definition equals_sign : ascii := "="%char.

(** [Util::split_string]: for the delimiter ['='] only the first one splits,
    and the rest of the input is read line by line. *)
Definition split_string (input_string : string) (delimiter : ascii) : list string :=
  if decide (delimiter = equals_sign) then
    match getline delimiter input_string with
    | None => []
    | Some (token, rest) => token :: getlines (String.length rest) nl rest
    end
  else getlines (String.length input_string) delimiter input_string.

(** ** Trimming *)
Fixpoint ltrim (s : string) : string :=
  match s with
  | String c s' => if isspace c then ltrim s' else s
  | EmptyString => EmptyString
  end.

Fixpoint rtrim (s : string) : string :=
  match s with
  | EmptyString => EmptyString
  | String c s' =>
    let r := rtrim s' in
    if str_empty r && isspace c then EmptyString else String c r
  end.

(** [s.back()]: undefined on an empty string. *)
Fixpoint last_char (s : string) : option ascii :=
  match s with
  | EmptyString => None
  | String c EmptyString => Some c
  | String _ s' => last_char s'
  end.
Definition str_back (s : string) : outcome ascii :=
  match last_char s with Some c => Ok c | None => Undefined "back() of an empty string" end.

(** [s.pop_back()]: undefined on an empty string. *)
Definition str_pop_back (s : string) : outcome string :=
  match s with
  | EmptyString => Undefined "pop_back() of an empty string"
  | _ => Ok (str_take (String.length s - 1) s)
  end.

Definition dot : ascii := "."%char.
Definition cr : ascii := char_of 13.

Definition remove_trailing_dot_and_newline (arg : string) : outcome string :=
  b ← str_back arg;
  arg ← (if decide (b = nl ∨ b = cr) then str_pop_back arg else mret arg);
  b ← str_back arg;
  if decide (b = dot) then str_pop_back arg else mret arg.

(** ** Distinguished names *)

(** The loop of [get_base_dn]: [base_dn += "DC=" + result + ","]. *)
Fixpoint base_dn_loop (base_dn : string) (results : list string) : string :=
  match results with
  | [] => base_dn
  | result :: rest => base_dn_loop (base_dn +:+ "DC=" +:+ result +:+ ",") rest
  end.

Definition get_base_dn (domain_name : string) : outcome (Z * string) :=
  if negb (str_empty domain_name) then
    base_dn ← str_pop_back (base_dn_loop "" (split_string domain_name dot));
    Ok (0%Z, base_dn)
  else Ok ((-1)%Z, "").

(** ** Credential file argument *)
Definition EXIT_SUCCESS : Z := 0.
Definition EXIT_FAILURE : Z := 1.
Definition DEFAULT_CRED_FILE_LEASE_ID : string := "credspec".
Definition colon : ascii := ":"%char.

(** [parse_cred_file_path] returns its code and, through its two reference
    parameters, the file and the lease id. *)
Definition parse_cred_file_path (cred_file_path cred_file cred_file_lease_id : string)
    : Z * string * string :=
  if str_empty cred_file_path then (EXIT_FAILURE, cred_file, cred_file_lease_id)
  else
    match str_find (String colon EmptyString) cred_file_path with
    | None => (EXIT_SUCCESS, cred_file_path, DEFAULT_CRED_FILE_LEASE_ID)
    | Some colon_delim_pos =>
      (EXIT_SUCCESS, str_take colon_delim_pos cred_file_path,
       str_drop (colon_delim_pos + 1) cred_file_path)
    end.

(** ** Wiping secrets *)

(** A [std::string] variable and the bytes its buffer holds. *)
Record str_var := StrVar { sv_value : string; sv_buffer : string }.

Definition nul : ascii := char_of 0.

(** [c_str()]: the characters before the first NUL. *)
Definition c_str (s : string) : string := (break_at nul s).1.

(** [OPENSSL_cleanse( &str[0], str.size() )] then [str.clear()]. *)
Definition secureClearString (str : str_var) : str_var :=
  let buf :=
    if negb (str_empty (sv_value str))
    then str_map (λ _, nul) (str_take (String.length (sv_value str)) (sv_buffer str))
         +:+ str_drop (String.length (sv_value str)) (sv_buffer str)
    else sv_buffer str in
  StrVar EmptyString buf.

Definition str_new (s : string) : str_var := StrVar s s.

(** ** Lease ids *)
Definition LEASE_ID_LENGTH : nat := 10.

Definition hex_char (n : nat) : ascii :=
  if decide (n < 10) then char_of (48 + n) else char_of (87 + n).

(** [hexstream << std::hex << int( rc )] for a byte [rc]: no leading zero. *)
Definition hex_of_byte (rc : nat) : string :=
  if decide (rc < 16) then String (hex_char rc) EmptyString
  else String (hex_char (rc / 16)) (String (hex_char (rc mod 16)) EmptyString).

(** One turn of the loop: [lease_id << ( hex.length() < 2 ? '0' + hex : hex )]. *)
Definition lease_id_digits (rc : nat) : string :=
  let hex := hex_of_byte rc in
  if decide (String.length hex < 2) then String "0"%char hex else hex.

(** [generate_lease_id], from the bytes the random device delivers. *)
Definition lease_id_of_bytes (bytes : list nat) : string :=
  str_concat (lease_id_digits <$> bytes).

(** ** Lemmas on streams *)
#[local] Arguments String.append !_ _ /.

Lemma c_str_length s : String.length (c_str s) ≤ String.length s.
Proof.
  unfold c_str. induction s as [|c s IH]; cbn; [done|].
  destruct (break_at nul s) as [t r]. case_match; simplify_eq; cbn in *; lia.
Qed.

Lemma break_at_spec d s :
  match break_at d s with
  | (t, None) => s = t ∧ has_char d t = false
  | (t, Some r) => s = t +:+ String d r ∧ has_char d t = false
  end.
Proof.
  induction s as [|c s IH]; cbn; [done|]. case_decide as Hc; [by subst|].
  destruct (break_at d s) as [t [r|]]; cbn in *; destruct IH as [-> IH];
    (split; [done|]); by rewrite bool_decide_false.
Qed.

Lemma break_at_app d t r :
  has_char d t = false → break_at d (t +:+ String d r) = (t, Some r).
Proof.
  induction t as [|c t IH]; cbn.
  - by rewrite decide_True.
  - intros [Hc Ht]%orb_false_iff. apply bool_decide_eq_false in Hc.
    by rewrite decide_False, IH by done.
Qed.

Lemma break_at_none d t : has_char d t = false → break_at d t = (t, None).
Proof.
  induction t as [|c t IH]; cbn; [done|].
  intros [Hc Ht]%orb_false_iff. apply bool_decide_eq_false in Hc.
  by rewrite decide_False, IH by done.
Qed.

Lemma getline_none d s : getline d s = None ↔ s = "".
Proof.
  unfold getline. destruct s as [|c s]; [done|].
  destruct (break_at d (String c s)). split; [done|by intros].
Qed.

Lemma getline_spec d s t r :
  getline d s = Some (t, r) →
  has_char d t = false ∧ String.length r < String.length s ∧
  (s = t ∧ r = "" ∧ t ≠ "" ∨ s = t +:+ String d r).
Proof.
  unfold getline. destruct s as [|c s]; [done|].
  generalize (break_at_spec d (String c s)). set (s0 := String c s).
  assert (Hs0 : s0 ≠ "") by done. clearbody s0. clear c s.
  destruct (break_at d s0) as [t' [r'|]]; intros [Heq Hno] [= <- <-]; subst s0; cbn.
  - split; [done|]. split; [rewrite str_app_length; cbn; lia|by right].
  - split; [done|]. split; [destruct t'; cbn; [done|lia]|by left].
Qed.

(** More fuel than the length of the stream never changes the result, so the
    fuel [split_string] uses is enough. *)
Lemma getlines_fuel d s n m :
  String.length s ≤ n → String.length s ≤ m → getlines n d s = getlines m d s.
Proof.
  revert s m. induction n as [|n IH]; intros s m Hn Hm.
  - destruct s; [|cbn in Hn; lia]. by destruct m.
  - destruct m as [|m]; [destruct s; [done|cbn in Hm; lia]|]. cbn.
    destruct (getline d s) as [[t r]|] eqn:Hg; [|done].
    apply getline_spec in Hg as (_ & Hlt & _). f_equal. apply IH; lia.
Qed.

(** The tokens of a stream contain no delimiter, and joining them gives back
    the stream, up to one final delimiter. *)
Lemma getlines_spec d n s :
  String.length s ≤ n →
  let toks := getlines n d s in
  Forall (λ t, has_char d t = false) toks ∧
  (s = str_join (String d "") toks ∨
   toks ≠ [] ∧ s = str_join (String d "") toks +:+ String d "").
Proof.
  revert s. induction n as [|n IH]; intros s Hn; cbn.
  - destruct s; [|cbn in Hn; lia]. split; [constructor|by left].
  - destruct (getline d s) as [[t r]|] eqn:Hg.
    + apply getline_spec in Hg as (Hno & Hlt & Hcase).
      destruct (IH r ltac:(lia)) as [Hall Hjoin]. split; [by constructor|].
      destruct Hcase as [(-> & -> & Hne)|Hs].
      { destruct n; cbn; by left. }
      destruct (decide (getlines n d r = [])) as [Hnil|Hne].
      * rewrite Hnil in Hjoin |- *. destruct Hjoin as [->|[? _]]; [|done]. right.
        split; [done|]. by rewrite Hs.
      * rewrite str_join_cons by done. destruct Hjoin as [Hr|[_ Hr]].
        { left. rewrite Hs, Hr at 1. done. }
        right. split; [done|]. rewrite Hs, Hr at 1. by rewrite !str_app_assoc.
    + apply getline_none in Hg as ->. split; [constructor|by left].
Qed.

Lemma getline_app d t r :
  has_char d t = false → getline d (t +:+ String d "" +:+ r) = Some (t, r).
Proof.
  intros Ht. change (String d "" +:+ r) with (String d r). unfold getline.
  destruct (t +:+ String d r) eqn:Heq; [by destruct t|].
  by rewrite <-Heq, break_at_app.
Qed.

Lemma getlines_join d n toks :
  Forall (λ t, has_char d t = false) toks →
  (∀ t, last toks = Some t → t ≠ "") →
  String.length (str_join (String d "") toks) ≤ n →
  getlines n d (str_join (String d "") toks) = toks.
Proof.
  revert n. induction toks as [|t toks IH]; intros n Hall Hlast Hn.
  { by destruct n. }
  apply Forall_cons in Hall as [Ht Hall].
  destruct (decide (toks = [])) as [->|Hne].
  - cbn in *. assert (t ≠ "") as Hne by (by apply Hlast).
    destruct n as [|n]; [destruct t; [done|cbn in Hn; lia]|].
    cbn. unfold getline. rewrite break_at_none by done.
    destruct t; [done|]. cbn. by destruct n.
  - rewrite str_join_cons in Hn by done. rewrite str_join_cons by done.
    rewrite !str_app_length in Hn.
    destruct n as [|n]; [cbn in Hn; lia|]. cbn [getlines].
    rewrite getline_app by done. f_equal. apply IH; [done| |cbn in Hn; lia].
    intros t' Ht'. apply Hlast. by destruct toks.
Qed.

Lemma split_string_eq s d :
  d ≠ equals_sign → split_string s d = getlines (String.length s) d s.
Proof. intros H. unfold split_string. by rewrite decide_False. Qed.

Lemma split_string_nonempty s d :
  s ≠ "" → split_string s d ≠ [].
Proof.
  intros Hs. unfold split_string. destruct s as [|c s]; [done|].
  case_decide.
  - unfold getline. by destruct (break_at d (String c s)).
  - cbn [String.length getlines]. unfold getline.
    by destruct (break_at d (String c s)).
Qed.

Lemma split_string_tokens s d :
  d ≠ equals_sign → Forall (λ t, has_char d t = false) (split_string s d).
Proof. intros H. rewrite split_string_eq by done. by apply getlines_spec. Qed.

(** A character the text lacks is in none of its tokens. *)
Lemma split_string_chars s d c :
  d ≠ equals_sign → has_char c s = false → Forall (λ t, has_char c t = false) (split_string s d).
Proof.
  intros Hd. rewrite split_string_eq by done. generalize (String.length s) as n.
  intros n. revert s. induction n as [|n IH]; intros s Hs; cbn [getlines]; [constructor|].
  unfold getline. destruct s as [|a s]; [constructor|].
  pose proof (break_at_spec d (String a s)) as Hb. destruct (break_at d (String a s)) as [t [r|]].
  - destruct Hb as [Heq _]. rewrite Heq, has_char_app in Hs. apply orb_false_iff in Hs as [Ht Hr].
    constructor; [done|]. apply IH. cbn in Hr. by apply orb_false_iff in Hr as [_ ?].
  - destruct Hb as [Heq _]. constructor; [by rewrite <-Heq|]. destruct n; constructor.
Qed.

(** ** Trimming *)
Lemma rtrim_spec s :
  ∃ ws, s = rtrim s +:+ ws ∧ str_forall isspace ws = true ∧
        (rtrim s = "" ∨ ∃ c, last_char (rtrim s) = Some c ∧ isspace c = false).
Proof.
  induction s as [|c s (ws & Hs & Hws & Hlast)]; cbn.
  { exists "". auto. }
  destruct (str_empty (rtrim s)) eqn:He; cbn.
  - apply str_empty_true in He. rewrite He in Hs. cbn in Hs. subst ws.
    destruct (isspace c) eqn:Hc.
    + exists (String c s). cbn. rewrite Hc, Hws. auto.
    + exists s. rewrite He. cbn. split; [done|]. split; [done|]. right. eauto.
  - apply str_empty_false in He. exists ws. split; [by rewrite Hs at 1|].
    split; [done|]. right. destruct Hlast as [Hl|(d & Hd & Hsp)]; [done|].
    exists d. split; [|done]. cbn. by destruct (rtrim s).
Qed.

Lemma ltrim_spec s :
  ∃ ws, s = ws +:+ ltrim s ∧ str_forall isspace ws = true ∧
        (∀ c r, ltrim s = String c r → isspace c = false).
Proof.
  induction s as [|c s (ws & Hs & Hws & Hhd)]; cbn.
  { exists "". by split_and!. }
  destruct (isspace c) eqn:Hc.
  - exists (String c ws). cbn. rewrite Hc, Hws. split_and!; [congruence|done|done].
  - exists "". cbn. split_and!; [done|done|]. intros ?? [= <- <-]. done.
Qed.

(** ** Base distinguished name *)
Lemma base_dn_loop_eq acc l :
  base_dn_loop acc l = acc +:+ str_concat ((λ r, "DC=" +:+ r +:+ ",") <$> l).
Proof.
  revert acc. induction l as [|x l IH]; intros acc; cbn.
  - by rewrite str_app_nil_r.
  - rewrite IH, str_app_assoc. cbn. by rewrite str_app_assoc.
Qed.

Lemma concat_comma_join (f : string → string) l :
  l ≠ [] →
  str_concat ((λ r, f r +:+ ",") <$> l) = str_join "," (f <$> l) +:+ ",".
Proof.
  induction l as [|x l IH]; [done|]. intros _. destruct (decide (l = [])) as [->|Hne].
  - cbn. by rewrite str_app_nil_r.
  - rewrite !fmap_cons, str_join_cons by (by intros ?%fmap_nil_inv). cbn [str_concat].
    by rewrite IH, !str_app_assoc.
Qed.

Lemma str_pop_back_snoc s c : str_pop_back (s +:+ String c "") = Ok s.
Proof.
  unfold str_pop_back. destruct (s +:+ String c "") eqn:Heq; [by destruct s|].
  rewrite <-Heq, str_app_length. cbn. rewrite Nat.add_sub, str_take_app. done.
Qed.

Lemma get_base_dn_eq d :
  get_base_dn d =
  Ok (if str_empty d then ((-1)%Z, "")
      else (0%Z, str_join "," ((λ r, "DC=" +:+ r) <$> split_string d dot))).
Proof.
  unfold get_base_dn. destruct (str_empty d) eqn:Hd; cbn [negb]; [done|].
  apply str_empty_false in Hd. rewrite base_dn_loop_eq. cbn [String.append].
  assert (∀ l : list string, ((λ r, "DC=" +:+ r +:+ ",") <$> l)
    = ((λ r, ("DC=" +:+ r) +:+ ",") <$> l)) as ->.
  { intros l. apply list_fmap_ext. intros i x _. by rewrite str_app_assoc. }
  rewrite (concat_comma_join (λ r, "DC=" +:+ r)) by (by apply split_string_nonempty).
  change "," with (String ","%char "") at 3. by rewrite str_pop_back_snoc.
Qed.

(** ** Hexadecimal digits *)
Definition is_hex_digit (c : ascii) : bool :=
  let n := code_of c in bool_decide ((48 ≤ n ∧ n ≤ 57) ∨ (97 ≤ n ∧ n ≤ 102)).

(** The byte two hexadecimal digits stand for: the inverse of [lease_id_digits]. *)
Definition hex_value (c : ascii) : nat :=
  let n := code_of c in if decide (n < 58) then n - 48 else n - 87.
Fixpoint bytes_of_lease_id (s : string) : list nat :=
  match s with
  | String a (String b s') => 16 * hex_value a + hex_value b :: bytes_of_lease_id s'
  | _ => []
  end.

Lemma below_256 (P : nat → bool) n :
  forallb P (seq 0 256) = true → n < 256 → P n = true.
Proof.
  intros H Hn. rewrite forallb_forall in H. apply H, in_seq. lia.
Qed.

Lemma lease_id_digits_ok n :
  n < 256 →
  String.length (lease_id_digits n) = 2 ∧
  str_forall is_hex_digit (lease_id_digits n) = true ∧
  bytes_of_lease_id (lease_id_digits n) = [n].
Proof.
  intros Hn. apply (below_256 (λ n, bool_decide (
    String.length (lease_id_digits n) = 2 ∧
    str_forall is_hex_digit (lease_id_digits n) = true ∧
    bytes_of_lease_id (lease_id_digits n) = [n]))) in Hn; [|by vm_compute].
  by apply bool_decide_eq_true in Hn.
Qed.

Lemma lease_id_digits_shape n :
  n < 256 → ∃ a b, lease_id_digits n = String a (String b "") ∧
                   16 * hex_value a + hex_value b = n.
Proof.
  intros (Hlen & _ & Hval)%lease_id_digits_ok.
  destruct (lease_id_digits n) as [|a [|b [|]]]; try discriminate Hlen.
  cbn [bytes_of_lease_id] in Hval. exists a, b. split; [done|congruence].
Qed.

Lemma bytes_of_lease_id_of_bytes l :
  Forall (λ n, n < 256) l → bytes_of_lease_id (lease_id_of_bytes l) = l.
Proof.
  unfold lease_id_of_bytes. induction 1 as [|n l Hn _ IH]; [done|].
  destruct (lease_id_digits_shape n Hn) as (a & b & Hd & Hv).
  cbn [fmap list_fmap str_concat]. rewrite Hd.
  cbn [String.append bytes_of_lease_id]. by rewrite Hv, IH.
Qed.

Lemma lease_id_of_bytes_length l :
  Forall (λ n, n < 256) l → String.length (lease_id_of_bytes l) = 2 * length l.
Proof.
  unfold lease_id_of_bytes. induction 1 as [|n l Hn _ IH]; [done|].
  cbn [fmap list_fmap str_concat]. rewrite str_app_length, IH.
  destruct (lease_id_digits_ok n Hn) as [-> _]. cbn. lia.
Qed.

Lemma lease_id_of_bytes_hex l :
  Forall (λ n, n < 256) l → str_forall is_hex_digit (lease_id_of_bytes l) = true.
Proof.
  unfold lease_id_of_bytes. induction 1 as [|n l Hn _ IH]; [done|].
  cbn [fmap list_fmap str_concat]. rewrite str_forall_app, IH.
  by destruct (lease_id_digits_ok n Hn) as (_ & -> & _).
Qed.

(** ** Properties *)

(** C39: for every delimiter but ['='], [split_string] returns tokens free of
    the delimiter whose join is the input, up to one trailing delimiter (a
    final empty token is dropped, as [std::getline] does at end of file); and
    it inverts joining: tokens free of the delimiter whose last one is not
    empty are what splitting their join returns. *)
Theorem split_string_spec d :
  d ≠ equals_sign →
  (∀ s, let toks := split_string s d in
        Forall (λ t, has_char d t = false) toks ∧
        (s = str_join (String d "") toks ∨
         toks ≠ [] ∧ s = str_join (String d "") toks +:+ String d "")) ∧
  (∀ toks, Forall (λ t, has_char d t = false) toks →
           (∀ t, last toks = Some t → t ≠ "") →
           split_string (str_join (String d "") toks) d = toks).
Proof.
  intros Hd. split.
  - intros s toks. subst toks. rewrite split_string_eq by done. by apply getlines_spec.
  - intros toks Hall Hlast. rewrite split_string_eq by done. by apply getlines_join.
Qed.

Lemma split_string_spec_witness :
  split_string (str_join "." ["a"; ""; "com"]) dot = ["a"; ""; "com"] ∧
  dot ≠ equals_sign.
Proof.
  split; [|discriminate].
  apply (proj2 (split_string_spec dot ltac:(discriminate)) ["a"; ""; "com"]).
  - repeat constructor.
  - intros t [= <-]. discriminate.
Defined.

(** The base DN of a non-empty domain name is the comma-separated list of
    [DC=] components of its dot-separated labels; the empty name is refused
    with code -1; and the computation never reaches [pop_back] on an empty
    string. *)
Theorem get_base_dn_spec labels :
  get_base_dn "" = Ok ((-1)%Z, "") ∧
  (labels ≠ [] → Forall (λ t, has_char dot t = false) labels →
   (∀ t, last labels = Some t → t ≠ "") →
   get_base_dn (str_join "." labels)
   = Ok (0%Z, str_join "," ((λ l, "DC=" +:+ l) <$> labels))).
Proof.
  split; [done|]. intros Hne Hall Hlast. rewrite get_base_dn_eq.
  assert (Hsplit : split_string (str_join "." labels) dot = labels)
    by (rewrite split_string_eq by done; by apply getlines_join).
  destruct (str_empty (str_join "." labels)) eqn:He.
  - apply str_empty_true in He. rewrite He in Hsplit. by subst.
  - by rewrite Hsplit.
Qed.

Lemma get_base_dn_spec_witness :
  get_base_dn "contoso.com" = Ok (0%Z, "DC=contoso,DC=com").
Proof.
  refine (proj2 (get_base_dn_spec ["contoso"; "com"]) _ _ _).
  - discriminate.
  - repeat constructor.
  - intros t [= <-]. discriminate.
Defined.

(** C40: a lease id is twenty lower-case hexadecimal digits, and no two byte
    sequences give the same id: the ten random bytes can be read back. *)
Theorem lease_id_spec bytes :
  Forall (λ n, n < 256) bytes → length bytes = LEASE_ID_LENGTH →
  String.length (lease_id_of_bytes bytes) = 20 ∧
  str_forall is_hex_digit (lease_id_of_bytes bytes) = true ∧
  bytes_of_lease_id (lease_id_of_bytes bytes) = bytes.
Proof.
  intros Hall Hlen. rewrite lease_id_of_bytes_length, Hlen by done.
  by split_and!; [|apply lease_id_of_bytes_hex|apply bytes_of_lease_id_of_bytes].
Qed.

Lemma lease_id_spec_witness :
  bytes_of_lease_id (lease_id_of_bytes [0; 15; 16; 255; 1; 2; 3; 4; 5; 6])
  = [0; 15; 16; 255; 1; 2; 3; 4; 5; 6].
Proof.
  apply (lease_id_spec [0; 15; 16; 255; 1; 2; 3; 4; 5; 6]); [|done].
  repeat (constructor; [lia|]). constructor.
Defined.

(** The [CF_CRED_SPEC_FILE] argument [file:lease] is split at its first
    colon, a file without a colon gets the default lease id, and an empty
    argument is refused and leaves both outputs alone. *)
Theorem parse_cred_file_path_spec file lease f0 l0 :
  has_char colon file = false →
  parse_cred_file_path (file +:+ ":" +:+ lease) f0 l0 = (EXIT_SUCCESS, file, lease) ∧
  (file ≠ "" → parse_cred_file_path file f0 l0
               = (EXIT_SUCCESS, file, DEFAULT_CRED_FILE_LEASE_ID)) ∧
  parse_cred_file_path "" f0 l0 = (EXIT_FAILURE, f0, l0).
Proof.
  intros Hno. unfold parse_cred_file_path. split_and!; [| |done].
  - change (":" +:+ lease) with (String colon lease).
    rewrite str_find_char by done.
    assert (Hdrop : str_drop (String.length file + 1) (file +:+ String colon lease) = lease).
    { replace (String.length file + 1) with (String.length (file +:+ ":"))
        by (rewrite str_app_length; done).
      change (String colon lease) with (":" +:+ lease).
      rewrite <-str_app_assoc. apply str_drop_app. }
    rewrite Hdrop, str_take_app. by destruct (file +:+ String colon lease) eqn:He; [destruct file|].
  - intros Hne. apply str_empty_false in Hne. rewrite Hne.
    by apply str_find_char_None in Hno as ->.
Qed.

Lemma parse_cred_file_path_spec_witness :
  parse_cred_file_path "/c.json:lease:1" "" "" = (EXIT_SUCCESS, "/c.json", "lease:1").
Proof.
  exact (proj1 (parse_cred_file_path_spec "/c.json" "lease:1" "" "" eq_refl)).
Defined.
