(* ===== verification/Logger.v ===== *)
(** * The logger ([class CF_logger] of [common/daemon.h])

    A message goes to the systemd journal, to a log file that is truncated once
    it exceeds 10 MB, and to a ring buffer in memory. *)
From S2P Require Import Prelude.
From stdpp Require Import options.

(** ** Levels of syslog(3) *)
Definition LOG_EMERG : Z := 0.
Definition LOG_ERR : Z := 3.
Definition LOG_WARNING : Z := 4.
Definition LOG_NOTICE : Z := 5.
Definition LOG_INFO : Z := 6.

(** ** State *)

(** The fields of [CF_logger]; the array [log_ring_buffer] of
    [MAX_LOG_BUFFER_COUNT] strings is the map of the entries written so far. *)
Record CF_logger := mkLogger {
  log_level : Z;
  log_ring_buffer : gmap Z string;
  log_buffer_count : Z
}.

Definition logger_init : CF_logger := mkLogger LOG_EMERG ∅ 0.

(** [#define MAX_LOG_BUFFER_COUNT 80 * 1024], without parentheses: [80 * 1024]
    where it stands alone, as in the array's size ... *)
Definition get_max_log_buffer_len : Z := 80 * 1024.

(** ... but [( log_buffer_count + 1 ) % 80 * 1024] in the advance of the ring,
    where [%] and [*] have the same precedence and associate to the left. *)
Definition next_log_buffer_count (log_buffer_count : Z) : Z :=
  Z.rem (log_buffer_count + 1) 80 * 1024.

Definition set_log_level (level : Z) (l : CF_logger) : CF_logger :=
  mkLogger level (log_ring_buffer l) (log_buffer_count l).

(** What the logger writes outside the process: the journal (newest first) and
    the file [/var/credentials-fetcher/logging/credentials-fetcher.log].
    [lf_creatable] says whether [fopen( ..., "w" )] can create it. *)
Record log_sink := mkSink {
  journal : list (Z * string);
  lf_creatable : bool;
  lf_contents : option string
}.

Definition max_log_len : Z := 10 * 1024 * 1024.

Definition logst : Type := CF_logger * log_sink.

Definition set_contents (c : option string) (s : log_sink) : log_sink :=
  mkSink (journal s) (lf_creatable s) c.

(** [fopen( path, "w" )] then [fclose( fp )]: a null [fp] makes [fclose]
    undefined. *)
Definition truncate_log : M logst unit := λ '(l, s),
  if lf_creatable s then (Ok tt, (l, set_contents (Some EmptyString) s))
  else (Undefined "fclose(NULL)", (l, s)).

(** [open( path, O_RDWR )], [fstat] and the three branches on their results. *)
Definition open_log : M logst unit :=
  c ← gets (λ st : logst, lf_contents st.2);
  match c with
  | None => truncate_log
  | Some text =>
    if (Z.of_nat (String.length text) >? max_log_len)%Z then truncate_log else mret tt
  end.

(** [fprintf( fp, "%s: %s \n", time_buffer, message )] at the end of the file. *)
Definition log_entry (now message : string) : string :=
  now +:+ ": " +:+ message +:+ " " +:+ String nl "".

Definition append_log (now message : string) : M logst unit :=
  modify (λ '(l, s),
    (l, set_contents ((λ t, t +:+ log_entry now message) <$> lf_contents s) s)).

(** [log_ring_buffer[log_buffer_count] = log_buf] and the advance. *)
Definition ring_store (message : string) : M logst unit := λ '(l, s),
  let i := log_buffer_count l in
  if decide (0 ≤ i < get_max_log_buffer_len)%Z then
    (Ok tt, (mkLogger (log_level l) (<[i:=message]> (log_ring_buffer l))
               (next_log_buffer_count i), s))
  else (Undefined "log_ring_buffer index out of bounds", (l, s)).

(** [write_log]; [now] is the formatted local time. *)
Definition write_log (now message : string) : M logst unit :=
  open_log;; append_log now message;; ring_store message.

(** [logger( level, logs )]. *)
Definition logger (now : string) (level : Z) (logs : string) : M logst unit :=
  l ← gets (λ st : logst, log_level st.1);
  if (level >=? l)%Z then
    modify (λ '(l, s), (l, mkSink ((level, logs) :: journal s) (lf_creatable s) (lf_contents s)));;
    write_log now logs
  else mret tt.

(** ** Reachable positions of the ring *)

(** The index of the ring after some number of messages. *)
Inductive ring_reachable : Z → Prop :=
| ring_start : ring_reachable (log_buffer_count logger_init)
| ring_step i : ring_reachable i → ring_reachable (next_log_buffer_count i).

(** The logger can write (its directory is there), and its ring index is one
    the code can produce. *)
Definition log_ready (st : logst) : Prop :=
  lf_creatable st.2 = true ∧ ring_reachable (log_buffer_count st.1).

(** The size of the log file. *)
Definition log_size (s : log_sink) : Z :=
  match lf_contents s with Some t => Z.of_nat (String.length t) | None => 0%Z end.

(** ** Lemmas *)
Lemma ring_reachable_cases i :
  ring_reachable i ↔ i = 0%Z ∨ i = 1024%Z ∨ i = 66560%Z.
Proof.
  split.
  - induction 1 as [|i _ [->|[->| ->]]]; cbv; auto.
  - assert (ring_reachable 0) as H0 by apply ring_start.
    assert (ring_reachable 1024) as H1 by apply (ring_step _ H0).
    assert (ring_reachable 66560) as H2 by apply (ring_step _ H1).
    intros [->|[->| ->]]; done.
Qed.

Lemma ring_reachable_bound i :
  ring_reachable i → (0 ≤ i < get_max_log_buffer_len)%Z.
Proof. intros [->|[->| ->]]%ring_reachable_cases; by cbv. Qed.

#[local] Ltac finish_run :=
  repeat split; intros; try done; try lia; try by apply ring_step.

(** From a ready state [logger] returns, and only the level test decides
    whether anything is written. *)
Lemma logger_run now level msg l s :
  log_ready (l, s) →
  ∃ l' s', logger now level msg (l, s) = (Ok tt, (l', s')) ∧ log_ready (l', s') ∧
    log_level l' = log_level l ∧ lf_creatable s' = lf_creatable s ∧
    ((level < log_level l)%Z → l' = l ∧ s' = s) ∧
    ((log_level l ≤ level)%Z →
       journal s' = (level, msg) :: journal s ∧
       log_ring_buffer l' = <[log_buffer_count l:=msg]> (log_ring_buffer l) ∧
       (log_size s' ≤ Z.max max_log_len (log_size s)
                       + Z.of_nat (String.length (log_entry now msg)))%Z ∧
       (log_size s' ≤ max_log_len
                       + Z.of_nat (String.length (log_entry now msg)))%Z).
Proof.
  intros [Hc Hr]. cbn in Hc, Hr. unfold logger, gets, mbind, M_bind, modify. cbn.
  destruct (Z.geb_spec level (log_level l)) as [Hge|Hlt].
  2:{ exists l, s. split_and!; try done. lia. }
  unfold write_log, open_log, append_log, ring_store, truncate_log, modify, gets.
  unfold mbind, M_bind. cbn.
  pose proof (ring_reachable_bound _ Hr) as Hb.
  assert (Hmax : (0 ≤ max_log_len)%Z) by done.
  destruct (lf_contents s) as [t|] eqn:Ht; cbn.
  - destruct (Z.gtb_spec (Z.of_nat (String.length t)) max_log_len) as [Hbig|Hsmall];
      cbn; rewrite ?Hc; cbn; rewrite ?Ht; cbn; rewrite decide_True by done;
      eexists _, _; (split; [done|]); cbn; unfold log_size; rewrite ?Ht; cbn;
      rewrite ?str_app_length; cbn [String.length]; finish_run.
  - rewrite Hc. cbn. rewrite decide_True by done. eexists _, _. split; [done|].
    cbn. unfold log_size. rewrite Ht. cbn.
    rewrite ?str_app_length; cbn [String.length]; finish_run.
Qed.

(** A whole run of the logger: one call per [(time, level, message)]. *)
Fixpoint logger_all (msgs : list (string * Z * string)) : M logst unit :=
  match msgs with
  | [] => mret tt
  | (now, level, msg) :: rest => logger now level msg;; logger_all rest
  end.

(** ** What a run leaves behind

    The messages that pass the level test, with their times. *)
Abbreviation entries := (list (string * string)).

Definition kept (level : Z) (msgs : list (string * Z * string)) : entries :=
  (λ m : string * Z * string, (m.1.1, m.2)) <$> filter (λ m, level ≤ m.1.2)%Z msgs.

(** Their lines, as the file has them. *)
Definition file_lines (k : entries) : string := str_join "" ((λ e, log_entry e.1 e.2) <$> k).

(** The file after the messages [k], if it held [old] before: their lines after the
    old text; or the lines of the last of them only, and then what was dropped, with
    the old text, is more than the limit. *)
Definition file_holds (old : option string) (k : entries) (text : option string) : Prop :=
  (k = [] ∧ text = old) ∨ (k ≠ [] ∧ text = Some (default "" old +:+ file_lines k)) ∨
  ∃ dropped rest, k = dropped ++ rest ∧ rest ≠ [] ∧ text = Some (file_lines rest) ∧
    (max_log_len < Z.of_nat (String.length (default "" old +:+ file_lines dropped)))%Z.

(** The index at which message [j] is stored, counting from 0. *)
Definition ring_slot (j : nat) : Z :=
  (match j with 0%nat => 0 | _ => if Nat.odd j then 1024 else 66560 end)%Z.

(** The ring after the messages [k] holds the first of them and the last two, and
    nothing else. *)
Definition ring_holds (k : entries) (ring : gmap Z string) : Prop :=
  ∀ i m, ring !! i = Some m ↔
    ∃ j now, k !! j = Some (now, m) ∧ ring_slot j = i ∧ (j = 0 ∨ length k ≤ j + 2).

Lemma ring_slot_next j : next_log_buffer_count (ring_slot j) = ring_slot (S j).
Proof.
  destruct j as [|j]; [done|]. cbn [ring_slot]. rewrite (Nat.odd_succ (S j)), <-Nat.negb_odd.
  by destruct (Nat.odd (S j)).
Qed.

Lemma ring_slot_bound j : (0 ≤ ring_slot j < get_max_log_buffer_len)%Z.
Proof.
  apply ring_reachable_bound, ring_reachable_cases. destruct j; cbn [ring_slot]; [by left|].
  case_match; auto.
Qed.

Lemma ring_slot_period j : j ≠ 0 → ring_slot (j + 2) = ring_slot j.
Proof.
  destruct j as [|j]; [done|]. intros _. cbn [ring_slot Nat.add].
  by rewrite Nat.add_comm.
Qed.

Lemma ring_slot_same n j : j < n → ring_slot j = ring_slot n → j ≠ 0 ∧ j + 2 ≤ n.
Proof.
  destruct n as [|n]; [lia|]. destruct j as [|j]; cbn [ring_slot]; [by case_match|].
  intros Hlt Heq. split; [done|]. destruct (decide (S j = n)) as [<-|]; [|lia].
  rewrite (Nat.odd_succ (S j)), <-Nat.negb_odd in Heq. by destruct (Nat.odd (S j)).
Qed.

Lemma ring_holds_store k now m ring :
  ring_holds k ring → ring_holds (k ++ [(now, m)]) (<[ring_slot (length k) := m]> ring).
Proof.
  intros Hr i m'. rewrite lookup_insert_Some, length_app, Nat.add_1_r. split.
  - intros [[<- <-]|[Hne (j & now' & Hj & <- & Hk)%Hr]].
    + exists (length k), now. split_and!; [by apply list_lookup_middle|done|lia].
    + exists j, now'. split_and!; [by apply lookup_app_l_Some|done|].
      destruct (decide (j = 0)) as [->|Hj0]; [by left|right]. destruct Hk as [|Hk]; [done|].
      destruct (decide (length k = j + 2)) as [Heq|]; [|lia].
      destruct Hne. by rewrite Heq, ring_slot_period.
  - intros (j & now' & Hj & <- & Hk). apply lookup_app_Some in Hj as [Hj|[Hlen Hj]].
    + assert (j < length k) by by eapply lookup_lt_Some.
      right. split; [|apply Hr; exists j, now'; split_and!; [done|done|]; destruct Hk; [by left|right; lia]].
      intros Heq. symmetry in Heq. apply ring_slot_same in Heq; lia.
    + apply list_lookup_singleton_Some in Hj as [Hj [= <- <-]]. left.
      split; [|done]. f_equal. lia.
Qed.

(** The text that the next entry is appended to. *)
Definition cut (text : option string) : string :=
  match text with
  | None => ""
  | Some t => if (Z.of_nat (String.length t) >? max_log_len)%Z then "" else t
  end.

Lemma file_lines_app k k' : file_lines (k ++ k') = file_lines k +:+ file_lines k'.
Proof. unfold file_lines. rewrite fmap_app. apply str_join_nil_app. Qed.

Lemma file_holds_append old k now m text :
  file_holds old k text → file_holds old (k ++ [(now, m)]) (Some (cut text +:+ log_entry now m)).
Proof.
  intros Hf. assert (Hone : file_lines [(now, m)] = log_entry now m) by done.
  assert (Hne : k ++ [(now, m)] ≠ []) by by destruct k.
  assert (Hdrop : (max_log_len < Z.of_nat (String.length (default "" old +:+ file_lines k)))%Z →
    file_holds old (k ++ [(now, m)]) (Some ("" +:+ log_entry now m)))
    by (intros Hbig; right; right; exists k, [(now, m)]; by rewrite Hone).
  assert (Hfits : file_holds old (k ++ [(now, m)]) (Some ((default "" old +:+ file_lines k) +:+ log_entry now m))).
  { right. left. split; [done|]. by rewrite file_lines_app, Hone, str_app_assoc. }
  destruct Hf as [[-> ->]|[[Hk ->]|(dropped & rest & -> & Hrest & -> & Hbig)]]; cbn [cut].
  - unfold file_lines in Hdrop, Hfits. cbn in Hdrop, Hfits. rewrite str_app_nil_r in Hdrop, Hfits.
    destruct old as [t|]; cbn [cut default] in *; [|exact Hfits].
    destruct (Z.gtb_spec (Z.of_nat (String.length t)) max_log_len); [by apply Hdrop|exact Hfits].
  - destruct (Z.gtb_spec (Z.of_nat (String.length (default "" old +:+ file_lines k))) max_log_len);
      [by apply Hdrop|exact Hfits].
  - destruct (Z.gtb_spec (Z.of_nat (String.length (file_lines rest))) max_log_len) as [Hgt|_].
    + apply Hdrop. rewrite file_lines_app, !str_app_length. rewrite str_app_length in Hbig. lia.
    + right. right. exists dropped, (rest ++ [(now, m)]).
      split_and!; [by rewrite app_assoc|by destruct rest| |done]. by rewrite file_lines_app, Hone.
Qed.

(** One call, in full. *)
Lemma logger_exact now level msg l s :
  lf_creatable s = true → (0 ≤ log_buffer_count l < get_max_log_buffer_len)%Z →
  logger now level msg (l, s) = (Ok tt,
    if (level >=? log_level l)%Z then
      (mkLogger (log_level l) (<[log_buffer_count l := msg]> (log_ring_buffer l))
         (next_log_buffer_count (log_buffer_count l)),
       mkSink ((level, msg) :: journal s) (lf_creatable s) (Some (cut (lf_contents s) +:+ log_entry now msg)))
    else (l, s)).
Proof.
  intros Hc Hb. unfold logger, gets, mbind, M_bind, modify. cbn. destruct (level >=? log_level l)%Z; [|done].
  unfold write_log, open_log, append_log, ring_store, truncate_log, modify, gets, mbind, M_bind, cut. cbn.
  destruct (lf_contents s) as [t|] eqn:Ht; cbn.
  - destruct (_ >? _)%Z; cbn; rewrite ?Hc; cbn; rewrite ?Ht; cbn; by rewrite decide_True.
  - rewrite Hc. cbn. by rewrite decide_True.
Qed.

(** A run continues one that has logged [k]. *)
Lemma logger_all_run msgs l s old k :
  lf_creatable s = true → log_buffer_count l = ring_slot (length k) →
  ring_holds k (log_ring_buffer l) → file_holds old k (lf_contents s) →
  ∃ l' s', logger_all msgs (l, s) = (Ok tt, (l', s')) ∧ log_level l' = log_level l ∧
    journal s' = rev (filter (λ p, log_level l ≤ p.1)%Z ((λ m, (m.1.2, m.2)) <$> msgs)) ++ journal s ∧
    ring_holds (k ++ kept (log_level l) msgs) (log_ring_buffer l') ∧
    file_holds old (k ++ kept (log_level l) msgs) (lf_contents s').
Proof.
  revert l s k. induction msgs as [|[[now level] msg] msgs IH]; intros l s k Hc Hi Hr Hf.
  { exists l, s. cbn. rewrite app_nil_r. by split_and!. }
  cbn [logger_all]. unfold mbind, M_bind. rewrite logger_exact by (done || rewrite Hi; apply ring_slot_bound).
  unfold kept. rewrite fmap_cons, !filter_cons. cbn [fst snd].
  destruct (Z.geb_spec level (log_level l)) as [Hle|Hlt].
  - rewrite !decide_True by done. rewrite fmap_cons. cbn [fst snd].
    destruct (IH (mkLogger (log_level l) (<[log_buffer_count l := msg]> (log_ring_buffer l))
        (next_log_buffer_count (log_buffer_count l)))
      (mkSink ((level, msg) :: journal s) (lf_creatable s) (Some (cut (lf_contents s) +:+ log_entry now msg)))
      (k ++ [(now, msg)])) as (l' & s' & Hrun & Hlev & Hj & Hring & Hfile).
    + done.
    + cbn. by rewrite Hi, ring_slot_next, length_app, Nat.add_1_r.
    + cbn. rewrite Hi. by apply ring_holds_store.
    + by apply file_holds_append.
    + cbn [log_level journal] in *. rewrite <-!app_assoc in Hring, Hfile. exists l', s'.
      split_and!; [done|done| |done|done]. rewrite Hj. cbn. by rewrite <-app_assoc.
  - rewrite !decide_False by lia. by apply IH.
Qed.

(** ** Properties *)

(** C35: from the start, with a log directory where the file can be created, any
    sequence of log calls returns (no undefined [fclose(NULL)], no index past the
    ring's array) and keeps the level. The messages whose level is numerically at
    or above it, and no others, are journalled in order. The file holds the lines of
    all of them, in order, after what it held before; or those of the last ones,
    and then what was dropped, with the old text, is more than 10 MB. The ring holds
    the first of them at index 0 and the last two at 1024 and 66560, and nothing
    else. *)
Theorem logger_all_spec msgs level s :
  lf_creatable s = true →
  ∃ l' s', logger_all msgs (set_log_level level logger_init, s) = (Ok tt, (l', s')) ∧
    log_level l' = level ∧
    journal s' = rev (filter (λ p, level ≤ p.1)%Z ((λ m, (m.1.2, m.2)) <$> msgs))
                 ++ journal s ∧
    file_holds (lf_contents s) (kept level msgs) (lf_contents s') ∧
    ring_holds (kept level msgs) (log_ring_buffer l').
Proof.
  intros Hc. destruct (logger_all_run msgs (set_log_level level logger_init) s (lf_contents s) [])
    as (l' & s' & Hrun & Hlev & Hj & Hring & Hfile); [done|done| |by left|].
  { intros i m. cbn. split; [done|]. by intros (j & now & ? & _). }
  by exists l', s'.
Qed.

Lemma logger_all_spec_witness :
  ∃ l' s', logger_all [("t0", LOG_ERR, "disk"); ("t1", LOG_NOTICE, "up")]
             (set_log_level LOG_NOTICE logger_init, mkSink [] true None) = (Ok tt, (l', s'))
    ∧ journal s' = [(LOG_NOTICE, "up")] ∧ log_ring_buffer l' !! 0%Z = Some "up".
Proof.
  destruct (logger_all_spec [("t0", LOG_ERR, "disk"); ("t1", LOG_NOTICE, "up")]
    LOG_NOTICE (mkSink [] true None) eq_refl) as (l' & s' & Hrun & _ & Hj & _ & Hring).
  exists l', s'. split; [exact Hrun|]. split; [rewrite Hj; reflexivity|].
  apply Hring. exists 0, "t1". split; [reflexivity|]. split; [reflexivity|by left].
Defined.

(** The ring buffer of 81920 entries uses only three of them: its index
    takes exactly the values 0, 1024 and 66560, because the unparenthesised
    macro makes the advance [(( i + 1 ) % 80) * 1024]. *)
Theorem ring_index_values :
  (∀ i, ring_reachable i ↔ i = 0 ∨ i = 1024 ∨ i = 66560)%Z ∧
  get_max_log_buffer_len = 81920%Z.
Proof. split; [apply ring_reachable_cases|done]. Qed.

(** C38: the log file never grows past 10 MB by more than one entry, whatever
    its size before the call. *)
Theorem log_file_bounded now level msg l s l' s' :
  log_ready (l, s) → (log_level l ≤ level)%Z →
  logger now level msg (l, s) = (Ok tt, (l', s')) →
  (log_size s' ≤ max_log_len + Z.of_nat (String.length (log_entry now msg)))%Z ∧
  is_Some (log_ring_buffer l' !! log_buffer_count l).
Proof.
  intros Hready Hlev Hrun.
  destruct (logger_run now level msg l s Hready)
    as (l1 & s1 & Hrun1 & _ & _ & _ & _ & Hw).
  rewrite Hrun in Hrun1. simplify_eq.
  destruct (Hw Hlev) as (_ & Hring & _ & Hsize). split; [done|].
  rewrite Hring, lookup_insert_eq. eauto.
Qed.

Lemma log_file_bounded_witness :
  (log_size (mkSink [(LOG_ERR, "m")] true (Some (log_entry "now" "m")))
   ≤ max_log_len + Z.of_nat (String.length (log_entry "now" "m")))%Z.
Proof.
  refine (proj1 (log_file_bounded "now" LOG_ERR "m" logger_init (mkSink [] true None)
    (mkLogger LOG_EMERG {[0%Z := "m"]} 1024) _ _ _ _)).
  - split; [reflexivity|]. apply ring_start.
  - discriminate.
  - reflexivity.
Defined.
