(* ===== verification/World.v ===== *)
(** * The world the daemon runs in

    The file system (what [std::filesystem], [std::ifstream], [std::ofstream]
    and [lstat] see), the environment, the logger, and the interface [Platform]
    to everything outside the process (shell commands, the clock, the random
    device, glib). [Platform] is a parameter: nothing is assumed of a shell
    command but its type. *)
From S2P Require Import Prelude StrUtil Logger.
From stdpp Require Import options.

(** ** File system *)

(** The fields of [struct stat] that the code reads. *)
Record finfo := FInfo { st_uid : Z; st_gid : Z; st_mode : Z }.

Inductive node :=
| Dir (i : finfo)
| File (i : finfo) (contents : string).

#[export] Instance finfo_eq_dec : EqDecision finfo.
Proof. solve_decision. Defined.
#[export] Instance node_eq_dec : EqDecision node.
Proof. solve_decision. Defined.

Definition node_info (n : node) : finfo :=
  match n with Dir i => i | File i _ => i end.

(** What the daemon (root, umask 022) creates. *)
Definition new_dir_info : finfo := FInfo 0 0 16877.
Definition new_file_info : finfo := FInfo 0 0 33188.

(** Absolute paths as component lists; the root directory is [[]]. *)
Abbreviation fs := (gmap (list string) node).

Definition slash : ascii := "/"%char.

(** Resolution of a path string: empty and ["."] components are dropped and
    [".."] removes the component before it. *)
Fixpoint resolve_comps (acc comps : list string) : list string :=
  match comps with
  | [] => rev acc
  | c :: comps' =>
    if decide (c = "" ∨ c = ".") then resolve_comps acc comps'
    else if decide (c = "..") then resolve_comps (tail acc) comps'
    else resolve_comps (c :: acc) comps'
  end.
Definition resolve (p : string) : list string := resolve_comps [] (split_string p slash).

Definition parent_of (d : list string) : list string := take (length d - 1) d.

Definition is_dir (d : list string) (s : fs) : bool :=
  match s !! d with Some (Dir _) => true | Some (File _ _) => false | None => bool_decide (d = []) end.

(** A ["."] or [".."] can only be passed when what comes before it is a
    directory. *)
Fixpoint dots_ok (s : fs) (acc comps : list string) : bool :=
  match comps with
  | [] => true
  | c :: comps' =>
    if decide (c = "") then dots_ok s acc comps'
    else if decide (c = ".") then is_dir (rev acc) s && dots_ok s acc comps'
    else if decide (c = "..") then is_dir (rev acc) s && dots_ok s (tail acc) comps'
    else dots_ok s (c :: acc) comps'
  end.
Definition reaches (p : string) (s : fs) : bool := dots_ok s [] (split_string p slash).

(** The node a path names. *)
Definition fs_lookup (p : string) (s : fs) : option node :=
  if reaches p s then s !! resolve p else None.

(** [std::filesystem::exists( p )] *)
Definition fs_exists (p : string) (s : fs) : bool :=
  negb (str_empty p) && bool_decide (is_Some (fs_lookup p s)).

(** [opendir( p )] succeeds. *)
Definition fs_is_dir (p : string) (s : fs) : bool :=
  negb (str_empty p) && reaches p s && is_dir (resolve p) s.

(** [std::filesystem::remove_all( p )]: the node and everything under it. For a
    path that ends in a dot name only what is below goes, and ["."] itself
    cannot be removed, which throws. *)
Definition remove_tree (d : list string) (s : fs) : fs :=
  filter (λ kv : list string * node, ¬ d `prefix_of` kv.1) s.
Definition remove_below (d : list string) (s : fs) : fs :=
  filter (λ kv : list string * node, ¬ (d `prefix_of` kv.1 ∧ kv.1 ≠ d)) s.
Definition fs_remove_all (p : string) (s : fs) : outcome unit * fs :=
  if str_empty p || negb (reaches p s) then (Ok tt, s)
  else
    let name := default "" (last (split_string p slash)) in
    if decide (name = ".") then
      (Throw "filesystem error: cannot remove all: Invalid argument", remove_below (resolve p) s)
    else if decide (name = "..") then (Ok tt, remove_below (resolve p) s)
    else (Ok tt, remove_tree (resolve p) s).

(** [std::filesystem::create_directories( p )]: every missing directory on the
    path is made; a file on the way is an error. *)
Fixpoint make_dirs (parent comps : list string) (s : fs) : outcome fs :=
  match comps with
  | [] => Ok s
  | c :: comps' =>
    if decide (c = "" ∨ c = ".") then make_dirs parent comps' s
    else if decide (c = "..") then make_dirs (parent_of parent) comps' s
    else
      let d := parent ++ [c] in
      match s !! d with
      | None => make_dirs d comps' (<[d := Dir new_dir_info]> s)
      | Some (Dir _) => make_dirs d comps' s
      | Some (File _ _) => Throw "filesystem error: cannot create directories: Not a directory"
      end
  end.
Definition fs_create_directories (p : string) (s : fs) : outcome fs :=
  if str_empty p then Throw "filesystem error: cannot create directories: Invalid argument"
  else make_dirs [] (split_string p slash) s.

(** [std::ofstream f( p ); f << contents;]: [None] when [is_open()] is false. *)
Definition fs_write (p contents : string) (s : fs) : option fs :=
  let d := resolve p in
  if reaches p s && is_dir (parent_of d) s then
    match s !! d with
    | Some (Dir _) => None
    | Some (File i _) => Some (<[d := File i contents]> s)
    | None => if decide (d = []) then None else Some (<[d := File new_file_info contents]> s)
    end
  else None.

(** [std::ifstream f( p )] read to its end: [None] when it cannot be opened. *)
Definition fs_read (p : string) (s : fs) : option string :=
  match fs_lookup p s with
  | Some (File _ c) => Some c
  | _ => None
  end.

(** [lstat] *)
Definition fs_lstat (p : string) (s : fs) : option finfo :=
  if str_empty p then None else node_info <$> fs_lookup p s.

(** [chmod] *)
Definition fs_chmod (p : string) (mode : Z) (s : fs) : fs :=
  match fs_lookup p s with
  | Some (File i c) => <[resolve p := File (FInfo (st_uid i) (st_gid i) mode) c]> s
  | Some (Dir i) => <[resolve p := Dir (FInfo (st_uid i) (st_gid i) mode)]> s
  | None => s
  end.

(** A file system is a tree: the parent of every node but the root is a
    directory. *)
Definition fs_wf (s : fs) : Prop :=
  ∀ d n, s !! d = Some n → d ≠ [] → is_dir (parent_of d) s = true.

(** ** The world *)
Record world (X : Type) := World {
  w_fs : fs;
  w_env : gmap string string;
  w_log : logst;
  w_ext : X
}.
Arguments World {X}.
Arguments w_fs {X}.
Arguments w_env {X}.
Arguments w_log {X}.
Arguments w_ext {X}.

Definition set_fs {X : Type} (s : fs) (w : world X) : world X :=
  World s (w_env w) (w_log w) (w_ext w).
Definition set_ext {X : Type} (x : X) (w : world X) : world X :=
  World (w_fs w) (w_env w) (w_log w) x.
Definition set_log {X : Type} (l : logst) (w : world X) : world X :=
  World (w_fs w) (w_env w) l (w_ext w).

(** The fields of [struct tm] that [strptime] fills in, the year in full. *)
Record tm := Tm {
  tm_mon : Z; tm_mday : Z; tm_year : Z; tm_hour : Z; tm_min : Z; tm_sec : Z
}.

(** ** What is outside the process

    [X] is the state of the machine and the network outside the daemon. A shell
    command may change it and the file system in any way. *)
Class Platform (X : Type) := {
  (** [popen( cmd, "r" )], everything the command writes to the pipe, and what
      [pclose] returns; [None] when [popen] returns a null pointer. *)
  popen_read : string → fs → X → option (string * Z) * fs * X;
  (** [popen( cmd, "w" )], [fwrite] of the bytes, and [pclose]. *)
  popen_write : string → string → fs → X → option Z * fs * X;
  (** [getCurrentTime()]: the local time as text. *)
  current_time : X → string;
  (** [time( NULL )] *)
  unix_time : X → Z;
  (** [mktime]: the time of a local date *)
  mktime : X → tm → Z;
  (** one byte drawn from [std::random_device] *)
  random_byte : X → nat * X;
  (** [gethostname]: status and name *)
  host_name : X → Z * string;
  (** [g_base64_decode]: [None] for a null result *)
  g_base64_decode : string → option string;
  (** the order [readdir] yields directory entries in *)
  readdir_order : list (list string) → list (list string)
}.

(** What the code relies on: [readdir] yields each entry once, and a random
    byte is a byte. *)
Class PlatformLaws (X : Type) `{Platform X} := {
  readdir_order_perm l : readdir_order l ≡ₚ l;
  random_byte_bound x : (random_byte x).1 < 256
}.

Section world_ops.
Context {X : Type} `{Platform X}.
Abbreviation MW := (M (world X)).

Definition exists_ (p : string) : MW bool := gets (λ w, fs_exists p (w_fs w)).

Definition remove_all (p : string) : MW unit := λ w,
  let '(r, s) := fs_remove_all p (w_fs w) in (r, set_fs s w).

Definition create_directories (p : string) : MW unit := λ w,
  match fs_create_directories p (w_fs w) with
  | Ok s => (Ok tt, set_fs s w)
  | Throw e => (Throw e, w)
  | Undefined e => (Undefined e, w)
  end.

(** Opens, writes and closes; the result is [is_open()]. *)
Definition write_file (p contents : string) : MW bool := λ w,
  match fs_write p contents (w_fs w) with
  | Some s => (Ok true, set_fs s w)
  | None => (Ok false, w)
  end.

Definition read_file (p : string) : MW (option string) := gets (λ w, fs_read p (w_fs w)).

Definition chmod (p : string) (mode : Z) : MW unit :=
  modify (λ w, set_fs (fs_chmod p mode (w_fs w)) w).

Definition getenv (name : string) : MW (option string) := gets (λ w, w_env w !! name).

Definition getCurrentTime : MW string := gets (λ w, current_time (w_ext w)).

(** [cf_logger.logger( level, message )] *)
Definition log (level : Z) (message : string) : MW unit := λ w,
  match logger (current_time (w_ext w)) level message (w_log w) with
  | (Ok _, l) => (Ok tt, set_log l w)
  | (Throw e, l) => (Throw e, set_log l w)
  | (Undefined e, l) => (Undefined e, set_log l w)
  end.

(** [popen( cmd, "w" )], [fwrite], [pclose]: the status, [None] when [popen]
    fails. *)
Definition pipe_to (cmd bytes : string) : MW (option Z) := λ w,
  let '(r, s, x) := popen_write (c_str cmd) bytes (w_fs w) (w_ext w) in
  (Ok r, set_fs s (set_ext x w)).

(** The entries below [d], in the order of a recursive directory iteration, as
    component lists relative to [d]. *)
Definition entries_below (d : list string) (s : fs) : list (list string) :=
  readdir_order
    (omap (λ kv : list string * node,
        if decide (d `prefix_of` kv.1 ∧ kv.1 ≠ d) then Some (drop (length d) kv.1) else None)
      (map_to_list s)).

Definition is_regular_file (d : list string) (s : fs) : bool :=
  match s !! d with Some (File _ _) => true | _ => false end.

(** The entries directly in [d]: what [readdir] yields, less ["."] and [".."]. *)
Definition dir_entries (d : list string) (s : fs) : list string :=
  omap (λ r : list string, match r with [f] => Some f | _ => None end) (entries_below d s).

(** A logger that can write does, and changes nothing else. *)
Lemma log_run level msg (w : world X) :
  log_ready (w_log w) → ∃ l, log level msg w = (Ok tt, set_log l w) ∧ log_ready l.
Proof.
  intros Hr. unfold log. destruct (w_log w) as [l0 s0].
  destruct (logger_run (current_time (w_ext w)) level msg l0 s0 Hr) as (l & s & -> & Hr' & _).
  by exists (l, s).
Qed.

End world_ops.

(** ** Lemmas on paths *)
#[local] Arguments String.append !_ _ /.

Lemma split_slash_app n m a b :
  String.length (a +:+ String slash b) ≤ n → String.length b ≤ m →
  ∃ pad, Forall (λ c, c = "") pad ∧
    getlines n slash (a +:+ String slash b)
    = getlines (String.length a) slash a ++ pad ++ getlines m slash b.
Proof.
  remember (String.length a) as k eqn:Hk. assert (Hle : String.length a ≤ k) by lia.
  clear Hk. revert n a Hle. induction k as [|k IH]; intros n a Hle Hn Hm.
  - destruct a; [|cbn in Hle; lia]. cbn in Hn. destruct n as [|n]; [lia|].
    exists [""]. split; [by repeat constructor|]. cbn. f_equal.
    apply getlines_fuel; lia.
  - destruct n as [|n]; [rewrite str_app_length in Hn; cbn in Hn; lia|].
    cbn [getlines]. destruct (getline slash a) as [[t r]|] eqn:Hg.
    + apply getline_spec in Hg as (Hno & Hlt & [(-> & -> & Hne)|Ha]).
      * change (String slash b) with (String slash "" +:+ b).
        rewrite getline_app by done. exists []. split; [constructor|]. cbn.
        destruct k; cbn; f_equal; apply getlines_fuel; rewrite ?str_app_length in Hn;
          cbn in Hn; lia.
      * rewrite Ha in Hn, Hle, Hlt |- *. rewrite str_app_assoc in Hn |- *.
        change (String slash r +:+ String slash b)
          with (String slash "" +:+ (r +:+ String slash b)) in Hn |- *.
        rewrite getline_app by done.
        rewrite !str_app_length in Hn, Hle. cbn in Hn, Hle.
        destruct (IH n r) as (pad & Hpad & Heq); [lia|lia|done|].
        exists pad. split; [done|]. by rewrite Heq.
    + apply getline_none in Hg as ->. cbn. exists [""].
      split; [by repeat constructor|]. cbn. f_equal. apply getlines_fuel; cbn in Hn; lia.
Qed.

Lemma resolve_comps_app acc l1 l2 :
  resolve_comps acc (l1 ++ l2) = resolve_comps (rev (resolve_comps acc l1)) l2.
Proof.
  revert acc. induction l1 as [|c l1 IH]; intros acc; cbn.
  - by rewrite rev_involutive.
  - repeat case_decide; auto.
Qed.

Lemma resolve_comps_pad acc pad l :
  Forall (λ c, c = "") pad → resolve_comps acc (pad ++ l) = resolve_comps acc l.
Proof. induction 1 as [|c pad -> _ IH]; [done|]. cbn. by rewrite decide_True by auto. Qed.

(** Resolution goes component by component. *)
Lemma resolve_app a b :
  resolve (a +:+ "/" +:+ b) = resolve_comps (rev (resolve a)) (split_string b slash).
Proof.
  unfold resolve. rewrite !split_string_eq by done.
  change ("/" +:+ b) with (String slash b).
  destruct (split_slash_app (String.length (a +:+ String slash b)) (String.length b) a b)
    as (pad & Hpad & ->); [done..|].
  rewrite resolve_comps_app. by apply resolve_comps_pad.
Qed.

(** A plain name: one component that is neither empty nor a dot name. *)
Definition plain_name (f : string) : Prop :=
  f ≠ "" ∧ f ≠ "." ∧ f ≠ ".." ∧ has_char slash f = false.

#[export] Instance plain_name_dec f : Decision (plain_name f).
Proof. unfold plain_name. apply _. Defined.

Lemma split_plain f : f ≠ "" → has_char slash f = false → split_string f slash = [f].
Proof.
  intros Hne Hno. rewrite split_string_eq by done.
  apply (getlines_join slash _ [f]); [by constructor| |done]. by intros t [= <-].
Qed.

Lemma resolve_app_plain a f :
  plain_name f → resolve (a +:+ "/" +:+ f) = resolve a ++ [f].
Proof.
  intros (Hne & Hd & Hdd & Hno). rewrite resolve_app, split_plain by done. cbn.
  rewrite decide_False by (by intros [|]). rewrite decide_False by done.
  cbn. by rewrite rev_involutive.
Qed.

(** ** Lemmas on the file system *)
Lemma dots_ok_app s acc l1 l2 :
  dots_ok s acc (l1 ++ l2) = dots_ok s acc l1 && dots_ok s (rev (resolve_comps acc l1)) l2.
Proof.
  revert acc. induction l1 as [|c l1 IH]; intros acc; cbn.
  - by rewrite rev_involutive.
  - destruct (decide (c = "")) as [->|Hne]; [by rewrite IH|].
    destruct (decide (c = ".")) as [->|Hnd]; [by rewrite IH, andb_assoc|].
    destruct (decide (c = "" ∨ c = ".")) as [[|]|_]; [done..|].
    destruct (decide (c = "..")); rewrite IH; [by rewrite andb_assoc|done].
Qed.

Lemma dots_ok_pad s acc pad l :
  Forall (λ c, c = "") pad → dots_ok s acc (pad ++ l) = dots_ok s acc l.
Proof. by induction 1 as [|c pad -> _ IH]. Qed.

Lemma reaches_app a b s :
  reaches (a +:+ "/" +:+ b) s =
  reaches a s && dots_ok s (rev (resolve a)) (split_string b slash).
Proof.
  unfold reaches, resolve. rewrite !split_string_eq by done.
  change ("/" +:+ b) with (String slash b).
  destruct (split_slash_app (String.length (a +:+ String slash b)) (String.length b) a b)
    as (pad & Hpad & ->); [done..|].
  by rewrite dots_ok_app, dots_ok_pad.
Qed.

Lemma reaches_app_plain a f s :
  plain_name f → reaches (a +:+ "/" +:+ f) s = reaches a s.
Proof.
  intros (Hne & Hd & Hdd & Hno). rewrite reaches_app, split_plain by done. cbn.
  by rewrite !decide_False, andb_true_r by done.
Qed.

Lemma last_split_plain a f :
  f ≠ "" → has_char slash f = false →
  last (split_string (a +:+ "/" +:+ f) slash) = Some f.
Proof.
  intros Hne Hno. rewrite split_string_eq by done.
  change ("/" +:+ f) with (String slash f).
  destruct (split_slash_app (String.length (a +:+ String slash f)) (String.length f) a f)
    as (pad & Hpad & ->); [done..|].
  rewrite <-(split_string_eq f) by done. rewrite split_plain by done. by rewrite app_assoc, last_snoc.
Qed.

Lemma lookup_remove_tree d s k :
  remove_tree d s !! k = if decide (d `prefix_of` k) then None else s !! k.
Proof.
  unfold remove_tree. rewrite map_lookup_filter. case_decide as Hp.
  - destruct (s !! k) as [n|]; cbn; [|done]. by rewrite option_guard_False by (intros Hx; by apply Hx).
  - destruct (s !! k) as [n|]; cbn; [|done]. by rewrite option_guard_True.
Qed.

Lemma lookup_remove_below d s k :
  remove_below d s !! k = if decide (d `prefix_of` k ∧ k ≠ d) then None else s !! k.
Proof.
  unfold remove_below. rewrite map_lookup_filter. case_decide as Hp.
  - destruct (s !! k) as [n|]; cbn; [|done]. by rewrite option_guard_False by (intros Hx; by apply Hx).
  - destruct (s !! k) as [n|]; cbn; [|done]. by rewrite option_guard_True.
Qed.

(** What [remove_all] does to a path ending in a plain name. *)
Lemma fs_remove_all_plain a f s :
  plain_name f → reaches a s = true →
  fs_remove_all (a +:+ "/" +:+ f) s = (Ok tt, remove_tree (resolve a ++ [f]) s).
Proof.
  intros Hf Ha. pose proof Hf as (Hne & Hd & Hdd & Hno). unfold fs_remove_all.
  rewrite reaches_app_plain, Ha, orb_false_r, last_split_plain, resolve_app_plain by done.
  assert (str_empty (a +:+ "/" +:+ f) = false) as -> by by destruct a.
  cbn [default]. by rewrite !decide_False.
Qed.

(** Nothing outside the resolved path is ever removed. *)
Lemma fs_remove_all_other p s k :
  ¬ resolve p `prefix_of` k → (fs_remove_all p s).2 !! k = s !! k.
Proof.
  intros Hk. unfold fs_remove_all. destruct (_ || _); [done|]. repeat case_decide; cbn.
  - rewrite lookup_remove_below, decide_False; [done|]. by intros [? _].
  - rewrite lookup_remove_below, decide_False; [done|]. by intros [? _].
  - by rewrite lookup_remove_tree, decide_False.
Qed.

(** Removing adds nothing. *)
Lemma fs_remove_all_none p s k : s !! k = None → (fs_remove_all p s).2 !! k = None.
Proof.
  intros Hk. unfold fs_remove_all. destruct (_ || _); [done|]. repeat case_decide; cbn.
  - rewrite lookup_remove_below, Hk. by case_decide.
  - rewrite lookup_remove_below, Hk. by case_decide.
  - rewrite lookup_remove_tree, Hk. by case_decide.
Qed.

(** Only directories matter for reaching a path. *)
Lemma reaches_ext p s s' : (∀ d, is_dir d s' = is_dir d s) → reaches p s' = reaches p s.
Proof.
  intros Hd. unfold reaches. generalize (split_string p slash) as comps. generalize (@nil string) as acc.
  intros acc comps. revert acc. induction comps as [|c comps IH]; intros acc; cbn; [done|].
  by rewrite !Hd, !IH.
Qed.

Lemma fs_write_dirs p c s s' d : fs_write p c s = Some s' → is_dir d s' = is_dir d s.
Proof.
  unfold fs_write. destruct (reaches p s && _); [|done]. unfold is_dir.
  destruct (s !! resolve p) as [[i|i t]|] eqn:Hl; [done| |case_decide; [done|]];
    intros [= <-]; (destruct (decide (d = resolve p)) as [->|Hne];
      [rewrite lookup_insert_eq, Hl|by rewrite lookup_insert_ne]).
  - done.
  - by rewrite bool_decide_false.
Qed.

(** What is written is read back. *)
Lemma fs_read_write p c s s' : fs_write p c s = Some s' → fs_read p s' = Some c.
Proof.
  intros Hw. unfold fs_read, fs_lookup. rewrite (reaches_ext p s s') by (by intros d; eapply fs_write_dirs).
  unfold fs_write in Hw. destruct (reaches p s); cbn in Hw; [|done].
  repeat case_match; simplify_eq; rewrite lookup_insert_eq in *; congruence.
Qed.

(** Writing changes one path. *)
Lemma fs_write_other p c s s' : fs_write p c s = Some s' → ∀ k, k ≠ resolve p → s' !! k = s !! k.
Proof.
  unfold fs_write. intros Hw k Hk. repeat case_match; simplify_eq; by rewrite lookup_insert_ne.
Qed.

Lemma fs_write_at p c s s' : fs_write p c s = Some s' → ∃ i, s' !! resolve p = Some (File i c).
Proof.
  unfold fs_write. intros Hw. repeat case_match; simplify_eq; rewrite lookup_insert_eq; eauto.
Qed.

(** Directories are only added. *)
Lemma make_dirs_lookup parent comps s s' :
  make_dirs parent comps s = Ok s' →
  (∀ k n, s !! k = Some n → s' !! k = Some n) ∧
  (∀ k, s !! k = None → s' !! k = None ∨ s' !! k = Some (Dir new_dir_info)).
Proof.
  revert parent s. induction comps as [|c comps IH]; intros parent s; cbn.
  - intros [= <-]. auto.
  - case_decide; [apply IH|]. case_decide; [apply IH|].
    destruct (s !! (parent ++ [c])) as [[i|i t]|] eqn:Hl; [apply IH|done|].
    intros (Hk1 & Hn1)%IH. split.
    + intros k n Hk. apply Hk1. rewrite lookup_insert_ne; [done|]. intros <-. congruence.
    + intros k Hk. destruct (decide (k = parent ++ [c])) as [->|Hne].
      * right. apply Hk1. by rewrite lookup_insert_eq.
      * apply Hn1. by rewrite lookup_insert_ne.
Qed.

(** *** Paths without dot names *)
Definition no_dots (comps : list string) : Prop := Forall (λ c, c ≠ "." ∧ c ≠ "..") comps.
Definition plain_path (p : string) : Prop := no_dots (split_string p slash).

#[export] Instance no_dots_dec comps : Decision (no_dots comps).
Proof. unfold no_dots. apply _. Defined.

Lemma split_app a b :
  ∃ pad, Forall (λ c, c = "") pad ∧
    split_string (a +:+ "/" +:+ b) slash = split_string a slash ++ pad ++ split_string b slash.
Proof.
  rewrite !split_string_eq by done. change ("/" +:+ b) with (String slash b).
  by apply split_slash_app.
Qed.

Lemma no_dots_pad pad : Forall (λ c, c = "") pad → no_dots pad.
Proof. intros Hp. eapply Forall_impl; [exact Hp|]. by intros c ->. Qed.

Lemma no_dots_reaches s acc comps : no_dots comps → dots_ok s acc comps = true.
Proof.
  intros Hc. revert acc. induction Hc as [|c comps [Hd Hdd] _ IH]; intros acc; cbn; [done|].
  by repeat case_decide.
Qed.

(** The two file systems agree outside [P]. *)
Definition unchanged (P : list string → Prop) (s s' : fs) : Prop :=
  ∀ k, ¬ P k → s' !! k = s !! k.

#[export] Instance unchanged_refl P : Reflexive (unchanged P).
Proof. by intros s k. Qed.
#[export] Instance unchanged_trans P : Transitive (unchanged P).
Proof. intros s1 s2 s3 H1 H2 k Hk. by rewrite H2, H1. Qed.

Lemma plain_path_reaches p s : plain_path p → reaches p s = true.
Proof. apply no_dots_reaches. Qed.

Lemma fs_exists_plain p s :
  plain_path p → p ≠ "" → fs_exists p s = bool_decide (is_Some (s !! resolve p)).
Proof.
  intros Hp Hne. unfold fs_exists, fs_lookup. apply str_empty_false in Hne as ->.
  by rewrite plain_path_reaches.
Qed.

Lemma fs_exists_none p s : plain_path p → s !! resolve p = None → fs_exists p s = false.
Proof.
  intros Hp Hs. unfold fs_exists, fs_lookup. rewrite plain_path_reaches, Hs by done.
  by rewrite andb_comm.
Qed.

(** Such a path is removed with all below it. *)
Lemma fs_remove_all_no_dots p s :
  plain_path p → p ≠ "" → fs_remove_all p s = (Ok tt, remove_tree (resolve p) s).
Proof.
  intros Hp Hne. unfold fs_remove_all. rewrite plain_path_reaches by done.
  apply str_empty_false in Hne as ->. cbn [orb negb].
  assert (Hlast : default "" (last (split_string p slash)) ≠ "." ∧
    default "" (last (split_string p slash)) ≠ "..").
  { destruct (last _) as [c|] eqn:Hc; [|done]. cbn.
    unfold plain_path, no_dots in Hp. rewrite Forall_forall in Hp. apply Hp.
    by apply last_Some_elem_of. }
  by rewrite !decide_False by apply Hlast.
Qed.

Lemma resolve_comps_no_dots acc comps :
  no_dots comps → rev acc `prefix_of` resolve_comps acc comps.
Proof.
  intros Hc. revert acc. induction Hc as [|c comps [Hd Hdd] _ IH]; intros acc; cbn; [done|].
  case_decide; [apply IH|]. rewrite decide_False by done. etrans; [|apply IH].
  cbn. by apply prefix_app_r.
Qed.

(** What is new is on the way to the path. *)
Lemma make_dirs_new parent comps s s' k :
  no_dots comps → make_dirs parent comps s = Ok s' → s' !! k ≠ s !! k →
  k ≠ [] ∧ s !! k = None ∧ k `prefix_of` resolve_comps (rev parent) comps.
Proof.
  intros Hc. revert parent s. induction Hc as [|c comps [Hd Hdd] Hc IH]; intros parent s; cbn.
  { by intros [= <-]. }
  case_decide; [apply IH|]. rewrite !decide_False by done.
  assert (Hrev : c :: rev parent = rev (parent ++ [c])) by by rewrite rev_app_distr.
  rewrite Hrev. destruct (s !! (parent ++ [c])) as [[i|i t]|] eqn:Hl; [apply IH|done|].
  intros Hrun Hk. destruct (decide (k = parent ++ [c])) as [->|Hne].
  - split_and!; [by destruct parent|done|].
    rewrite <-(rev_involutive (parent ++ [c])) at 1. by apply resolve_comps_no_dots.
  - destruct (IH _ _ Hrun) as (Hne' & Hs & Hp); [by rewrite lookup_insert_ne|].
    rewrite lookup_insert_ne in Hs by done. done.
Qed.

(** Every directory on the way to [d] is there. *)
Definition dirs_exist (d : list string) (s : fs) : Prop :=
  ∀ k, k `prefix_of` d → k ≠ [] → ∃ i, s !! k = Some (Dir i).

Lemma make_dirs_exist parent comps s :
  no_dots comps → dirs_exist (resolve_comps (rev parent) comps) s →
  make_dirs parent comps s = Ok s.
Proof.
  intros Hc. revert parent. induction Hc as [|c comps [Hd Hdd] Hc IH]; intros parent Hex; cbn; [done|].
  cbn in Hex. destruct (decide (c = "" ∨ c = ".")) as [Hcd|Hcd]; [by apply IH|].
  destruct (decide (c = "..")) as [|_]; [done|].
  assert (Hrev : c :: rev parent = rev (parent ++ [c])) by by rewrite rev_app_distr.
  destruct (Hex (parent ++ [c])) as [i ->].
  - rewrite Hrev. rewrite <-(rev_involutive (parent ++ [c])) at 1. by apply resolve_comps_no_dots.
  - by destruct parent.
  - apply IH. by rewrite <-Hrev.
Qed.

Lemma make_dirs_app parent l1 l2 s s1 :
  no_dots l1 → make_dirs parent l1 s = Ok s1 →
  make_dirs parent (l1 ++ l2) s = make_dirs (resolve_comps (rev parent) l1) l2 s1.
Proof.
  intros Hc. revert parent s. induction Hc as [|c l1 [Hd Hdd] Hc IH]; intros parent s; cbn.
  - intros [= <-]. by rewrite rev_involutive.
  - case_decide; [apply IH|]. rewrite !decide_False by done.
    assert (Hrev : c :: rev parent = rev (parent ++ [c])) by by rewrite rev_app_distr.
    rewrite Hrev. destruct (s !! (parent ++ [c])) as [[]|]; [apply IH|done|apply IH].
Qed.

(** New directories are below the starting point. *)
Lemma make_dirs_below parent comps s s' k :
  no_dots comps → make_dirs parent comps s = Ok s' →
  ¬ (parent `prefix_of` k ∧ k ≠ parent) → s' !! k = s !! k.
Proof.
  intros Hc. revert parent s. induction Hc as [|c comps [Hd Hdd] Hc IH]; intros parent s; cbn.
  { by intros [= <-]. }
  case_decide; [apply IH|]. rewrite decide_False by done.
  assert (Hsub : ∀ k, ¬ (parent `prefix_of` k ∧ k ≠ parent) →
    ¬ (parent ++ [c] `prefix_of` k ∧ k ≠ parent ++ [c]) ∧ k ≠ parent ++ [c]).
  { intros k' Hk'. assert (Hne : ¬ parent ++ [c] `prefix_of` k').
    { intros [t ->]. apply Hk'. split; [rewrite <-app_assoc; by apply prefix_app_r|].
      intros Heq. apply (f_equal length) in Heq. rewrite !length_app in Heq. cbn in Heq. lia. }
    split; [by intros []|]. intros ->. by apply Hne. }
  destruct (s !! (parent ++ [c])) as [[i|i t]|] eqn:Hl; [|done|]; intros Hrun Hk;
    destruct (Hsub k Hk) as [Hk1 Hk2]; rewrite (IH _ _ Hrun Hk1); [done|].
  by rewrite lookup_insert_ne.
Qed.

(** With no file on the way, every directory of the path is made. *)
Definition no_file_on (d : list string) (s : fs) : Prop :=
  ∀ k, k `prefix_of` d → k ≠ [] → s !! k = None ∨ ∃ i, s !! k = Some (Dir i).

Lemma prefix_snoc_inv {A} (k l : list A) x :
  k `prefix_of` l ++ [x] → k `prefix_of` l ∨ k = l ++ [x].
Proof.
  intros [t Ht]. destruct t as [|y t _] using rev_ind.
  - right. by rewrite app_nil_r in Ht.
  - rewrite app_assoc in Ht. apply app_inj_tail in Ht as [-> _]. left. by apply prefix_app_r.
Qed.

Lemma make_dirs_ok parent comps s :
  no_dots comps → no_file_on (resolve_comps (rev parent) comps) s →
  ∃ s', make_dirs parent comps s = Ok s' ∧
    ∀ k, k `prefix_of` resolve_comps (rev parent) comps → ¬ k `prefix_of` parent →
      ∃ i, s' !! k = Some (Dir i).
Proof.
  intros Hc. revert parent s. induction Hc as [|c comps [Hd Hdd] Hc IH]; intros parent s Hs; cbn.
  { rewrite rev_involutive. by exists s. }
  cbn in Hs. destruct (decide (c = "" ∨ c = ".")) as [Hcd|Hcd]; [by apply IH|].
  destruct (decide (c = "..")) as [|_]; [done|].
  assert (Hrev : c :: rev parent = rev (parent ++ [c])) by by rewrite rev_app_distr.
  rewrite Hrev in Hs |- *. set (d := parent ++ [c]) in *.
  assert (Hpre : d `prefix_of` resolve_comps (rev d) comps)
    by (rewrite <-(rev_involutive d) at 1; by apply resolve_comps_no_dots).
  assert (Hdne : d ≠ []) by by destruct parent.
  assert (Hdir : ∃ s1 i, make_dirs d comps s1 = match s !! d with
      | None => make_dirs d comps (<[d := Dir new_dir_info]> s)
      | Some (Dir _) => make_dirs d comps s
      | Some (File _ _) => Throw "filesystem error: cannot create directories: Not a directory" end
    ∧ s1 !! d = Some (Dir i) ∧ no_file_on (resolve_comps (rev d) comps) s1).
  { destruct (Hs d Hpre Hdne) as [Hn|[i Hi]].
    - rewrite Hn. exists (<[d := Dir new_dir_info]> s), new_dir_info. split_and!; [done| |].
      + by rewrite lookup_insert_eq.
      + intros k Hk Hne. destruct (decide (k = d)) as [->|]; [rewrite lookup_insert_eq; eauto|].
        rewrite lookup_insert_ne by done. by apply Hs.
    - rewrite Hi. by exists s, i. }
  destruct Hdir as (s1 & i & <- & Hi & Hs1). destruct (IH d s1 Hs1) as (s' & Hrun & Hex).
  exists s'. split; [done|]. intros k Hk Hkp.
  destruct (decide (k `prefix_of` d)) as [Hkd|Hkd]; [|by apply Hex].
  apply prefix_snoc_inv in Hkd as [?| ->]; [done|].
  exists i. by apply (make_dirs_lookup _ _ _ _ Hrun).
Qed.

Lemma create_directories_ok p s :
  plain_path p → p ≠ "" → no_file_on (resolve p) s →
  ∃ s', fs_create_directories p s = Ok s' ∧ dirs_exist (resolve p) s' ∧
    ∀ k, s' !! k ≠ s !! k → k ≠ [] ∧ s !! k = None ∧ k `prefix_of` resolve p.
Proof.
  intros Hp Hne Hs. unfold fs_create_directories. apply str_empty_false in Hne as ->.
  destruct (make_dirs_ok [] (split_string p slash) s Hp Hs) as (s' & Hrun & Hex).
  exists s'. split_and!; [done| |].
  - intros k Hk Hkne. apply Hex; [done|]. by intros ?%prefix_nil_inv.
  - intros k Hk. by apply (make_dirs_new _ _ _ _ k Hp Hrun).
Qed.

(** Making a directory below an existing one changes only what is below its
    first new component. *)
Lemma create_below p dir pad a rest s s' k :
  split_string p slash = split_string dir slash ++ pad ++ a :: rest →
  plain_path dir → Forall (λ c, c = "") pad → plain_name a → no_dots rest →
  dirs_exist (resolve dir) s → fs_create_directories p s = Ok s' →
  ¬ resolve dir ++ [a] `prefix_of` k → s' !! k = s !! k.
Proof.
  intros Hp Hdir Hpad (Hne & Hd & Hdd & Hno) Hrest Hex.
  unfold fs_create_directories. destruct (str_empty _); [done|]. rewrite Hp.
  assert (Hdp : no_dots (split_string dir slash ++ pad))
    by (apply Forall_app; split; [done|by apply no_dots_pad]).
  assert (Hres : resolve_comps [] (split_string dir slash ++ pad) = resolve dir).
  { rewrite resolve_comps_app. rewrite <-(app_nil_r pad), resolve_comps_pad by done.
    cbn. by rewrite rev_involutive. }
  rewrite app_assoc, (make_dirs_app [] _ _ s s); [|done|].
  2:{ apply make_dirs_exist; [done|]. cbn [rev]. by rewrite Hres. }
  cbn [rev]. rewrite Hres. cbn [make_dirs].
  rewrite decide_False by (by intros [|]). rewrite decide_False by done.
  destruct (s !! (resolve dir ++ [a])) as [[i|i t]|] eqn:Hl; [|done|]; intros Hrun Hk.
  - apply (make_dirs_below _ _ _ _ _ Hrest Hrun). by intros [].
  - rewrite (make_dirs_below _ _ _ _ k Hrest Hrun) by by intros [].
    rewrite lookup_insert_ne; [done|]. intros <-. by apply Hk.
Qed.

Lemma parent_of_snoc d a : parent_of (d ++ [a]) = d.
Proof.
  unfold parent_of. rewrite length_app. cbn [length]. rewrite Nat.add_sub, take_app_le by done.
  by apply take_ge.
Qed.

(** One directory more below an existing one. *)
Lemma create_one_more dir a s :
  plain_path dir → plain_name a → dirs_exist (resolve dir) s →
  fs_create_directories (dir +:+ "/" +:+ a) s =
  match s !! (resolve dir ++ [a]) with
  | None => Ok (<[resolve dir ++ [a] := Dir new_dir_info]> s)
  | Some (Dir _) => Ok s
  | Some (File _ _) => Throw "filesystem error: cannot create directories: Not a directory"
  end.
Proof.
  intros Hdir (Hne & Hd & Hdd & Hno) Hex. unfold fs_create_directories.
  assert (str_empty (dir +:+ "/" +:+ a) = false) as -> by by destruct dir.
  destruct (split_app dir a) as (pad & Hpad & ->). rewrite (split_plain a) by done.
  rewrite app_assoc.
  assert (Hres : resolve_comps [] (split_string dir slash ++ pad) = resolve dir).
  { rewrite resolve_comps_app. rewrite <-(app_nil_r pad), resolve_comps_pad by done.
    cbn. by rewrite rev_involutive. }
  assert (Hdp : no_dots (split_string dir slash ++ pad))
    by (apply Forall_app; split; [done|by apply no_dots_pad]).
  rewrite (make_dirs_app [] _ _ s s); [|done|].
  2:{ apply make_dirs_exist; [done|]. cbn [rev]. by rewrite Hres. }
  cbn [rev]. rewrite Hres. cbn [make_dirs].
  rewrite decide_False by (by intros [|]). rewrite decide_False by done.
  by destruct (s !! (resolve dir ++ [a])) as [[]|].
Qed.

(** A new file in an existing directory. *)
Lemma fs_write_new dir a text s i :
  plain_path dir → plain_name a → s !! resolve dir = Some (Dir i) →
  s !! (resolve dir ++ [a]) = None →
  fs_write (dir +:+ "/" +:+ a) text s = Some (<[resolve dir ++ [a] := File new_file_info text]> s).
Proof.
  intros Hdir Ha Hi Hn. unfold fs_write.
  rewrite reaches_app_plain, plain_path_reaches, resolve_app_plain, parent_of_snoc by done.
  unfold is_dir. rewrite Hi, Hn. cbn [andb]. by rewrite decide_False by by destruct (resolve dir).
Qed.

Lemma plain_path_app dir a : plain_path dir → plain_name a → plain_path (dir +:+ "/" +:+ a).
Proof.
  intros Hdir (Hne & Hd & Hdd & Hno). unfold plain_path. destruct (split_app dir a) as (pad & Hpad & ->).
  rewrite (split_plain a) by done. repeat apply Forall_app_2; [done|by apply no_dots_pad|by repeat constructor].
Qed.

(** ** A concrete platform

    A scripted machine: the answers of the shell commands, in order, with the
    commands run so far; used to evaluate the model at concrete inputs. *)
Module Script.

Record script := Sc {
  sc_read : list (option (string * Z));
  sc_write : list (option Z);
  sc_random : list nat;
  sc_ran : list string
}.

(** Seconds since 1970 of a date in UTC. *)
Definition epoch_seconds (t : tm) : Z :=
  let y := if (tm_mon t <=? 2)%Z then (tm_year t - 1)%Z else tm_year t in
  let era := (y / 400)%Z in
  let yoe := (y - era * 400)%Z in
  let m := ((tm_mon t + 9) mod 12)%Z in
  let doy := ((153 * m + 2) / 5 + tm_mday t - 1)%Z in
  let doe := (yoe * 365 + yoe / 4 - yoe / 100 + doy)%Z in
  ((era * 146097 + doe - 719468) * 86400 + tm_hour t * 3600 + tm_min t * 60 + tm_sec t)%Z.

#[export] Instance script_platform : Platform script := {|
  popen_read cmd s x :=
    match sc_read x with
    | [] => (Some ("", 0%Z), s, Sc [] (sc_write x) (sc_random x) (sc_ran x ++ [cmd]))
    | r :: l => (r, s, Sc l (sc_write x) (sc_random x) (sc_ran x ++ [cmd]))
    end;
  popen_write cmd _ s x :=
    match sc_write x with
    | [] => (Some 0%Z, s, Sc (sc_read x) [] (sc_random x) (sc_ran x ++ [cmd]))
    | r :: l => (r, s, Sc (sc_read x) l (sc_random x) (sc_ran x ++ [cmd]))
    end;
  current_time _ := "Mon Jan  1 00:00:00 2024";
  unix_time _ := 1704067200%Z;
  mktime _ t := epoch_seconds t;
  random_byte x :=
    match sc_random x with
    | [] => (0, x)
    | b :: l => (b mod 256, Sc (sc_read x) (sc_write x) l (sc_ran x))
    end;
  host_name _ := (0%Z, "host1");
  g_base64_decode s := Some s;
  readdir_order l := l
|}.

#[export] Instance script_platform_laws : PlatformLaws script.
Proof.
  split; [done|]. intros x. unfold random_byte, script_platform.
  destruct (sc_random x) as [|b l]; cbn [fst]; [lia|]. by apply Nat.mod_upper_bound.
Qed.

(** A world with only the directories [/var/credentials-fetcher/krbdir] and an
    idle machine. *)
Definition demo_fs : fs :=
  list_to_map [([], Dir new_dir_info); (["var"], Dir new_dir_info);
               (["var"; "credentials-fetcher"], Dir new_dir_info);
               (["var"; "credentials-fetcher"; "krbdir"], Dir new_dir_info)].
Definition demo_log : logst := (logger_init, mkSink [] true None).
Definition demo_world (x : script) : world script := World demo_fs ∅ demo_log x.
Definition idle : script := Sc [] [] [] [].

End Script.
