(* ===== verification/Json.v ===== *)
(** * The interface of jsoncpp

    [Json::Value] and its reader and writer are a library of their own: they
    are the class [JsonCpp], an argument of every definition that handles JSON,
    with the documented behaviour the code relies on in [JsonCppLaws].
    [Tree] is a small concrete instance, used to evaluate the model. *)
From S2P Require Import Prelude.
From stdpp Require Import options.

Class JsonCpp (V : Type) := {
  (** [Json::nullValue], and the test [v == Json::nullValue] *)
  json_null : V;
  json_is_null : V → bool;
  (** [Json::parseFromStream( reader, stream, &root, &errors )]: its result and
      what [root] holds afterwards *)
  json_parse : string → bool * V;
  (** [v[key]] as an rvalue: throws [Json::LogicError] on a scalar or array *)
  json_get : V → string → outcome V;
  (** [v.asString()]: throws on an array or object *)
  json_as_string : V → outcome string;
  (** the values a range-based [for] visits *)
  json_elements : V → list V;
  (** [v.isMember( key )] *)
  json_is_member : V → string → outcome bool;
  (** [Json::Value( s )] *)
  json_string : string → V;
  (** [v[key] = x] *)
  json_set : V → string → V → outcome V;
  (** [v.append( x )] *)
  json_append : V → V → outcome V;
  (** [Json::writeString( writer, v )] *)
  json_write : V → string
}.

(** A byte that the writer emits so that the reader gives it back: ASCII. *)
Definition is_ascii (c : ascii) : bool := bool_decide (code_of c < 128).

(** The kinds of value the code builds. *)
Inductive json_kind := KNull | KString | KArray | KObject | KOther.

(** The behaviour the code relies on. The library reports a misuse with an
    exception, never with undefined behaviour. *)
Class JsonCppLaws (V : Type) `{JsonCpp V} := {
  json_kind_of : V → json_kind;
  (** [json_text v]: [v] holds only ASCII text, so that writing it and reading
      it back is the identity. *)
  json_text : V → Prop;
  json_kind_null : json_kind_of json_null = KNull;
  json_kind_string s : json_kind_of (json_string s) = KString;
  json_as_string_string s : json_as_string (json_string s) = Ok s;
  json_elements_null : json_elements json_null = [];
  json_set_ok v k x :
    json_kind_of v = KNull ∨ json_kind_of v = KObject →
    ∃ v', json_set v k x = Ok v' ∧ json_kind_of v' = KObject ∧
          json_get v' k = Ok x ∧ json_is_member v' k = Ok true ∧
          (∀ k', k' ≠ k → json_kind_of v = KObject →
             json_get v' k' = json_get v k' ∧ json_is_member v' k' = json_is_member v k') ∧
          (json_text v → json_text x → str_forall is_ascii k = true → json_text v');
  json_append_ok v x :
    json_kind_of v = KNull ∨ json_kind_of v = KArray →
    ∃ v', json_append v x = Ok v' ∧ json_kind_of v' = KArray ∧
          json_elements v' = json_elements v ++ [x] ∧
          (json_text v → json_text x → json_text v');
  json_get_defined v k e : json_get v k ≠ Undefined e;
  json_as_string_defined v e : json_as_string v ≠ Undefined e;
  json_is_member_defined v k e : json_is_member v k ≠ Undefined e;
  json_text_null : json_text json_null;
  json_text_string s : str_forall is_ascii s = true → json_text (json_string s);
  json_parse_write v : json_text v → json_parse (json_write v) = (true, v)
}.

(** ** A concrete instance *)
Module Tree.

(** Objects keep their members in the order they were added. *)
#[warnings="-register-all"]
Inductive tree :=
| TNull
| TBool (b : bool)
| TStr (s : string)
| TArr (l : list tree)
| TObj (l : list (string * tree)).

Fixpoint assoc (k : string) (l : list (string * tree)) : option tree :=
  match l with
  | [] => None
  | (k', v) :: l' => if decide (k' = k) then Some v else assoc k l'
  end.

Fixpoint assoc_set (k : string) (x : tree) (l : list (string * tree)) :
    list (string * tree) :=
  match l with
  | [] => [(k, x)]
  | (k', v) :: l' => if decide (k' = k) then (k', x) :: l' else (k', v) :: assoc_set k x l'
  end.

(** *** Writer *)
Definition quote : ascii := char_of 34.
Definition backslash : ascii := char_of 92.

Fixpoint escape (s : string) : string :=
  match s with
  | EmptyString => EmptyString
  | String c s' =>
    if decide (c = quote ∨ c = backslash) then String backslash (String c (escape s'))
    else String c (escape s')
  end.

Definition write_str (s : string) : string :=
  String quote (escape s +:+ String quote EmptyString).

Fixpoint write (t : tree) : string :=
  match t with
  | TNull => "null"
  | TBool true => "true"
  | TBool false => "false"
  | TStr s => write_str s
  | TArr l =>
    "[" +:+ (fix go l := match l with [] => "" | x :: l' => write x +:+ "," +:+ go l' end) l
        +:+ "]"
  | TObj l =>
    "{" +:+ (fix go l := match l with
                         | [] => ""
                         | (k, x) :: l' => write_str k +:+ ":" +:+ write x +:+ "," +:+ go l'
                         end) l +:+ "}"
  end.

(** *** Reader: blanks are skipped, a comma may follow every element *)
Definition is_blank (c : ascii) : bool :=
  let n := code_of c in bool_decide (n = 32 ∨ n = 10 ∨ n = 13 ∨ n = 9).

Fixpoint skip (s : string) : string :=
  match s with
  | String c s' => if is_blank c || bool_decide (c = ","%char) then skip s' else s
  | EmptyString => EmptyString
  end.

(** The characters of a string literal after its opening quote. *)
Fixpoint read_str (s : string) : option (string * string) :=
  match s with
  | EmptyString => None
  | String c s' =>
    if decide (c = quote) then Some (EmptyString, s')
    else if decide (c = backslash) then
      match s' with
      | String d s'' =>
        match read_str s'' with Some (t, r) => Some (String d t, r) | None => None end
      | EmptyString => None
      end
    else match read_str s' with Some (t, r) => Some (String c t, r) | None => None end
  end.

Definition strip (p s : string) : option string :=
  if String.prefix p s then Some (str_drop (String.length p) s) else None.

Fixpoint read (fuel : nat) (s : string) : option (tree * string) :=
  match fuel with
  | O => None
  | S fuel' =>
    match skip s with
    | String c s' =>
      if decide (c = quote) then
        match read_str s' with Some (t, r) => Some (TStr t, r) | None => None end
      else if decide (c = "["%char) then
        match read_arr fuel' s' with Some (l, r) => Some (TArr l, r) | None => None end
      else if decide (c = "{"%char) then
        match read_obj fuel' s' with Some (l, r) => Some (TObj l, r) | None => None end
      else match strip "null" (String c s'), strip "true" (String c s'),
                 strip "false" (String c s') with
           | Some r, _, _ => Some (TNull, r)
           | _, Some r, _ => Some (TBool true, r)
           | _, _, Some r => Some (TBool false, r)
           | _, _, _ => None
           end
    | EmptyString => None
    end
  end
with read_arr (fuel : nat) (s : string) : option (list tree * string) :=
  match fuel with
  | O => None
  | S fuel' =>
    match skip s with
    | String c s' =>
      if decide (c = "]"%char) then Some ([], s')
      else match read fuel' s with
           | Some (x, r) =>
             match read_arr fuel' r with Some (l, r') => Some (x :: l, r') | None => None end
           | None => None
           end
    | EmptyString => None
    end
  end
with read_obj (fuel : nat) (s : string) : option (list (string * tree) * string) :=
  match fuel with
  | O => None
  | S fuel' =>
    match skip s with
    | String c s' =>
      if decide (c = "}"%char) then Some ([], s')
      else if decide (c = quote) then
        match read_str s' with
        | Some (k, r) =>
          match skip r with
          | String d r' =>
            if decide (d = ":"%char) then
              match read fuel' r' with
              | Some (x, r2) =>
                match read_obj fuel' r2 with
                | Some (l, r3) => Some ((k, x) :: l, r3)
                | None => None
                end
              | None => None
              end
            else None
          | EmptyString => None
          end
        | None => None
        end
      else None
    | EmptyString => None
    end
  end.

Definition parse (s : string) : bool * tree :=
  match read (S (String.length s)) s with
  | Some (t, _) => (true, t)
  | None => (false, TNull)
  end.

#[export] Instance tree_json : JsonCpp tree := {|
  json_null := TNull;
  json_is_null t := match t with TNull => true | _ => false end;
  json_parse := parse;
  json_get t k :=
    match t with
    | TObj l => Ok (default TNull (assoc k l))
    | TNull => Ok TNull
    | _ => Throw "in Json::Value::resolveReference(): requires objectValue"
    end;
  json_as_string t :=
    match t with
    | TNull => Ok ""
    | TBool true => Ok "true"
    | TBool false => Ok "false"
    | TStr s => Ok s
    | _ => Throw "Type is not convertible to string"
    end;
  json_elements t :=
    match t with TArr l => l | TObj l => snd <$> l | _ => [] end;
  json_is_member t k :=
    match t with
    | TObj l => Ok (bool_decide (is_Some (assoc k l)))
    | TNull => Ok false
    | _ => Throw "in Json::Value::find(): requires objectValue or nullValue"
    end;
  json_string := TStr;
  json_set t k x :=
    match t with
    | TObj l => Ok (TObj (assoc_set k x l))
    | TNull => Ok (TObj [(k, x)])
    | _ => Throw "in Json::Value::resolveReference(): requires objectValue"
    end;
  json_append t x :=
    match t with
    | TArr l => Ok (TArr (l ++ [x]))
    | TNull => Ok (TArr [x])
    | _ => Throw "in Json::Value::append: requires arrayValue"
    end;
  json_write := write
|}.

(** *** The instance satisfies the laws *)
#[local] Arguments String.append !_ _ /.

Section tree_ind.
Variable P : tree → Prop.
Hypothesis Hnull : P TNull.
Hypothesis Hbool : ∀ b, P (TBool b).
Hypothesis Hstr : ∀ s, P (TStr s).
Hypothesis Harr : ∀ l, Forall P l → P (TArr l).
Hypothesis Hobj : ∀ l, Forall (λ kv, P kv.2) l → P (TObj l).

Fixpoint tree_nested_ind (t : tree) : P t :=
  match t with
  | TNull => Hnull
  | TBool b => Hbool b
  | TStr s => Hstr s
  | TArr l => Harr l
      ((fix go l : Forall P l :=
          match l with
          | [] => Forall_nil_2 _
          | x :: l' => Forall_cons_2 _ _ _ (tree_nested_ind x) (go l')
          end) l)
  | TObj l => Hobj l
      ((fix go l : Forall (λ kv, P kv.2) l :=
          match l with
          | [] => Forall_nil_2 _
          | kv :: l' => Forall_cons_2 (λ kv, P kv.2) kv l' (tree_nested_ind kv.2) (go l')
          end) l)
  end.
End tree_ind.

Definition write_items (l : list tree) : string :=
  str_concat ((λ x, write x +:+ ",") <$> l).
Definition write_member (kv : string * tree) : string :=
  write_str kv.1 +:+ ":" +:+ write kv.2 +:+ ",".
Definition write_members (l : list (string * tree)) : string :=
  str_concat (write_member <$> l).

Lemma write_items_cons x l : write_items (x :: l) = write x +:+ "," +:+ write_items l.
Proof. unfold write_items. cbn [fmap list_fmap str_concat]. by rewrite str_app_assoc. Qed.

Lemma write_members_cons k x l :
  write_members ((k, x) :: l)
  = write_str k +:+ ":" +:+ write x +:+ "," +:+ write_members l.
Proof.
  unfold write_members, write_member. cbn [fmap list_fmap str_concat fst snd].
  by rewrite !str_app_assoc.
Qed.

Lemma write_arr_eq l : write (TArr l) = "[" +:+ write_items l +:+ "]".
Proof.
  cbn [write]. f_equal. f_equal.
  induction l as [|x l IH]; [done|]. by rewrite write_items_cons, IH.
Qed.

Lemma write_obj_eq l : write (TObj l) = "{" +:+ write_members l +:+ "}".
Proof.
  cbn [write]. f_equal. f_equal.
  induction l as [|[k x] l IH]; [done|]. by rewrite write_members_cons, IH.
Qed.

Lemma read_str_escape s r :
  read_str (escape s +:+ String quote r) = Some (s, r).
Proof.
  induction s as [|c s IH]; cbn [escape].
  - cbn. by rewrite decide_True.
  - case_decide as Hc.
    + cbn. rewrite decide_False, decide_True by done. by rewrite IH.
    + cbn. rewrite !decide_False by naive_solver. by rewrite IH.
Qed.

Lemma strip_app p r : strip p (p +:+ r) = Some r.
Proof.
  unfold strip. rewrite (proj2 (str_prefix_spec p (p +:+ r))) by eauto.
  by rewrite str_drop_app.
Qed.

(** Text that a value can start with: [skip] leaves it alone. *)
Lemma skip_write t r : skip (write t +:+ r) = write t +:+ r.
Proof. by destruct t as [|[]| | |]. Qed.

Lemma write_nonempty t : 1 ≤ String.length (write t).
Proof. destruct t as [|[]| | |]; cbn; lia. Qed.

Lemma strip_other c d p s : c ≠ d → strip (String c p) (String d s) = None.
Proof. intros H. unfold strip. cbn. by destruct (ascii_dec c d). Qed.

Definition reads_back (t : tree) : Prop :=
  ∀ fuel r, String.length (write t) ≤ fuel → read fuel (write t +:+ r) = Some (t, r).

Lemma read_arr_items l fuel r :
  Forall reads_back l → String.length (write_items l) < fuel →
  read_arr fuel (write_items l +:+ String "]" r) = Some (l, r) ∧
  (∀ fuel', fuel = S fuel' →
     read_arr fuel (String "," (write_items l +:+ String "]" r)) = Some (l, r)).
Proof.
  intros Hall. revert fuel. induction Hall as [|x l Hx Hall IH]; intros fuel Hf.
  - destruct fuel as [|fuel]; [lia|]. cbn. split; [done|]. intros ? [= <-]. done.
  - destruct fuel as [|fuel]; [lia|]. rewrite write_items_cons in Hf |- *.
    rewrite !str_app_length in Hf. cbn [String.length] in Hf.
    assert (Hread : ∀ s, skip s = skip (write x +:+ String "," (write_items l +:+ String "]" r)) →
      read_arr (S fuel) s = Some (x :: l, r)).
    { intros s Hs. cbn [read_arr]. rewrite Hs, skip_write.
      assert (Hrd : read fuel s = Some (x, String "," (write_items l +:+ String "]" r))).
      { destruct fuel as [|fuel]; [pose proof (write_nonempty x); lia|].
        rewrite <-(Hx (S fuel) (String "," (write_items l +:+ String "]" r))) by lia.
        cbn [read]. by rewrite Hs. }
      assert (Hnb : ∃ c s', write x +:+ String "," (write_items l +:+ String "]" r)
                            = String c s' ∧ c ≠ "]"%char)
        by (destruct x as [|[]| | |]; cbn; eexists _, _; split; done).
      destruct Hnb as (c & s' & -> & Hc). rewrite decide_False by done. rewrite Hrd.
      destruct (IH fuel ltac:(lia)) as [_ IH2].
      destruct fuel as [|fuel]; [pose proof (write_nonempty x); lia|].
      by rewrite (IH2 fuel eq_refl). }
    rewrite !str_app_assoc. split.
    + by apply Hread.
    + intros fuel' [= <-]. by apply Hread.
Qed.

Lemma read_obj_members l fuel r :
  Forall (λ kv, reads_back kv.2) l → String.length (write_members l) < fuel →
  read_obj fuel (write_members l +:+ String "}" r) = Some (l, r) ∧
  (∀ fuel', fuel = S fuel' →
     read_obj fuel (String "," (write_members l +:+ String "}" r)) = Some (l, r)).
Proof.
  intros Hall. revert fuel. induction Hall as [|[k x] l Hx Hall IH]; intros fuel Hf.
  - destruct fuel as [|fuel]; [lia|]. cbn. split; [done|]. intros ? [= <-]. done.
  - destruct fuel as [|fuel]; [lia|]. rewrite write_members_cons in Hf |- *.
    rewrite !str_app_length in Hf. cbn [String.length] in Hf. cbn [snd] in Hx.
    set (tl := write_members l +:+ String "}" r).
    assert (Hread : ∀ s, skip s = write_str k +:+ String ":" (write x +:+ String "," tl) →
      read_obj (S fuel) s = Some ((k, x) :: l, r)).
    { intros s Hs. cbn [read_obj]. rewrite Hs. unfold write_str.
      cbn [String.append]. rewrite decide_False, decide_True by done.
      rewrite str_app_assoc. change (String quote "" +:+ ?z) with (String quote z).
      rewrite read_str_escape. change (skip (String ":" ?z)) with (String ":"%char z).
      cbv iota beta. rewrite decide_True by done.
      rewrite (Hx fuel) by lia. destruct (IH fuel ltac:(lia)) as [_ IH2].
      destruct fuel as [|fuel]; [pose proof (write_nonempty x); lia|].
      unfold tl. by rewrite (IH2 fuel eq_refl). }
    rewrite !str_app_assoc. split.
    + by apply Hread.
    + intros fuel' [= <-]. by apply Hread.
Qed.

Lemma read_write t : reads_back t.
Proof.
  induction t as [|b|s|l IH|l IH] using tree_nested_ind; intros fuel r Hf.
  - destruct fuel as [|fuel]; [cbn in Hf; lia|]. by destruct r.
  - destruct fuel as [|fuel]; [by destruct b; cbn in Hf; lia|]. by destruct b, r.
  - destruct fuel as [|fuel]; [cbn in Hf; lia|].
    cbn [write]. unfold write_str. cbn [String.append].
    rewrite str_app_assoc. change (String quote "" +:+ r) with (String quote r).
    cbn [read]. change (skip (String quote ?z)) with (String quote z). cbv iota beta.
    by rewrite decide_True, read_str_escape.
  - rewrite write_arr_eq in Hf |- *. rewrite !str_app_length in Hf. cbn [String.length] in Hf.
    destruct fuel as [|fuel]; [lia|]. cbn [String.append]. rewrite str_app_assoc.
    cbn [read]. change (skip (String "[" ?z)) with (String "["%char z). cbv iota beta.
    rewrite decide_False, decide_True by done.
    change ("]" +:+ r) with (String "]" r).
    by rewrite (proj1 (read_arr_items l fuel r IH ltac:(lia))).
  - rewrite write_obj_eq in Hf |- *. rewrite !str_app_length in Hf. cbn [String.length] in Hf.
    destruct fuel as [|fuel]; [lia|]. cbn [String.append]. rewrite str_app_assoc.
    cbn [read]. change (skip (String "{" ?z)) with (String "{"%char z). cbv iota beta.
    rewrite !decide_False, decide_True by done.
    change ("}" +:+ r) with (String "}" r).
    by rewrite (proj1 (read_obj_members l fuel r IH ltac:(lia))).
Qed.

Lemma assoc_set_eq k x l : assoc k (assoc_set k x l) = Some x.
Proof.
  induction l as [|[k' v] l IH]; cbn; [by rewrite decide_True|].
  case_decide as Hk; cbn; [by rewrite decide_True|by rewrite decide_False].
Qed.

Lemma assoc_set_ne k k' x l : k' ≠ k → assoc k' (assoc_set k x l) = assoc k' l.
Proof.
  intros Hne. induction l as [|[k0 v] l IH]; cbn.
  - by rewrite decide_False.
  - destruct (decide (k0 = k)) as [->|]; cbn; case_decide; congruence.
Qed.

Definition tree_kind (t : tree) : json_kind :=
  match t with
  | TNull => KNull | TStr _ => KString | TArr _ => KArray | TObj _ => KObject
  | TBool _ => KOther
  end.

#[export] Program Instance tree_json_laws : JsonCppLaws tree := {|
  json_kind_of := tree_kind;
  json_text := λ _, True
|}.
Solve Obligations with try done.
Next Obligation.
  intros v k x Hk. destruct v as [| | | |l]; cbn in Hk; try (by destruct Hk).
  - exists (TObj [(k, x)]). cbn. rewrite decide_True by done. cbn. split_and!; try done.
  - exists (TObj (assoc_set k x l)). cbn. rewrite assoc_set_eq. cbn.
    split_and!; try done. intros k' Hne _. by rewrite assoc_set_ne.
Qed.
Next Obligation.
  intros v x Hk. destruct v as [| | |l|]; cbn in Hk; try (by destruct Hk).
  - by exists (TArr [x]).
  - by exists (TArr (l ++ [x])).
Qed.
Next Obligation. by intros []. Qed.
Next Obligation. by intros [|[]| | |]. Qed.
Next Obligation. by intros []. Qed.
Next Obligation.
  intros v _. cbn. unfold parse. rewrite <-(str_app_nil_r (write v)) at 2.
  by rewrite read_write by lia.
Qed.

End Tree.
