(* ===== verification/Regex.v ===== *)
(** * Regular expressions ([std::regex], ECMAScript)

    The part of [std::regex] the code uses: character classes, sequence,
    alternative, greedy repetition and capture groups, with [regex_match] and
    [regex_search]. [match_all] is a backtracking matcher: it lists the ways an
    expression matches a prefix of the input, in the order ECMAScript tries
    them. [lang] is the language of an expression, and the two agree. *)
From S2P Require Import Prelude.
From stdpp Require Import options.

Definition chars_of (s : string) : list ascii := String.list_ascii_of_string s.
Definition string_of (l : list ascii) : string := String.string_of_list_ascii l.

Inductive regex :=
| RChar (p : ascii → bool)
| REps
| RSeq (r1 r2 : regex)
| RAlt (r1 r2 : regex)
| RStar (r : regex)
| RGroup (n : nat) (r : regex).

(** The capture groups set so far, most recent first. *)
Definition captures : Type := list (nat * list ascii).

(** All ways to match a prefix of the input: the rest of the input and the
    captures. A turn of [RStar] that consumes nothing is not repeated. *)
Fixpoint match_all (r : regex) (s : list ascii) (c : captures) : list (list ascii * captures) :=
  match r with
  | RChar p => match s with a :: s' => if p a then [(s', c)] else [] | [] => [] end
  | REps => [(s, c)]
  | RSeq r1 r2 => m ← match_all r1 s c; match_all r2 m.1 m.2
  | RAlt r1 r2 => match_all r1 s c ++ match_all r2 s c
  | RStar r1 =>
    (fix star (fuel : nat) (s : list ascii) (c : captures) : list (list ascii * captures) :=
       match fuel with
       | O => [(s, c)]
       | S fuel' =>
         (m ← match_all r1 s c;
          if length m.1 <? length s then star fuel' m.1 m.2 else []) ++ [(s, c)]
       end) (length s) s c
  | RGroup n r1 =>
    (λ m, (m.1, (n, take (length s - length m.1) s) :: m.2)) <$> match_all r1 s c
  end.

(** The loop of [RStar], by itself. *)
Fixpoint match_star (r1 : regex) (fuel : nat) (s : list ascii) (c : captures) :
    list (list ascii * captures) :=
  match fuel with
  | O => [(s, c)]
  | S fuel' =>
    (m ← match_all r1 s c;
     if length m.1 <? length s then match_star r1 fuel' m.1 m.2 else []) ++ [(s, c)]
  end.

(** [std::regex_match( s, pattern )]: the whole input matches. *)
Definition regex_match (r : regex) (s : list ascii) : bool :=
  existsb (λ m : list ascii * captures, bool_decide (m.1 = [])) (match_all r s []).

(** [std::regex_search( s, match, pattern )]: the leftmost match, and at that
    place the first one tried; the result is [match[0]] and the captures. *)
Fixpoint regex_search (r : regex) (s : list ascii) : option (list ascii * captures) :=
  match match_all r s [] with
  | m :: _ => Some (take (length s - length m.1) s, m.2)
  | [] => match s with [] => None | _ :: s' => regex_search r s' end
  end.

(** [match[n]]: the text of group [n], empty when it did not take part. *)
Fixpoint capture (n : nat) (c : captures) : list ascii :=
  match c with
  | [] => []
  | (k, t) :: c' => if decide (k = n) then t else capture n c'
  end.

(** ** Derived forms *)

(** [r{n}] *)
Fixpoint r_exact (n : nat) (r : regex) : regex :=
  match n with O => REps | S n' => RSeq r (r_exact n' r) end.

(** [r{0,n}], greedy *)
Fixpoint r_upto (n : nat) (r : regex) : regex :=
  match n with O => REps | S n' => RAlt (RSeq r (r_upto n' r)) REps end.

(** [r+] *)
Definition r_plus (r : regex) : regex := RSeq r (RStar r).

(** A literal text. *)
Fixpoint r_lit (s : string) : regex :=
  match s with
  | EmptyString => REps
  | String a s' => RSeq (RChar (λ c, bool_decide (c = a))) (r_lit s')
  end.

Definition is_digit (c : ascii) : bool :=
  let n := code_of c in bool_decide (48 ≤ n ∧ n ≤ 57).
Definition is_letter (c : ascii) : bool :=
  let n := code_of c in bool_decide ((65 ≤ n ∧ n ≤ 90) ∨ (97 ≤ n ∧ n ≤ 122)).

(** ** The language of an expression *)
Inductive lang : regex → list ascii → Prop :=
| lang_char p a : p a = true → lang (RChar p) [a]
| lang_eps : lang REps []
| lang_seq r1 r2 s1 s2 : lang r1 s1 → lang r2 s2 → lang (RSeq r1 r2) (s1 ++ s2)
| lang_alt_l r1 r2 s : lang r1 s → lang (RAlt r1 r2) s
| lang_alt_r r1 r2 s : lang r2 s → lang (RAlt r1 r2) s
| lang_star_nil r : lang (RStar r) []
| lang_star_cons r s1 s2 : s1 ≠ [] → lang r s1 → lang (RStar r) s2 → lang (RStar r) (s1 ++ s2)
| lang_group n r s : lang r s → lang (RGroup n r) s.

(** ** Lemmas *)
Lemma match_all_star r s c : match_all (RStar r) s c = match_star r (length s) s c.
Proof.
  cbn [match_all]. generalize (length s) as n. intros n. revert s c.
  induction n as [|n IH]; intros s c; [done|]. cbn [match_star]. f_equal.
  apply list_bind_ext; [|done]. intros m. by destruct (_ <? _).
Qed.

Lemma match_all_sound r s c s' c' :
  (s', c') ∈ match_all r s c → ∃ pre, s = pre ++ s' ∧ lang r pre.
Proof.
  revert s c s' c'. induction r as [p| |r1 IH1 r2 IH2|r1 IH1 r2 IH2|r IH|n r IH];
    intros s c s' c' Hin.
  - cbn in Hin. destruct s as [|a s]; [by apply elem_of_nil in Hin|].
    destruct (p a) eqn:Hp; [|by apply elem_of_nil in Hin].
    apply list_elem_of_singleton in Hin. simplify_eq. exists [a].
    split; [done|by constructor].
  - cbn in Hin. apply list_elem_of_singleton in Hin. simplify_eq.
    exists []. split; [done|constructor].
  - cbn in Hin. apply list_elem_of_bind in Hin as ([s1 c1] & H2 & H1).
    apply IH1 in H1 as (pre1 & -> & Hl1). apply IH2 in H2 as (pre2 & Heq & Hl2).
    cbn in Heq. subst s1. exists (pre1 ++ pre2).
    split; [by rewrite app_assoc|by constructor].
  - cbn in Hin. apply elem_of_app in Hin as [Hin|Hin].
    + apply IH1 in Hin as (pre & -> & ?). eauto using lang_alt_l.
    + apply IH2 in Hin as (pre & -> & ?). eauto using lang_alt_r.
  - rewrite match_all_star in Hin. revert Hin. generalize (length s) at 1 as n.
    intros n. revert s c. induction n as [|n IHn]; intros s c; cbn [match_star].
    + intros [= <- <-]%list_elem_of_singleton. exists []. split; [done|constructor].
    + rewrite elem_of_app, list_elem_of_bind. intros [([s1 c1] & H2 & H1)|Hin].
      * cbn [fst snd] in H2. destruct (Nat.ltb_spec (length s1) (length s)) as [Hlt|];
          [|by apply elem_of_nil in H2].
        apply IH in H1 as (pre1 & -> & Hl1). apply IHn in H2 as (pre2 & -> & Hl2).
        exists (pre1 ++ pre2). split; [by rewrite app_assoc|].
        apply lang_star_cons; [|done..]. intros ->. cbn in Hlt. lia.
      * apply list_elem_of_singleton in Hin as [= <- <-]. exists [].
        split; [done|constructor].
  - cbn in Hin. apply list_elem_of_fmap in Hin as ([s1 c1] & Heq & Hin).
    cbn in Heq. simplify_eq. apply IH in Hin as (pre & -> & ?).
    exists pre. split; [done|by constructor].
Qed.

Lemma match_all_complete r pre rest c :
  lang r pre → ∃ c', (rest, c') ∈ match_all r (pre ++ rest) c.
Proof.
  intros Hl. revert rest c.
  induction Hl as [p a Hp| |r1 r2 s1 s2 _ IH1 _ IH2|r1 r2 s _ IH|r1 r2 s _ IH|r
                  |r s1 s2 Hne _ IH1 _ IH2|n r s _ IH]; intros rest c.
  - exists c. cbn. rewrite Hp. by apply list_elem_of_singleton.
  - exists c. cbn. by apply list_elem_of_singleton.
  - destruct (IH1 (s2 ++ rest) c) as [c1 H1]. destruct (IH2 rest c1) as [c2 H2].
    exists c2. cbn. rewrite <-app_assoc. apply list_elem_of_bind.
    by exists (s2 ++ rest, c1).
  - destruct (IH rest c) as [c' H]. exists c'. cbn. apply elem_of_app. by left.
  - destruct (IH rest c) as [c' H]. exists c'. cbn. apply elem_of_app. by right.
  - exists c. rewrite match_all_star. cbn. destruct (length rest); cbn.
    + by apply list_elem_of_singleton.
    + apply elem_of_app. right. by apply list_elem_of_singleton.
  - destruct (IH1 (s2 ++ rest) c) as [c1 H1]. destruct (IH2 rest c1) as [c2 H2].
    exists c2. rewrite match_all_star in H2 |- *. rewrite <-app_assoc.
    assert (Hlen : length (s2 ++ rest) < length (s1 ++ s2 ++ rest)).
    { rewrite (length_app s1). destruct s1; [done|cbn; lia]. }
    assert (Hmono : ∀ n m s c x, length s ≤ n → n ≤ m →
      x ∈ match_star r n s c → x ∈ match_star r m s c).
    { clear. induction n as [|n IH]; intros m s c x Hs Hm; cbn [match_star].
      - destruct s; [|cbn in Hs; lia]. intros Hx. destruct m; [done|].
        cbn [match_star]. apply elem_of_app. by right.
      - destruct m as [|m]; [lia|]. cbn [match_star]. rewrite !elem_of_app, !list_elem_of_bind.
        intros [(y & Hy & Hin)|Hx]; [left|by right]. exists y. split; [|done].
        destruct (Nat.ltb_spec (length y.1) (length s)); [|done].
        apply IH; [lia|lia|done]. }
    destruct (length (s1 ++ s2 ++ rest)) as [|n] eqn:Hn; [lia|]. cbn [match_star].
    apply elem_of_app. left. apply list_elem_of_bind. exists (s2 ++ rest, c1).
    split; [|done]. cbn [fst snd]. rewrite Hn.
    destruct (Nat.ltb_spec (length (s2 ++ rest)) (S n)); [|lia].
    eapply Hmono; [|by apply Nat.lt_succ_r|exact H2]. done.
  - destruct (IH rest c) as [c' H]. eexists. cbn. apply list_elem_of_fmap.
    exists (rest, c'). split; [done|exact H].
Qed.

(** The matcher decides the language. *)
Lemma regex_match_lang r s : regex_match r s = true ↔ lang r s.
Proof.
  unfold regex_match. rewrite existsb_exists. split.
  - intros ([s' c'] & Hin & He%bool_decide_eq_true). cbn in He. subst s'.
    apply list_elem_of_In, match_all_sound in Hin as (pre & -> & Hl).
    by rewrite app_nil_r.
  - intros Hl. destruct (match_all_complete r s [] [] Hl) as [c' Hin].
    rewrite app_nil_r in Hin. exists ([], c'). split; [by apply list_elem_of_In|done].
Qed.

Lemma regex_search_sound r s m c :
  regex_search r s = Some (m, c) → ∃ a b, s = a ++ m ++ b ∧ lang r m.
Proof.
  induction s as [|x s IH]; cbn [regex_search].
  - destruct (match_all r [] []) as [|[s' c'] l] eqn:Hm; [done|]. intros [= <- <-].
    destruct (match_all_sound r [] [] s' c') as (pre & Heq & Hl); [rewrite Hm; by left|].
    symmetry in Heq. apply app_eq_nil in Heq as [-> ->]. by exists [], [].
  - destruct (match_all r (x :: s) []) as [|[s' c'] l] eqn:Hm.
    + intros (a & b & -> & Hl)%IH. by exists (x :: a), b.
    + intros [= Hmm <-]. symmetry in Hmm.
      destruct (match_all_sound r (x :: s) [] s' c') as (pre & Heq & Hl);
        [rewrite Hm; by left|].
      assert (Htk : take (length (x :: s) - length s') (x :: s) = pre)
        by (rewrite Heq, length_app, Nat.add_sub; apply take_app_length).
      exists [], s'. change (m = take (length (x :: s) - length s') (x :: s)) in Hmm.
      subst m. by rewrite Htk.
Qed.

Lemma regex_search_complete r a m b :
  lang r m → is_Some (regex_search r (a ++ m ++ b)).
Proof.
  intros Hl. induction a as [|x a IH]; cbn [app regex_search].
  - destruct (match_all_complete r m b [] Hl) as [c' Hin].
    destruct (m ++ b); cbn [regex_search]; destruct (match_all r _ []);
      solve [by apply elem_of_nil in Hin|eauto].
  - destruct (match_all r _ []); [done|eauto].
Qed.

(** *** Inversions *)
Lemma lang_seq_inv r1 r2 s :
  lang (RSeq r1 r2) s ↔ ∃ s1 s2, s = s1 ++ s2 ∧ lang r1 s1 ∧ lang r2 s2.
Proof.
  split; [inversion 1; subst; eauto 10|]. intros (s1 & s2 & -> & ? & ?). by constructor.
Qed.

Lemma lang_char_inv p s : lang (RChar p) s ↔ ∃ a, s = [a] ∧ p a = true.
Proof. split; [inversion 1; subst; eauto|]. intros (a & -> & ?). by constructor. Qed.

Lemma lang_alt_inv r1 r2 s : lang (RAlt r1 r2) s ↔ lang r1 s ∨ lang r2 s.
Proof. split; [inversion 1; subst; auto|]. intros [?|?]; eauto using lang_alt_l, lang_alt_r. Qed.

Lemma lang_eps_inv s : lang REps s ↔ s = [].
Proof. split; [by inversion 1|intros ->; constructor]. Qed.

Lemma lang_group_inv n r s : lang (RGroup n r) s ↔ lang r s.
Proof. split; [by inversion 1|by constructor]. Qed.

Lemma lang_upto n p s :
  lang (r_upto n (RChar p)) s ↔ length s ≤ n ∧ Forall (λ c, p c = true) s.
Proof.
  revert s. induction n as [|n IH]; intros s; cbn [r_upto].
  - rewrite lang_eps_inv. split; [by intros ->|]. intros [Hl _]. by destruct s; [|cbn in Hl; lia].
  - rewrite lang_alt_inv, lang_seq_inv, lang_eps_inv. split.
    + intros [(s1 & s2 & -> & (a & -> & Ha)%lang_char_inv & [Hl Hall]%IH)| ->]; cbn.
      * split; [lia|by constructor].
      * split; [lia|constructor].
    + intros [Hl Hall]. destruct s as [|a s]; [by right|left].
      apply Forall_cons in Hall as [Ha Hall]. exists [a], s.
      split_and!; [done|by constructor|]. apply IH. cbn in Hl. split; [lia|done].
Qed.

Lemma lang_exact n p s :
  lang (r_exact n (RChar p)) s ↔ length s = n ∧ Forall (λ c, p c = true) s.
Proof.
  revert s. induction n as [|n IH]; intros s; cbn [r_exact].
  - rewrite lang_eps_inv. split; [by intros ->|]. intros [Hl _]. by destruct s.
  - rewrite lang_seq_inv. split.
    + intros (s1 & s2 & -> & (a & -> & Ha)%lang_char_inv & [Hl Hall]%IH). cbn.
      split; [lia|by constructor].
    + intros [Hl Hall]. destruct s as [|a s]; [done|].
      apply Forall_cons in Hall as [Ha Hall]. exists [a], s.
      split_and!; [done|by constructor|]. apply IH. cbn in Hl. split; [lia|done].
Qed.

Lemma lang_lit t s : lang (r_lit t) s ↔ s = chars_of t.
Proof.
  revert s. induction t as [|a t IH]; intros s; cbn [r_lit chars_of].
  - apply lang_eps_inv.
  - rewrite lang_seq_inv. split.
    + intros (s1 & s2 & -> & (b & -> & Hb%bool_decide_eq_true)%lang_char_inv & Hs%IH).
      by subst.
    + intros ->. exists [a], (chars_of t). split_and!; [done| |by apply IH].
      constructor. by apply bool_decide_eq_true.
Qed.

Lemma lang_star_char p s : lang (RStar (RChar p)) s ↔ Forall (λ c, p c = true) s.
Proof.
  split.
  - intros Hl. remember (RStar (RChar p)) as r eqn:Hr.
    induction Hl as [| | | | | |r s1 s2 Hne Hl1 _ Hl2 IH2|]; simplify_eq; [constructor|].
    apply lang_char_inv in Hl1 as (a & -> & Ha). apply Forall_app. auto.
  - induction 1 as [|a s Ha _ IH]; [constructor|].
    apply (lang_star_cons _ [a] s); [done|by constructor|done].
Qed.

(** ** Matches with their captures

    [clang r s c c']: [r] matches exactly [s], and the captures grow from [c]
    to [c']. *)
Inductive clang : regex → list ascii → captures → captures → Prop :=
| clang_char p a c : p a = true → clang (RChar p) [a] c c
| clang_eps c : clang REps [] c c
| clang_seq r1 r2 s1 s2 c c1 c2 :
    clang r1 s1 c c1 → clang r2 s2 c1 c2 → clang (RSeq r1 r2) (s1 ++ s2) c c2
| clang_alt_l r1 r2 s c c' : clang r1 s c c' → clang (RAlt r1 r2) s c c'
| clang_alt_r r1 r2 s c c' : clang r2 s c c' → clang (RAlt r1 r2) s c c'
| clang_star_nil r c : clang (RStar r) [] c c
| clang_star_cons r s1 s2 c c1 c2 :
    clang r s1 c c1 → clang (RStar r) s2 c1 c2 → clang (RStar r) (s1 ++ s2) c c2
| clang_group n r s c c' : clang r s c c' → clang (RGroup n r) s c ((n, s) :: c').

Lemma match_all_clang r s c s' c' :
  (s', c') ∈ match_all r s c → ∃ pre, s = pre ++ s' ∧ clang r pre c c'.
Proof.
  revert s c s' c'. induction r as [p| |r1 IH1 r2 IH2|r1 IH1 r2 IH2|r IH|n r IH];
    intros s c s' c' Hin.
  - cbn in Hin. destruct s as [|a s]; [by apply elem_of_nil in Hin|].
    destruct (p a) eqn:Hp; [|by apply elem_of_nil in Hin].
    apply list_elem_of_singleton in Hin. simplify_eq. exists [a]. split; [done|by constructor].
  - cbn in Hin. apply list_elem_of_singleton in Hin. simplify_eq.
    exists []. split; [done|constructor].
  - cbn in Hin. apply list_elem_of_bind in Hin as ([s1 c1] & Hin2 & Hin1).
    apply IH1 in Hin1 as (pre1 & -> & Hl1). apply IH2 in Hin2 as (pre2 & Heq & Hl2).
    cbn in Heq, Hl2. subst s1. exists (pre1 ++ pre2). rewrite app_assoc.
    eauto using clang_seq.
  - cbn in Hin. apply elem_of_app in Hin as [Hin|Hin].
    + apply IH1 in Hin as (pre & -> & ?). eauto using clang_alt_l.
    + apply IH2 in Hin as (pre & -> & ?). eauto using clang_alt_r.
  - rewrite match_all_star in Hin. revert Hin. generalize (length s) at 1 as n.
    intros n. revert s c. induction n as [|n IHn]; intros s c; cbn [match_star].
    + intros [= <- <-]%list_elem_of_singleton. exists []. split; [done|constructor].
    + rewrite elem_of_app, list_elem_of_bind. intros [([s1 c1] & Hin2 & Hin1)|Hin].
      * cbn [fst snd] in Hin2. destruct (Nat.ltb_spec (length s1) (length s));
          [|by apply elem_of_nil in Hin2].
        apply IH in Hin1 as (pre1 & -> & Hl1). apply IHn in Hin2 as (pre2 & -> & Hl2).
        exists (pre1 ++ pre2). rewrite app_assoc. eauto using clang_star_cons.
      * apply list_elem_of_singleton in Hin as [= <- <-]. exists []. split; [done|constructor].
  - cbn in Hin. apply list_elem_of_fmap in Hin as ([s1 c1] & Heq & Hin).
    cbn in Heq. simplify_eq. apply IH in Hin as (pre & -> & ?).
    exists pre. split; [done|].
    rewrite length_app, Nat.add_sub, take_app_length. by constructor.
Qed.

Lemma regex_search_clang r s m c :
  regex_search r s = Some (m, c) → ∃ a b, s = a ++ m ++ b ∧ clang r m [] c.
Proof.
  induction s as [|x s IH]; cbn [regex_search].
  - destruct (match_all r [] []) as [|[s' c'] l] eqn:Hm; [done|]. intros [= <- <-].
    destruct (match_all_clang r [] [] s' c') as (pre & Heq & Hl); [rewrite Hm; by left|].
    symmetry in Heq. apply app_eq_nil in Heq as [-> ->]. by exists [], [].
  - destruct (match_all r (x :: s) []) as [|[s' c'] l] eqn:Hm.
    + intros (a & b & -> & Hl)%IH. by exists (x :: a), b.
    + intros [= Hmm <-]. symmetry in Hmm.
      destruct (match_all_clang r (x :: s) [] s' c') as (pre & Heq & Hl);
        [rewrite Hm; by left|].
      assert (Htk : take (length (x :: s) - length s') (x :: s) = pre)
        by (rewrite Heq, length_app, Nat.add_sub; apply take_app_length).
      exists [], s'. change (m = take (length (x :: s) - length s') (x :: s)) in Hmm.
      subst m. by rewrite Htk.
Qed.

(** Forgetting the captures. *)
Lemma clang_lang r s c c' : clang r s c c' → lang r s.
Proof.
  induction 1 as [| | | | | |r s1 s2 c c1 c2 _ IH1 _ IH2|];
    eauto using lang_seq, lang_alt_l, lang_alt_r, lang_group, lang_char, lang_eps, lang_star_nil.
  destruct s1 as [|a s1]; [done|]. by apply lang_star_cons.
Qed.

(** An expression without groups leaves the captures as they are. *)
Fixpoint groups (r : regex) : nat :=
  match r with
  | RChar _ | REps => 0
  | RSeq r1 r2 | RAlt r1 r2 => groups r1 + groups r2
  | RStar r1 => groups r1
  | RGroup _ r1 => S (groups r1)
  end.

Lemma clang_no_groups r s c c' : clang r s c c' → groups r = 0 → c' = c.
Proof.
  induction 1 as [| |r1 r2 s1 s2 c c1 c2 _ IH1 _ IH2| | | |r s1 s2 c c1 c2 _ IH1 _ IH2|];
    cbn in *; intros Hg; try done.
  - rewrite IH2, IH1 by lia. done.
  - auto with lia.
  - auto with lia.
  - rewrite IH2, IH1 by lia. done.
Qed.

Lemma clang_seq_inv r1 r2 s c c' :
  clang (RSeq r1 r2) s c c' →
  ∃ s1 s2 c1, s = s1 ++ s2 ∧ clang r1 s1 c c1 ∧ clang r2 s2 c1 c'.
Proof. inversion 1; subst; eauto 10. Qed.

Lemma clang_group_inv n r s c c' :
  clang (RGroup n r) s c c' → ∃ c1, c' = (n, s) :: c1 ∧ clang r s c c1.
Proof. inversion 1; subst; eauto. Qed.

(** ** Characters and strings *)
Lemma chars_of_app a b : chars_of (a +:+ b) = chars_of a ++ chars_of b.
Proof. unfold chars_of. induction a as [|c a IH]; [done|exact (f_equal (cons c) IH)]. Qed.

Lemma chars_of_string_of l : chars_of (string_of l) = l.
Proof. apply String.list_ascii_of_string_of_list_ascii. Qed.

Lemma string_of_chars_of s : string_of (chars_of s) = s.
Proof. apply String.string_of_list_ascii_of_string. Qed.

Lemma chars_of_inj a b : chars_of a = chars_of b → a = b.
Proof. intros H. by rewrite <-(string_of_chars_of a), H, string_of_chars_of. Qed.

(** [regex_match] decides the language of the expression, and
    [regex_search] finds a match whenever one exists anywhere in the input, and
    only then. *)
Theorem regex_correct r s :
  (regex_match r s = true ↔ lang r s) ∧
  (is_Some (regex_search r s) ↔ ∃ a m b, s = a ++ m ++ b ∧ lang r m).
Proof.
  split; [apply regex_match_lang|]. split.
  - intros [[m c] Hm]. apply regex_search_sound in Hm as (a & b & -> & Hl). eauto 10.
  - intros (a & m & b & -> & Hl). by apply regex_search_complete.
Qed.
