(* ===== verification/Validation.v ===== *)
(** * Input validation

    The guards every request passes: [isValidDomain],
    [contains_invalid_characters_in_credentials],
    [contains_invalid_characters_in_ad_account_name] and
    [IsTestInvocationForUnitTests] of [api/src/gmsa_service.cpp], and
    [contains_invalid_characters] of [metadata/src/metadata.cpp]. *)
From S2P Require Import Prelude StrUtil Regex.
From stdpp Require Import options.

(** ** Domain names *)

(** [[a-zA-Z0-9]] and [[a-zA-Z0-9\-]] *)
Definition alnum (c : ascii) : bool := is_digit c || is_letter c.
Definition alnum_dash (c : ascii) : bool := alnum c || bool_decide (c = "-"%char).

(** [([a-zA-Z0-9]|[a-zA-Z0-9][a-zA-Z0-9\-]{0,61}[a-zA-Z0-9])] *)
Definition label_regex : regex :=
  RAlt (RChar alnum)
       (RSeq (RChar alnum) (RSeq (r_upto 61 (RChar alnum_dash)) (RChar alnum))).

(** [^label(\.(label))*$] *)
Definition domain_regex : regex :=
  RSeq (RGroup 1 label_regex)
       (RStar (RGroup 2 (RSeq (RChar (λ c, bool_decide (c = dot))) (RGroup 3 label_regex)))).

Definition isValidDomain (value : string) : bool :=
  if str_empty value then false else regex_match domain_regex (chars_of value).

(** ** Forbidden characters *)

(** The loop over a vector of characters with [value.find( ch )] and [break]. *)
Fixpoint contains_any (chs : list ascii) (value : string) : bool :=
  match chs with
  | [] => false
  | ch :: rest => if has_char ch value then true else contains_any rest value
  end.

(** [invalid_characters] of [auth/kerberos/src/krb.cpp] *)
Definition invalid_characters : list ascii :=
  ["&"; "|"; ";"; ":"; "$"; "*"; "?"; "<"; ">"; "!"; " "; "\"; "."; "]"; "["; "+";
   "'"; "`"; "~"; "}"; "{"; char_of 34; ")"; "("]%char.

(** [invalid_characters_ad_name] *)
Definition invalid_characters_ad_name : list ascii :=
  ["&"; ":"; "]"; "["; "+"; "|"; ";"; "$"; "*"; "?"; "<"; ">"; "!"; " "; "/"; "\";
   "'"; "`"; "~"]%char.

(** [invalid_path_characters] of [metadata/src/metadata.cpp] *)
Definition invalid_path_characters : list ascii :=
  ["&"; ":"; "\"; "|"; "*"; "?"; "<"; ">"; "`"; "$"; "{"; "}"; "("; ")"; char_of 34;
   ";"]%char.

Definition contains_invalid_characters_in_credentials (value : string) : bool :=
  contains_any invalid_characters value.
Definition contains_invalid_characters_in_ad_account_name (value : string) : bool :=
  contains_any invalid_characters_ad_name value.
Definition contains_invalid_characters (path : string) : bool :=
  contains_any invalid_path_characters path.

Definition IsTestInvocationForUnitTests (arn : string) : bool :=
  match str_find "functionaltestcfspec" arn with Some _ => true | None => false end.

(** ** The reference: host names of RFC 1123 *)
Definition valid_label (l : list ascii) : Prop :=
  1 ≤ length l ≤ 63 ∧ Forall (λ c, alnum_dash c = true) l ∧
  (∀ c, head l = Some c → alnum c = true) ∧ (∀ c, last l = Some c → alnum c = true).

Definition valid_host_name (s : string) : Prop :=
  ∃ labels : list string, labels ≠ [] ∧ s = str_join "." labels ∧
    Forall (λ l, valid_label (chars_of l)) labels.

(** ** Lemmas *)
Lemma contains_any_spec chs v :
  contains_any chs v = true ↔ ∃ c, c ∈ chs ∧ has_char c v = true.
Proof.
  induction chs as [|c chs IH]; cbn.
  - split; [done|]. intros (? & ?%elem_of_nil & _). done.
  - destruct (has_char c v) eqn:Hc.
    + split; [|done]. intros _. exists c. split; [by left|done].
    + rewrite IH. split; intros (d & Hd & Hv); exists d; (split; [|done]).
      * by right.
      * apply elem_of_cons in Hd as [->|Hd]; congruence.
Qed.

Lemma contains_any_false chs v c :
  contains_any chs v = false → c ∈ chs → has_char c v = false.
Proof.
  intros Hf Hc. destruct (has_char c v) eqn:Hv; [|done].
  rewrite (proj2 (contains_any_spec chs v)) in Hf; [done|eauto].
Qed.

Lemma alnum_alnum_dash c : alnum c = true → alnum_dash c = true.
Proof. unfold alnum_dash. by intros ->. Qed.

Lemma label_regex_lang l : lang label_regex l ↔ valid_label l.
Proof.
  unfold label_regex. rewrite lang_alt_inv, lang_char_inv, lang_seq_inv.
  split.
  - intros [(a & -> & Ha)|(s1 & s2 & -> & (a & -> & Ha)%lang_char_inv & H2)].
    + split_and!; cbn; [lia|lia| | |].
      * constructor; [by apply alnum_alnum_dash|constructor].
      * by intros ? [= <-].
      * by intros ? [= <-].
    + apply lang_seq_inv in H2 as (m & e & -> & [Hl Hm]%lang_upto & (b & -> & Hb)%lang_char_inv).
      split_and!.
      * cbn. lia.
      * cbn. rewrite length_app. cbn. lia.
      * repeat constructor; [by apply alnum_alnum_dash|]. apply Forall_app.
        split; [done|]. constructor; [by apply alnum_alnum_dash|constructor].
      * by intros ? [= <-].
      * intros c. rewrite app_assoc, last_snoc. by intros [= <-].
  - intros (Hlen & Hall & Hhd & Hlast). destruct l as [|a l]; [cbn in Hlen; lia|].
    specialize (Hhd a eq_refl). destruct l as [|b l _] using rev_ind.
    { left. eauto. }
    right. exists [a], (l ++ [b]). split; [done|]. split; [by constructor|].
    apply lang_seq_inv. exists l, [b]. split; [done|].
    apply Forall_cons in Hall as [_ [Hl _]%Forall_app].
    cbn in Hlen. rewrite length_app in Hlen. cbn in Hlen. split.
    + apply lang_upto. split; [lia|done].
    + constructor. apply Hlast. by rewrite app_comm_cons, last_snoc.
Qed.

(** The tail [(\.(label))*] matches a list of labels, each after a dot. *)
Lemma dotted_labels_lang s :
  lang (RStar (RGroup 2 (RSeq (RChar (λ c, bool_decide (c = dot))) (RGroup 3 label_regex)))) s
  ↔ ∃ ls : list (list ascii), s = ls ≫= (λ l, dot :: l) ∧ Forall valid_label ls.
Proof.
  set (r := RGroup 2 _). split.
  - intros Hl. remember (RStar r) as r' eqn:Hr.
    induction Hl as [| | | | | |r0 s1 s2 Hne Hl1 _ Hl2 IH2|]; simplify_eq.
    { by exists []. }
    destruct (IH2 eq_refl) as (ls & -> & Hls).
    apply lang_group_inv, lang_seq_inv in Hl1
      as (d & l & -> & (a & -> & Ha%bool_decide_eq_true)%lang_char_inv & Hlab).
    apply lang_group_inv, label_regex_lang in Hlab. subst a.
    exists (l :: ls). split; [done|by constructor].
  - intros (ls & -> & Hls). induction Hls as [|l ls Hl _ IH]; [constructor|].
    cbn [mbind list_bind]. change (dot :: l ++ ?x) with ((dot :: l) ++ x).
    apply lang_star_cons; [done| |exact IH]. apply lang_group_inv.
    apply (lang_seq _ _ [dot] l); [by constructor|].
    by apply lang_group_inv, label_regex_lang.
Qed.

Lemma chars_of_join l ls :
  chars_of (str_join "." (l :: ls)) = chars_of l ++ ((chars_of <$> ls) ≫= (λ x, dot :: x)).
Proof.
  revert l. induction ls as [|l' ls IH]; intros l.
  - cbn. by rewrite app_nil_r.
  - rewrite str_join_cons, !chars_of_app, IH by done. done.
Qed.

Lemma domain_regex_lang s : lang domain_regex (chars_of s) ↔ valid_host_name s.
Proof.
  unfold domain_regex. rewrite lang_seq_inv. split.
  - intros (s1 & s2 & Heq & Hl1 & (ls & -> & Hls)%dotted_labels_lang).
    apply lang_group_inv, label_regex_lang in Hl1.
    exists (string_of s1 :: (string_of <$> ls)). split; [done|].
    assert (Hls' : chars_of <$> (string_of <$> ls) = ls).
    { rewrite <-list_fmap_compose. rewrite <-(list_fmap_id ls) at 2.
      apply list_fmap_ext. intros ? x _. apply chars_of_string_of. }
    split.
    + apply chars_of_inj. by rewrite chars_of_join, chars_of_string_of, Hls'.
    + change (Forall (valid_label ∘ chars_of) (string_of s1 :: (string_of <$> ls))).
      apply Forall_fmap. rewrite fmap_cons, Hls', chars_of_string_of. by constructor.
  - intros (labels & Hne & -> & Hall). destruct labels as [|l labels]; [done|].
    apply Forall_cons in Hall as [Hl Hall]. rewrite chars_of_join.
    eexists _, _. split; [done|]. split; [by apply lang_group_inv, label_regex_lang|].
    apply dotted_labels_lang. exists (chars_of <$> labels). split; [done|].
    by apply Forall_fmap.
Qed.

Lemma valid_host_name_nonempty s : valid_host_name s → s ≠ "".
Proof.
  intros (labels & Hne & Heq & Hall) ->. destruct labels as [|l labels]; [done|].
  apply Forall_cons in Hall as [[Hlen _] _].
  apply (f_equal (λ s, length (chars_of s))) in Heq.
  rewrite chars_of_join, length_app in Heq. cbn in Heq. lia.
Qed.

Lemma valid_domain_iff s : isValidDomain s = true ↔ valid_host_name s.
Proof.
  unfold isValidDomain. destruct (str_empty s) eqn:He.
  - apply str_empty_true in He as ->. split; [done|].
    by intros Hv%valid_host_name_nonempty.
  - by rewrite regex_match_lang, domain_regex_lang.
Qed.

Lemma isTest_spec arn :
  IsTestInvocationForUnitTests arn = true ↔ ∃ a b, arn = a +:+ "functionaltestcfspec" +:+ b.
Proof.
  unfold IsTestInvocationForUnitTests.
  rewrite <-str_find_is_Some. destruct (str_find _ arn); split; naive_solver.
Qed.

(** ** Properties *)

(** C18: [isValidDomain] accepts exactly the RFC 1123 host names: one or more
    labels of 1 to 63 letters, digits and hyphens, separated by single dots,
    each beginning and ending with a letter or digit. *)
Theorem isValidDomain_rfc1123 s : isValidDomain s = true ↔ valid_host_name s.
Proof. apply valid_domain_iff. Qed.

(** Each of the three filters reports a string exactly when it contains
    one of its forbidden characters; in particular a string that passes the
    account-name filter contains no shell metacharacter [;], [|], [&], [$] or
    [`], no quote [']  and no path separator. *)
Theorem forbidden_characters v :
  (contains_invalid_characters_in_credentials v = true ↔
     ∃ c, c ∈ invalid_characters ∧ has_char c v = true) ∧
  (contains_invalid_characters v = true ↔
     ∃ c, c ∈ invalid_path_characters ∧ has_char c v = true) ∧
  (contains_invalid_characters_in_ad_account_name v = true ↔
     ∃ c, c ∈ invalid_characters_ad_name ∧ has_char c v = true) ∧
  (contains_invalid_characters_in_ad_account_name v = false →
     Forall (λ c, has_char c v = false) [";"; "|"; "&"; "$"; "`"; "'"; "/"]%char).
Proof.
  split_and!; [apply contains_any_spec..|].
  intros Hv. apply Forall_forall. intros c Hc.
  eapply contains_any_false; [exact Hv|]. revert c Hc.
  apply Forall_forall. repeat (constructor; [by apply (bool_decide_unpack _); vm_compute|]).
  constructor.
Qed.

Lemma forbidden_characters_witness :
  Forall (λ c, has_char c "webapp01" = false) [";"; "|"; "&"; "$"; "`"; "'"; "/"]%char.
Proof. apply (forbidden_characters "webapp01"). reflexivity. Defined.
