(* ===== verification/CredSpec.v ===== *)
(** * Tickets and credential specifications

    The ticket records of [common/daemon.h] and the two readers of a
    credential specification of [api/src/gmsa_service.cpp]. *)
From S2P Require Import Prelude Json StrUtil Regex Validation.
From stdpp Require Import options.

(** ** Data *)

(** [class krb_ticket_info_t] *)
Record krb_ticket_info := KrbTicket {
  krb_file_path : string;
  service_account_name : string;
  domain_name : string;
  domainless_user : string;
  credspec_info : string;
  distinguished_name : string;
  credential_arn : string
}.

(** [class krb_ticket_arn_mapping_t] *)
Record krb_ticket_arn_mapping := ArnMapping {
  am_krb_file_path : string;
  credential_spec_arn : string;
  credential_domainless_user_arn : string
}.

#[export] Instance krb_ticket_info_eq_dec : EqDecision krb_ticket_info.
Proof. solve_decision. Defined.
#[export] Instance krb_ticket_arn_mapping_eq_dec : EqDecision krb_ticket_arn_mapping.
Proof. solve_decision. Defined.

(** [new krb_ticket_info_t] and [new krb_ticket_arn_mapping_t] *)
Definition new_ticket : krb_ticket_info := KrbTicket "" "" "" "" "" "" "".
Definition new_mapping : krb_ticket_arn_mapping := ArnMapping "" "" "".

(** Assignments to the fields the handlers change. *)
Definition with_krb_file_path (p : string) (t : krb_ticket_info) : krb_ticket_info :=
  KrbTicket p (service_account_name t) (domain_name t) (domainless_user t)
    (credspec_info t) (distinguished_name t) (credential_arn t).
Definition with_domainless_user (u : string) (t : krb_ticket_info) : krb_ticket_info :=
  KrbTicket (krb_file_path t) (service_account_name t) (domain_name t) u
    (credspec_info t) (distinguished_name t) (credential_arn t).
Definition with_credspec_info (c : string) (t : krb_ticket_info) : krb_ticket_info :=
  KrbTicket (krb_file_path t) (service_account_name t) (domain_name t) (domainless_user t)
    c (distinguished_name t) (credential_arn t).
Definition with_distinguished_name (d : string) (t : krb_ticket_info) : krb_ticket_info :=
  KrbTicket (krb_file_path t) (service_account_name t) (domain_name t) (domainless_user t)
    (credspec_info t) d (credential_arn t).

Section credspec.
Context {V : Type} `{JsonCpp V}.

(** [v[k1][k2]...asString()] *)
Fixpoint json_path (v : V) (ks : list string) : outcome V :=
  match ks with
  | [] => Ok v
  | k :: ks' => v' ← json_get v k; json_path v' ks'
  end.
Definition json_path_string (v : V) (ks : list string) : outcome string :=
  v' ← json_path v ks; json_as_string v'.

(** The loop over [GroupManagedServiceAccounts]: the first non-empty name. *)
Fixpoint first_account_name (name : string) (gmsa_array : list V) : outcome string :=
  match gmsa_array with
  | [] => Ok name
  | gmsa :: rest =>
    name ← json_path_string gmsa ["Name"];
    if negb (str_empty name) then Ok name else first_account_name name rest
  end.

(** What both readers begin with: the root, the domain name and the account
    name; [None] where the code returns -1. *)
Definition credspec_names (credspec_data : string) : outcome (option (V * string * string)) :=
  if str_empty credspec_data then Ok None
  else
    let root := (json_parse credspec_data).2 in
    domain ← json_path_string root ["DomainJoinConfig"; "DnsName"];
    gmsa_array ← json_path root ["ActiveDirectoryConfig"; "GroupManagedServiceAccounts"];
    account ← first_account_name "" (json_elements gmsa_array);
    if str_empty account || str_empty domain then Ok None
    else if negb (isValidDomain domain)
            || contains_invalid_characters_in_ad_account_name account then Ok None
    else Ok (Some (root, domain, account)).

Definition credential_arn_keys : list string :=
  ["ActiveDirectoryConfig"; "HostAccountConfig"; "PluginInput"; "CredentialArn"].

(** [catch ( ... ) { return -1; }], and [None] for [return -1]: the outputs
    keep their values. *)
Definition code_or_minus_one {A} (old : A) (o : outcome (option A)) : outcome (Z * A) :=
  match o with
  | Ok (Some a) => Ok (0%Z, a)
  | Ok None => Ok ((-1)%Z, old)
  | Throw _ => Ok ((-1)%Z, old)
  | Undefined e => Undefined e
  end.

(** [parse_cred_spec]: the return code and the ticket it fills. *)
Definition parse_cred_spec (credspec_data : string) (t : krb_ticket_info)
    : outcome (Z * krb_ticket_info) :=
  code_or_minus_one t (
    names ← credspec_names credspec_data;
    match names with
    | None => Ok None
    | Some (root, domain, account) =>
      arn ← json_path_string root credential_arn_keys;
      Ok (Some (KrbTicket (krb_file_path t) account domain (domainless_user t)
                  (credspec_info t) (distinguished_name t) arn))
    end).

(** [parse_cred_spec_domainless]: also fills the mapping. *)
Definition parse_cred_spec_domainless (credspec_data : string) (t : krb_ticket_info)
    (m : krb_ticket_arn_mapping) : outcome (Z * (krb_ticket_info * krb_ticket_arn_mapping)) :=
  code_or_minus_one (t, m) (
    names ← credspec_names credspec_data;
    match names with
    | None => Ok None
    | Some (root, domain, account) =>
      domainless_user_arn ← json_path_string root credential_arn_keys;
      if str_empty domainless_user_arn then Ok None
      else Ok (Some (
        KrbTicket (krb_file_path t) account domain (domainless_user t)
          (credential_spec_arn m) (distinguished_name t) (credential_arn t),
        ArnMapping (krb_file_path t) (credential_spec_arn m) domainless_user_arn))
    end).

(** ** Lemmas *)

(** What a ticket filled by either reader satisfies. *)
Definition ticket_valid (t : krb_ticket_info) : Prop :=
  isValidDomain (domain_name t) = true ∧ service_account_name t ≠ "" ∧
  contains_invalid_characters_in_ad_account_name (service_account_name t) = false.

Lemma credspec_names_valid data root domain account :
  credspec_names data = Ok (Some (root, domain, account)) →
  root = (json_parse data).2 ∧ isValidDomain domain = true ∧ account ≠ "" ∧
  contains_invalid_characters_in_ad_account_name account = false.
Proof.
  unfold credspec_names, mbind, outcome_bind.
  destruct (str_empty data); [done|].
  destruct (json_path_string _ _) as [d| |]; [|done..].
  destruct (json_path _ _) as [g| |]; [|done..].
  destruct (first_account_name _ _) as [a| |]; [|done..].
  destruct (str_empty a) eqn:Ha, (str_empty d); cbn [orb]; try done.
  destruct (isValidDomain d) eqn:Hd; cbn [negb orb]; [|done].
  destruct (contains_invalid_characters_in_ad_account_name a) eqn:Hc; [done|].
  intros [= <- <- <-]. apply str_empty_false in Ha. auto.
Qed.

Lemma parse_cred_spec_ok data t t' :
  parse_cred_spec data t = Ok (0%Z, t') →
  ticket_valid t' ∧ krb_file_path t' = krb_file_path t ∧
  domainless_user t' = domainless_user t ∧ credspec_info t' = credspec_info t ∧
  distinguished_name t' = distinguished_name t.
Proof.
  unfold parse_cred_spec, code_or_minus_one, mbind, outcome_bind.
  destruct (credspec_names data) as [[[[root d] a]|]| |] eqn:Hn; try done.
  destruct (json_path_string root credential_arn_keys); [|done..].
  intros [= <-]. apply credspec_names_valid in Hn as (_ & ? & ? & ?). done.
Qed.

Lemma parse_cred_spec_codes data t c t' :
  parse_cred_spec data t = Ok (c, t') → c = 0%Z ∨ c = (-1)%Z ∧ t' = t.
Proof.
  unfold parse_cred_spec, code_or_minus_one.
  destruct (_ ≫= _) as [[?|]|?|?]; intros; simplify_eq; auto.
Qed.

Lemma parse_cred_spec_domainless_ok data t m t' m' :
  parse_cred_spec_domainless data t m = Ok (0%Z, (t', m')) →
  ticket_valid t' ∧ krb_file_path t' = krb_file_path t ∧
  domainless_user t' = domainless_user t ∧
  credspec_info t' = credential_spec_arn m ∧
  distinguished_name t' = distinguished_name t ∧
  credential_domainless_user_arn m' ≠ "" ∧ am_krb_file_path m' = krb_file_path t ∧
  credential_spec_arn m' = credential_spec_arn m.
Proof.
  unfold parse_cred_spec_domainless, code_or_minus_one, mbind, outcome_bind.
  destruct (credspec_names data) as [[[[root d] a]|]| |] eqn:Hn; try done.
  destruct (json_path_string root credential_arn_keys) as [arn| |]; [|done..].
  destruct (str_empty arn) eqn:He; [done|].
  intros [= <- <-]. apply credspec_names_valid in Hn as (_ & ? & ? & ?).
  apply str_empty_false in He. done.
Qed.

Lemma parse_cred_spec_domainless_codes data t m c r :
  parse_cred_spec_domainless data t m = Ok (c, r) → c = 0%Z ∨ c = (-1)%Z ∧ r = (t, m).
Proof.
  unfold parse_cred_spec_domainless, code_or_minus_one.
  destruct (_ ≫= _) as [[?|]|?|?]; intros; simplify_eq; auto.
Qed.

Lemma parse_no_throw data t m e :
  parse_cred_spec data t ≠ Throw e ∧ parse_cred_spec_domainless data t m ≠ Throw e.
Proof.
  unfold parse_cred_spec, parse_cred_spec_domainless, code_or_minus_one.
  split; by destruct (_ ≫= _) as [[?|]|?|?].
Qed.

(** ** Properties *)

(** C17: both readers return 0 or -1 and never throw; on -1 their outputs are
    untouched; on 0 the domain is a valid host name, the account name is
    non-empty and free of forbidden characters, and only the fields the reader
    sets have changed; the domainless reader also guarantees a non-empty
    secrets-manager ARN. *)
Theorem credspec_readers_sound data t m :
  (∀ c t', parse_cred_spec data t = Ok (c, t') →
     (c = 0%Z ∧ valid_host_name (domain_name t') ∧ ticket_valid t' ∧
      krb_file_path t' = krb_file_path t ∧ domainless_user t' = domainless_user t)
     ∨ (c = (-1)%Z ∧ t' = t)) ∧
  (∀ c t' m', parse_cred_spec_domainless data t m = Ok (c, (t', m')) →
     (c = 0%Z ∧ valid_host_name (domain_name t') ∧ ticket_valid t' ∧
      credential_domainless_user_arn m' ≠ "" ∧
      credspec_info t' = credential_spec_arn m)
     ∨ (c = (-1)%Z ∧ t' = t ∧ m' = m)) ∧
  (∀ e, parse_cred_spec data t ≠ Throw e ∧ parse_cred_spec_domainless data t m ≠ Throw e).
Proof.
  split_and!.
  - intros c t' Hp. destruct (parse_cred_spec_codes _ _ _ _ Hp) as [->|[-> ->]]; [|auto].
    left. apply parse_cred_spec_ok in Hp as (Hv & ? & ? & _).
    split_and!; try done. apply valid_domain_iff, Hv.
  - intros c t' m' Hp.
    destruct (parse_cred_spec_domainless_codes _ _ _ _ _ Hp) as [->|[-> ?]]; [|naive_solver].
    left. apply parse_cred_spec_domainless_ok in Hp as (Hv & _ & _ & ? & _ & ? & _).
    split_and!; try done. apply valid_domain_iff, Hv.
  - intros e. apply parse_no_throw.
Qed.

End credspec.

(** ** The specification the tests use *)

(** [dummy_credspec] of [api/src/gmsa_service.cpp], written with ['] for the
    double quote. *)
Definition dummy_credspec : string :=
  str_map (λ c, if decide (c = "'"%char) then char_of 34 else c)
  ("{'CmsPlugins':['ActiveDirectory'],'DomainJoinConfig':{'Sid':'S-1-5-21-4066351383-" +:+
   "705263209-1606769140','MachineAccountName':'webapp01','Guid':'ac822f13-583e-49f7-aa7b-" +:+
   "284f9a8c97b6','DnsTreeName':'contoso.com','DnsName':'contoso.com','NetBiosName':" +:+
   "'contoso'},'ActiveDirectoryConfig':{'GroupManagedServiceAccounts':[{'Name':" +:+
   "'webapp01','Scope':'contoso.com'},{'Name':'webapp01','Scope':'contoso'}]," +:+
   "'HostAccountConfig':{'PortableCcgVersion':'1','PluginGUID':'{859E1386-BDB4-49E8-85C7-" +:+
   "3070B13920E1}','PluginInput':{'CredentialArn':'arn:aws:secretsmanager:us-west-2:" +:+
   "123456789:secret:gMSAUserSecret-PwmPaO'}}}}").

#[local] Existing Instance Tree.tree_json.

Lemma credspec_readers_sound_witness :
  parse_cred_spec dummy_credspec new_ticket
  = Ok (0%Z, KrbTicket "" "webapp01" "contoso.com" "" "" ""
       "arn:aws:secretsmanager:us-west-2:123456789:secret:gMSAUserSecret-PwmPaO") ∧
  valid_host_name "contoso.com".
Proof.
  assert (Hrun : parse_cred_spec dummy_credspec new_ticket
    = Ok (0%Z, KrbTicket "" "webapp01" "contoso.com" "" "" ""
         "arn:aws:secretsmanager:us-west-2:123456789:secret:gMSAUserSecret-PwmPaO"))
    by (vm_compute; reflexivity).
  split; [exact Hrun|].
  destruct (proj1 (credspec_readers_sound dummy_credspec new_ticket new_mapping) _ _ Hrun)
    as [(_ & Hv & _)|[Habs _]]; [exact Hv|discriminate Habs].
Defined.
