(* ===== verification/Metadata.v ===== *)
(** * The metadata of a lease ([metadata/src/metadata.cpp])

    Each lease directory holds a JSON file with the tickets of the lease;
    [write_meta_data_json] writes it and [read_meta_data_json] reads it back,
    keeping the tickets whose cache file exists. *)
From S2P Require Import Prelude Json StrUtil Logger World Regex Validation CredSpec.
From stdpp Require Import options.

Section metadata.
Context {X : Type} `{Platform X} {V : Type} `{JsonCpp V}.
Abbreviation MW := (M (world X)).

(** ** Reading *)

(** One element of the array, up to its [push_back]: [None] for a path with
    invalid characters, [Some None] for a path that does not exist. *)
Definition read_ticket (s : fs) (krb_info : V) : outcome (option (option krb_ticket_info)) :=
  krb_file_path ← json_path_string krb_info ["krb_file_path"];
  if contains_invalid_characters krb_file_path then Ok None
  else if fs_exists krb_file_path s then
    service_account_name ← json_path_string krb_info ["service_account_name"];
    domain_name ← json_path_string krb_info ["domain_name"];
    domainless_user ← json_path_string krb_info ["domainless_user"];
    has_dn ← json_is_member krb_info "distinguished_name";
    distinguished_name ← (if has_dn : bool then json_path_string krb_info ["distinguished_name"]
                          else Ok "");
    has_cs ← json_is_member krb_info "credspec_info";
    credspec_info ← (if has_cs : bool then json_path_string krb_info ["credspec_info"]
                     else Ok "");
    Ok (Some (Some (KrbTicket krb_file_path service_account_name domain_name
                      domainless_user credspec_info distinguished_name "")))
  else Ok (Some None).

(** The loop over the array: an invalid path breaks out of it, and so does an
    exception, whose handler returns the list built so far. *)
Fixpoint read_tickets (s : fs) (acc : list krb_ticket_info) (l : list V)
    : outcome (list krb_ticket_info) :=
  match l with
  | [] => Ok acc
  | krb_info :: rest =>
    match read_ticket s krb_info with
    | Ok None => Ok acc
    | Ok (Some None) => read_tickets s acc rest
    | Ok (Some (Some t)) => read_tickets s (acc ++ [t]) rest
    | Throw _ => Ok acc
    | Undefined e => Undefined e
    end
  end.

Definition read_meta_data_json (file_path : string) : MW (list krb_ticket_info) :=
  if str_empty file_path then mret []
  else
    text ← read_file file_path;
    match text with
    | None => mret []
    | Some text =>
      let '(parsed, root) := json_parse text in
      if parsed then
        match json_get root "krb_ticket_info" with
        | Ok child_tree_krb_info =>
          s ← gets w_fs; lift (read_tickets s [] (json_elements child_tree_krb_info))
        | Throw _ => mret []
        | Undefined e => undefined e
        end
      else mret []
    end.

(** ** Writing *)

(** [std::filesystem::path::parent_path]: the text before the last slash. *)
Fixpoint parent_path (p : string) : string :=
  match p with
  | EmptyString => EmptyString
  | String c p' => if has_char slash p' then String c (parent_path p') else EmptyString
  end.

Definition ticket_json (t : krb_ticket_info) : outcome V :=
  v ← json_set json_null "krb_file_path" (json_string (krb_file_path t));
  v ← json_set v "service_account_name" (json_string (service_account_name t));
  v ← json_set v "domain_name" (json_string (domain_name t));
  v ← json_set v "domainless_user" (json_string (domainless_user t));
  v ← json_set v "credspec_info" (json_string (credspec_info t));
  json_set v "distinguished_name" (json_string (distinguished_name t)).

Fixpoint tickets_json (parent : V) (l : list krb_ticket_info) : outcome V :=
  match l with
  | [] => Ok parent
  | t :: rest => v ← ticket_json t; parent' ← json_append parent v; tickets_json parent' rest
  end.

Definition metadata_json (l : list krb_ticket_info) : outcome V :=
  parent ← tickets_json json_null l; json_set json_null "krb_ticket_info" parent.

Definition meta_file_path (lease_id krb_files_dir : string) : string :=
  krb_files_dir +:+ "/" +:+ lease_id +:+ "/" +:+ lease_id +:+ "_metadata.json".

(** The overload on a list; a file that cannot be opened is only reported. *)
Definition write_meta_data_json (l : list krb_ticket_info) (lease_id krb_files_dir : string)
    : MW Z :=
  try_catch (
    let file_path := meta_file_path lease_id krb_files_dir in
    create_directories (parent_path file_path);;
    root ← lift (metadata_json l);
    write_file file_path (json_write root);;
    mret 0%Z) (λ _, mret (-1)%Z).

(** The overload on one ticket. *)
Definition write_meta_data_json_one (t : krb_ticket_info) (lease_id krb_files_dir : string)
    : MW Z := write_meta_data_json [t] lease_id krb_files_dir.

#[local] Arguments String.append !_ _ /.

(** ** Lemmas on reading *)

(** A ticket the reader returns points to an existing file whose path has no
    forbidden character. *)
Definition ticket_usable (s : fs) (t : krb_ticket_info) : Prop :=
  contains_invalid_characters (krb_file_path t) = false ∧
  fs_exists (krb_file_path t) s = true.

Lemma read_ticket_usable s v t :
  read_ticket s v = Ok (Some (Some t)) → ticket_usable s t.
Proof.
  unfold read_ticket, mbind, outcome_bind, ticket_usable. intros Hr.
  repeat (case_match; simplify_eq; try done).
Qed.

Lemma read_tickets_usable s acc l r :
  Forall (ticket_usable s) acc → read_tickets s acc l = Ok r → Forall (ticket_usable s) r.
Proof.
  revert acc. induction l as [|v l IH]; intros acc Hacc; cbn [read_tickets].
  { by intros [= <-]. }
  destruct (read_ticket s v) as [[[t|]|]|e|e] eqn:Hv; intros Hr; simplify_eq; try by eauto.
  eapply IH; [|exact Hr]. apply Forall_app. split; [done|]. constructor; [|constructor].
  by eapply read_ticket_usable.
Qed.

Lemma read_tickets_no_throw s acc l e : read_tickets s acc l ≠ Throw e.
Proof.
  revert acc. induction l as [|v l IH]; intros acc; cbn [read_tickets]; [done|].
  by destruct (read_ticket s v) as [[[t|]|]| |].
Qed.

Lemma read_meta_data_json_run file w :
  match read_meta_data_json file w with
  | (Ok l, w') => w' = w ∧ Forall (ticket_usable (w_fs w)) l
  | (Throw _, _) => False
  | (Undefined _, w') => w' = w
  end.
Proof.
  unfold read_meta_data_json, read_file, gets, mbind, M_bind, mret, M_ret.
  destruct (str_empty file); cbn; [by split|].
  destruct (fs_read file (w_fs w)) as [text|]; cbn; [|by split].
  destruct (json_parse text) as [[] root]; cbn; [|by split].
  destruct (json_get root "krb_ticket_info") as [v|e|e]; cbn; [|by split|done].
  unfold lift. destruct (read_tickets _ _ _) as [l|e|e] eqn:Hr; [|by apply read_tickets_no_throw in Hr|done].
  split; [done|]. eapply read_tickets_usable; [constructor|exact Hr].
Qed.

(** ** Lemmas on writing *)
Context `{!JsonCppLaws V}.
#[local] Set Default Proof Using "Type*".

Lemma json_path_string_defined v ks e : json_path_string v ks ≠ Undefined e.
Proof.
  unfold json_path_string. revert v. induction ks as [|k ks IH]; intros v; cbn.
  - apply json_as_string_defined.
  - destruct (json_get v k) as [v'|e'|e'] eqn:Hg; cbn; [apply IH|done|].
    by apply json_get_defined in Hg.
Qed.

Lemma read_ticket_defined s v e : read_ticket s v ≠ Undefined e.
Proof.
  unfold read_ticket, mbind, outcome_bind. intros Hr.
  repeat (case_match; simplify_eq; try done);
    (by eapply json_path_string_defined) || (by eapply json_is_member_defined).
Qed.

Lemma read_tickets_defined s acc l : ∃ r, read_tickets s acc l = Ok r.
Proof.
  revert acc. induction l as [|v l IH]; intros acc; cbn [read_tickets]; [eauto|].
  destruct (read_ticket s v) as [[[t|]|]|e|e] eqn:Hv; eauto. by apply read_ticket_defined in Hv.
Qed.

Lemma read_meta_data_json_ok file w :
  ∃ l, read_meta_data_json file w = (Ok l, w) ∧ Forall (ticket_usable (w_fs w)) l.
Proof.
  pose proof (read_meta_data_json_run file w) as Hrun.
  destruct (read_meta_data_json file w) as [[l|e|e] w'] eqn:Hr; [|done|].
  - destruct Hrun as [-> Hl]. eauto.
  - exfalso. revert Hr. unfold read_meta_data_json, read_file, gets, mbind, M_bind, mret, M_ret.
    destruct (str_empty file); cbn; [done|].
    destruct (fs_read file (w_fs w)) as [text|]; cbn; [|done].
    destruct (json_parse text) as [[] root]; cbn; [|done].
    destruct (json_get root "krb_ticket_info") as [v|e'|e'] eqn:Hg; cbn; [|done|].
    + unfold lift. destruct (read_tickets_defined (w_fs w) [] (json_elements v)) as [r ->]. done.
    + by apply json_get_defined in Hg.
Qed.

Fixpoint set_all (v : V) (kvs : list (string * V)) : outcome V :=
  match kvs with
  | [] => Ok v
  | (k, x) :: rest => v' ← json_set v k x; set_all v' rest
  end.

Lemma set_all_object v kvs :
  json_kind_of v = KObject → NoDup kvs.*1 →
  ∃ v', set_all v kvs = Ok v' ∧ json_kind_of v' = KObject ∧
    (∀ k x, (k, x) ∈ kvs → json_get v' k = Ok x ∧ json_is_member v' k = Ok true) ∧
    (∀ k, k ∉ kvs.*1 → json_get v' k = json_get v k ∧
                       json_is_member v' k = json_is_member v k) ∧
    (json_text v → Forall (λ kx, str_forall is_ascii kx.1 = true ∧ json_text kx.2) kvs →
     json_text v').
Proof.
  revert v. induction kvs as [|[k x] kvs IH]; intros v Hv Hnd; cbn [set_all].
  - exists v. split_and!; try done. by intros ?? ?%elem_of_nil.
  - apply NoDup_cons in Hnd as [Hk Hnd].
    destruct (json_set_ok v k x (or_intror Hv)) as (v1 & -> & Hv1 & Hg & Hm & Ho & Ht).
    destruct (IH v1 Hv1 Hnd) as (v2 & Hs & Hv2 & Hin & Hout & Htx).
    exists v2. split_and!; [exact Hs|done| | |].
    + intros k' x' [[= -> ->]|Hin']%elem_of_cons; [|by apply Hin].
      destruct (Hout k Hk) as [-> ->]. done.
    + intros k' Hk'. cbn in Hk'. apply not_elem_of_cons in Hk' as [Hne Hk'].
      destruct (Hout k' Hk') as [-> ->]. by apply Ho.
    + intros Htv Hall. apply Forall_cons in Hall as [[Hka Hxa] Hall]. auto.
Qed.

Lemma set_all_null k x kvs :
  NoDup (k :: kvs.*1) →
  ∃ v', set_all json_null ((k, x) :: kvs) = Ok v' ∧ json_kind_of v' = KObject ∧
    (∀ k' x', (k', x') ∈ (k, x) :: kvs →
       json_get v' k' = Ok x' ∧ json_is_member v' k' = Ok true) ∧
    (Forall (λ kx, str_forall is_ascii kx.1 = true ∧ json_text kx.2) ((k, x) :: kvs) →
     json_text v').
Proof.
  intros [Hk Hnd]%NoDup_cons. cbn [set_all].
  destruct (json_set_ok json_null k x (or_introl json_kind_null))
    as (v1 & -> & Hv1 & Hg & Hm & _ & Ht).
  destruct (set_all_object v1 kvs Hv1 Hnd) as (v2 & Hs & Hv2 & Hin & Hout & Htx).
  exists v2. split_and!; [exact Hs|done| |].
  - intros k' x' [[= -> ->]|Hin']%elem_of_cons; [|by apply Hin].
    destruct (Hout k Hk) as [-> ->]. done.
  - intros [[Hka Hxa] Hall]%Forall_cons. apply Htx; [|done]. apply Ht; [|done..].
    apply json_text_null.
Qed.

(** The members of a ticket, as JSON. *)
Definition ticket_members (t : krb_ticket_info) : list (string * V) :=
  [("krb_file_path", json_string (krb_file_path t));
   ("service_account_name", json_string (service_account_name t));
   ("domain_name", json_string (domain_name t));
   ("domainless_user", json_string (domainless_user t));
   ("credspec_info", json_string (credspec_info t));
   ("distinguished_name", json_string (distinguished_name t))].

Definition ticket_ascii (t : krb_ticket_info) : Prop :=
  Forall (λ s, str_forall is_ascii s = true)
    [krb_file_path t; service_account_name t; domain_name t; domainless_user t;
     credspec_info t; distinguished_name t].

(** A ticket as the reader gives it back: the ARN is not stored. *)
Definition stored_ticket (t : krb_ticket_info) : krb_ticket_info :=
  KrbTicket (krb_file_path t) (service_account_name t) (domain_name t)
    (domainless_user t) (credspec_info t) (distinguished_name t) "".

(** [v] is the JSON of [t], as far as the reader can tell. *)
Definition represents (v : V) (t : krb_ticket_info) : Prop :=
  ∀ k x, (k, x) ∈ ticket_members t → json_get v k = Ok x ∧ json_is_member v k = Ok true.

Lemma ticket_json_ok t :
  ∃ v, ticket_json t = Ok v ∧ represents v t ∧ (ticket_ascii t → json_text v).
Proof.
  destruct (set_all_null "krb_file_path" (json_string (krb_file_path t))
    (tail (ticket_members t))) as (v & Hs & _ & Hin & Ht).
  { apply (bool_decide_unpack _). by vm_compute. }
  exists v. split_and!; [|exact Hin|].
  - rewrite <-Hs. unfold ticket_json. cbn [set_all tail ticket_members].
    unfold mbind, outcome_bind. repeat (case_match; try done).
  - intros Ha. apply Ht. unfold ticket_ascii in Ha. cbn.
    repeat (apply Forall_cons in Ha as [? Ha]).
    repeat (constructor; [split; [by vm_compute|by apply json_text_string]|]). constructor.
Qed.

Lemma represents_get v t k s :
  represents v t → (k, json_string s) ∈ ticket_members t → json_path_string v [k] = Ok s.
Proof.
  intros Hr Hin. unfold json_path_string. cbn. destruct (Hr _ _ Hin) as [-> _]. cbn.
  apply json_as_string_string.
Qed.

#[local] Ltac in_members := apply list_elem_of_In; cbn; auto 10.

Lemma read_ticket_represents s v t :
  represents v t → contains_invalid_characters (krb_file_path t) = false →
  read_ticket s v =
  Ok (Some (if fs_exists (krb_file_path t) s then Some (stored_ticket t) else None)).
Proof.
  intros Hr Hc. unfold read_ticket.
  rewrite (represents_get v t "krb_file_path" (krb_file_path t) Hr ltac:(in_members)). cbn [mbind outcome_bind].
  rewrite Hc. destruct (fs_exists _ _); [|done].
  rewrite (represents_get v t "service_account_name" (service_account_name t) Hr ltac:(in_members)).
  rewrite (represents_get v t "domain_name" (domain_name t) Hr ltac:(in_members)).
  rewrite (represents_get v t "domainless_user" (domainless_user t) Hr ltac:(in_members)).
  cbn [mbind outcome_bind].
  rewrite (proj2 (Hr "distinguished_name" (json_string (distinguished_name t)) ltac:(in_members))).
  rewrite (proj2 (Hr "credspec_info" (json_string (credspec_info t)) ltac:(in_members))).
  cbn [mbind outcome_bind].
  rewrite (represents_get v t "distinguished_name" (distinguished_name t) Hr ltac:(in_members)).
  rewrite (represents_get v t "credspec_info" (credspec_info t) Hr ltac:(in_members)).
  done.
Qed.

Lemma tickets_json_ok parent l :
  json_kind_of parent = KNull ∨ json_kind_of parent = KArray →
  ∃ v vs, tickets_json parent l = Ok v ∧ json_elements v = json_elements parent ++ vs ∧
    Forall2 represents vs l ∧ (json_text parent → Forall ticket_ascii l → json_text v).
Proof.
  revert parent. induction l as [|t l IH]; intros parent Hp; cbn [tickets_json].
  - exists parent, []. rewrite app_nil_r. split_and!; try done; constructor.
  - destruct (ticket_json_ok t) as (v & -> & Hv & Hvt). cbn [mbind outcome_bind].
    destruct (json_append_ok parent v Hp) as (p1 & -> & Hp1 & Hel & Hpt).
    destruct (IH p1 (or_intror Hp1)) as (r & vs & Hr & Hrel & Hrep & Hrt).
    exists r, (v :: vs). split_and!; [exact Hr| |by constructor|].
    + by rewrite Hrel, Hel, <-app_assoc.
    + intros Htp [Ha Hall]%Forall_cons. auto.
Qed.

Lemma metadata_json_ok l :
  ∃ v p vs, metadata_json l = Ok v ∧ json_get v "krb_ticket_info" = Ok p ∧
    json_elements p = vs ∧ Forall2 represents vs l ∧ (Forall ticket_ascii l → json_text v).
Proof.
  unfold metadata_json.
  destruct (tickets_json_ok json_null l (or_introl json_kind_null))
    as (p & vs & -> & Hel & Hrep & Ht). cbn [mbind outcome_bind].
  destruct (json_set_ok json_null "krb_ticket_info" p (or_introl json_kind_null))
    as (v & -> & _ & Hg & _ & _ & Hvt).
  exists v, p, vs. split_and!; [done|done| |done|].
  - by rewrite Hel, json_elements_null.
  - intros Ha. apply Hvt; [apply json_text_null|apply Ht; [apply json_text_null|done]|by vm_compute].
Qed.

(** The reader stops at the first ticket whose path has a forbidden character. *)
Fixpoint readable (l : list krb_ticket_info) : list krb_ticket_info :=
  match l with
  | [] => []
  | t :: rest =>
    if contains_invalid_characters (krb_file_path t) then [] else t :: readable rest
  end.

Lemma read_ticket_stops s v t :
  represents v t → contains_invalid_characters (krb_file_path t) = true →
  read_ticket s v = Ok None.
Proof.
  intros Hr Hc. unfold read_ticket.
  rewrite (represents_get v t "krb_file_path" (krb_file_path t) Hr ltac:(in_members)).
  cbn [mbind outcome_bind]. by rewrite Hc.
Qed.

(** What the reader makes of a lease recorded as [l]. *)
Definition read_back (s : fs) (l : list krb_ticket_info) : list krb_ticket_info :=
  stored_ticket <$> filter (λ t, fs_exists (krb_file_path t) s = true) (readable l).

Lemma read_back_all s l : Forall (ticket_usable s) l → read_back s l = stored_ticket <$> l.
Proof.
  intros Hl. unfold read_back. f_equal.
  induction Hl as [|t l [Hc Hf] _ IH]; [done|]. cbn [readable]. rewrite Hc.
  rewrite filter_cons_True by done. by rewrite IH.
Qed.

Lemma read_tickets_represents s acc vs l :
  Forall2 represents vs l → read_tickets s acc vs = Ok (acc ++ read_back s l).
Proof.
  intros Hrep. unfold read_back. revert acc.
  induction Hrep as [|v t vs l Hv Hrep IH]; intros acc; cbn [read_tickets readable].
  { cbn. by rewrite app_nil_r. }
  destruct (contains_invalid_characters (krb_file_path t)) eqn:Hc.
  { rewrite (read_ticket_stops s v t) by done. cbn. by rewrite app_nil_r. }
  rewrite (read_ticket_represents s v t Hv Hc), filter_cons.
  destruct (fs_exists (krb_file_path t) s); cbn; by rewrite IH, <-?app_assoc.
Qed.

(** The directory of the metadata file is the lease's. *)
Lemma parent_path_app a b : has_char slash b = false → parent_path (a +:+ String slash b) = a.
Proof.
  intros Hb. induction a as [|c a IH]; cbn.
  - by rewrite Hb.
  - rewrite has_char_app. cbn. rewrite orb_true_r. by rewrite IH.
Qed.

(** What writing does: the directory is made, then the file gets the JSON. *)
Lemma write_meta_data_json_run l lease dir w s1 s2 v :
  fs_create_directories (parent_path (meta_file_path lease dir)) (w_fs w) = Ok s1 →
  metadata_json l = Ok v →
  fs_write (meta_file_path lease dir) (json_write v) s1 = Some s2 →
  write_meta_data_json l lease dir w = (Ok 0%Z, set_fs s2 w).
Proof.
  intros H1 H2 H3. unfold write_meta_data_json, try_catch, mbind, M_bind, lift.
  unfold create_directories. rewrite H1, H2. unfold write_file. cbn [w_fs set_fs].
  by rewrite H3.
Qed.

(** A file with the JSON of [l] reads back as [l]. *)
Lemma read_recorded l v path w :
  Forall ticket_ascii l → metadata_json l = Ok v → path ≠ "" →
  fs_read path (w_fs w) = Some (json_write v) →
  read_meta_data_json path w = (Ok (read_back (w_fs w) l), w).
Proof.
  intros Hascii Hj Hne Hread.
  destruct (metadata_json_ok l) as (v' & p & vs & Hv & Hget & Hel & Hrep & Htext).
  rewrite Hv in Hj. injection Hj as ->.
  unfold read_meta_data_json, read_file, gets, mbind, M_bind.
  apply str_empty_false in Hne as ->. rewrite Hread, json_parse_write by auto.
  rewrite Hget, Hel. unfold lift. by rewrite (read_tickets_represents _ [] vs l Hrep).
Qed.

(** Writing, then reading. *)
Lemma write_then_read l lease dir w s1 :
  fs_create_directories (parent_path (meta_file_path lease dir)) (w_fs w) = Ok s1 →
  (∀ text, is_Some (fs_write (meta_file_path lease dir) text s1)) →
  meta_file_path lease dir ≠ "" →
  ∃ s2 v, metadata_json l = Ok v ∧
    fs_write (meta_file_path lease dir) (json_write v) s1 = Some s2 ∧
    write_meta_data_json l lease dir w = (Ok 0%Z, set_fs s2 w) ∧
    (Forall ticket_ascii l →
     read_meta_data_json (meta_file_path lease dir) (set_fs s2 w) =
     (Ok (read_back s2 l), set_fs s2 w)).
Proof.
  intros Hdirs Hwrite Hne.
  destruct (metadata_json_ok l) as (v & p & vs & Hv & Hget & Hel & Hrep & Htext).
  destruct (Hwrite (json_write v)) as [s2 Hs2].
  exists s2, v. split_and!; [done|done|by eapply write_meta_data_json_run|]. intros Hascii.
  apply (read_recorded l v _ (set_fs s2 w)); [done|done|done|]. by apply (fs_read_write _ _ _ _ Hs2).
Qed.

(** ** Properties *)

(** C10: what is written can be read back: if the fields of the tickets are ASCII,
    the lease directory can be made and the metadata file opened,
    [write_meta_data_json] returns 0 and [read_meta_data_json] then returns, in order
    and with every stored field intact, the tickets whose cache file exists, up to the
    first ticket whose path has a character the reader refuses: that ticket and all
    after it are lost ([readable]). *)
Theorem metadata_roundtrip l lease dir w s1 :
  Forall ticket_ascii l →
  fs_create_directories (parent_path (meta_file_path lease dir)) (w_fs w) = Ok s1 →
  (∀ text, is_Some (fs_write (meta_file_path lease dir) text s1)) →
  meta_file_path lease dir ≠ "" →
  ∃ w', write_meta_data_json l lease dir w = (Ok 0%Z, w') ∧
    read_meta_data_json (meta_file_path lease dir) w' =
    (Ok (stored_ticket <$> filter (λ t, fs_exists (krb_file_path t) (w_fs w') = true)
           (readable l)), w').
Proof.
  intros Hascii Hdirs Hwrite Hne.
  destruct (write_then_read l lease dir w s1) as (s2 & v & _ & _ & Hrun & Hread); [done..|].
  exists (set_fs s2 w). split; [done|by apply Hread].
Qed.

(** C31: whatever the metadata file holds, reading it returns a list, throws
    nothing and changes nothing, and every ticket of the list names an existing
    cache file whose path passes the character filter. *)
Theorem read_meta_data_json_safe file w :
  ∃ l, read_meta_data_json file w = (Ok l, w) ∧ Forall (ticket_usable (w_fs w)) l.
Proof. apply read_meta_data_json_ok. Qed.

End metadata.

#[local] Existing Instance Tree.tree_json.
#[local] Existing Instance Tree.tree_json_laws.
#[local] Existing Instance Script.script_platform.

Lemma metadata_roundtrip_witness :
  ∃ (l : list krb_ticket_info) w', l ≠ [] ∧
    read_meta_data_json (X := Script.script) (V := Tree.tree)
      (meta_file_path "5f" "/var/credentials-fetcher/krbdir") w' =
    (Ok (stored_ticket <$> filter (λ t, fs_exists (krb_file_path t) (w_fs w') = true) (readable l)), w').
Proof.
  pose (t := KrbTicket "/var/credentials-fetcher/krbdir" "gmsa1" "contoso.com" "awsdjuser"
               "{}" "OU=x" "").
  destruct (metadata_roundtrip (X := Script.script) (V := Tree.tree) [t] "5f"
    "/var/credentials-fetcher/krbdir" (Script.demo_world Script.idle)
    (<[["var"; "credentials-fetcher"; "krbdir"; "5f"] := Dir new_dir_info]> Script.demo_fs))
    as (w' & _ & Hread).
  - repeat constructor.
  - reflexivity.
  - intros text. eexists. reflexivity.
  - done.
  - exists [t], w'. split; [done|exact Hread].
Defined.

Lemma read_meta_data_json_safe_witness :
  ∃ l, read_meta_data_json (X := Script.script) (V := Tree.tree) "/etc/passwd"
         (Script.demo_world Script.idle) = (Ok l, Script.demo_world Script.idle).
Proof.
  destruct (read_meta_data_json_safe (X := Script.script) (V := Tree.tree) "/etc/passwd"
    (Script.demo_world Script.idle)) as (l & Hl & _). by exists l.
Defined.
