(* ===== verification/K5Platform.v ===== *)
(** * Integers in a given byte order ([auth/kinit_client/k5-platform.h])

    The inline functions that read and write integers as octets. What they compile
    to depends on what [configure] found: with a known byte order GCC uses the
    machine's own loads and stores, swapped where needed, and otherwise the octets
    are put together one by one. *)
From S2P Require Import Prelude StrUtil.
From stdpp Require Import options.

(** ** The machine *)
Inductive byte_order := big_endian | little_endian.

(** What the macros at the top of the header settle: [K5_BE], [K5_LE] with the
    [SWAP] macros, or neither, on a machine of some order. *)
Inductive target :=
| K5_BE
| K5_LE
| K5_OTHER (host : byte_order).

Definition host_order (t : target) : byte_order :=
  match t with K5_BE => big_endian | K5_LE => little_endian | K5_OTHER host => host end.

(** The macros the choice depends on, with their values, and whether the processor
    is one of those the header knows. *)
Record macros := Macros {
  BIG_ENDIAN : option Z; LITTLE_ENDIAN : option Z; BYTE_ORDER : option Z;
  _BIG_ENDIAN : option Z; _LITTLE_ENDIAN : option Z; _BYTE_ORDER : option Z;
  __BIG_ENDIAN__ : option Z; __LITTLE_ENDIAN__ : option Z;
  processor_le : bool; processor_be : bool
}.

Definition defined (m : option Z) : bool := bool_decide (is_Some m).
(** An undefined identifier counts as 0 in [#if]. *)
Definition value (m : option Z) : Z := default 0%Z m.

(** The first of the tests that applies: whether [K5_BE] and [K5_LE] become
    defined. *)
Definition k5_orders (m : macros) : bool * bool :=
  let '(be, le) :=
    if defined (BIG_ENDIAN m) && defined (LITTLE_ENDIAN m) then
      ((value (BYTE_ORDER m) =? value (BIG_ENDIAN m))%Z, (value (BYTE_ORDER m) =? value (LITTLE_ENDIAN m))%Z)
    else if defined (BIG_ENDIAN m) then (true, false)
    else if defined (LITTLE_ENDIAN m) then (false, true)
    else if defined (_BIG_ENDIAN m) && defined (_LITTLE_ENDIAN m) then
      ((value (_BYTE_ORDER m) =? value (_BIG_ENDIAN m))%Z, (value (_BYTE_ORDER m) =? value (_LITTLE_ENDIAN m))%Z)
    else if defined (_BIG_ENDIAN m) then (true, false)
    else if defined (_LITTLE_ENDIAN m) then (false, true)
    else if defined (__BIG_ENDIAN__ m) && negb (defined (__LITTLE_ENDIAN__ m)) then (true, false)
    else if defined (__LITTLE_ENDIAN__ m) && negb (defined (__BIG_ENDIAN__ m)) then (false, true)
    else (false, false) in
  if negb be && negb le then (processor_be m, processor_le m) else (be, le).

(** The target of a compilation by GCC, with the [SWAP] macros, on a machine of some
    order; both orders are an [#error]. *)
Definition target_of (m : macros) (host : byte_order) : option target :=
  match k5_orders m with
  | (true, true) => None
  | (true, false) => Some K5_BE
  | (false, true) => Some K5_LE
  | (false, false) => Some (K5_OTHER host)
  end.

(** The macros of glibc on a little endian machine. *)
Example target_of_glibc host :
  target_of (Macros (Some 4321%Z) (Some 1234%Z) (Some 1234%Z) None None None None (Some 1%Z) false false)
    host = Some K5_LE.
Proof. reflexivity. Qed.

Definition octet_value (b : Z) : Prop := (0 <= b < 256)%Z.

(** The octets of an integer of [8 * n] bits, least significant first, and the
    integer of octets. *)
Fixpoint octets (n : nat) (v : Z) : list Z :=
  match n with
  | O => []
  | S n' => Z.land v 255 :: octets n' (Z.shiftr v 8)
  end.

Fixpoint of_octets (l : list Z) : Z :=
  match l with
  | [] => 0%Z
  | b :: l' => Z.lor b (Z.shiftl (of_octets l') 8)
  end.

(** The memory of an integer object: [PUT] and [GET] through a packed structure,
    and [memcpy] of an integer. *)
Definition PUT (t : target) (n : nat) (v : Z) : list Z :=
  match host_order t with little_endian => octets n v | big_endian => rev (octets n v) end.
Definition GET (t : target) (n : nat) (p : list Z) : Z :=
  match host_order t with
  | little_endian => of_octets (take n p)
  | big_endian => of_octets (rev (take n p))
  end.

(** [bswap_16], [bswap_32] and [bswap_64] of [byteswap.h] *)
Definition bswap (n : nat) (v : Z) : Z := of_octets (rev (octets n v)).

Definition PUTSWAPPED (t : target) (n : nat) (v : Z) : list Z := PUT t n (bswap n v).
Definition GETSWAPPED (t : target) (n : nat) (p : list Z) : Z := bswap n (GET t n p).

(** [k5_swap16], the swap of macOS *)
Definition k5_swap16 (x : Z) : Z :=
  let x := Z.land x 65535 in
  Z.lor (Z.shiftr x 8) (Z.shiftl (Z.land x 255) 8).

(** [p[i]]; reading past the octets is undefined. *)
Definition octet (p : list Z) (i : nat) : outcome Z :=
  match p !! i with Some b => Ok b | None => Undefined "read past the octets" end.

Definition read (n : nat) (f : list Z → Z) (p : list Z) : outcome Z :=
  if (n <=? length p)%nat then Ok (f p) else Undefined "read past the octets".

#[local] Instance outcome_bind : MBind outcome := λ A B k m,
  match m with Ok a => k a | Throw e => Throw e | Undefined e => Undefined e end.
#[local] Instance outcome_ret : MRet outcome := λ A a, Ok a.

(** [b << k] of an octet, which is an [int]: undefined when the result does not
    fit. *)
Definition int_shl (b : Z) (k : Z) : outcome Z :=
  let r := Z.shiftl b k in
  if (r <=? 2147483647)%Z then Ok r else Undefined "a shift out of int".

(** ** Big endian *)
Definition store_16_be (t : target) (val : Z) : list Z :=
  match t with
  | K5_BE => PUT t 2 val
  | K5_LE => PUTSWAPPED t 2 val
  | K5_OTHER _ => [Z.land (Z.shiftr val 8) 255; Z.land val 255]
  end.

Definition store_32_be (t : target) (val : Z) : list Z :=
  match t with
  | K5_BE => PUT t 4 val
  | K5_LE => PUTSWAPPED t 4 val
  | K5_OTHER _ =>
    [Z.land (Z.shiftr val 24) 255; Z.land (Z.shiftr val 16) 255;
     Z.land (Z.shiftr val 8) 255; Z.land val 255]
  end.

Definition store_64_be (t : target) (val : Z) : list Z :=
  match t with
  | K5_BE => PUT t 8 val
  | K5_LE => PUTSWAPPED t 8 val
  | K5_OTHER _ =>
    [Z.land (Z.shiftr val 56) 255; Z.land (Z.shiftr val 48) 255;
     Z.land (Z.shiftr val 40) 255; Z.land (Z.shiftr val 32) 255;
     Z.land (Z.shiftr val 24) 255; Z.land (Z.shiftr val 16) 255;
     Z.land (Z.shiftr val 8) 255; Z.land val 255]
  end.

Definition load_16_be (t : target) (p : list Z) : outcome Z :=
  match t with
  | K5_BE => read 2 (GET t 2) p
  | K5_LE => read 2 (GETSWAPPED t 2) p
  | K5_OTHER _ =>
    p1 ← octet p 1; p0 ← octet p 0; h ← int_shl p0 8;
    mret (Z.lor p1 h)
  end.

Definition load_32_be (t : target) (p : list Z) : outcome Z :=
  match t with
  | K5_BE => read 4 (GET t 4) p
  | K5_LE => read 4 (GETSWAPPED t 4) p
  | K5_OTHER _ =>
    p3 ← octet p 3; p2 ← octet p 2; p1 ← octet p 1; p0 ← octet p 0; h ← int_shl p2 8;
    mret (Z.lor (Z.lor (Z.lor p3 h) (Z.shiftl p1 16)) (Z.shiftl p0 24))
  end.

Definition load_64_be (t : target) (p : list Z) : outcome Z :=
  match t with
  | K5_BE => read 8 (GET t 8) p
  | K5_LE => read 8 (GETSWAPPED t 8) p
  | K5_OTHER _ =>
    h ← load_32_be t p; l ← load_32_be t (drop 4 p);
    mret (Z.lor (Z.shiftl h 32) l)
  end.

(** ** Little endian *)
Definition store_16_le (t : target) (val : Z) : list Z :=
  match t with
  | K5_LE => PUT t 2 val
  | K5_BE => PUTSWAPPED t 2 val
  | K5_OTHER _ => [Z.land val 255; Z.land (Z.shiftr val 8) 255]
  end.

Definition store_32_le (t : target) (val : Z) : list Z :=
  match t with
  | K5_LE => PUT t 4 val
  | K5_BE => PUTSWAPPED t 4 val
  | K5_OTHER _ =>
    [Z.land val 255; Z.land (Z.shiftr val 8) 255;
     Z.land (Z.shiftr val 16) 255; Z.land (Z.shiftr val 24) 255]
  end.

Definition store_64_le (t : target) (val : Z) : list Z :=
  match t with
  | K5_LE => PUT t 8 val
  | K5_BE => PUTSWAPPED t 8 val
  | K5_OTHER _ =>
    [Z.land val 255; Z.land (Z.shiftr val 8) 255;
     Z.land (Z.shiftr val 16) 255; Z.land (Z.shiftr val 24) 255;
     Z.land (Z.shiftr val 32) 255; Z.land (Z.shiftr val 40) 255;
     Z.land (Z.shiftr val 48) 255; Z.land (Z.shiftr val 56) 255]
  end.

Definition load_16_le (t : target) (p : list Z) : outcome Z :=
  match t with
  | K5_LE => read 2 (GET t 2) p
  | K5_BE => read 2 (GETSWAPPED t 2) p
  | K5_OTHER _ =>
    p0 ← octet p 0; p1 ← octet p 1; h ← int_shl p1 8;
    mret (Z.lor p0 h)
  end.

(** The octets one by one are shifted as [int]s here, the last one too. *)
Definition load_32_le (t : target) (p : list Z) : outcome Z :=
  match t with
  | K5_LE => read 4 (GET t 4) p
  | K5_BE => read 4 (GETSWAPPED t 4) p
  | K5_OTHER _ =>
    p0 ← octet p 0; p1 ← octet p 1; p2 ← octet p 2; p3 ← octet p 3;
    a ← int_shl p1 8; b ← int_shl p2 16; c ← int_shl p3 24;
    mret (Z.lor (Z.lor (Z.lor p0 a) b) c)
  end.

Definition load_64_le (t : target) (p : list Z) : outcome Z :=
  match t with
  | K5_LE => read 8 (GET t 8) p
  | K5_BE => read 8 (GETSWAPPED t 8) p
  | K5_OTHER _ =>
    h ← load_32_le t (drop 4 p); l ← load_32_le t p;
    mret (Z.lor (Z.shiftl h 32) l)
  end.

(** ** The order of the machine *)
Definition store_16_n (t : target) (val : Z) : list Z := PUT t 2 val.
Definition store_32_n (t : target) (val : Z) : list Z := PUT t 4 val.
Definition store_64_n (t : target) (val : Z) : list Z := PUT t 8 val.
Definition load_16_n (t : target) (p : list Z) : outcome Z := read 2 (GET t 2) p.
Definition load_32_n (t : target) (p : list Z) : outcome Z := read 4 (GET t 4) p.
Definition load_64_n (t : target) (p : list Z) : outcome Z := read 8 (GET t 8) p.

Definition k5_htonll (t : target) (val : Z) : outcome Z :=
  match t with
  | K5_BE => Ok val
  | K5_LE => Ok (bswap 8 val)
  | K5_OTHER _ => load_64_be t (PUT t 8 val)
  end.
Definition k5_ntohll (t : target) (val : Z) : outcome Z := k5_htonll t val.

(** ** Lemmas *)
Lemma octets_length n v : length (octets n v) = n.
Proof. revert v. induction n as [|n IH]; intros v; [done|]. cbn. by rewrite IH. Qed.

Lemma octets_range n v : Forall octet_value (octets n v).
Proof.
  revert v. induction n as [|n IH]; intros v; cbn [octets]; constructor; [|done].
  unfold octet_value. change 255%Z with (Z.ones 8). rewrite Z.land_ones by lia.
  apply (Z.mod_pos_bound v 256). lia.
Qed.

Lemma of_octets_octets n v : of_octets (octets n v) = (v mod 2 ^ (8 * Z.of_nat n))%Z.
Proof.
  rewrite <-Z.land_ones by lia. revert v. induction n as [|n IH]; intros v.
  { cbn. by rewrite Z.land_0_r. }
  cbn [octets of_octets]. rewrite IH. change 255%Z with (Z.ones 8).
  apply Z.bits_inj'. intros i Hi.
  rewrite Z.lor_spec, !Z.land_spec, Z.shiftl_spec, !Z.testbit_ones_nonneg by lia.
  destruct (Z.ltb_spec i 8) as [Hlt|Hge].
  - rewrite (Z.testbit_neg_r _ (i - 8)) by lia. rewrite orb_false_r. f_equal.
    symmetry. apply Z.ltb_lt. lia.
  - rewrite Z.land_spec, Z.shiftr_spec, Z.testbit_ones_nonneg by lia.
    rewrite andb_false_r. cbn [orb]. replace (i - 8 + 8)%Z with i by lia. f_equal.
    destruct (Z.ltb_spec (i - 8) (8 * Z.of_nat n)), (Z.ltb_spec i (8 * Z.of_nat (S n))); lia.
Qed.

Lemma octets_of_octets l : Forall octet_value l → octets (length l) (of_octets l) = l.
Proof.
  induction 1 as [|b l Hb _ IH]; [done|]. cbn [length octets of_octets]. unfold octet_value in Hb.
  assert (Hlow : Z.land (Z.lor b (Z.shiftl (of_octets l) 8)) 255 = b).
  { change 255%Z with (Z.ones 8). rewrite Z.land_lor_distr_l, !Z.land_ones by lia.
    rewrite Z.shiftl_mul_pow2, Z_mod_mult, Z.lor_0_r by lia. apply (Z.mod_small b 256). lia. }
  assert (Hhigh : Z.shiftr (Z.lor b (Z.shiftl (of_octets l) 8)) 8 = of_octets l).
  { rewrite Z.shiftr_lor, Z.shiftr_shiftl_l, Z.shiftl_0_r by lia.
    rewrite (Z.shiftr_div_pow2 b) by lia. change (2 ^ 8)%Z with 256%Z.
    by rewrite Z.div_small, Z.lor_0_l by lia. }
  by rewrite Hlow, Hhigh, IH.
Qed.

(** A swap turns the octets round. *)
Lemma octets_bswap n v : octets n (bswap n v) = rev (octets n v).
Proof.
  unfold bswap. pose proof (octets_of_octets (rev (octets n v))) as Ho.
  rewrite length_rev, octets_length in Ho. apply Ho.
  rewrite rev_alt. apply Forall_reverse. by apply octets_range.
Qed.

Lemma bswap_of_octets l : Forall octet_value l → bswap (length l) (of_octets l) = of_octets (rev l).
Proof. intros Hl. unfold bswap. by rewrite octets_of_octets. Qed.

(** The swap of macOS is the others'. *)
Lemma k5_swap16_bswap x : k5_swap16 x = bswap 2 x.
Proof.
  unfold k5_swap16, bswap. cbn -[Z.land Z.lor Z.shiftl Z.shiftr].
  rewrite Z.shiftl_0_l, Z.lor_0_r. change 65535%Z with (Z.lor (Z.shiftl 255 8) 255).
  rewrite Z.shiftr_land, Z.shiftr_lor, Z.shiftr_shiftl_l, Z.shiftl_0_r by lia.
  change (Z.shiftr 255 8) with 0%Z. rewrite Z.lor_0_r. f_equal. f_equal.
  rewrite <-Z.land_assoc. by f_equal.
Qed.

(** The shifts of the portable code, gathered. *)
Create Rewrite HintDb octets.
#[local] Hint Rewrite Z.shiftr_shiftr Z.shiftl_shiftl Z.shiftl_lor Z.lor_assoc Z.shiftl_0_l Z.lor_0_r
  using lia : octets.

Ltac gather :=
  rewrite ?take_0; cbn -[Z.shiftl Z.lor]; autorewrite with octets; done.

Lemma store_octets t v :
  store_16_be t v = rev (octets 2 v) ∧ store_32_be t v = rev (octets 4 v) ∧
  store_64_be t v = rev (octets 8 v) ∧
  store_16_le t v = octets 2 v ∧ store_32_le t v = octets 4 v ∧ store_64_le t v = octets 8 v.
Proof.
  destruct t as [| |host].
  - cbn [store_16_be store_32_be store_64_be store_16_le store_32_le store_64_le PUTSWAPPED PUT host_order].
    unfold PUTSWAPPED, PUT. cbn [host_order]. by rewrite !octets_bswap, !rev_involutive.
  - cbn [store_16_be store_32_be store_64_be store_16_le store_32_le store_64_le].
    unfold PUTSWAPPED, PUT. cbn [host_order]. by rewrite !octets_bswap.
  - cbn -[Z.shiftr Z.land]. autorewrite with octets. done.
Qed.

Lemma GET_octets t n p :
  Forall octet_value p → (n <= length p)%nat →
  GETSWAPPED t n p =
    match host_order t with
    | little_endian => of_octets (rev (take n p))
    | big_endian => of_octets (take n p)
    end.
Proof.
  intros Hp Hn. assert (Hlen : length (take n p) = n) by (rewrite length_take; lia).
  assert (Hr : Forall octet_value (take n p)) by by apply Forall_take.
  unfold GETSWAPPED, GET. destruct (host_order t).
  - rewrite <-Hlen at 1. rewrite <-(length_rev (take n p)), bswap_of_octets, rev_involutive; [done|].
    rewrite rev_alt. by apply Forall_reverse.
  - rewrite <-Hlen at 1. by rewrite bswap_of_octets.
Qed.

Lemma read_ok n f p : (n <= length p)%nat → read n f p = Ok (f p).
Proof. intros Hn. unfold read. by rewrite (proj2 (Nat.leb_le n (length p))). Qed.

Lemma int_shl_ok b k : (b * 2 ^ k <= 2147483647)%Z → (0 <= k)%Z → int_shl b k = Ok (Z.shiftl b k).
Proof.
  intros Hb Hk. unfold int_shl. rewrite Z.shiftl_mul_pow2 by done.
  by rewrite (proj2 (Z.leb_le _ _) Hb).
Qed.

Lemma load_be_octets t p n f :
  (n, f) ∈ [(2, load_16_be); (4, load_32_be); (8, load_64_be)] →
  Forall octet_value p → (n <= length p)%nat → f t p = Ok (of_octets (rev (take n p))).
Proof.
  intros Hf Hp Hn. assert (Hb : ∀ i b, p !! i = Some b → octet_value b)
    by (intros i b; by apply Forall_lookup_1).
  destruct t as [| |host].
  1-2: (rewrite !elem_of_cons in Hf; destruct Hf as [[= -> ->]|[[= -> ->]|[[= -> ->]|[]%elem_of_nil]]];
    cbn [load_16_be load_32_be load_64_be]; rewrite read_ok, ?GET_octets by done; done).
  unfold octet_value in Hb.
  assert (H4 : ∀ q, Forall octet_value q → (4 <= length q)%nat →
    load_32_be (K5_OTHER host) q = Ok (of_octets (rev (take 4 q)))).
  { intros q Hq Hlen. destruct q as [|a [|b [|c [|d q]]]]; cbn [length] in Hlen; try lia.
    rewrite !Forall_cons in Hq. unfold octet_value in Hq.
    cbn -[Z.shiftl Z.lor]. rewrite int_shl_ok by lia.
    cbn -[Z.shiftl Z.lor]. f_equal. gather. }
  rewrite !elem_of_cons in Hf; destruct Hf as [[= -> ->]|[[= -> ->]|[[= -> ->]|[]%elem_of_nil]]].
  - destruct p as [|a [|b p]]; cbn [length] in Hn; try lia.
    rewrite !Forall_cons in Hp. unfold octet_value in Hp.
    cbn -[Z.shiftl Z.lor]. rewrite int_shl_ok by lia.
    cbn -[Z.shiftl Z.lor]. f_equal. gather.
  - by apply H4.
  - destruct p as [|a [|b [|c [|d [|e [|f' [|g [|h p]]]]]]]]; cbn [length] in Hn; try lia.
    assert (Hh := H4 _ Hp ltac:(cbn; lia)). apply (Forall_drop _ 4) in Hp.
    assert (Hl := H4 _ Hp ltac:(cbn; lia)). unfold load_64_be, mbind, outcome_bind. rewrite Hh, Hl.
    cbn -[Z.shiftl Z.lor]. f_equal. rewrite Z.lor_comm. gather.
Qed.

(** Little endian: the portable loads of 32 and 64 bits shift an octet into the sign
    bit of an [int]. *)
Definition shift_fits (t : target) (n : nat) (p : list Z) : bool :=
  match t with
  | K5_OTHER _ =>
    (negb (n =? 4)%nat && negb (n =? 8)%nat || (default 0 (p !! 3%nat) <? 128)%Z) &&
    (negb (n =? 8)%nat || (default 0 (p !! 7%nat) <? 128)%Z)
  | _ => true
  end.

Lemma load_le_octets t p n f :
  (n, f) ∈ [(2, load_16_le); (4, load_32_le); (8, load_64_le)] →
  Forall octet_value p → (n <= length p)%nat →
  if shift_fits t n p then f t p = Ok (of_octets (take n p)) else ∃ e, f t p = Undefined e.
Proof.
  intros Hf Hp Hn. destruct t as [| |host].
  1-2: (rewrite !elem_of_cons in Hf; destruct Hf as [[= -> ->]|[[= -> ->]|[[= -> ->]|[]%elem_of_nil]]];
    cbn [load_16_le load_32_le load_64_le shift_fits]; rewrite read_ok, ?GET_octets by done; done).
  assert (H4 : ∀ q, Forall octet_value q → (4 <= length q)%nat →
    if (default 0 (q !! 3%nat) <? 128)%Z
    then load_32_le (K5_OTHER host) q = Ok (of_octets (take 4 q))
    else ∃ e, load_32_le (K5_OTHER host) q = Undefined e).
  { intros q Hq Hlen. destruct q as [|a [|b [|c [|d q]]]]; cbn [length] in Hlen; try lia.
    rewrite !Forall_cons in Hq. unfold octet_value in Hq. cbn -[Z.shiftl Z.lor].
    rewrite !(int_shl_ok b), !(int_shl_ok c) by lia.
    destruct (Z.ltb_spec d 128).
    - rewrite int_shl_ok by lia. cbn -[Z.shiftl Z.lor]. f_equal. gather.
    - unfold int_shl. rewrite Z.shiftl_mul_pow2 by lia.
      rewrite (proj2 (Z.leb_gt _ _)) by lia. by eexists. }
  rewrite !elem_of_cons in Hf; destruct Hf as [[= -> ->]|[[= -> ->]|[[= -> ->]|[]%elem_of_nil]]].
  - destruct p as [|a [|b p]]; cbn [length] in Hn; try lia.
    rewrite !Forall_cons in Hp. unfold octet_value in Hp.
    cbn -[Z.shiftl Z.lor]. rewrite int_shl_ok by lia.
    cbn -[Z.shiftl Z.lor]. f_equal. gather.
  - cbn [shift_fits negb Nat.eqb andb orb]. rewrite andb_true_r. by apply H4.
  - destruct p as [|a [|b [|c [|d [|e [|f' [|g [|h p]]]]]]]]; cbn [length] in Hn; try lia.
    pose proof (H4 _ Hp ltac:(cbn; lia)) as Hl. apply (Forall_drop _ 4) in Hp.
    pose proof (H4 _ Hp ltac:(cbn; lia)) as Hh. clear H4.
    change (default 0%Z ((a :: b :: c :: d :: e :: f' :: g :: h :: p) !! 3%nat)) with d in Hl.
    change (default 0%Z (drop 4 (a :: b :: c :: d :: e :: f' :: g :: h :: p) !! 3%nat)) with h in Hh.
    change (shift_fits (K5_OTHER host) 8 (a :: b :: c :: d :: e :: f' :: g :: h :: p))
      with ((d <? 128)%Z && (h <? 128)%Z).
    unfold load_64_le, mbind, outcome_bind.
    destruct (h <? 128)%Z.
    + rewrite Hh. destruct (d <? 128)%Z; cbn [andb].
      * rewrite Hl. cbn -[Z.shiftl Z.lor]. f_equal. rewrite Z.lor_comm. gather.
      * destruct Hl as [e' ->]. by eexists.
    + rewrite andb_false_r. destruct Hh as [e' ->]. by eexists.
Qed.

Lemma range_app n v rest : Forall octet_value rest → Forall octet_value (rev (octets n v) ++ rest).
Proof.
  intros Hr. apply Forall_app. split; [|done]. rewrite rev_alt. apply Forall_reverse, octets_range.
Qed.

Lemma take_octets n v rest : take n (octets n v ++ rest) = octets n v.
Proof. rewrite <-(octets_length n v) at 1. apply take_app_length. Qed.

Lemma take_rev_octets n v rest : take n (rev (octets n v) ++ rest) = rev (octets n v).
Proof. rewrite <-(octets_length n v), <-length_rev at 1. apply take_app_length. Qed.

Definition order_known (t : target) : bool :=
  match t with K5_OTHER _ => false | _ => true end.

Lemma load_be_stored t v rest n f :
  (n, f) ∈ [(2, load_16_be); (4, load_32_be); (8, load_64_be)] → Forall octet_value rest →
  f t (rev (octets n v) ++ rest) = Ok (v mod 2 ^ (8 * Z.of_nat n))%Z.
Proof.
  intros Hf Hr. erewrite load_be_octets; [|exact Hf|by apply range_app|].
  - by rewrite take_rev_octets, rev_involutive, of_octets_octets.
  - rewrite length_app, length_rev, octets_length. lia.
Qed.

Lemma load_le_stored t v rest n f :
  (n, f) ∈ [(2, load_16_le); (4, load_32_le); (8, load_64_le)] →
  shift_fits t n (octets n v ++ rest) = true → Forall octet_value rest →
  f t (octets n v ++ rest) = Ok (v mod 2 ^ (8 * Z.of_nat n))%Z.
Proof.
  intros Hf Hfits Hr. pose proof (load_le_octets t (octets n v ++ rest) n f Hf) as Hl.
  rewrite Hfits, take_octets, of_octets_octets in Hl. apply Hl.
  - apply Forall_app. split; [apply octets_range|done].
  - rewrite length_app, octets_length. lia.
Qed.

Lemma load_n_stored t v rest n :
  read n (GET t n) (PUT t n v ++ rest) = Ok (v mod 2 ^ (8 * Z.of_nat n))%Z.
Proof.
  assert (Hlen : length (PUT t n v) = n)
    by (unfold PUT; destruct (host_order t); rewrite ?length_rev; apply octets_length).
  rewrite read_ok by (rewrite length_app; lia). f_equal. unfold GET, PUT.
  destruct (host_order t).
  - by rewrite take_rev_octets, rev_involutive, of_octets_octets.
  - by rewrite take_octets, of_octets_octets.
Qed.

Lemma bswap_bswap n v : bswap n (bswap n v) = (v mod 2 ^ (8 * Z.of_nat n))%Z.
Proof. unfold bswap at 1. by rewrite octets_bswap, rev_involutive, of_octets_octets. Qed.

Lemma ntohll_htonll t v :
  (0 <= v < 2 ^ 64)%Z → ∃ u, k5_htonll t v = Ok u ∧ k5_ntohll t u = Ok v.
Proof.
  intros Hv. assert (Hm : (v mod 2 ^ (8 * Z.of_nat 8))%Z = v) by by apply Z.mod_small.
  assert (Hbe : ∀ q, length q = 8%nat → Forall octet_value q →
    load_64_be t q = Ok (of_octets (rev q))).
  { intros q Hlen Hq. rewrite (load_be_octets t q 8 load_64_be); [|repeat constructor|done|lia].
    by rewrite <-Hlen, firstn_all. }
  destruct t as [| |[|]]; cbn [k5_htonll k5_ntohll]; unfold k5_ntohll; cbn [k5_htonll].
  - eauto.
  - eexists. split; [done|]. by rewrite bswap_bswap, Hm.
  - exists v. assert (Hp : ∀ w, load_64_be (K5_OTHER big_endian) (PUT (K5_OTHER big_endian) 8 w) =
      Ok (w mod 2 ^ (8 * Z.of_nat 8))%Z).
    { intros w. pose proof (load_be_stored (K5_OTHER big_endian) w [] 8 load_64_be) as Hl.
      rewrite app_nil_r in Hl. apply Hl; [repeat constructor|constructor]. }
    by rewrite Hp, Hm.
  - assert (Hp : ∀ w, load_64_be (K5_OTHER little_endian) (PUT (K5_OTHER little_endian) 8 w) =
      Ok (bswap 8 w)) by (intros w; apply Hbe; [apply octets_length|apply octets_range]).
    exists (bswap 8 v). by rewrite !Hp, bswap_bswap, Hm.
Qed.

(** ** Properties *)

(** C36: whatever the target, the stores write the octets of the integer in the order
    of their names, and the loads put the octets together in it; but without a known
    byte order the little endian loads of 32 and 64 bits are undefined as soon as the
    most significant octet of a word reaches 128. *)
Theorem byte_orders_agree t v p :
  Forall octet_value p →
  (store_16_be t v = rev (octets 2 v) ∧ store_32_be t v = rev (octets 4 v) ∧
   store_64_be t v = rev (octets 8 v) ∧
   store_16_le t v = octets 2 v ∧ store_32_le t v = octets 4 v ∧ store_64_le t v = octets 8 v) ∧
  (∀ n f, (n, f) ∈ [(2, load_16_be); (4, load_32_be); (8, load_64_be)] → (n <= length p)%nat →
     f t p = Ok (of_octets (rev (take n p)))) ∧
  (∀ n f, (n, f) ∈ [(2, load_16_le); (4, load_32_le); (8, load_64_le)] → (n <= length p)%nat →
     if shift_fits t n p then f t p = Ok (of_octets (take n p)) else ∃ e, f t p = Undefined e).
Proof.
  intros Hp. split; [apply store_octets|split]; intros n f Hf Hn.
  - by apply load_be_octets.
  - by apply load_le_octets.
Qed.

(** What is stored is loaded back, modulo the width of the store, where the loads
    are defined; and the conversion to the order of the network is its own inverse. *)
Theorem loads_after_stores t v rest :
  Forall octet_value rest →
  (load_16_be t (store_16_be t v ++ rest) = Ok (v mod 2 ^ 16)%Z ∧
   load_32_be t (store_32_be t v ++ rest) = Ok (v mod 2 ^ 32)%Z ∧
   load_64_be t (store_64_be t v ++ rest) = Ok (v mod 2 ^ 64)%Z) ∧
  (load_16_n t (store_16_n t v ++ rest) = Ok (v mod 2 ^ 16)%Z ∧
   load_32_n t (store_32_n t v ++ rest) = Ok (v mod 2 ^ 32)%Z ∧
   load_64_n t (store_64_n t v ++ rest) = Ok (v mod 2 ^ 64)%Z) ∧
  load_16_le t (store_16_le t v ++ rest) = Ok (v mod 2 ^ 16)%Z ∧
  (order_known t = true →
   load_32_le t (store_32_le t v ++ rest) = Ok (v mod 2 ^ 32)%Z ∧
   load_64_le t (store_64_le t v ++ rest) = Ok (v mod 2 ^ 64)%Z) ∧
  ((0 <= v < 2 ^ 64)%Z → ∃ u, k5_htonll t v = Ok u ∧ k5_ntohll t u = Ok v).
Proof.
  intros Hr. destruct (store_octets t v) as (-> & -> & -> & -> & -> & ->).
  split; [|split; [|split; [|split]]].
  - split; [|split].
    + apply (load_be_stored t v rest 2); [repeat constructor|done].
    + apply (load_be_stored t v rest 4); [repeat constructor|done].
    + apply (load_be_stored t v rest 8); [repeat constructor|done].
  - split; [|split]; apply load_n_stored.
  - apply (load_le_stored t v rest 2); [repeat constructor|by destruct t|done].
  - intros Ht. split.
    + apply (load_le_stored t v rest 4); [repeat constructor|by destruct t|done].
    + apply (load_le_stored t v rest 8); [repeat constructor|by destruct t|done].
  - apply ntohll_htonll.
Qed.

(** ** At concrete inputs *)
Lemma byte_orders_agree_witness :
  load_32_be K5_LE [1; 2; 3; 4]%Z = Ok 16909060%Z ∧
  ∃ e, load_32_le (K5_OTHER little_endian) [1; 2; 3; 128]%Z = Undefined e.
Proof.
  destruct (byte_orders_agree K5_LE 0 [1; 2; 3; 4]%Z) as (_ & Hbe & _).
  { repeat constructor; lia. }
  destruct (byte_orders_agree (K5_OTHER little_endian) 0 [1; 2; 3; 128]%Z) as (_ & _ & Hle).
  { repeat constructor; lia. }
  split.
  - apply (Hbe 4 load_32_be); [by right; left|cbn; lia].
  - apply (Hle 4 load_32_le); [by right; left|cbn; lia].
Defined.

Lemma loads_after_stores_witness :
  load_32_le K5_LE (store_32_le K5_LE (-1) ++ []) = Ok 4294967295%Z.
Proof.
  destruct (loads_after_stores K5_LE (-1) []) as (_ & _ & _ & Hle & _); [constructor|].
  apply Hle. reflexivity.
Defined.
