(* ===== verification/K5Int.v ===== *)
(** * Data and timestamps of the Kerberos library ([auth/kinit_client/k5-int.h])

    The inline functions of the header: comparison and making of [krb5_data],
    allocation, the freeing of secrets, and the arithmetic of timestamps, which are
    32-bit integers read as times up to 2106. *)
From S2P Require Import Prelude StrUtil K5Platform.
From stdpp Require Import options.

#[local] Open Scope Z_scope.

(** ** Integers *)
(** The conversions to [uint32_t], [krb5_timestamp] and [size_t]. *)
Definition uint32 (z : Z) : Z := z mod 2 ^ 32.
Definition int32 (z : Z) : Z := (z + 2 ^ 31) mod 2 ^ 32 - 2 ^ 31.
Definition size_t (z : Z) : Z := z mod 2 ^ 64.

Definition is_int32 (z : Z) : Prop := - 2 ^ 31 <= z < 2 ^ 31.

(** ** Timestamps *)
Definition ts2tt (timestamp : Z) : Z := uint32 timestamp.

Definition ts_delta (a b : Z) : Z := int32 (uint32 (uint32 a - uint32 b)).

Definition ts_interval (start end_ : Z) : Z :=
  if uint32 start >? uint32 end_ then 0 else uint32 (uint32 end_ - uint32 start).

Definition ts_incr (ts delta : Z) : Z := int32 (uint32 (uint32 ts + uint32 delta)).

Definition ts_after (a b : Z) : bool := uint32 a >? uint32 b.

Definition ts_within (a b d : Z) : bool :=
  negb (ts_after a (ts_incr b d)) && negb (ts_after b (ts_incr a d)).

(** ** Memory *)
(** A pointer: [NULL], or the octets from it on. *)
Abbreviation pointer := (option (list Z)).

Definition memcmp_eq (p q : pointer) (n : Z) : outcome bool :=
  match p, q with
  | Some p, Some q =>
    if (n <=? Z.of_nat (length p)) && (n <=? Z.of_nat (length q))
    then Ok (bool_decide (take (Z.to_nat n) p = take (Z.to_nat n) q))
    else Undefined "memcmp past the octets"
  | _, _ => Undefined "memcmp of NULL"
  end.

(** [memcpy( ptr, in, len )]: the octets at [ptr] afterwards *)
Definition memcpy (ptr : list Z) (in_ : pointer) (len : Z) : outcome (list Z) :=
  match in_ with
  | Some p =>
    if (len <=? Z.of_nat (length p)) && (len <=? Z.of_nat (length ptr))
    then Ok (take (Z.to_nat len) p ++ drop (Z.to_nat len) ptr)
    else Undefined "memcpy past the octets"
  | None => Undefined "memcpy of NULL"
  end.

Section memory.
(** The memory there is: whether so many octets can be had. *)
Context (available : Z → bool).
Context (KV5M_DATA ENOMEM : Z).

Definition calloc (nmemb size : Z) : pointer :=
  if (nmemb * size <? 2 ^ 64) && available (nmemb * size)
  then Some (replicate (Z.to_nat (nmemb * size)) 0) else None.

(** ** Data *)
Record krb5_data := Krb5Data { kd_magic : Z; kd_length : Z; kd_data : pointer }.

Definition data_eq (d1 d2 : krb5_data) : outcome bool :=
  if kd_length d1 =? kd_length d2 then
    if kd_length d1 =? 0 then Ok true else memcmp_eq (kd_data d1) (kd_data d2) (kd_length d1)
  else Ok false.

(** A string is its characters, without the final NUL. *)
Definition data_eq_string (d : krb5_data) (s : list Z) : outcome bool :=
  if kd_length d =? Z.of_nat (length s) then
    if kd_length d =? 0 then Ok true else memcmp_eq (kd_data d) (Some (s ++ [0])) (kd_length d)
  else Ok false.

Definition make_data (data : pointer) (len : Z) : krb5_data := Krb5Data KV5M_DATA len data.
Definition empty_data : krb5_data := make_data None 0.
Definition string2data (str : list Z) : krb5_data :=
  make_data (Some (str ++ [0])) (uint32 (Z.of_nat (length str))).

(** The code, and the data on success. *)
Definition alloc_data (data : krb5_data) (len : Z) : Z * krb5_data :=
  match calloc (if 0 <? len then len else 1) 1 with
  | None => (ENOMEM, data)
  | Some ptr => (0, Krb5Data KV5M_DATA len (Some ptr))
  end.

Record krb5_authdata := Krb5Authdata { ad_type : Z; ad_length : Z; ad_contents : pointer }.

Definition authdata_eq (a1 a2 : krb5_authdata) : outcome bool :=
  if (ad_type a1 =? ad_type a2) && (ad_length a1 =? ad_length a2) then
    if ad_length a1 =? 0 then Ok true else memcmp_eq (ad_contents a1) (ad_contents a2) (ad_length a1)
  else Ok false.

(** ** Allocation: the pointer and the code *)
Definition k5calloc (nmemb size : Z) : pointer * Z :=
  let ptr := calloc (if nmemb =? 0 then 1 else nmemb) (if size =? 0 then 1 else size) in
  (ptr, match ptr with None => ENOMEM | Some _ => 0 end).

Definition k5alloc (size : Z) : pointer * Z := k5calloc 1 size.

(** The copy of both. *)
Definition copy_into (ptr : pointer) (in_ : pointer) (len : Z) : outcome pointer :=
  match ptr with
  | Some p =>
    if 0 <? len then
      match memcpy p in_ len with Ok q => Ok (Some q) | Throw e => Throw e | Undefined e => Undefined e end
    else Ok (Some p)
  | None => Ok None
  end.

Definition k5memdup (in_ : pointer) (len : Z) : outcome (pointer * Z) :=
  let '(ptr, code) := k5alloc len in
  match copy_into ptr in_ len with
  | Ok p => Ok (p, code) | Throw e => Throw e | Undefined e => Undefined e end.

Definition k5memdup0 (in_ : pointer) (len : Z) : outcome (pointer * Z) :=
  let '(ptr, code) := k5alloc (size_t (len + 1)) in
  match copy_into ptr in_ len with
  | Ok p => Ok (p, code) | Throw e => Throw e | Undefined e => Undefined e end.
End memory.

(** ** Freeing of secrets *)
(** The heap: the octets of each block there is, and those left behind in each block
    freed. *)
Record heap := Heap { blocks : gmap Z (list Z); freed : gmap Z (list Z) }.

(** [explicit_bzero( ptr, len )] and [free( ptr )] of a block *)
Definition zap (a len : Z) (h : heap) : outcome heap :=
  match blocks h !! a with
  | Some b =>
    if len <=? Z.of_nat (length b)
    then Ok (Heap (<[a := replicate (Z.to_nat len) 0 ++ drop (Z.to_nat len) b]> (blocks h)) (freed h))
    else Undefined "explicit_bzero past the block"
  | None => Undefined "explicit_bzero of no block"
  end.

Definition free (a : Z) (h : heap) : outcome heap :=
  match blocks h !! a with
  | Some b => Ok (Heap (delete a (blocks h)) (<[a := b]> (freed h)))
  | None => Undefined "free of no block"
  end.

Definition then_ (m : outcome heap) (f : heap → outcome heap) : outcome heap :=
  match m with Ok h => f h | Throw e => Throw e | Undefined e => Undefined e end.

Definition zapfree (ptr : option Z) (len : Z) (h : heap) : outcome heap :=
  match ptr with
  | Some a => then_ (zap a len h) (free a)
  | None => Ok h
  end.

(** The octets before the first NUL. *)
Fixpoint strlen (b : list Z) : outcome Z :=
  match b with
  | [] => Undefined "strlen past the block"
  | c :: b' =>
    if c =? 0 then Ok 0
    else match strlen b' with Ok n => Ok (n + 1) | Throw e => Throw e | Undefined e => Undefined e end
  end.

Definition zapfreestr (str : option Z) (h : heap) : outcome heap :=
  match str with
  | Some a =>
    match blocks h !! a with
    | Some b =>
      match strlen b with
      | Ok n => then_ (zap a n h) (free a)
      | Throw e => Throw e
      | Undefined e => Undefined e
      end
    | None => Undefined "strlen of no block"
    end
  | None => Ok h
  end.

(** A structure on the heap: its address, and its fields [data] and [length]. *)
Definition zapfreedata (data : option (Z * (option Z * Z))) (h : heap) : outcome heap :=
  match data with
  | Some (a, (ptr, len)) => then_ (zapfree ptr len h) (free a)
  | None => Ok h
  end.

(** ** Lemmas *)
Lemma uint32_range z : 0 <= uint32 z < 2 ^ 32.
Proof. by apply Z.mod_pos_bound. Qed.

Lemma uint32_nonneg z : 0 <= z < 2 ^ 31 → uint32 z = z.
Proof. intros Hz. apply Z.mod_small. lia. Qed.

Ltac unwrap :=
  unfold ts2tt, ts_delta, ts_interval, ts_incr, ts_after, ts_within, int32, uint32, is_int32 in *;
  Z.to_euclidean_division_equations; lia.

Lemma ts_incr_delta a b : is_int32 a → ts_incr b (ts_delta a b) = a.
Proof. unwrap. Qed.
Lemma ts_delta_incr a d : is_int32 d → ts_delta (ts_incr a d) a = d.
Proof. unwrap. Qed.
Lemma ts_delta_sub a b : is_int32 (a - b) → ts_delta a b = a - b.
Proof. unwrap. Qed.
Lemma ts_incr_time a d : 0 <= ts2tt a + d < 2 ^ 32 → ts2tt (ts_incr a d) = ts2tt a + d.
Proof. unwrap. Qed.

Lemma calloc_ok available n m p :
  calloc available n m = Some p → p = replicate (Z.to_nat (n * m)) 0 ∧ n * m < 2 ^ 64.
Proof.
  unfold calloc. destruct (_ && _) eqn:Ha; [|done]. apply andb_true_iff in Ha as [Hn%Z.ltb_lt _].
  by intros [= <-].
Qed.

Lemma memcpy_fits ptr p len :
  0 <= len → len <= Z.of_nat (length p) → len <= Z.of_nat (length ptr) →
  memcpy ptr (Some p) len = Ok (take (Z.to_nat len) p ++ drop (Z.to_nat len) ptr).
Proof.
  intros H0 Hp Hptr. unfold memcpy.
  by rewrite (proj2 (Z.leb_le _ _) Hp), (proj2 (Z.leb_le _ _) Hptr).
Qed.

(** Data is compared as what it holds. *)
Definition data_holds (d : krb5_data) (l : list Z) : Prop :=
  kd_length d = Z.of_nat (length l) ∧ ∃ rest, kd_data d = Some (l ++ rest).

Lemma memcmp_holds l1 l2 r1 r2 :
  length l1 = length l2 →
  memcmp_eq (Some (l1 ++ r1)) (Some (l2 ++ r2)) (Z.of_nat (length l1)) = Ok (bool_decide (l1 = l2)).
Proof.
  intros Hl. unfold memcmp_eq. rewrite !length_app.
  rewrite (proj2 (Z.leb_le _ (Z.of_nat (length l1 + length r1)))) by lia.
  rewrite (proj2 (Z.leb_le _ (Z.of_nat (length l2 + length r2)))) by lia. cbn [andb].
  rewrite Nat2Z.id, take_app_length. by rewrite Hl, take_app_length.
Qed.

Theorem data_eq_spec d1 d2 l1 l2 :
  data_holds d1 l1 → data_holds d2 l2 → data_eq d1 d2 = Ok (bool_decide (l1 = l2)).
Proof.
  intros [Hl1 [r1 Hd1]] [Hl2 [r2 Hd2]]. unfold data_eq. rewrite Hl1, Hl2, Hd1, Hd2.
  destruct (Z.eqb_spec (Z.of_nat (length l1)) (Z.of_nat (length l2))) as [Heq|Hne].
  - apply Nat2Z.inj in Heq. destruct (Z.eqb_spec (Z.of_nat (length l1)) 0) as [H0|_].
    + destruct l1, l2; try done; cbn in *; lia.
    + by apply memcmp_holds.
  - rewrite bool_decide_false; [done|]. by intros ->.
Qed.

(** A copy: the octets, with a NUL for [k5memdup0], or the error and no pointer.
    The length [SIZE_MAX] overflows in [k5memdup0], which then copies past the one
    octet it got. *)
Theorem k5memdup_spec available ENOMEM p len rest :
  len = Z.of_nat (length p) → len < 2 ^ 64 - 1 →
  match k5memdup available ENOMEM (Some (p ++ rest)) len with
  | Ok (Some q, code) => code = 0 ∧ take (length p) q = p
  | Ok (None, code) => code = ENOMEM
  | _ => False
  end ∧
  match k5memdup0 available ENOMEM (Some (p ++ rest)) len with
  | Ok (Some q, code) => code = 0 ∧ q = p ++ [0]
  | Ok (None, code) => code = ENOMEM
  | _ => False
  end.
Proof.
  intros Hlen Hmax. unfold k5memdup, k5memdup0, k5alloc, k5calloc, copy_into.
  assert (Hsize : size_t (len + 1) = len + 1) by (apply Z.mod_small; lia). rewrite Hsize. cbn [Z.eqb].
  split.
  - destruct (calloc _ _ _) as [ptr|] eqn:Hc; [|done].
    apply calloc_ok in Hc as [-> Hn]. destruct (Z.ltb_spec 0 len) as [Hpos|Hz].
    + rewrite memcpy_fits; [|lia|rewrite length_app; lia|].
      * split; [done|]. rewrite Hlen, Nat2Z.id, take_app_length. apply take_app_length.
      * rewrite length_replicate. destruct (Z.eqb_spec len 0); lia.
    + split; [done|]. by destruct p; [|cbn in *; lia].
  - destruct (calloc _ _ _) as [ptr|] eqn:Hc; [|done].
    apply calloc_ok in Hc as [-> Hn].
    rewrite (proj2 (Z.eqb_neq (len + 1) 0)) by lia.
    replace (Z.to_nat (1 * (len + 1))) with (length p + 1)%nat by lia.
    destruct (Z.ltb_spec 0 len) as [Hpos|Hz].
    + rewrite memcpy_fits; [|lia|rewrite length_app; lia|rewrite length_replicate; lia].
      split; [done|]. rewrite Hlen, Nat2Z.id, take_app_length, replicate_add. f_equal.
      rewrite <-(length_replicate (length p) 0) at 1. apply drop_app_length.
    + split; [done|]. by destruct p; [|cbn in *; lia].
Qed.

(** Nothing of what was zapped is left in the block freed, and nothing else is
    touched. *)
Lemma zap_free a len b h :
  blocks h !! a = Some b → 0 <= len <= Z.of_nat (length b) →
  then_ (zap a len h) (free a) =
    Ok (Heap (delete a (blocks h))
          (<[a := replicate (Z.to_nat len) 0 ++ drop (Z.to_nat len) b]> (freed h))).
Proof.
  intros Hb Hlen. unfold zap. rewrite Hb, (proj2 (Z.leb_le _ _)) by lia. unfold then_, free.
  cbn [blocks freed]. by rewrite lookup_insert_eq, delete_insert_eq.
Qed.

Lemma strlen_ok l rest : (∀ c, c ∈ l → c <> 0) → strlen (l ++ 0 :: rest) = Ok (Z.of_nat (length l)).
Proof.
  induction l as [|c l IH]; intros Hl; [done|]. cbn [app strlen].
  rewrite (proj2 (Z.eqb_neq c 0)) by (apply Hl; by left). rewrite IH by (intros; apply Hl; by right).
  cbn [length]. f_equal. lia.
Qed.

(** A secret is gone when its block is freed: all of a block, all of a string
    before its end, all of the octets of a [krb5_data]. *)
Theorem zapfree_spec h a secret rest :
  (blocks h !! a = Some secret →
   zapfree (Some a) (Z.of_nat (length secret)) h =
     Ok (Heap (delete a (blocks h)) (<[a := replicate (length secret) 0]> (freed h)))) ∧
  ((∀ c, c ∈ secret → c <> 0) → blocks h !! a = Some (secret ++ 0 :: rest) →
   zapfreestr (Some a) h =
     Ok (Heap (delete a (blocks h)) (<[a := replicate (length secret) 0 ++ 0 :: rest]> (freed h)))) ∧
  (∀ d s, d <> a → blocks h !! a = Some secret → blocks h !! d = Some s →
   zapfreedata (Some (d, (Some a, Z.of_nat (length secret)))) h =
     Ok (Heap (delete d (delete a (blocks h)))
           (<[d := s]> (<[a := replicate (length secret) 0]> (freed h))))) ∧
  zapfree None (Z.of_nat (length secret)) h = Ok h ∧ zapfreestr None h = Ok h ∧ zapfreedata None h = Ok h.
Proof.
  assert (Hzap : blocks h !! a = Some secret → zapfree (Some a) (Z.of_nat (length secret)) h =
     Ok (Heap (delete a (blocks h)) (<[a := replicate (length secret) 0]> (freed h)))).
  { intros Hb. cbn [zapfree]. rewrite (zap_free a _ secret) by (done || lia).
    by rewrite Nat2Z.id, drop_all, app_nil_r. }
  split_and!; try done.
  - intros Hs Hb. cbn [zapfreestr]. rewrite Hb, strlen_ok by done.
    rewrite (zap_free a _ (secret ++ 0 :: rest)) by (done || rewrite length_app; lia).
    by rewrite Nat2Z.id, drop_app_length.
  - intros d s Hd Hb Hs. cbn [zapfreedata]. rewrite Hzap by done. unfold then_, free. cbn [blocks freed].
    by rewrite lookup_delete_ne, Hs.
Qed.

Example k5memdup0_overflow available p :
  available 1 = true → ∃ e, k5memdup0 available 12 (Some p) (2 ^ 64 - 1) = Undefined e.
Proof.
  intros Ha. unfold k5memdup0.
  change (k5alloc available 12 (size_t (2 ^ 64 - 1 + 1)))
    with (k5calloc available 12 1 0). unfold k5calloc.
  change (calloc available (if 1 =? 0 then 1 else 1) (if 0 =? 0 then 1 else 0))
    with (if available 1 then Some [0] else None). rewrite Ha.
  unfold copy_into, memcpy. rewrite andb_comm. cbn -[Z.of_nat]. eexists. reflexivity.
Qed.

(** ** Properties *)

(** C37: timestamps are times from 1970 to 2106. Differences and increments are
    inverse to each other and never overflow; the interval and the order are those of
    the times, but two times are said to be within a distance of each other exactly
    when they are only as long as neither goes past 2106 with it: there even equal
    times are told apart. *)
Theorem timestamps_spec a b d :
  is_int32 a → is_int32 b → is_int32 d →
  (0 <= ts2tt a < 2 ^ 32 ∧ is_int32 (ts_delta a b) ∧ is_int32 (ts_incr a d)) ∧
  (ts_incr b (ts_delta a b) = a ∧ ts_delta (ts_incr a d) a = d) ∧
  (is_int32 (ts2tt a - ts2tt b) → ts_delta a b = ts2tt a - ts2tt b) ∧
  ts_interval b a = Z.max 0 (ts2tt a - ts2tt b) ∧
  (ts_after a b = true ↔ ts2tt b < ts2tt a) ∧
  (0 <= d → ts2tt a + d < 2 ^ 32 → ts2tt b + d < 2 ^ 32 →
     (ts_within a b d = true ↔ Z.abs (ts2tt a - ts2tt b) <= d)) ∧
  (0 < d → 2 ^ 32 <= ts2tt a + d → ts_within a a d = false).
Proof.
  intros Ha Hb Hd. pose proof (uint32_range a) as Hra. pose proof (uint32_range b) as Hrb.
  split; [|split; [|split; [|split; [|split; [|split]]]]].
  - split; [done|]. unfold ts_delta, ts_incr, int32, is_int32. split; unwrap.
  - split; [by apply ts_incr_delta|by apply ts_delta_incr].
  - unwrap.
  - unfold ts_interval, ts2tt. destruct (Z.gtb_spec (uint32 b) (uint32 a)); [lia|].
    unfold uint32 at 1. rewrite Z.mod_small; lia.
  - unfold ts_after, ts2tt. destruct (Z.gtb_spec (uint32 a) (uint32 b)); split; (done || lia).
  - intros H0 Hta Htb. unfold ts_within, ts_after. fold (ts2tt (ts_incr b d)) (ts2tt (ts_incr a d)).
    unfold ts2tt in Hta, Htb. rewrite !ts_incr_time by (unfold ts2tt; lia). unfold ts2tt.
    rewrite andb_true_iff, !negb_true_iff, !Z.gtb_ltb, !Z.ltb_ge. lia.
  - intros H0 Hta. unfold ts_within, ts_after. unfold ts2tt in Hta.
    assert (Hlt : uint32 (ts_incr a d) < uint32 a) by unwrap.
    rewrite (proj2 (Z.gtb_lt _ _)) by lia. done.
Qed.

(** ** At concrete inputs *)
Lemma timestamps_spec_witness : ts_within (-1) (-1) 1 = false ∧ ts_within 5 7 2 = true.
Proof.
  split.
  - destruct (timestamps_spec (-1) (-1) 1) as (_ & _ & _ & _ & _ & _ & Hw); [unfold is_int32; lia..|].
    apply Hw; vm_compute; congruence.
  - destruct (timestamps_spec 5 7 2) as (_ & _ & _ & _ & _ & Hw & _); [unfold is_int32; lia..|].
    apply Hw; vm_compute; congruence.
Defined.
