(* ===== verification/K5Thread.v ===== *)
(** * Initialisation once ([auth/kinit_client/k5-thread.h], [k5-platform.h])

    [k5_os_nothread_once], the flag of a library built without threads, and the
    macros that run an initialiser at the first call that needs it
    ([DELAY_INITIALIZER]) or when the library is loaded. With threads the headers
    call [pthread_once] or a function of the library instead of the flag. *)
From S2P Require Import Prelude.
From stdpp Require Import options.

Section once.
(** The state of the library that is initialised. *)
Context {L : Type}.

(** [k5_init_t], with the rest of the state. *)
Record k5_init := K5Init { once : Z; error : Z; did_run : Z; library : L }.
Abbreviation IM := (M k5_init).

Definition set_once (o : Z) (s : k5_init) : k5_init := K5Init o (error s) (did_run s) (library s).
Definition set_error (e : Z) (s : k5_init) : k5_init := K5Init (once s) e (did_run s) (library s).
Definition set_did_run (d : Z) (s : k5_init) : k5_init := K5Init (once s) (error s) d (library s).

Definition K5_OS_NOTHREAD_ONCE_INIT : Z := 2.

(** An [assert] that fails calls [abort]. *)
Definition assert (b : bool) : IM unit := if b then mret tt else throw "abort".

(** [k5_os_nothread_once( O, F )]: 2 before the function has run, 4 while it does, 3
    after. *)
Definition k5_os_nothread_once (F : IM unit) : IM Z :=
  o ← gets once;
  if (o =? 3)%Z then mret 0%Z
  else if (o =? 2)%Z then modify (set_once 4);; F;; modify (set_once 3);; mret 0%Z
  else assert (negb (o =? 4)%Z);; assert ((o =? 2)%Z || (o =? 3)%Z);; mret 0%Z.

(** *** Run at the first call *)
Section delayed.
(** The initialiser [NAME]. *)
Context (NAME : IM Z).

(** [MAKE_INIT_FUNCTION( NAME )]: the variable, and the function that runs [NAME]. *)
Definition NAME__once (s : L) : k5_init := K5Init K5_OS_NOTHREAD_ONCE_INIT 0 0 s.
Definition NAME__aux : IM unit := modify (set_did_run 1);; e ← NAME; modify (set_error e).

Definition k5_call_init_function (k5_once : IM unit → IM Z) : IM Z :=
  err ← k5_once NAME__aux;
  if negb (err =? 0)%Z then mret err
  else d ← gets did_run; assert (negb (d =? 0)%Z);; gets error.

Definition CALL_INIT_FUNCTION : IM Z := k5_call_init_function k5_os_nothread_once.
Definition INITIALIZER_RAN (s : k5_init) : bool := negb (did_run s =? 0)%Z && (error s =? 0)%Z.
End delayed.

(** *** Run when the library is loaded *)
Section loaded.
Context (NAME : IM Z).

Definition NAME__ran (s : L) : k5_init := K5Init 0 0 2 s.
Definition NAME__auxinit : IM unit := e ← NAME; modify (set_error e);; modify (set_did_run 3).
Definition CALL_INIT_FUNCTION_loaded : IM Z :=
  d ← gets did_run; if (d =? 3)%Z then gets error else throw "abort".
Definition INITIALIZER_RAN_loaded (s : k5_init) : bool := (did_run s =? 3)%Z && (error s =? 0)%Z.
End loaded.

(** ** Properties *)

(** Calls, one after the other, with their results. *)
Fixpoint calls (m : IM Z) (n : nat) : IM (list Z) :=
  match n with
  | O => mret []
  | S n' => r ← m; rest ← calls m n'; mret (r :: rest)
  end.

(** An initialiser of its own library only. *)
Definition initialiser (init : M L Z) : IM Z := λ s,
  let '(r, l) := init (library s) in (r, K5Init (once s) (error s) (did_run s) l).

(** However often it is called, an initialiser runs once, at the first call, and
    every call returns what it returned: an error stays. Run when the library is
    loaded it gives the same. *)
Theorem initializer_runs_once (init : M L Z) s e s' n :
  init s = (Ok e, s') →
  let NAME := initialiser init in
  calls (CALL_INIT_FUNCTION NAME) (S n) (NAME__once s) =
    (Ok (replicate (S n) e), K5Init 3 e 1 s') ∧
  (NAME__auxinit NAME;; calls CALL_INIT_FUNCTION_loaded (S n)) (NAME__ran s) =
    (Ok (replicate (S n) e), K5Init 0 e 3 s') ∧
  INITIALIZER_RAN (K5Init 3 e 1 s') = INITIALIZER_RAN_loaded (K5Init 0 e 3 s') ∧
  INITIALIZER_RAN (NAME__once s) = false.
Proof.
  intros Hinit. cbv zeta.
  assert (Hcalls : ∀ m st k, m st = (Ok e, st) → calls m k st = (Ok (replicate k e), st)).
  { intros m st k Hm. induction k as [|k IH]; [done|]. cbn [calls]. unfold mbind, M_bind. by rewrite Hm, IH. }
  split_and!; [| |by cbn; destruct (e =? 0)%Z|done].
  - assert (Hfirst : CALL_INIT_FUNCTION (initialiser init) (NAME__once s) = (Ok e, K5Init 3 e 1 s')).
    { unfold CALL_INIT_FUNCTION, k5_call_init_function, k5_os_nothread_once, NAME__aux, initialiser.
      unfold mbind, M_bind, gets, modify. cbn. by rewrite Hinit. }
    cbn [calls]. unfold mbind, M_bind. by rewrite Hfirst, Hcalls.
  - unfold NAME__auxinit, initialiser, mbind, M_bind, modify. cbn -[calls]. rewrite Hinit. cbn -[calls].
    by apply Hcalls.
Qed.

(** An initialiser that calls itself aborts, at the first call and at any. *)
Theorem initializer_reentered (NAME : IM Z) s :
  (∀ s, once s = 4%Z → ∃ s', NAME s = CALL_INIT_FUNCTION NAME s' ∧ once s' = 4%Z) →
  ∃ s', CALL_INIT_FUNCTION NAME (NAME__once s) = (Throw "abort", s').
Proof.
  intros Hname.
  unfold CALL_INIT_FUNCTION, k5_call_init_function, k5_os_nothread_once, NAME__aux.
  unfold mbind, M_bind, gets, modify. cbn.
  destruct (Hname (set_did_run 1 (set_once 4 (NAME__once s))) eq_refl) as (s1 & -> & H4).
  unfold CALL_INIT_FUNCTION, k5_call_init_function, k5_os_nothread_once, mbind, M_bind, gets.
  rewrite H4. cbn. by eexists.
Qed.

End once.
