(* ===== verification/K5Buf.v ===== *)
(** * Buffers and socket addresses ([auth/kinit_client/k5-buf.h],
    [socket-utils.h])

    The inline functions that add an integer to a buffer, over the functions of the
    library that grow it, and those that read and set the parts of a socket
    address. *)
From S2P Require Import Prelude K5Platform.
From stdpp Require Import options.

(** ** Buffers *)
Inductive k5buftype := K5BUF_ERROR | K5BUF_FIXED | K5BUF_DYNAMIC | K5BUF_DYNAMIC_ZAP.

(** A buffer: [data] are its [len] octets. *)
Record k5buf := K5Buf { buftype : k5buftype; data : list Z; space : Z }.

(** What the library does: add octets, and reserve space at the end, which it gives
    by its offset in the buffer. *)
Class K5BufLib := {
  k5_buf_add_len : k5buf → list Z → k5buf;
  k5_buf_get_space : k5buf → nat → k5buf * option nat
}.

(** As its comments say. *)
Class K5BufLaws `{K5BufLib} := {
  add_len_law b l : let b' := k5_buf_add_len b l in buftype b' = K5BUF_ERROR ∨ data b' = data b ++ l;
  get_space_law b n b' p : k5_buf_get_space b n = (b', p) →
    match p with
    | Some off => off = length (data b) ∧ ∃ room, length room = n ∧ data b' = data b ++ room
    | None => buftype b' = K5BUF_ERROR
    end
}.

Section buffers.
Context `{K5BufLib} (t : target).

(** A store at [p]. *)
Definition store_at (p : nat) (octets : list Z) (b : k5buf) : k5buf :=
  K5Buf (buftype b) (take p (data b) ++ octets ++ drop (p + length octets) (data b)) (space b).

Definition k5_buf_add_byte (buf : k5buf) (val : Z) : k5buf := k5_buf_add_len buf [val].

Definition k5_buf_add_uint16_be (buf : k5buf) (val : Z) : k5buf :=
  let '(buf, p) := k5_buf_get_space buf 2 in
  match p with Some p => store_at p (store_16_be t val) buf | None => buf end.
Definition k5_buf_add_uint16_le (buf : k5buf) (val : Z) : k5buf :=
  let '(buf, p) := k5_buf_get_space buf 2 in
  match p with Some p => store_at p (store_16_le t val) buf | None => buf end.
Definition k5_buf_add_uint32_be (buf : k5buf) (val : Z) : k5buf :=
  let '(buf, p) := k5_buf_get_space buf 4 in
  match p with Some p => store_at p (store_32_be t val) buf | None => buf end.
Definition k5_buf_add_uint32_le (buf : k5buf) (val : Z) : k5buf :=
  let '(buf, p) := k5_buf_get_space buf 4 in
  match p with Some p => store_at p (store_32_le t val) buf | None => buf end.
Definition k5_buf_add_uint64_be (buf : k5buf) (val : Z) : k5buf :=
  let '(buf, p) := k5_buf_get_space buf 8 in
  match p with Some p => store_at p (store_64_be t val) buf | None => buf end.
Definition k5_buf_add_uint64_le (buf : k5buf) (val : Z) : k5buf :=
  let '(buf, p) := k5_buf_get_space buf 8 in
  match p with Some p => store_at p (store_64_le t val) buf | None => buf end.

(** What adding promises. *)
Definition adds (l : list Z) (b b' : k5buf) : Prop :=
  buftype b' = K5BUF_ERROR ∨ data b' = data b ++ l.

Lemma store_in_space `{!K5BufLaws} n l b :
  length l = n →
  adds l b (let '(b', p) := k5_buf_get_space b n in
            match p with Some p => store_at p l b' | None => b' end).
Proof.
  intros Hl. destruct (k5_buf_get_space b n) as [b' [p|]] eqn:Hs; apply get_space_law in Hs; [|by left].
  destruct Hs as (-> & room & Hroom & Hd). right. cbn [store_at data]. rewrite Hd, take_app_length.
  rewrite drop_ge by (rewrite length_app; lia). by rewrite app_nil_r.
Qed.

(** Adding an integer appends its octets in the order asked for, on every machine,
    or leaves the buffer in its error state. *)
Theorem k5_buf_add_spec `{!K5BufLaws} b v :
  adds [v] b (k5_buf_add_byte b v) ∧
  adds (rev (octets 2 v)) b (k5_buf_add_uint16_be b v) ∧ adds (octets 2 v) b (k5_buf_add_uint16_le b v) ∧
  adds (rev (octets 4 v)) b (k5_buf_add_uint32_be b v) ∧ adds (octets 4 v) b (k5_buf_add_uint32_le b v) ∧
  adds (rev (octets 8 v)) b (k5_buf_add_uint64_be b v) ∧ adds (octets 8 v) b (k5_buf_add_uint64_le b v).
Proof.
  destruct (store_octets t v) as (H16 & H32 & H64 & L16 & L32 & L64).
  unfold k5_buf_add_uint16_be, k5_buf_add_uint32_be, k5_buf_add_uint64_be, k5_buf_add_uint16_le,
    k5_buf_add_uint32_le, k5_buf_add_uint64_le. rewrite H16, H32, H64, L16, L32, L64.
  split_and!; [apply add_len_law|apply store_in_space..]; done.
Qed.
End buffers.

(** A library that never runs out of memory. *)
Definition endless : K5BufLib := {|
  k5_buf_add_len b l := K5Buf (buftype b) (data b ++ l) (space b);
  k5_buf_get_space b n := (K5Buf (buftype b) (data b ++ replicate n 0%Z) (space b), Some (length (data b)))
|}.

Example endless_laws : @K5BufLaws endless.
Proof.
  split.
  - intros b l. by right.
  - intros b n b' p [= <- <-]. split; [done|]. exists (replicate n 0%Z). by rewrite length_replicate.
Qed.

(** ** Socket addresses *)
Section sockets.
Context (t : target) (AF_INET AF_INET6 INADDR_ANY sizeof_sockaddr_in sizeof_sockaddr_in6 : Z).

(** A socket address, which [sa_family] says how to read: both kinds have a port,
    in the order of the network, and an address of 32 bits or of 16 octets. *)
Record sockaddr := SockAddr {
  sa_family : Z; sin_port : Z; s_addr : Z; sin6_port : Z; s6_addr : list Z
}.

(** [htons] and [ntohs] *)
Definition htons (x : Z) : Z := GET t 2 (rev (octets 2 x)).
Definition ntohs (x : Z) : Z := of_octets (rev (PUT t 2 x)).

Definition sa_setport (sa : sockaddr) (port : Z) : sockaddr :=
  if (sa_family sa =? AF_INET)%Z then
    SockAddr (sa_family sa) (htons port) (s_addr sa) (sin6_port sa) (s6_addr sa)
  else if (sa_family sa =? AF_INET6)%Z then
    SockAddr (sa_family sa) (sin_port sa) (s_addr sa) (htons port) (s6_addr sa)
  else sa.

Definition sa_getport (sa : sockaddr) : Z :=
  if (sa_family sa =? AF_INET)%Z then ntohs (sin_port sa)
  else if (sa_family sa =? AF_INET6)%Z then ntohs (sin6_port sa)
  else 0%Z.

Definition sa_is_inet (sa : sockaddr) : bool :=
  (sa_family sa =? AF_INET)%Z || (sa_family sa =? AF_INET6)%Z.

Definition sa_is_wildcard (sa : sockaddr) : bool :=
  if (sa_family sa =? AF_INET6)%Z then forallb (λ b, (b =? 0)%Z) (s6_addr sa)
  else if (sa_family sa =? AF_INET)%Z then (s_addr sa =? INADDR_ANY)%Z
  else false.

(** [abort] is a [Throw]. *)
Definition sa_socklen (sa : sockaddr) : outcome Z :=
  if (sa_family sa =? AF_INET6)%Z then Ok sizeof_sockaddr_in6
  else if (sa_family sa =? AF_INET)%Z then Ok sizeof_sockaddr_in
  else Throw "abort".

Lemma ntohs_htons x : ntohs (htons x) = (x mod 2 ^ 16)%Z.
Proof.
  assert (Hl : length (rev (octets 2 x)) = 2) by (by rewrite length_rev, octets_length).
  unfold ntohs, htons, GET, PUT. rewrite take_ge by (rewrite Hl; done).
  destruct (host_order t).
  - rewrite rev_involutive, of_octets_octets. change (8 * Z.of_nat 2)%Z with 16%Z.
    rewrite rev_involutive, of_octets_octets. change (8 * Z.of_nat 2)%Z with 16%Z. by rewrite Z.mod_mod.
  - rewrite <-Hl at 1. rewrite octets_of_octets by apply Forall_rev, octets_range.
    by rewrite rev_involutive, of_octets_octets.
Qed.

(** An internet address gives back the port it was given, modulo [2^16], and keeps
    the rest; any other has port 0 and stays; only internet addresses have a
    length. *)
Theorem sa_port_spec sa port :
  let sa' := sa_setport sa port in
  sa_getport sa' = (if sa_is_inet sa then port mod 2 ^ 16 else 0)%Z ∧
  sa_is_inet sa' = sa_is_inet sa ∧ sa_is_wildcard sa' = sa_is_wildcard sa ∧
  sa_socklen sa' = sa_socklen sa ∧ (sa_is_inet sa = false → sa' = sa) ∧
  (sa_is_inet sa = false ↔ sa_socklen sa = Throw "abort").
Proof.
  cbv zeta. unfold sa_setport, sa_getport, sa_is_inet, sa_is_wildcard, sa_socklen.
  destruct (sa_family sa =? AF_INET)%Z eqn:H4, (sa_family sa =? AF_INET6)%Z eqn:H6; cbn [orb];
    cbn [sa_family sin_port sin6_port s_addr s6_addr]; rewrite ?H4, ?H6; cbn [orb];
    rewrite ?ntohs_htons; by split_and!.
Qed.
End sockets.
