(* ===== verification/Kinit.v ===== *)
(** * The kinit client ([auth/kinit_client/kinit.c], [kinit_kdb.c])

    [my_kinit_main] obtains a ticket with a user name and a password through
    the Kerberos library. The library is a parameter ([Krb5]): a function call
    is its name with its arguments, and the answer is a status with the prompts
    the call made. What the model tracks is what [kinit.c] is responsible for:
    the objects the library hands out, each of which has to be released exactly
    once, the buffers of [udata], and the [goto cleanup] paths. *)
From S2P Require Import Prelude StrUtil Logger World.
From stdpp Require Import options.

(** ** Data *)
Inductive action_type := INIT_PW | INIT_KT | RENEW | VALIDATE.

#[export] Instance action_type_eq_dec : EqDecision action_type.
Proof. solve_decision. Defined.

Record k_opts := KOpts {
  starttime : Z; lifetime : Z; rlife : Z;
  forwardable : bool; proxiable : bool; request_pac : bool; anonymous : bool;
  addresses : bool;
  not_forwardable : bool; not_proxiable : bool; not_request_pac : bool;
  no_addresses : bool;
  principal_name : option string; service_name : option string;
  keytab_name : option string; k5_in_cache_name : option string;
  k5_out_cache_name : option string; armor_ccache : option string;
  action : action_type; use_client_keytab : bool;
  pa_opts : list (string * string);
  canonicalize : bool; enterprise : bool
}.

(** [memset( &opts, 0, sizeof( opts ) )] and the three assignments that follow. *)
Definition main_opts (name : string) : k_opts :=
  KOpts 0 0 0 false false false false false false false false false
    (Some name) None None None None None INIT_PW false [] false false.

(** The pointer variables of [struct k5_data], [k5_begin] and [k5_kinit]. *)
Inductive kvar :=
| V_ctx | V_in_cc | V_out_cc | V_me | V_name
| V_defcache | V_defcache_princ | V_defrealm
| V_mcc | V_keytab | V_options | V_my_creds | V_addresses.

#[export] Instance kvar_eq_dec : EqDecision kvar.
Proof. solve_decision. Defined.

(** An argument of a library call. *)
Inductive karg := KV (v : kvar) | KS (s : string) | KZ (z : Z).

(** The answer of a library call: status, text it returns, and the prompts it
    made through [kinit_prompter], each with the types of its questions and the
    reply buffer as the library passes it. *)
Record kresult := KResult {
  k_ret : Z;
  k_text : string;
  k_prompts : list (list Z * string)
}.

Class Krb5 (X : Type) := {
  krb5_call : string → list (option nat + string + Z) → fs → X → kresult * fs * X;
  (** the name of [getpwuid( getuid() )] *)
  login_name : X → option string
}.

(** [struct userdata udata] *)
Definition UDATA_SIZE : nat := 256.

(** The state: the world, the live library objects, the pointer variables,
    [switch_to_cache] and the two buffers of [udata]. *)
Record kst (X : Type) := KSt {
  kw : world X;
  live : gset nat;
  fresh : nat;
  vars : kvar → option nat;
  switch_to_cache : bool;
  udata_name : string;
  udata_pass : string
}.
Arguments KSt {X}.
Arguments kw {X}.
Arguments live {X}.
Arguments fresh {X}.
Arguments vars {X}.
Arguments switch_to_cache {X}.
Arguments udata_name {X}.
Arguments udata_pass {X}.

Definition upd (v : kvar) (h : option nat) (f : kvar → option nat) : kvar → option nat :=
  λ v', if decide (v' = v) then h else f v'.

Definition KRB5_CC_NOTFOUND : Z := -1765328243.
Definition KRB5_PROMPT_TYPE_PASSWORD : Z := 1.
Definition KRB5_PRINCIPAL_PARSE_ENTERPRISE : Z := 4.

Section kinit.
Context {X : Type} `{Platform X} `{Krb5 X}.
Abbreviation KM := (M (kst X)).

(** ** Memory discipline *)
Definition set_vars (f : kvar → option nat) (st : kst X) : kst X :=
  KSt (kw st) (live st) (fresh st) f (switch_to_cache st) (udata_name st) (udata_pass st).
Definition set_live (l : gset nat) (st : kst X) : kst X :=
  KSt (kw st) l (fresh st) (vars st) (switch_to_cache st) (udata_name st) (udata_pass st).
Definition set_switch (b : bool) (st : kst X) : kst X :=
  KSt (kw st) (live st) (fresh st) (vars st) b (udata_name st) (udata_pass st).
Definition set_udata (n p : string) (st : kst X) : kst X :=
  KSt (kw st) (live st) (fresh st) (vars st) (switch_to_cache st) n p.
Definition set_kw (w : world X) (st : kst X) : kst X :=
  KSt w (live st) (fresh st) (vars st) (switch_to_cache st) (udata_name st) (udata_pass st).

Definition is_null (v : kvar) : KM bool := gets (λ st, bool_decide (vars st v = None)).

(** Every object passed to the library is live. *)
Definition arg_ok (st : kst X) (a : karg) : bool :=
  match a with
  | KV v => match vars st v with Some h => bool_decide (h ∈ live st) | None => false end
  | KS _ | KZ _ => true
  end.

Definition arg_val (st : kst X) (a : karg) : option nat + string + Z :=
  match a with
  | KV v => inl (inl (vars st v))
  | KS s => inl (inr s)
  | KZ z => inr z
  end.

(** [kinit_prompter]: notes a password prompt, prints the text in the reply's buffer,
    twice, and copies the password of [udata] there, whatever the buffer's size. *)
Definition kinit_prompter (prompt : list Z * string) : KM bool := λ st,
  if has_char nul prompt.2 then
    if decide (String.length (c_str (udata_pass st)) ≤ String.length prompt.2)
    then (Ok (existsb (Z.eqb KRB5_PROMPT_TYPE_PASSWORD) prompt.1), st)
    else (Undefined "memcpy past the prompt's reply buffer", st)
  else (Undefined "printf past the prompt's reply buffer", st).

Fixpoint run_prompts (l : list (list Z * string)) : KM bool :=
  match l with
  | [] => mret false
  | p :: l' => b ← kinit_prompter p; b' ← run_prompts l'; mret (b || b')
  end.

(** A call of the library without a result object. *)
Definition call (fn : string) (args : list karg) : KM kresult := λ st,
  if forallb (arg_ok st) args then
    let '(r, s, x) := krb5_call fn (arg_val st <$> args) (w_fs (kw st)) (w_ext (kw st)) in
    (Ok r, set_kw (set_fs s (set_ext x (kw st))) st)
  else (Undefined "invalid pointer passed to the Kerberos library", st).

(** The call stores a new object in [v] when it succeeds. *)
Definition alloc (v : kvar) (fn : string) (args : list karg) : KM kresult :=
  r ← call fn args;
  (if (k_ret r =? 0)%Z then
     modify (λ st, KSt (kw st) ({[fresh st]} ∪ live st) (S (fresh st))
       (upd v (Some (fresh st)) (vars st)) (switch_to_cache st) (udata_name st) (udata_pass st))
   else mret tt);;
  mret r.

(** Releases the object in [v] and clears the variable; NULL is accepted. *)
Definition release (v : kvar) : KM unit := λ st,
  match vars st v with
  | None => (Ok tt, st)
  | Some h =>
    if decide (h ∈ live st)
    then (Ok tt, set_live (live st ∖ {[h]}) (set_vars (upd v None (vars st)) st))
    else (Undefined "object of the Kerberos library released twice", st)
  end.

(** [to = from; from = NULL;] *)
Definition move (to from : kvar) : KM unit :=
  modify (λ st, set_vars (upd from None (upd to (vars st from) (vars st))) st).

Definition goto_cleanup {A} : KM A := throw "cleanup".
Definition check (ret : Z) : KM unit := if (ret =? 0)%Z then mret tt else goto_cleanup.
Definition when (b : bool) (m : KM unit) : KM unit := if b then m else mret tt.

(** ** [k5_begin] *)

(** The output cache, or the default cache with its principal: the result is
    [deftype]. *)
Definition begin_cache (opts : k_opts) : KM string :=
  match k5_out_cache_name opts with
  | Some n =>
    r ← alloc V_out_cc "krb5_cc_resolve" [KV V_ctx; KS n]; check (k_ret r);; mret ""
  | None =>
    r ← alloc V_defcache "krb5_cc_default" [KV V_ctx]; check (k_ret r);;
    deftype ← call "krb5_cc_get_type" [KV V_ctx; KV V_defcache];
    alloc V_defcache_princ "krb5_cc_get_principal" [KV V_ctx; KV V_defcache];;
    mret (k_text deftype)
  end.

Definition get_name_from_os : KM (option string) := gets (λ st, login_name (w_ext (kw st))).

Definition begin_principal (opts : k_opts) (flags : Z) : KM unit :=
  match principal_name opts with
  | Some n =>
    r ← alloc V_me "krb5_parse_name_flags" [KV V_ctx; KS n; KZ flags]; check (k_ret r)
  | None =>
    if anonymous opts then
      r ← alloc V_defrealm "krb5_get_default_realm" [KV V_ctx]; check (k_ret r);;
      r ← alloc V_me "krb5_build_principal_ext"
            [KV V_ctx; KV V_defrealm; KS "WELLKNOWN"; KS "ANONYMOUS"];
      release V_defrealm;; check (k_ret r)
    else if bool_decide (action opts = INIT_KT) && use_client_keytab opts then
      r ← alloc V_keytab "krb5_kt_client_default" [KV V_ctx]; check (k_ret r);;
      r ← alloc V_me "k5_kt_get_principal" [KV V_ctx; KV V_keytab];
      release V_keytab;; check (k_ret r)
    else if bool_decide (action opts = INIT_KT) then
      r ← alloc V_me "krb5_sname_to_principal" [KV V_ctx]; check (k_ret r)
    else
      no_out ← is_null V_out_cc;
      if negb no_out then
        alloc V_me "krb5_cc_get_principal" [KV V_ctx; KV V_out_cc];; mret tt
      else
        no_princ ← is_null V_defcache_princ;
        if negb no_princ then move V_out_cc V_defcache;; move V_me V_defcache_princ
        else mret tt
  end.

Definition begin_local_name (flags : Z) : KM unit :=
  no_me ← is_null V_me;
  when no_me (
    name ← get_name_from_os;
    match name with
    | None => goto_cleanup
    | Some name =>
      r ← alloc V_me "krb5_parse_name_flags" [KV V_ctx; KS name; KZ flags]; check (k_ret r)
    end).

Definition begin_switch (deftype : string) : KM unit :=
  no_out ← is_null V_out_cc;
  when no_out (
    supported ← call "krb5_cc_support_switch" [KV V_ctx; KS deftype];
    when (negb (k_ret supported =? 0)%Z) (
      r ← alloc V_out_cc "krb5_cc_cache_match" [KV V_ctx; KV V_me];
      if negb (k_ret r =? 0)%Z && negb (k_ret r =? KRB5_CC_NOTFOUND)%Z then goto_cleanup
      else if (k_ret r =? 0)%Z then modify (set_switch true)
      else
        no_princ ← is_null V_defcache_princ;
        when (negb no_princ) (
          r ← alloc V_out_cc "krb5_cc_new_unique" [KV V_ctx; KS deftype];
          check (k_ret r);; modify (set_switch true)))).

Definition begin_in_cache (opts : k_opts) : KM unit :=
  match k5_in_cache_name opts with
  | Some n => r ← alloc V_in_cc "krb5_cc_resolve" [KV V_ctx; KS n]; check (k_ret r)
  | None => mret tt
  end.

Definition begin_name (opts : k_opts) : KM k_opts :=
  r ← alloc V_name "krb5_unparse_name" [KV V_ctx; KV V_me]; check (k_ret r);;
  mret (KOpts (starttime opts) (lifetime opts) (rlife opts) (forwardable opts)
    (proxiable opts) (request_pac opts) (anonymous opts) (addresses opts)
    (not_forwardable opts) (not_proxiable opts) (not_request_pac opts) (no_addresses opts)
    (Some (k_text r)) (service_name opts) (keytab_name opts) (k5_in_cache_name opts)
    (k5_out_cache_name opts) (armor_ccache opts) (action opts) (use_client_keytab opts)
    (pa_opts opts) (canonicalize opts) (enterprise opts)).

Definition k5_begin_body (opts : k_opts) : KM k_opts :=
  let flags := if enterprise opts then KRB5_PRINCIPAL_PARSE_ENTERPRISE else 0%Z in
  deftype ← begin_cache opts;
  begin_principal opts flags;;
  begin_local_name flags;;
  begin_switch deftype;;
  no_out ← is_null V_out_cc;
  when no_out (move V_out_cc V_defcache);;
  begin_in_cache opts;;
  begin_name opts.

(** [cleanup] of [k5_begin]. *)
Definition begin_cleanup (success : option k_opts) : KM (option k_opts) :=
  release V_defcache;; release V_defcache_princ;; mret success.

(** [None] is the return value 0. *)
Definition k5_begin (opts : k_opts) : KM (option k_opts) :=
  r ← alloc V_ctx "krb5_init_context" [];
  if negb (k_ret r =? 0)%Z then mret None
  else
    success ← try_catch (opts' ← k5_begin_body opts; mret (Some opts')) (λ _, mret None);
    begin_cleanup success.

Definition k5_end : KM unit :=
  release V_name;; release V_me;; release V_in_cc;; release V_out_cc;; release V_ctx.

(** ** [k5_kinit] *)

Definition set_option (b : bool) (fn : string) (args : list karg) : KM unit :=
  when b (call fn (KV V_options :: args);; mret tt).

Definition set_options (opts : k_opts) : KM unit :=
  set_option (negb (lifetime opts =? 0)%Z) "krb5_get_init_creds_opt_set_tkt_life" [KZ (lifetime opts)];;
  set_option (negb (rlife opts =? 0)%Z) "krb5_get_init_creds_opt_set_renew_life" [KZ (rlife opts)];;
  set_option (forwardable opts) "krb5_get_init_creds_opt_set_forwardable" [KZ 1];;
  set_option (not_forwardable opts) "krb5_get_init_creds_opt_set_forwardable" [KZ 0];;
  set_option (proxiable opts) "krb5_get_init_creds_opt_set_proxiable" [KZ 1];;
  set_option (not_proxiable opts) "krb5_get_init_creds_opt_set_proxiable" [KZ 0];;
  set_option (canonicalize opts) "krb5_get_init_creds_opt_set_canonicalize" [KZ 1];;
  set_option (anonymous opts) "krb5_get_init_creds_opt_set_anonymous" [KZ 1];;
  when (addresses opts) (
    r ← alloc V_addresses "krb5_os_localaddr" [KV V_ctx]; check (k_ret r);;
    call "krb5_get_init_creds_opt_set_address_list" [KV V_options; KV V_addresses];; mret tt);;
  set_option (no_addresses opts) "krb5_get_init_creds_opt_set_address_list" [];;
  match armor_ccache opts with
  | Some n => set_option true "krb5_get_init_creds_opt_set_fast_ccache_name" [KV V_ctx; KS n]
  | None => mret tt
  end;;
  set_option (request_pac opts) "krb5_get_init_creds_opt_set_pac_request" [KV V_ctx; KZ 1];;
  set_option (not_request_pac opts) "krb5_get_init_creds_opt_set_pac_request" [KV V_ctx; KZ 0].

(** [kinit_kdb_init]: a fresh context replaces the caller's. *)
Definition kinit_kdb_init : KM Z :=
  release V_ctx;;
  r ← alloc V_ctx "kadm5_init_krb5_context" [];
  if negb (k_ret r =? 0)%Z then mret (k_ret r)
  else
    r ← call "kadm5_init" [KV V_ctx; KS "kinit"; KV V_me];
    if negb (k_ret r =? 0)%Z then mret (k_ret r)
    else r ← call "krb5_db_register_keytab" [KV V_ctx]; mret (k_ret r).

Definition kinit_kdb_fini : KM unit := call "kadm5_destroy" [];; mret tt.

Definition resolve_keytab (opts : k_opts) : KM unit :=
  match action opts, keytab_name opts with
  | INIT_KT, Some n =>
    when (String.prefix "KDB:" n) (ret ← kinit_kdb_init; check ret);;
    r ← alloc V_keytab "krb5_kt_resolve" [KV V_ctx; KS n]; check (k_ret r)
  | INIT_KT, None =>
    when (use_client_keytab opts) (
      r ← alloc V_keytab "krb5_kt_client_default" [KV V_ctx]; check (k_ret r))
  | _, _ => mret tt
  end.

Fixpoint set_pa_opts (l : list (string * string)) : KM unit :=
  match l with
  | [] => mret tt
  | (attr, value) :: l' =>
    r ← call "krb5_get_init_creds_opt_set_pa" [KV V_ctx; KV V_options; KS attr; KS value];
    check (k_ret r);; set_pa_opts l'
  end.

Definition service_arg (opts : k_opts) : karg := KS (default "" (service_name opts)).

(** The [switch] on the action; the prompts of the password case run while the
    library call does. *)
Definition get_creds (opts : k_opts) : KM Z :=
  match action opts with
  | INIT_PW =>
    r ← alloc V_my_creds "krb5_get_init_creds_password"
          [KV V_ctx; KV V_me; KZ (starttime opts); service_arg opts; KV V_options];
    run_prompts (k_prompts r);; mret (k_ret r)
  | INIT_KT =>
    no_keytab ← is_null V_keytab;
    r ← alloc V_my_creds "krb5_get_init_creds_keytab"
          ([KV V_ctx; KV V_me] ++ (if no_keytab : bool then [] else [KV V_keytab]) ++
           [KZ (starttime opts); service_arg opts; KV V_options]);
    mret (k_ret r)
  | VALIDATE =>
    r ← alloc V_my_creds "krb5_get_validated_creds"
          [KV V_ctx; KV V_me; KV V_out_cc; service_arg opts]; mret (k_ret r)
  | RENEW =>
    r ← alloc V_my_creds "krb5_get_renewed_creds"
          [KV V_ctx; KV V_me; KV V_out_cc; service_arg opts]; mret (k_ret r)
  end.

(** Validated and renewed credentials go through a cache in memory. *)
Definition store_creds (opts : k_opts) : KM unit :=
  when (bool_decide (action opts ≠ INIT_PW) && bool_decide (action opts ≠ INIT_KT)) (
    let cprinc := if canonicalize opts then V_my_creds else V_me in
    r ← alloc V_mcc "krb5_cc_new_unique" [KV V_ctx; KS "MEMORY"];
    check (k_ret r);;
    r ← call "krb5_cc_initialize" [KV V_ctx; KV V_mcc; KV cprinc];
    check (k_ret r);;
    r ← call "k5_cc_store_primary_cred" [KV V_ctx; KV V_mcc; KV V_my_creds];
    check (k_ret r);;
    r ← call "krb5_cc_move" [KV V_ctx; KV V_mcc; KV V_out_cc];
    check (k_ret r);; release V_mcc).

Definition k5_kinit_body (opts : k_opts) : KM unit :=
  r ← alloc V_options "krb5_get_init_creds_opt_alloc" [KV V_ctx]; check (k_ret r);;
  set_options opts;;
  resolve_keytab opts;;
  set_pa_opts (pa_opts opts);;
  no_in ← is_null V_in_cc;
  when (negb no_in) (
    r ← call "krb5_get_init_creds_opt_set_in_ccache" [KV V_ctx; KV V_options; KV V_in_cc];
    check (k_ret r));;
  r ← call "krb5_get_init_creds_opt_set_out_ccache" [KV V_ctx; KV V_options; KV V_out_cc];
  check (k_ret r);;
  ret ← get_creds opts; check ret;;
  store_creds opts.

(** The switch to the new cache, whose failure is only reported, and [cleanup]. *)
Definition kinit_end (notix : Z) : KM Z :=
  switch ← gets switch_to_cache;
  when ((notix =? 0)%Z && switch) (call "krb5_cc_switch" [KV V_ctx; KV V_out_cc];; mret tt);;
  kinit_kdb_fini;;
  release V_mcc;; release V_options;; release V_my_creds;; release V_keytab;;
  mret (if (notix =? 0)%Z then 1%Z else 0%Z).

(** The result is 1 for success: [notix] is cleared before the switch to the
    new cache. *)
Definition k5_kinit (opts : k_opts) : KM Z :=
  notix ← try_catch (k5_kinit_body opts;; mret 0%Z) (λ _, mret 1%Z);
  kinit_end notix.

(** ** [my_kinit_main] *)

(** [strncpy( buffer, s, strlen( s ) + 1 )] into a buffer of 256 characters. *)
Definition copy_to_udata (s : string) : outcome string :=
  if decide (String.length (c_str s) + 1 ≤ UDATA_SIZE) then Ok (c_str s)
  else Undefined "strncpy past udata".

(** [memset( buffer, 0xff, n )] *)
Fixpoint ff (n : nat) : string :=
  match n with O => EmptyString | S n' => String (char_of 255) (ff n') end.

(** [argv[1]] and [argv[2]]; the buffers of [udata] are overwritten at the end. *)
Definition my_kinit_main_st (name pass : string) : KM Z :=
  n ← lift (copy_to_udata name);
  p ← lift (copy_to_udata pass);
  modify (set_udata n p);;
  begun ← k5_begin (main_opts (c_str name));
  authed ← match begun with Some opts => k5_kinit opts | None => mret 0%Z end;
  k5_end;;
  modify (set_udata (ff UDATA_SIZE) (ff UDATA_SIZE));;
  mret (if (authed =? 0)%Z then 1%Z else 0%Z).

Definition kst_init (w : world X) : kst X :=
  KSt w ∅ 0 (λ _, None) false "" "".

(** The call as the daemon makes it: all the state is local but the world. *)
Definition my_kinit_main (name pass : string) : M (world X) Z := λ w,
  match my_kinit_main_st name pass (kst_init w) with
  | (Ok r, st) => (Ok r, kw st)
  | (Throw e, st) => (Throw e, kw st)
  | (Undefined e, st) => (Undefined e, kw st)
  end.

(** A reply buffer that the prompter can use: its text ends, and it has room for a
    password of [n] characters. *)
Definition reply_fits (n : nat) (p : list Z * string) : Prop :=
  has_char nul p.2 = true ∧ n ≤ String.length p.2.

(** The call of the library that left the world as it is made the prompt [p]. *)
Definition prompted (st : kst X) (p : list Z * string) : Prop :=
  ∃ fn args s x r, krb5_call fn args s x = (r, w_fs (kw st), w_ext (kw st)) ∧ p ∈ k_prompts r.

(** It passed the prompter a buffer that does not do. *)
Definition unfit (n : nat) (st : kst X) : Prop := ∃ p, prompted st p ∧ ¬ reply_fits n p.

(** ** Ownership

    [own may must st]: every live object is held by exactly one variable, only
    the variables of [may] hold one, those of [must] do, and the password has at
    most [plen] characters. *)
Section ownership.
Context (plen : nat).
Abbreviation ktriple := (triple_upto (unfit plen)).

Record own (may must : list kvar) (st : kst X) : Prop := mkOwn {
  own_may v : vars st v ≠ None → v ∈ may;
  own_must v : v ∈ must → vars st v ≠ None;
  own_live v h : vars st v = Some h → h ∈ live st;
  own_inj v v' h : vars st v = Some h → vars st v' = Some h → v = v';
  own_fresh h : h ∈ live st → h < fresh st;
  own_held h : h ∈ live st → ∃ v, vars st v = Some h;
  own_pass : String.length (c_str (udata_pass st)) ≤ plen
}.

Definition without (v : kvar) (l : list kvar) : list kvar := filter (λ v', v' ≠ v) l.

Lemma own_weaken may may' must must' st :
  own may must st → may ⊆ may' → must' ⊆ must → own may' must' st.
Proof. intros [] Hmay Hmust. constructor; eauto. Qed.

Definition args_ok (must : list kvar) (args : list karg) : Prop :=
  Forall (λ a, match a with KV v => v ∈ must | _ => True end) args.

Lemma call_own may must fn args E :
  args_ok must args →
  ktriple (own may must) (call fn args)
    (λ r st, own may must st ∧ Forall (prompted st) (k_prompts r)) E.
Proof.
  intros Hargs st Hown. unfold call.
  assert (forallb (arg_ok st) args = true) as ->.
  { apply forallb_forall. intros a Ha%list_elem_of_In. apply (proj1 (Forall_forall _ _)) with (x := a) in Hargs; [|done].
    destruct a as [v| |]; [|done..]. cbn. destruct (vars st v) as [h|] eqn:Hv.
    - apply bool_decide_eq_true. by eapply own_live.
    - by apply (own_must _ _ _ Hown) in Hargs. }
  destruct (krb5_call _ _ _ _) as [[r s] x] eqn:Hcall. split.
  - destruct Hown. by constructor.
  - apply Forall_forall. intros p Hp. by eexists _, _, _, _, _.
Qed.

Lemma alloc_own may must v fn args E :
  args_ok must args → v ∉ may →
  ktriple (own may must) (alloc v fn args)
    (λ r st, (if (k_ret r =? 0)%Z then own (v :: may) (v :: must) st else own may must st) ∧
             Forall (prompted st) (k_prompts r)) E.
Proof.
  intros Hargs Hv. unfold alloc. eapply triple_bind; [by apply call_own|].
  intros r st [Hown Hp]. unfold mbind, M_bind, modify, mret, M_ret.
  destruct (k_ret r =? 0)%Z eqn:Hr; rewrite Hr; [|done]. split; [|done].
  assert (Hnone : vars st v = None).
  { destruct (vars st v) eqn:Hs; [|done]. destruct Hv. apply (own_may _ _ _ Hown). by rewrite Hs. }
  destruct Hown as [H1 H2 H3 H4 H5 H6 H7].
  assert (Hf : fresh st ∉ live st) by (intros Hx%H5; lia).
  constructor; cbn; try done; unfold upd.
  - intros v' Hv'. case_decide; [set_solver|]. apply list_elem_of_further. auto.
  - intros v' [->|Hv']%elem_of_cons; case_decide; auto.
  - intros v' h Hh. case_decide; simplify_eq; [set_solver|]. apply H3 in Hh. set_solver.
  - intros v1 v2 h Hh1 Hh2. repeat case_decide; simplify_eq; eauto;
      exfalso; eauto using H3.
  - intros h [->%elem_of_singleton|Hh]%elem_of_union; [lia|]. apply H5 in Hh. lia.
  - intros h [->%elem_of_singleton|Hh]%elem_of_union.
    + exists v. by rewrite decide_True.
    + destruct (H6 h Hh) as [v' Hv']. exists v'. rewrite decide_False; [done|]. congruence.
Qed.

Lemma release_own may must v E :
  ktriple (own may must) (release v) (λ _, own (without v may) (without v must)) E.
Proof.
  intros st Hown. unfold release. destruct (vars st v) as [h|] eqn:Hv.
  - assert (Hl := own_live _ _ _ Hown _ _ Hv). rewrite decide_True by done.
    destruct Hown as [H1 H2 H3 H4 H5 H6 H7].
    constructor; cbn; try done; unfold upd, without.
    + intros v' Hv'. apply list_elem_of_filter. case_decide; [done|]. auto.
    + intros v' [Hne Hv']%list_elem_of_filter. rewrite decide_False by done. auto.
    + intros v' h' Hh'. case_decide; [done|]. apply elem_of_difference. split; [eauto|].
      intros ->%elem_of_singleton. eauto.
    + intros v1 v2 h' Hh1 Hh2. repeat case_decide; try done. eauto.
    + intros h' [Hh' _]%elem_of_difference. auto.
    + intros h' [Hh' Hne]%elem_of_difference. destruct (H6 h' Hh') as [v' Hv'].
      exists v'. rewrite decide_False; [done|]. intros ->. apply Hne, elem_of_singleton. congruence.
  - destruct Hown as [H1 H2 H3 H4 H5 H6 H7]. constructor; try done; unfold without.
    + intros v' Hv'. apply list_elem_of_filter. split; [by intros ->|auto].
    + intros v' [_ Hv']%list_elem_of_filter. auto.
Qed.

Lemma move_own may must to from E :
  to ∉ may → from ∈ must →
  ktriple (own may must) (move to from)
    (λ _, own (to :: without from may) (to :: without from must)) E.
Proof.
  intros Hto Hfrom st Hown. unfold move, modify.
  assert (Hnone : vars st to = None).
  { destruct (vars st to) eqn:Hs; [|done]. destruct Hto. apply (own_may _ _ _ Hown). by rewrite Hs. }
  destruct Hown as [H1 H2 H3 H4 H5 H6 H7].
  assert (Hne : to ≠ from) by (intros ->; by apply H2 in Hfrom).
  constructor; cbn; try done; unfold upd, without.
  - intros v Hv. repeat case_decide; subst; try done; [apply list_elem_of_here|].
    apply list_elem_of_further, list_elem_of_filter. auto.
  - intros v [->|[Hvf Hv]%list_elem_of_filter]%elem_of_cons; repeat case_decide; subst; auto; done.
  - intros v h Hh. repeat case_decide; simplify_eq; eauto.
  - intros v1 v2 h Hh1 Hh2. repeat case_decide; simplify_eq; eauto;
      exfalso; match goal with H : vars st ?v = Some h, H' : vars st from = Some h |- _ =>
        assert (v = from) by eauto; congruence end.
  - intros h Hh. destruct (H6 h Hh) as [v Hv]. destruct (decide (v = from)) as [->|].
    + exists to. by rewrite decide_False, decide_True.
    + exists v. rewrite !decide_False; congruence.
Qed.

Lemma is_null_own may must v E :
  ktriple (own may must) (is_null v)
    (λ b st, if b then own (without v may) must st else own may (v :: must) st) E.
Proof.
  intros st Hown. unfold is_null, gets. destruct (decide (vars st v = None)) as [Hn|Hn].
  - rewrite bool_decide_true by done. destruct Hown. constructor; try done.
    intros v' Hv'. apply list_elem_of_filter. split; [by intros ->|auto].
  - rewrite bool_decide_false by done. destruct Hown. constructor; try done.
    intros v' [->|Hv']%elem_of_cons; auto.
Qed.

(** Rules for a step followed by the rest of a block. *)
Section steps.
Lemma call_bind {B} may must fn args (k : kresult → KM B) Q E :
  args_ok must args →
  (∀ r, ktriple (own may must) (k r) Q E) →
  ktriple (own may must) (call fn args ≫= k) Q E.
Proof.
  intros Ha Hk. eapply triple_bind; [by apply call_own|]. intros r.
  eapply triple_weaken; [apply Hk|by intros st []|done..].
Qed.

Lemma alloc_prompts_bind {B} may must v fn args (k : kresult → KM B) Q E :
  args_ok must args → v ∉ may →
  (∀ r, (k_ret r =? 0)%Z = true →
     ktriple (λ st, own (v :: may) (v :: must) st ∧ Forall (prompted st) (k_prompts r)) (k r) Q E) →
  (∀ r, (k_ret r =? 0)%Z = false →
     ktriple (λ st, own may must st ∧ Forall (prompted st) (k_prompts r)) (k r) Q E) →
  ktriple (own may must) (alloc v fn args ≫= k) Q E.
Proof.
  intros Ha Hv Hk1 Hk2. eapply triple_bind; [by apply alloc_own|]. intros r st Hst.
  destruct (k_ret r =? 0)%Z eqn:Hr; [by apply Hk1|by apply Hk2].
Qed.

Lemma alloc_bind {B} may must v fn args (k : kresult → KM B) Q E :
  args_ok must args → v ∉ may →
  (∀ r, (k_ret r =? 0)%Z = true → ktriple (own (v :: may) (v :: must)) (k r) Q E) →
  (∀ r, (k_ret r =? 0)%Z = false → ktriple (own may must) (k r) Q E) →
  ktriple (own may must) (alloc v fn args ≫= k) Q E.
Proof.
  intros Ha Hv Hk1 Hk2. apply alloc_prompts_bind; [done..| |]; intros r Hr st [Hst _];
    [by apply Hk1|by apply Hk2].
Qed.

(** A call whose failure goes to [cleanup]. *)
Lemma alloc_check_bind {B} may must v fn args (k : kresult → KM B) Q E :
  args_ok must args → v ∉ may →
  (∀ st, own may must st → E "cleanup" st) →
  (∀ r, ktriple (own (v :: may) (v :: must)) (k r) Q E) →
  ktriple (own may must) (alloc v fn args ≫= λ r, check (k_ret r);; k r) Q E.
Proof.
  intros Ha Hv HE Hk. apply alloc_bind; [done..| |]; intros r.
  - intros Hr. unfold check. rewrite Hr. apply Hk.
  - intros Hr. unfold check. rewrite Hr. intros st Hst. by apply HE.
Qed.

Lemma alloc_check may must v fn args E :
  args_ok must args → v ∉ may → (∀ st, own may must st → E "cleanup" st) →
  ktriple (own may must) (alloc v fn args ≫= λ r, check (k_ret r))
    (λ _, own (v :: may) (v :: must)) E.
Proof.
  intros Ha Hv HE. apply alloc_bind; [done..| |]; intros r.
  - intros Hr. unfold check. rewrite Hr. by apply triple_ret.
  - intros Hr. unfold check. rewrite Hr. intros st Hst. by apply HE.
Qed.

Lemma call_check_bind {B} may must fn args (k : kresult → KM B) Q E :
  args_ok must args →
  (∀ st, own may must st → E "cleanup" st) →
  (∀ r, ktriple (own may must) (k r) Q E) →
  ktriple (own may must) (call fn args ≫= λ r, check (k_ret r);; k r) Q E.
Proof.
  intros Ha HE Hk. apply call_bind; [done|]. intros r. unfold check.
  destruct (k_ret r =? 0)%Z; [apply Hk|]. intros st Hst. by apply HE.
Qed.

Lemma release_bind {B} may must v (k : unit → KM B) Q E :
  ktriple (own (without v may) (without v must)) (k tt) Q E →
  ktriple (own may must) (release v ≫= k) Q E.
Proof. intros Hk. eapply triple_bind; [apply release_own|]. by intros []. Qed.

Lemma null_bind {B} may must v (k : bool → KM B) Q E :
  (v ∉ must → ktriple (own (without v may) must) (k true) Q E) →
  (v ∈ may → ktriple (own may (v :: must)) (k false) Q E) →
  ktriple (own may must) (is_null v ≫= k) Q E.
Proof.
  intros Hn Hs. eapply triple_bind; [apply is_null_own|]. intros [].
  2:{ intros st Hst. apply Hs; [|done]. apply (own_may _ _ _ Hst), (own_must _ _ _ Hst).
      apply list_elem_of_here. }
  intros st Hst. apply Hn; [|done]. intros Hv. apply (own_must _ _ _ Hst) in Hv.
  apply (own_may _ _ _ Hst), list_elem_of_filter in Hv as [Hv _]. done.
Qed.

Lemma prompts_own may must l E :
  ktriple (λ st, own may must st ∧ Forall (prompted st) l) (run_prompts l) (λ _, own may must) E.
Proof.
  induction l as [|p l IH]; cbn [run_prompts].
  - apply triple_ret. by intros st [].
  - eapply (triple_bind _ _ _ (λ _ st, own may must st ∧ Forall (prompted st) l)).
    + intros st [Hst [Hp Hl]%Forall_cons]. unfold kinit_prompter.
      destruct (has_char nul p.2) eqn:Hnul; [|exists p; split; [done|]; unfold reply_fits; intros []; congruence].
      case_decide as Hlen; [done|]. exists p. split; [done|]. intros [_ Hn]. apply Hlen.
      etrans; [by eapply own_pass|done].
    + intros b. eapply triple_bind; [apply IH|]. intros b'. by apply triple_ret.
Qed.

Lemma triple_bind_ret {A B} P (a : A) (k : A → KM B) Q E :
  ktriple P (k a) Q E → ktriple P (mret a ≫= k) Q E.
Proof. done. Qed.

(** ** The run of [my_kinit_main] *)

(** The options it passes: those of [main_opts]. *)
Lemma sub_Forall (l l' : list kvar) : Forall (λ v, v ∈ l') l → l ⊆ l'.
Proof. intros Hl v Hv. by apply (proj1 (Forall_forall _ _) Hl). Qed.

Definition begin_vars : list kvar :=
  [V_name; V_me; V_out_cc; V_defcache_princ; V_defcache; V_ctx].

(** The side conditions are on lists of variables: decided. *)
#[local] Ltac lists :=
  first [apply (bool_decide_unpack _); by vm_compute
        | apply sub_Forall, (bool_decide_unpack _); by vm_compute
        | repeat constructor; apply (bool_decide_unpack _); by vm_compute].
#[local] Ltac absurd_in :=
  let Hn := fresh in intros Hn; exfalso; revert Hn; apply (bool_decide_unpack _); by vm_compute.
#[local] Ltac weaken := intros; eapply own_weaken; [eassumption|lists|lists].

Lemma switch_own may must b st : own may must st → own may must (set_switch b st).
Proof. intros []. by constructor. Qed.

Lemma begin_cache_own n :
  ktriple (own [V_ctx] [V_ctx]) (begin_cache (main_opts n))
    (λ _, own [V_defcache_princ; V_defcache; V_ctx] [V_defcache; V_ctx])
    (λ _, own begin_vars []).
Proof.
  cbn. apply alloc_check_bind; [lists|lists|weaken|]. intros r.
  apply call_bind; [lists|]. intros t.
  apply alloc_bind; [lists|lists| |]; intros r'.
  - intros _. apply triple_ret. weaken.
  - intros _. apply triple_ret. weaken.
Qed.

Lemma begin_switch_own t :
  ktriple (own [V_me; V_defcache_princ; V_defcache; V_ctx] [V_me; V_defcache; V_ctx])
    (begin_switch t)
    (λ _, own [V_out_cc; V_me; V_defcache_princ; V_defcache; V_ctx] [V_me; V_defcache; V_ctx])
    (λ _, own begin_vars []).
Proof.
  unfold begin_switch. apply null_bind; [intros _|intros _; apply triple_ret; weaken].
  apply call_bind; [lists|]. intros r. unfold when.
  destruct (negb _); [|apply triple_ret; weaken].
  apply alloc_bind; [lists|lists| |]; intros r'.
  - intros Hr. rewrite Hr. cbn. apply triple_modify. intros st Hst.
    apply switch_own. revert Hst. weaken.
  - intros Hr. rewrite Hr. cbn. destruct (negb _); [intros st Hst; revert Hst; weaken|].
    apply null_bind; [intros _; apply triple_ret; weaken|intros _]. cbn.
    apply alloc_check_bind; [lists|lists|weaken|]. intros r2.
    apply triple_modify. intros st Hst. apply switch_own. revert Hst. weaken.
Qed.

Lemma k5_begin_body_own n :
  ktriple (own [V_ctx] [V_ctx]) (k5_begin_body (main_opts n))
    (λ opts st, (∃ n', opts = main_opts n') ∧
       own begin_vars [V_name; V_out_cc; V_me; V_ctx] st)
    (λ _, own begin_vars []).
Proof.
  unfold k5_begin_body, begin_in_cache, begin_name. eapply triple_bind; [apply begin_cache_own|]. intros t.
  cbn [begin_principal principal_name main_opts k5_in_cache_name].
  eapply triple_bind.
  { apply alloc_check; [lists|lists|weaken]. }
  intros ?. eapply (triple_bind _ _ _ (λ _,
    own [V_me; V_defcache_princ; V_defcache; V_ctx] [V_me; V_defcache; V_ctx])).
  { unfold begin_local_name. apply null_bind.
    - absurd_in.
    - intros _. apply triple_ret. weaken. }
  intros ?. eapply triple_bind.
  { eapply triple_weaken; [apply begin_switch_own|weaken|done|done]. }
  intros ?. apply null_bind.
  - intros _. cbn [when]. eapply triple_bind; [apply move_own; lists|]. intros ?.
    apply triple_bind_ret. apply alloc_check_bind; [lists|lists|weaken|]. intros r.
    apply triple_ret. intros st Hst. split; [by eexists|]. revert Hst. weaken.
  - intros _. cbn [when]. apply triple_bind_ret, triple_bind_ret.
    apply alloc_check_bind; [lists|lists|weaken|]. intros r.
    apply triple_ret. intros st Hst. split; [by eexists|]. revert Hst. weaken.
Qed.

Lemma k5_begin_own n :
  ktriple (own [] []) (k5_begin (main_opts n))
    (λ res, match res with
            | Some opts => λ st, (∃ n', opts = main_opts n') ∧
                own [V_name; V_me; V_out_cc; V_ctx] [V_name; V_out_cc; V_me; V_ctx] st
            | None => own [V_name; V_me; V_out_cc; V_ctx] []
            end)
    (λ _ _, False).
Proof.
  unfold k5_begin, begin_cleanup. apply alloc_bind; [lists|lists| |]; intros r Hr;
    rewrite Hr; cbn [negb].
  - eapply (triple_bind _ _ _ (λ res, match res with
            | Some opts => λ st, (∃ n', opts = main_opts n') ∧
                own begin_vars [V_name; V_out_cc; V_me; V_ctx] st
            | None => own begin_vars [] end)).
    { eapply triple_catch.
      - eapply triple_bind; [apply k5_begin_body_own|]. intros opts. by apply triple_ret.
      - intros e. by apply triple_ret. }
    intros [opts|].
    + intros st [Hopts Hst]. revert st Hst. apply release_bind, release_bind, triple_ret.
      intros st Hst. split; [done|]. revert Hst. weaken.
    + apply release_bind, release_bind, triple_ret. weaken.
  - apply triple_ret. weaken.
Qed.

Lemma k5_kinit_body_own n :
  ktriple (own [V_name; V_me; V_out_cc; V_ctx] [V_name; V_out_cc; V_me; V_ctx])
    (k5_kinit_body (main_opts n))
    (λ _, own [V_my_creds; V_options; V_name; V_me; V_out_cc; V_ctx]
              [V_name; V_out_cc; V_me; V_ctx])
    (λ _, own [V_my_creds; V_options; V_name; V_me; V_out_cc; V_ctx] 
              [V_name; V_out_cc; V_me; V_ctx]).
Proof.
  unfold k5_kinit_body. apply alloc_check_bind; [lists|lists|weaken|]. intros r.
  cbn -[is_null call alloc check run_prompts]. repeat apply triple_bind_ret.
  apply null_bind; [intros _|absurd_in].
  cbn [negb when]. apply triple_bind_ret.
  apply call_check_bind; [lists|weaken|]. intros r1.
  eapply (triple_bind _ _ _ (λ ret st, own (if (ret =? 0)%Z
      then [V_my_creds; V_options; V_name; V_me; V_out_cc; V_ctx]
      else [V_options; V_name; V_me; V_out_cc; V_ctx]) [V_name; V_out_cc; V_me; V_ctx] st)).
  - apply alloc_prompts_bind; [lists|lists| |]; intros r2 Hr;
      (eapply triple_bind; [apply prompts_own|]; intros b; apply triple_ret; rewrite Hr; weaken).
  - intros ret. unfold check. destruct (ret =? 0)%Z; cbn.
    + apply triple_ret. weaken.
    + intros st Hst. revert Hst. weaken.
Qed.

Lemma k5_kinit_own n :
  ktriple (own [V_name; V_me; V_out_cc; V_ctx] [V_name; V_out_cc; V_me; V_ctx])
    (k5_kinit (main_opts n))
    (λ r st, (r = 0 ∨ r = 1)%Z ∧ own [V_name; V_me; V_out_cc; V_ctx] [] st)
    (λ _ _, False).
Proof.
  unfold k5_kinit, kinit_end. eapply (triple_bind _ _ _ (λ _,
    own [V_my_creds; V_options; V_name; V_me; V_out_cc; V_ctx] [V_name; V_out_cc; V_me; V_ctx])).
  { eapply triple_catch.
    - eapply triple_bind; [apply k5_kinit_body_own|]. intros ?.
      by apply triple_ret.
    - intros e. by apply triple_ret. }
  intros notix. eapply (triple_bind _ _ _ (λ _,
    own [V_my_creds; V_options; V_name; V_me; V_out_cc; V_ctx] [V_name; V_out_cc; V_me; V_ctx])).
  { by apply triple_gets. }
  intros sw. eapply (triple_bind _ _ _ (λ _,
    own [V_my_creds; V_options; V_name; V_me; V_out_cc; V_ctx] [V_name; V_out_cc; V_me; V_ctx])).
  { unfold when. destruct (_ && _); [|by apply triple_ret].
    apply call_bind; [lists|]. intros ?. by apply triple_ret. }
  intros ?. eapply (triple_bind _ _ _ (λ _,
    own [V_my_creds; V_options; V_name; V_me; V_out_cc; V_ctx] [V_name; V_out_cc; V_me; V_ctx])).
  { apply call_bind; [lists|]. intros ?. by apply triple_ret. }
  intros ?. apply release_bind, release_bind, release_bind, release_bind, triple_ret.
  intros st Hst. split; [case_match; auto|]. revert Hst. weaken.
Qed.

Lemma k5_end_own :
  ktriple (own [V_name; V_me; V_out_cc; V_ctx] []) k5_end (λ _, own [] []) (λ _ _, False).
Proof.
  apply release_bind, release_bind, release_bind, release_bind.
  eapply triple_weaken; [apply release_own|intros st Hst; exact Hst| |intros ? ? He; exact He].
  intros ? st Hst. cbn beta in *. revert Hst. weaken.
Qed.

Lemma own_nothing st : own [] [] st → (∀ v, vars st v = None) ∧ live st = ∅.
Proof.
  intros Hown.
  assert (Hnone : ∀ v, vars st v = None).
  { intros v. destruct (vars st v) eqn:Hv; [|done].
    assert (v ∈ []) as ?%elem_of_nil; [|done]. apply (own_may _ _ _ Hown). by rewrite Hv. }
  split; [done|]. apply leibniz_equiv, elem_of_equiv_empty. intros h Hh.
  destruct (own_held _ _ _ Hown _ Hh) as [v Hv]. by rewrite Hnone in Hv.
Qed.

(** What a run leaves behind. *)
Definition released (r : Z) (st : kst X) : Prop :=
  (r = 0 ∨ r = 1)%Z ∧ live st = ∅ ∧ (∀ v, vars st v = None) ∧
  udata_name st = ff UDATA_SIZE ∧ udata_pass st = ff UDATA_SIZE.

Lemma my_kinit_main_own name pass :
  String.length (c_str name) < UDATA_SIZE → String.length (c_str pass) < UDATA_SIZE →
  String.length (c_str pass) ≤ plen →
  ktriple (own [] []) (my_kinit_main_st name pass) released (λ _ _, False).
Proof.
  intros Hn Hp Hpn. unfold my_kinit_main_st, copy_to_udata.
  rewrite !decide_True by (unfold UDATA_SIZE in *; lia).
  apply triple_bind_ret, triple_bind_ret. eapply (triple_bind _ _ _ (λ _, own [] [])).
  { apply triple_modify. intros st []. constructor; try done. cbn.
    etrans; [apply c_str_length|done]. }
  intros ?. eapply triple_bind; [apply k5_begin_own|]. intros begun.
  eapply (triple_bind _ _ _ (λ r st, (r = 0 ∨ r = 1)%Z ∧ own [V_name; V_me; V_out_cc; V_ctx] [] st)).
  { destruct begun as [opts|].
    - intros st [[n' ->] Hst]. by apply k5_kinit_own.
    - apply triple_ret. auto. }
  intros r. eapply (triple_bind _ _ _ (λ _ st, (r = 0 ∨ r = 1)%Z ∧ own [] [] st)).
  { intros st [Hr Hst]. specialize (k5_end_own st Hst). destruct (k5_end st) as [[[]|e|e] st']; auto. }
  intros ? st [Hr Hst]. apply own_nothing in Hst as [Hv Hl]. cbn. split; [case_match; auto|by split_and!].
Qed.

End steps.
End ownership.

Lemma my_kinit_main_run name pass w :
  if decide (String.length (c_str name) < UDATA_SIZE ∧ String.length (c_str pass) < UDATA_SIZE)
  then ∃ o st, my_kinit_main_st name pass (kst_init w) = (o, st) ∧ my_kinit_main name pass w = (o, kw st) ∧
    match o with
    | Ok r => released r st
    | Throw _ => False
    | Undefined _ => unfit (String.length (c_str pass)) st
    end
  else ∃ e, my_kinit_main name pass w = (Undefined e, w).
Proof.
  case_decide as Hd.
  - destruct Hd as [Hn Hp].
    assert (Hinit : own (String.length (c_str pass)) [] [] (kst_init w)).
    { constructor; cbn; try done; try lia; try (by intros ? ?%elem_of_nil);
        intros h Hh; by apply not_elem_of_empty in Hh. }
    pose proof (my_kinit_main_own _ name pass Hn Hp (le_n _) _ Hinit) as Hrun. unfold my_kinit_main.
    destruct (my_kinit_main_st _ _ _) as [[r|e|e] st]; eexists _, st; by split_and!.
  - assert (Hst : my_kinit_main_st name pass (kst_init w) =
      (Undefined "strncpy past udata", kst_init w)).
    { unfold my_kinit_main_st, copy_to_udata. unfold mbind at 1, M_bind at 1, lift at 1.
      case_decide; [|reflexivity]. unfold mbind at 1, M_bind at 1, lift at 1.
      case_decide; [|reflexivity]. exfalso. unfold UDATA_SIZE in *. lia. }
    unfold my_kinit_main. rewrite Hst. by eexists.
Qed.

Lemma my_kinit_main_status name pass w r w' :
  my_kinit_main name pass w = (Ok r, w') → (r = 0 ∨ r = 1)%Z.
Proof.
  intros Hrun. pose proof (my_kinit_main_run name pass w) as Hm. case_decide.
  - destruct Hm as (o & st & _ & Heq & Ho). rewrite Hrun in Heq. injection Heq as <- _. apply Ho.
  - destruct Hm as [e He]. congruence.
Qed.

Lemma my_kinit_main_no_throw name pass w e w' :
  my_kinit_main name pass w ≠ (Throw e, w').
Proof.
  intros Hrun. pose proof (my_kinit_main_run name pass w) as Hm. case_decide.
  - destruct Hm as (o & st & _ & Heq & Ho). rewrite Hrun in Heq. by injection Heq as <- _.
  - destruct Hm as [e' He]. congruence.
Qed.

(** ** Properties *)

End kinit.

(** ** A scripted Kerberos library: every call succeeds but the request for
    credentials, which takes its status from the script and prompts for a password. *)
#[local] Existing Instance Script.script_platform.

Definition script_reply : string := String nul (ff 255).

#[export] Instance script_krb5 : Krb5 Script.script := {|
  krb5_call fn args s x :=
    if decide (fn = "krb5_get_init_creds_password") then
      match Script.sc_write x with
      | Some r :: l =>
        (KResult r "" [([KRB5_PROMPT_TYPE_PASSWORD], script_reply)], s,
         Script.Sc (Script.sc_read x) l (Script.sc_random x) (Script.sc_ran x))
      | _ => (KResult 0 "" [([KRB5_PROMPT_TYPE_PASSWORD], script_reply)], s, x)
      end
    else (KResult 0 "FILE" [], s, x);
  login_name _ := Some "root"
|}.

