(* ===== verification/Util.v ===== *)
(** * Commands and credentials ([class Util] of [common/util.hpp])

    Running shell commands, the checks on the binaries the daemon runs as root,
    the settings in [/etc/ecs/ecs.config], the secret read through the AWS
    command line, the LDAP searches, and the tickets of a user or a machine. *)
From S2P Require Import Prelude StrUtil Logger World Json Kinit.
From stdpp Require Import options.

(** ** Constants ([common/constants.h], [auth/kerberos/src/krb.cpp]) *)
Definition HOST_NAME_LENGTH_LIMIT : nat := 15.
Definition ENV_CF_GMSA_OU : string := "CF_GMSA_OU".
Definition ENV_CF_GMSA_SECRET_NAME : string :=
  "CREDENTIALS_FETCHER_SECRET_NAME_FOR_DOMAINLESS_GMSA".
Definition ENV_CF_DOMAIN_CONTROLLER : string := "DOMAIN_CONTROLLER_GMSA".
Definition ENV_CF_DISTINGUISHED_NAME : string := "CF_GMSA_DISTINGUISHED_NAME".
Definition install_path_for_decode_exe : string :=
  "/usr/sbin/credentials_fetcher_utf16_private.exe".
Definition install_path_for_aws_cli : string := "/usr/bin/aws".
Definition S_IWOTH : Z := 2.

(** [fgets( line, n + 1, pFile )]: at most [n] characters, up to and including
    the next newline. *)
Fixpoint fgets (n : nat) (s : string) : string * string :=
  match n, s with
  | S n', String c s' =>
    if decide (c = nl) then (String c EmptyString, s')
    else let '(line, rest) := fgets n' s' in (String c line, rest)
  | _, _ => (EmptyString, s)
  end.

(** [while ( fgets( line, sizeof( line ), pFile ) ) output += std::string( line );]
    with [char line[80]]. *)
Fixpoint read_pipe (fuel : nat) (s : string) : string :=
  match fuel, s with
  | S fuel', String _ _ =>
    let '(line, rest) := fgets 79 s in c_str line +:+ read_pipe fuel' rest
  | _, _ => EmptyString
  end.

(** [std::equal( a.begin(), a.end(), b.begin() )]: only the first range has an
    end. *)
Fixpoint std_equal (a b : string) : outcome bool :=
  match a, b with
  | EmptyString, _ => Ok true
  | String _ _, EmptyString => Undefined "std::equal past the end of the second string"
  | String c a', String d b' => if decide (c = d) then std_equal a' b' else Ok false
  end.

(** ** Settings: the loop of [retrieve_variable_from_ecs_config] *)
Definition ecs_keys : list string :=
  [ENV_CF_GMSA_OU; ENV_CF_GMSA_SECRET_NAME; ENV_CF_DOMAIN_CONTROLLER;
   ENV_CF_DISTINGUISHED_NAME].

Fixpoint ecs_lookup (ecs_variable_name : string) (lines : list string) : string :=
  match lines with
  | [] => ""
  | line :: rest =>
    match split_string line equals_sign with
    | [k; v] =>
      let key := rtrim k in
      let value := ltrim v in
      if existsb (String.eqb key) ecs_keys && String.eqb ecs_variable_name key then value
      else ecs_lookup ecs_variable_name rest
    | _ => ""
    end
  end.

(** ** LDAP output *)

(** [find_dn] after the search: the text after ["distinguishedName: "] up to the
    end of the line. *)
Definition dn_of_output (ldap_search_result : Z * string) : outcome (Z * string) :=
  let '(status, output) := ldap_search_result in
  if (status =? 0)%Z && negb (str_empty output) then
    match str_find "distinguishedName:" output with
    | None => Ok (0%Z, "")
    | Some start_pos =>
      distinguished_name ←
        str_substr (start_pos + String.length "distinguishedName: ") output;
      match str_find (String nl "") distinguished_name with
      | Some end_pos => Ok (0%Z, str_take end_pos distinguished_name)
      | None => Ok ((-1)%Z, "")
      end
    end
  else Ok ((-1)%Z, "").

Section decode.
Context {X : Type} `{Platform X}.

(** The bytes of the decoded blob, [None] for a null pointer. *)
Definition base64_decode (password : string) : option string :=
  if str_empty password then None
  else match g_base64_decode (c_str password) with
       | Some result => if str_empty result then None else Some result
       | None => None
       end.

(** The loop of [find_password] over the [#]-separated pieces. *)
Fixpoint password_in (results : list string) : outcome (option string) :=
  match results with
  | [] => Ok None
  | result :: rest =>
    let password := "msDS-ManagedPassword::" in
    match str_find password result with
    | Some found =>
      p ← str_substr (found + String.length password + 1) result; Ok (Some p)
    | None => password_in rest
    end
  end.

Definition find_password (ldap_search_result : string) : outcome (option string) :=
  password ← password_in (split_string ldap_search_result "#"%char);
  match password with
  | Some password => Ok (base64_decode password)
  | None => Ok None
  end.
End decode.

Section util.
Context {X : Type} `{Platform X} {V : Type} `{JsonCpp V} `{Krb5 X}.
Abbreviation MW := (M (world X)).

Definition check_file_permissions (filename : string) : MW bool :=
  st ← gets (λ w, fs_lstat (c_str filename) (w_fs w));
  mret match st with
  | None => false
  | Some st =>
    negb (negb (st_uid st =? 0)%Z || negb (st_gid st =? 0)%Z ||
          negb (Z.land (st_mode st) S_IWOTH =? 0)%Z)
  end.

Definition exec_shell_cmd (cmd : string) : MW (Z * string) := λ w,
  match popen_read (c_str cmd) (w_fs w) (w_ext w) with
  | (None, s, x) => (Ok ((-1)%Z, ""), set_fs s (set_ext x w))
  | (Some (output, error_code), s, x) =>
    (Ok (error_code, read_pipe (String.length output) output), set_fs s (set_ext x w))
  end.

(** [which <name>] and the permission check of its answer. *)
Definition which_present (cmd err : string) : MW (Z * string) :=
  r ← exec_shell_cmd cmd;
  let path := rtrim r.2 in
  ok ← check_file_permissions path;
  mret (if ok : bool then (r.1, path) else ((-1)%Z, err)).

Definition is_hostname_cmd_present := which_present "which hostname" "ERROR: hostname not found".
Definition is_realm_cmd_present := which_present "which realm" "ERROR: realm not found".
Definition is_kinit_cmd_present := which_present "which kinit" "ERROR: kinit not found".
Definition is_ldapsearch_cmd_present :=
  which_present "which ldapsearch" "ERROR: ldapsearch not found".

Definition is_decode_exe_present : MW (Z * string) :=
  ok ← check_file_permissions install_path_for_decode_exe;
  mret (if ok : bool then (0%Z, "") else ((-1)%Z, "ERROR: decode.exe not found")).

Definition check_util_binaries_permissions : MW (Z * string) :=
  cmd ← exec_shell_cmd "which kinit";
  ok ← check_file_permissions (rtrim cmd.2);
  if negb ok then mret ((-1)%Z, "ERROR:: kinit not found") else
  cmd ← exec_shell_cmd "which ldapsearch";
  ok ← check_file_permissions (rtrim cmd.2);
  if negb ok then mret ((-1)%Z, "ERROR:: ldapsearch not found") else
  ok ← check_file_permissions install_path_for_decode_exe;
  if negb ok then mret ((-1)%Z, "ERROR:: decode.exe not found") else
  ok ← check_file_permissions install_path_for_aws_cli;
  if negb ok then mret ((-1)%Z, "ERROR:: AWS CLI not found") else
  mret (0%Z, "").

Definition realm_cmd (prog key : string) : string :=
  prog +:+ " | grep  '" +:+ key +:+ "' | cut -f2 -d: | tr -d ' ' | tr -d '" +:+
  String nl "'".

Definition get_realm_name : MW (Z * string) :=
  r ← exec_shell_cmd (realm_cmd "realm list" "realm-name");
  if (r.1 =? 0)%Z then mret r else
  r ← exec_shell_cmd (realm_cmd "net ads info" "Realm");
  if (r.1 =? 0)%Z then mret r else mret (r.1, "").

Definition check_domain_name (domain_name : string) : MW (Z * string) :=
  r ← exec_shell_cmd (realm_cmd "realm list" "domain-name");
  if negb (r.1 =? 0)%Z then mret ((-1)%Z, r.2)
  else eq ← lift (std_equal r.2 domain_name);
       mret (if eq : bool then r else ((-1)%Z, r.2)).

Definition retrieve_variable_from_ecs_config (ecs_variable_name : string) : MW string :=
  text ← read_file "/etc/ecs/ecs.config";
  mret (match text with
        | None => ""
        | Some text => ecs_lookup ecs_variable_name (split_string text nl)
        end).

(** ** Secrets *)
Definition get_secret_from_secrets_manager (aws_sm_secret_name : string) : MW V :=
  result ← exec_shell_cmd
    (install_path_for_aws_cli +:+ " secretsmanager get-secret-value --secret-id " +:+
     aws_sm_secret_name +:+ " --query 'SecretString' --output text");
  mret (if (result.1 =? 0)%Z then (json_parse result.2).2 else json_null).

(** [root[k].asString()], or [root[k'].asString()] when that is empty. *)
Definition string_or (root : V) (k k' : string) : outcome string :=
  v ← json_get root k; s ← json_as_string v;
  if str_empty s then v' ← json_get root k'; json_as_string v' else Ok s.

Definition get_base_dn_from_secret (secret_name : string) : MW (Z * string) :=
  if str_empty secret_name then mret ((-1)%Z, "")
  else
    root ← get_secret_from_secrets_manager secret_name;
    distinguished_name ← lift (string_or root "distinguishedName" "distinguishedNameOfgMSA");
    mret (if str_empty distinguished_name then ((-1)%Z, "") else (0%Z, distinguished_name)).

(** ** Domain controllers *)

(** The loop that drops a trailing dot of every name; [back()] of an empty line
    is undefined. *)
Fixpoint strip_dots (fqdns : list string) : outcome (list string) :=
  match fqdns with
  | [] => Ok []
  | fqdn :: rest =>
    c ← str_back fqdn;
    fqdn' ← (if decide (c = dot) then str_pop_back fqdn else Ok fqdn);
    rest' ← strip_dots rest;
    Ok (fqdn' :: rest')
  end.

Definition get_FQDNs (domain_name : string) : MW (list string) :=
  nslookup_output ← exec_shell_cmd
    ("nslookup -type=srv _ldap._tcp.dc._msdcs." +:+ domain_name +:+ " | grep " +:+
     domain_name +:+ " | sed 's/^.* //g'");
  if (nslookup_output.1 =? 0)%Z then lift (strip_dots (split_string nslookup_output.2 nl))
  else
    nslookup_output ← exec_shell_cmd
      ("dig +short _ldap._tcp.dc._msdcs." +:+ domain_name +:+ " -t any | sed 's/^.* //g'");
    if (nslookup_output.1 =? 0)%Z then lift (strip_dots (split_string nslookup_output.2 nl))
    else mret [].

Definition get_FQDN_list (domain_name : string) : MW (list string) :=
  fqdn_from_env_var ← retrieve_variable_from_ecs_config ENV_CF_DOMAIN_CONTROLLER;
  if str_empty fqdn_from_env_var then get_FQDNs domain_name else mret [fqdn_from_env_var].

(** ** LDAP *)
Definition ldapsearch_cmd (distinguished_name fqdn search_string : string) : string :=
  "ldapsearch -o ldif_wrap=no -LLL -Y GSSAPI -H ldap://" +:+ fqdn +:+
  " -b '" +:+ distinguished_name +:+ "' " +:+ search_string +:+ " -N".

(** The loop of two attempts. Each one appends the output to [cmd], which is
    what the second attempt runs. *)
Fixpoint ldap_attempts (n : nat) (fqdn cmd : string) (last : Z * string) : MW (Z * string) :=
  match n with
  | O => mret last
  | S n' =>
    r ← exec_shell_cmd cmd;
    let cmd' := cmd +:+ r.2 in
    if negb (r.1 =? 0)%Z then
      now ← getCurrentTime;
      let err_msg := now +:+ "ERROR: ldapsearch failed to get gMSA credentials: " +:+ cmd' in
      ldap_attempts n' fqdn cmd' (r.1, cmd' +:+ err_msg)
    else mret (0%Z, cmd' +:+ "INFO: ldapsearch succeeded with FQDN = ")
  end.

Definition execute_ldapsearch (gmsa_account_name distinguished_name fqdn search_string : string)
    : MW (Z * string) :=
  ldap_attempts 2 fqdn (ldapsearch_cmd distinguished_name fqdn search_string) (0%Z, "").

Definition find_dn (gmsa_account_name base_dn fqdn : string) : MW (Z * string) :=
  r ← execute_ldapsearch gmsa_account_name base_dn fqdn
        (" -s sub '(CN=" +:+ gmsa_account_name +:+ ")' distinguishedName");
  lift (dn_of_output r).

(** ** Tickets of a user *)
Definition execute_kinit_in_domain_joined_case (principal : string) : MW (Z * string) :=
  exec_shell_cmd ("kinit -kt /etc/krb5.keytab " +:+ transform_toupper principal).

Definition generate_krb_ticket_using_secret_vault (domain_name aws_sm_secret_name : string)
    : MW (Z * string) :=
  result ← check_util_binaries_permissions;
  if negb (result.1 =? 0)%Z then mret result else
  root ← get_secret_from_secrets_manager aws_sm_secret_name;
  if json_is_null root then
    mret ((-1)%Z, "ERROR: username and password not found in secret")
  else
    username ← lift (string_or root "username" "usernameOfStandardUserAccount");
    password ← lift (string_or root "password" "passwordOfStandardUserAccount");
    distinguished_name ← lift (string_or root "distinguishedName" "distinguishedNameOfgMSA");
    (if str_empty distinguished_name then mret tt
     else log LOG_ERR ("[Optional] DN from Secrets Manager = " +:+ distinguished_name));;
    ret ← my_kinit_main (username +:+ "@" +:+ transform_toupper domain_name) password;
    mret (ret, distinguished_name).

Definition generate_krb_ticket_using_username_and_password
    (domain_name username password : string) : MW (Z * string) :=
  result ← is_kinit_cmd_present;
  if negb (result.1 =? 0)%Z then log LOG_ERR result.2;; mret result else
  result ← is_ldapsearch_cmd_present;
  if negb (result.1 =? 0)%Z then log LOG_ERR result.2;; mret result else
  ret ← my_kinit_main (username +:+ "@" +:+ transform_toupper domain_name) password;
  mret (ret, "").

(** ** The machine principal *)
Definition get_machine_principal (domain_name : string) : MW (Z * string) :=
  host ← gets (λ w, host_name (w_ext w));
  if negb (host.1 =? 0)%Z then mret (host.1, "") else
  realm_name_result ← get_realm_name;
  if negb (realm_name_result.1 =? 0)%Z then mret realm_name_result else
  domain_name_result ← check_domain_name domain_name;
  if negb (domain_name_result.1 =? 0)%Z then mret domain_name_result else
  let name := (break_at dot (c_str host.2)).1 in
  name ← (if decide (HOST_NAME_LENGTH_LIMIT < String.length name) then
            log LOG_ERR ("WARNING: get_machine_principal : 965 hostname exceeds 15 characters," +:+
              " this can cause problems in getting kerberos tickets, please reduce hostname length");;
            mret (str_take HOST_NAME_LENGTH_LIMIT name)
          else mret name);
  mret (0%Z, "'" +:+ name +:+ "$@'" +:+ realm_name_result.2).

(** ** Lemmas *)
#[local] Arguments String.append !_ _ /.

Lemma fgets_spec n s :
  let '(line, rest) := fgets (S n) s in
  s = line +:+ rest ∧ (s ≠ "" → String.length rest < String.length s).
Proof.
  revert s. induction n as [|n IH]; intros s.
  - destruct s as [|c s]; cbn; [done|]. case_decide; cbn; split; auto with lia.
  - destruct s as [|c s]; [done|]. cbn [fgets]. case_decide; [cbn; auto with lia|].
    specialize (IH s). cbn [fgets] in IH. destruct s as [|d s]; [cbn; auto with lia|].
    case_decide; [cbn in *; split; auto with lia|].
    destruct (fgets n s) as [line rest]. destruct IH as [IH Hl]. cbn in *.
    split; [by f_equal|]. intros _. specialize (Hl ltac:(done)). lia.
Qed.

Lemma c_str_id s : has_char nul s = false → c_str s = s.
Proof. intros H'. unfold c_str. by rewrite break_at_none. Qed.

Lemma read_pipe_id fuel s :
  String.length s ≤ fuel → has_char nul s = false → read_pipe fuel s = s.
Proof.
  revert s. induction fuel as [|fuel IH]; intros s Hl Hn.
  { destruct s; [done|cbn in Hl; lia]. }
  destruct s as [|c s]; [done|]. cbn [read_pipe].
  pose proof (fgets_spec 78 (String c s)) as Hf.
  destruct (fgets 79 (String c s)) as [line rest]. destruct Hf as [Heq Hlt].
  rewrite Heq in Hn |- *. rewrite has_char_app in Hn. apply orb_false_iff in Hn as [Hn1 Hn2].
  specialize (Hlt ltac:(done)). cbn [String.length] in *.
  rewrite c_str_id, IH by (done || lia). done.
Qed.

Lemma exec_shell_cmd_run cmd w output status s x :
  popen_read (c_str cmd) (w_fs w) (w_ext w) = (Some (output, status), s, x) →
  has_char nul output = false →
  exec_shell_cmd cmd w = (Ok (status, output), set_fs s (set_ext x w)).
Proof. intros Hp Hn. unfold exec_shell_cmd. by rewrite Hp, read_pipe_id. Qed.

(** Lines each followed by a newline are what the reader splits into. *)
Lemma getlines_concat n lines :
  Forall (λ l, has_char nl l = false) lines →
  String.length (str_concat ((λ l, l +:+ String nl "") <$> lines)) ≤ n →
  getlines n nl (str_concat ((λ l, l +:+ String nl "") <$> lines)) = lines.
Proof.
  intros Hall. revert n. induction Hall as [|l lines Hl Hall IH]; intros n Hn; cbn in *.
  { by destruct n. }
  rewrite str_app_assoc in Hn |- *. rewrite !str_app_length in Hn. cbn in Hn.
  destruct n as [|n]; [lia|]. cbn [getlines].
  rewrite getline_app by done. f_equal. apply IH. lia.
Qed.

Definition setting (kv : string * string) : string := kv.1 +:+ "=" +:+ kv.2.

Definition setting_ok (kv : string * string) : Prop :=
  has_char equals_sign kv.1 = false ∧ has_char nl (kv.1 +:+ kv.2) = false ∧ kv.2 ≠ "".

Lemma split_setting kv : setting_ok kv → split_string (setting kv) equals_sign = [kv.1; kv.2].
Proof.
  destruct kv as [k v]. intros (Hk & Hn & Hv). unfold split_string, setting. cbn [fst snd] in *.
  rewrite decide_True by done. change ("=" +:+ v) with (String equals_sign "" +:+ v).
  rewrite getline_app by done. f_equal. rewrite has_char_app in Hn.
  apply orb_false_iff in Hn as [_ Hn]. destruct v as [|c v]; [done|].
  cbn [String.length getlines]. unfold getline. rewrite break_at_none by done. cbn.
  by destruct (String.length v).
Qed.

Lemma ecs_lookup_found name pre k v post :
  name ∈ ecs_keys → Forall setting_ok pre → Forall (λ kv, rtrim kv.1 ≠ name) pre →
  setting_ok (k, v) → rtrim k = name →
  ecs_lookup name ((setting <$> pre) ++ setting (k, v) :: post) = ltrim v.
Proof.
  intros Hin Hok Hne Hkv Hk. induction Hok as [|kv pre Hkv' Hok IH]; cbn -[setting split_string rtrim ltrim ecs_keys].
  - rewrite (split_setting (k, v)) by done. cbn [fst snd]. rewrite Hk, String.eqb_refl, andb_true_r.
    assert (existsb (String.eqb name) ecs_keys = true) as ->; [|done].
    apply existsb_exists. exists name. split; [by apply list_elem_of_In|apply String.eqb_refl].
  - apply Forall_cons in Hne as [Hne1 Hne]. rewrite split_setting by done.
    assert (String.eqb name (rtrim kv.1) = false) as -> by by apply String.eqb_neq.
    rewrite andb_false_r. auto.
Qed.

Lemma ecs_lookup_bad name pre line post :
  Forall setting_ok pre → Forall (λ kv, rtrim kv.1 ≠ name) pre →
  length (split_string line equals_sign) ≠ 2 →
  ecs_lookup name ((setting <$> pre) ++ line :: post) = "".
Proof.
  intros Hok Hne Hline. induction Hok as [|kv pre Hkv' Hok IH]; cbn -[setting split_string rtrim ltrim ecs_keys].
  - destruct (split_string line equals_sign) as [|? [|? [|]]]; done.
  - apply Forall_cons in Hne as [Hne1 Hne]. rewrite split_setting by done.
    assert (String.eqb name (rtrim kv.1) = false) as -> by by apply String.eqb_neq.
    rewrite andb_false_r. auto.
Qed.

Lemma password_in_found pre a b64 post :
  Forall (λ r, str_find "msDS-ManagedPassword::" r = None) pre →
  str_find "msDS-ManagedPassword::" (a +:+ "msDS-ManagedPassword:: " +:+ b64) =
    Some (String.length a) →
  password_in (pre ++ (a +:+ "msDS-ManagedPassword:: " +:+ b64) :: post) = Ok (Some b64).
Proof.
  intros Hpre Ha. induction Hpre as [|r pre Hr Hpre IH].
  - cbn [app password_in]. rewrite Ha. unfold str_substr.
    rewrite !str_app_length. rewrite decide_True by (cbn; lia). cbn [mbind outcome_bind].
    rewrite <-Nat.add_assoc.
    change (String.length "msDS-ManagedPassword::" + 1)
      with (String.length "msDS-ManagedPassword:: ").
    rewrite <-str_app_length, <-str_app_assoc. by rewrite str_drop_app.
  - cbn [app password_in]. by rewrite Hr.
Qed.

Lemma machine_principal_run domain_name w p w' :
  get_machine_principal domain_name w = (Ok (0%Z, p), w') →
  ∃ realm, p = "'" +:+ str_take HOST_NAME_LENGTH_LIMIT
                        (break_at dot (c_str (host_name (w_ext w)).2)).1 +:+ "$@'" +:+ realm ∧
           (∃ w1, get_realm_name w = (Ok (0%Z, realm), w1)) ∧
           (host_name (w_ext w)).1 = 0%Z.
Proof.
  unfold get_machine_principal, gets at 1. unfold mbind, M_bind at 1.
  destruct ((host_name (w_ext w)).1 =? 0)%Z eqn:Hh; cbn [negb].
  2:{ intros [= Hz _ _]. rewrite Hz in Hh. done. }
  intros (r & w1 & Hr & Hrun)%bind_ok. destruct r as [rc realm]. cbn [fst] in Hrun.
  destruct (rc =? 0)%Z eqn:Hrc; cbn [negb] in Hrun.
  2:{ injection Hrun as -> -> ->. done. }
  apply Z.eqb_eq in Hrc as ->. apply Z.eqb_eq in Hh.
  apply bind_ok in Hrun as ([dc dn] & w2 & Hd & Hrun). cbn [fst] in Hrun.
  destruct (dc =? 0)%Z eqn:Hdc; cbn [negb] in Hrun.
  2:{ injection Hrun as -> -> ->. done. }
  apply bind_ok in Hrun as (name & w3 & Hname & Hrun). injection Hrun as <- _.
  exists realm. split_and!; [|eauto|done]. f_equal. f_equal.
  case_decide as Hlen.
  - apply bind_ok in Hname as ([] & w4 & _ & Hname). by injection Hname as <- _.
  - injection Hname as <- _. by rewrite str_take_all by lia.
Qed.

(** ** Properties *)

(** C33: the output of a command that prints no NUL reaches the caller whole,
    however long its lines are, with the status of [pclose]; when [popen] fails
    the result is -1 with no output. *)
Theorem exec_shell_cmd_complete cmd w :
  match popen_read (c_str cmd) (w_fs w) (w_ext w) with
  | (Some (output, status), s, x) =>
    has_char nul output = false →
    exec_shell_cmd cmd w = (Ok (status, output), set_fs s (set_ext x w))
  | (None, s, x) => exec_shell_cmd cmd w = (Ok ((-1)%Z, ""), set_fs s (set_ext x w))
  end.
Proof.
  destruct (popen_read _ _ _) as [[[[output status]|] s] x] eqn:Hp.
  - by apply exec_shell_cmd_run.
  - unfold exec_shell_cmd. by rewrite Hp.
Qed.

(** A binary passes the check exactly when it is there, belongs to root
    and to the group root, and is not writable by others (bit 1 of the mode). *)
Theorem check_file_permissions_spec filename w :
  ∃ b, check_file_permissions filename w = (Ok b, w) ∧
    (b = true ↔ ∃ st, fs_lstat (c_str filename) (w_fs w) = Some st ∧
       st_uid st = 0%Z ∧ st_gid st = 0%Z ∧ Z.testbit (st_mode st) 1 = false).
Proof.
  unfold check_file_permissions, gets, mbind, M_bind, mret, M_ret. eexists. split; [done|].
  destruct (fs_lstat _ _) as [st|]; [|split; [done|by intros (? & ? & _)]].
  assert (Hbit : (Z.land (st_mode st) S_IWOTH =? 0)%Z = negb (Z.testbit (st_mode st) 1)).
  { unfold S_IWOTH. change 2%Z with (2 ^ 1)%Z. rewrite Z.land_comm.
    destruct (Z.testbit (st_mode st) 1) eqn:Hb; cbn [negb].
    - apply Z.eqb_neq. intros Hz. apply (f_equal (λ z, Z.testbit z 1)) in Hz.
      rewrite Z.land_spec, Hb in Hz. done.
    - apply Z.eqb_eq, Z.bits_inj_0. intros n. rewrite Z.land_spec.
      destruct (decide (n = 1%Z)) as [->|Hn]; [by rewrite Hb, andb_false_r|].
      destruct (decide (0 ≤ n)%Z); [|by rewrite Z.testbit_neg_r by lia].
      by rewrite Z.pow2_bits_false by lia. }
  rewrite Hbit, !negb_orb, !negb_involutive, !andb_true_iff, !Z.eqb_eq, negb_true_iff.
  split; [intros [[??]?]; eauto|intros (? & [= <-] & ?); tauto].
Qed.

(** C29: one of the four settings that the daemon takes from [ecs.config] is found,
    without the blanks around its key and before its value, whatever follows it,
    when every line before it has the form key=value with another key; one line
    that does not have two parts, such as a blank line or a comment, right before it
    hides it. *)
Theorem retrieve_variable_spec name pre k v junk post w :
  let file := λ ls, str_concat ((λ l, l +:+ String nl "") <$> ls) in
  let ls := (setting <$> pre) ++ junk ++ setting (k, v) :: post in
  name ∈ ecs_keys → Forall setting_ok pre → Forall (λ kv, rtrim kv.1 ≠ name) pre →
  setting_ok (k, v) → rtrim k = name →
  Forall (λ l, has_char nl l = false) ls →
  fs_read "/etc/ecs/ecs.config" (w_fs w) = Some (file ls) →
  (junk = [] → retrieve_variable_from_ecs_config name w = (Ok (ltrim v), w)) ∧
  (∀ line junk', junk = line :: junk' → length (split_string line equals_sign) ≠ 2 →
     retrieve_variable_from_ecs_config name w = (Ok "", w)).
Proof.
  intros file ls Hin Hok Hne Hkv Hk Hnl Hread.
  unfold retrieve_variable_from_ecs_config, read_file, gets, mbind, M_bind, mret, M_ret.
  rewrite Hread, split_string_eq by done. unfold file.
  rewrite getlines_concat by done. unfold ls. split.
  - intros ->. cbn [app]. by rewrite ecs_lookup_found.
  - intros line junk' -> Hline. cbn [app]. by rewrite ecs_lookup_bad.
Qed.

(** When the search succeeds, [find_dn] returns the value of the first
    ["distinguishedName: "] line of the output and nothing after it. *)
Theorem find_dn_spec account base_dn fqdn w output s x pre dn post :
  let cmd := ldapsearch_cmd base_dn fqdn
               (" -s sub '(CN=" +:+ account +:+ ")' distinguishedName") in
  popen_read (c_str cmd) (w_fs w) (w_ext w) = (Some (output, 0%Z), s, x) →
  has_char nul output = false →
  let all := cmd +:+ output +:+ "INFO: ldapsearch succeeded with FQDN = " in
  all = pre +:+ "distinguishedName: " +:+ dn +:+ String nl post →
  str_find "distinguishedName:" all = Some (String.length pre) →
  has_char nl dn = false →
  find_dn account base_dn fqdn w = (Ok (0%Z, dn), set_fs s (set_ext x w)).
Proof.
  intros cmd Hp Hn all Hall Hfind Hdn. unfold find_dn, execute_ldapsearch. cbn [ldap_attempts].
  unfold mbind, M_bind. fold cmd. rewrite (exec_shell_cmd_run cmd w output 0 s x Hp Hn).
  cbn [fst snd Z.eqb negb]. unfold mret, M_ret, lift. f_equal. unfold dn_of_output.
  rewrite str_app_assoc. fold all. rewrite Hfind.
  assert (str_empty all = false) as -> by by rewrite Hall; destruct pre.
  cbn [negb andb Z.eqb]. unfold str_substr.
  rewrite decide_True by (rewrite Hall, !str_app_length; cbn; lia).
  cbn [mbind outcome_bind]. rewrite Hall, <-str_app_length, <-str_app_assoc, str_drop_app.
  by rewrite str_find_char, str_take_app.
Qed.

(** C32: [find_password] decodes exactly the base64 text that follows the first
    ["msDS-ManagedPassword:: "] in its [#]-separated piece of the output. *)
Theorem find_password_spec pre a b64 post :
  let pieces := pre ++ (a +:+ "msDS-ManagedPassword:: " +:+ b64) :: post in
  Forall (λ p, has_char "#" p = false) pieces →
  (∀ p, last pieces = Some p → p ≠ "") →
  Forall (λ p, str_find "msDS-ManagedPassword::" p = None) pre →
  str_find "msDS-ManagedPassword::" (a +:+ "msDS-ManagedPassword:: " +:+ b64) =
    Some (String.length a) →
  find_password (str_join "#" pieces) = Ok (base64_decode b64).
Proof.
  intros pieces Hno Hlast Hpre Ha. unfold find_password.
  rewrite split_string_eq by done. rewrite (getlines_join "#"%char) by done.
  unfold pieces. by rewrite password_in_found.
Qed.

(** The machine principal has the form ['HOST$@'REALM], where HOST is the
    host name up to its first dot and at most 15 characters long, and REALM is
    what the realm command reported. *)
Theorem get_machine_principal_form domain_name w p w' :
  get_machine_principal domain_name w = (Ok (0%Z, p), w') →
  ∃ host realm, p = "'" +:+ host +:+ "$@'" +:+ realm ∧
    String.length host ≤ HOST_NAME_LENGTH_LIMIT ∧ has_char dot host = false ∧
    String.prefix host (host_name (w_ext w)).2 = true ∧
    ∃ w1, get_realm_name w = (Ok (0%Z, realm), w1).
Proof.
  intros (realm & -> & Hr & _)%machine_principal_run. eexists _, realm.
  split; [done|]. set (h := c_str (host_name (w_ext w)).2).
  pose proof (break_at_spec dot h) as Hdot. pose proof (break_at_spec nul (host_name (w_ext w)).2) as Hnul.
  assert (Hp1 : ∃ t, (host_name (w_ext w)).2 = h +:+ t).
  { unfold h, c_str. destruct (break_at nul _) as [t [r|]]; destruct Hnul as [-> _];
      [eauto|exists ""; by rewrite str_app_nil_r]. }
  assert (Hp2 : (∃ t, h = (break_at dot h).1 +:+ t) ∧ has_char dot (break_at dot h).1 = false).
  { destruct (break_at dot h) as [t [r|]]; destruct Hdot as [-> Hno]; cbn;
      (split; [|done]); [eauto|exists ""; by rewrite str_app_nil_r]. }
  destruct Hp1 as [t1 Ht1], Hp2 as [[t2 Ht2] Hno]. set (b := (break_at dot h).1) in *.
  split; [rewrite str_take_length; lia|]. split.
  { rewrite <-(str_take_drop HOST_NAME_LENGTH_LIMIT b), has_char_app in Hno.
    by apply orb_false_iff in Hno as [? _]. }
  split; [|done]. apply str_prefix_spec.
  exists (str_drop HOST_NAME_LENGTH_LIMIT b +:+ t2 +:+ t1).
  by rewrite <-!str_app_assoc, str_take_drop, <-Ht2.
Qed.

(** A failed search is retried once; the second command is the first one
    with everything it printed appended. *)
Theorem execute_ldapsearch_retry account dn fqdn search w s1 out1 w1 s2 out2 w2 :
  let cmd := ldapsearch_cmd dn fqdn search in
  exec_shell_cmd cmd w = (Ok (s1, out1), w1) →
  exec_shell_cmd (cmd +:+ out1) w1 = (Ok (s2, out2), w2) →
  ∃ text, execute_ldapsearch account dn fqdn search w =
    if (s1 =? 0)%Z then (Ok (0%Z, text), w1) else (Ok (s2, text), w2).
Proof.
  intros cmd Hr1 Hr2. unfold execute_ldapsearch. fold cmd. cbn [ldap_attempts].
  unfold mbind at 1, M_bind at 1. rewrite Hr1. cbn [fst snd].
  destruct (s1 =? 0)%Z eqn:Hs1; cbn [negb]; [by eexists|].
  unfold getCurrentTime, gets. unfold mbind, M_bind. rewrite Hr2. cbn [fst snd].
  destruct (s2 =? 0)%Z eqn:Hs2; cbn [negb]; [|by eexists].
  apply Z.eqb_eq in Hs2 as ->. by eexists.
Qed.

(** A ticket for a user name and password: the result is the status 0 or 1
    of kinit, or the result of a failed check of the binaries. No failure of
    kinit itself is negative, which is what the callers test for. *)
Theorem user_ticket_status domain_name username password w r w' :
  generate_krb_ticket_using_username_and_password domain_name username password w = (Ok r, w') →
  (r.1 = 0 ∨ r.1 = 1)%Z ∧ r.2 = "" ∨
  (∃ w1 r1 w2, is_kinit_cmd_present w1 = (Ok r1, w2) ∧ r1.1 ≠ 0%Z ∧ r = r1) ∨
  (∃ w1 r1 w2, is_ldapsearch_cmd_present w1 = (Ok r1, w2) ∧ r1.1 ≠ 0%Z ∧ r = r1).
Proof.
  unfold generate_krb_ticket_using_username_and_password.
  intros (r1 & w1 & Hp1 & Hrun)%bind_ok.
  destruct (r1.1 =? 0)%Z eqn:Hr1; cbn [negb] in Hrun; apply bind_ok in Hrun as (r2 & w2 & Hp2 & Hrun).
  2:{ injection Hrun as <- _. right. left. exists w, r1, w1. apply Z.eqb_neq in Hr1. auto. }
  destruct (r2.1 =? 0)%Z eqn:Hr2; cbn [negb] in Hrun; apply bind_ok in Hrun as (r3 & w3 & Hp3 & Hrun).
  2:{ injection Hrun as <- _. right. right. exists w1, r2, w2. apply Z.eqb_neq in Hr2. auto. }
  injection Hrun as <- _. left. split; [|done]. by eapply my_kinit_main_status.
Qed.

End util.

(** ** The properties at concrete inputs *)
#[local] Existing Instance Script.script_platform.
#[local] Existing Instance script_krb5.
#[local] Existing Instance Tree.tree_json.

Definition demo (answers : list (option (string * Z))) : world Script.script :=
  Script.demo_world (Script.Sc answers [] [] []).

Lemma exec_shell_cmd_complete_witness :
  ∃ w', exec_shell_cmd "hostname" (demo [Some ("host1", 0%Z)]) = (Ok (0%Z, "host1"), w').
Proof.
  eexists. exact (exec_shell_cmd_complete "hostname" (demo [Some ("host1", 0%Z)]) eq_refl).
Defined.

Definition demo_config : world Script.script :=
  World (<[["etc"; "ecs"; "ecs.config"] := File new_file_info
     ("CF_GMSA_OU = OU=x" +:+ String nl ("DOMAIN_CONTROLLER_GMSA= dc1" +:+ String nl ""))]>
     Script.demo_fs) ∅ Script.demo_log Script.idle.

Lemma retrieve_variable_spec_witness :
  retrieve_variable_from_ecs_config ENV_CF_DOMAIN_CONTROLLER demo_config =
  (Ok "dc1", demo_config).
Proof.
  refine (proj1 (retrieve_variable_spec ENV_CF_DOMAIN_CONTROLLER
    [("CF_GMSA_OU ", " OU=x")] "DOMAIN_CONTROLLER_GMSA" " dc1" [] [] demo_config
    _ _ _ _ _ _ _) _).
  - apply (bool_decide_unpack _). by vm_compute.
  - by repeat constructor.
  - by repeat constructor.
  - done.
  - done.
  - by repeat constructor.
  - done.
  - done.
Defined.

Lemma find_dn_spec_witness :
  ∃ w', find_dn "WebApp01" "DC=contoso,DC=com" "dc1.contoso.com"
    (demo [Some ("dn: CN=WebApp01" +:+ String nl ("distinguishedName: CN=WebApp01,DC=contoso"
             +:+ String nl ""), 0%Z)])
  = (Ok (0%Z, "CN=WebApp01,DC=contoso"), w').
Proof.
  eexists. eapply (find_dn_spec _ _ _ _ _ _ _
    (ldapsearch_cmd "DC=contoso,DC=com" "dc1.contoso.com"
       " -s sub '(CN=WebApp01)' distinguishedName" +:+ "dn: CN=WebApp01" +:+ String nl "")
    "CN=WebApp01,DC=contoso" "INFO: ldapsearch succeeded with FQDN = ");
    [reflexivity|reflexivity|reflexivity|vm_compute; reflexivity|reflexivity].
Defined.

Lemma find_password_spec_witness :
  find_password (X := Script.script)
    ("dn: CN=WebApp01" +:+ "#" +:+ "msDS-ManagedPassword:: AQAA") = Ok (Some "AQAA").
Proof.
  exact (find_password_spec (X := Script.script) ["dn: CN=WebApp01"] "" "AQAA" []
    ltac:(by repeat constructor) ltac:(by intros p [= <-])
    ltac:(by repeat constructor) eq_refl).
Defined.

Definition demo_joined : world Script.script :=
  demo [Some ("CONTOSO.COM", 0%Z); Some ("contoso.com", 0%Z)].

Lemma get_machine_principal_form_witness :
  ∃ host realm, "'host1$@'CONTOSO.COM" = "'" +:+ host +:+ "$@'" +:+ realm ∧
    String.length host ≤ HOST_NAME_LENGTH_LIMIT.
Proof.
  destruct (get_machine_principal_form (X := Script.script) "contoso.com" demo_joined
    "'host1$@'CONTOSO.COM" (get_machine_principal "contoso.com" demo_joined).2)
    as (host & realm & Hp & Hl & _); [vm_compute; reflexivity|].
  exists host, realm. by split.
Defined.

Definition demo_ldap : world Script.script := demo [Some ("x", 1%Z); Some ("y", 0%Z)].

Lemma execute_ldapsearch_retry_witness :
  ∃ text w', execute_ldapsearch "a" "DC=c" "dc1" "s" demo_ldap = (Ok (0%Z, text), w').
Proof.
  set (cmd := ldapsearch_cmd "DC=c" "dc1" "s").
  destruct (execute_ldapsearch_retry "a" "DC=c" "dc1" "s" demo_ldap 1%Z "x"
    (exec_shell_cmd cmd demo_ldap).2 0%Z "y"
    (exec_shell_cmd (cmd +:+ "x") (exec_shell_cmd cmd demo_ldap).2).2) as [text Ht];
    [vm_compute; reflexivity|vm_compute; reflexivity|].
  exists text. eexists. exact Ht.
Defined.

(** The machine with the binaries the checks look for. *)
Definition demo_bin : world Script.script :=
  World (<[["usr"; "bin"; "kinit"] := File new_file_info ""]>
    (<[["usr"; "bin"; "ldapsearch"] := File new_file_info ""]> Script.demo_fs)) ∅ Script.demo_log
    (Script.Sc [Some ("/usr/bin/kinit" +:+ String nl "", 0%Z);
                Some ("/usr/bin/ldapsearch" +:+ String nl "", 0%Z)] [Some 7%Z] [] []).

Lemma user_ticket_status_witness :
  ∃ r w', generate_krb_ticket_using_username_and_password (X := Script.script)
            "contoso.com" "user" "wrong" demo_bin = (Ok r, w') ∧ r.1 = 1%Z ∧
  ((r.1 = 0 ∨ r.1 = 1)%Z ∧ r.2 = "" ∨
   (∃ w1 r1 w2, is_kinit_cmd_present w1 = (Ok r1, w2) ∧ r1.1 ≠ 0%Z ∧ r = r1) ∨
   (∃ w1 r1 w2, is_ldapsearch_cmd_present w1 = (Ok r1, w2) ∧ r1.1 ≠ 0%Z ∧ r = r1)).
Proof.
  set (run := generate_krb_ticket_using_username_and_password (X := Script.script)
                "contoso.com" "user" "wrong" demo_bin).
  assert (Hrun : run = (Ok (1%Z, ""), run.2)) by (vm_compute; reflexivity).
  exists (1%Z, ""), run.2. split; [exact Hrun|]. split; [done|].
  exact (user_ticket_status (X := Script.script) "contoso.com" "user" "wrong" demo_bin _ _ Hrun).
Defined.
