(* ===== verification/Klist.v ===== *)
(** * Ticket expiry ([get_ticket_expiration], [is_ticket_ready_for_renewal] of
    [auth/kerberos/src/krb.cpp])

    The expiry date is cut out of the output of [klist] with two regular
    expressions, read back with [sscanf] and [strptime], and compared with the
    current time. *)
From S2P Require Import Prelude StrUtil Logger World Json Kinit Util Regex CredSpec.
From stdpp Require Import options.

(** ** The regular expressions *)
Definition digits (n : nat) : regex := r_exact n (RChar is_digit).
Definition r_char (c : ascii) : regex := RChar (λ d, bool_decide (d = c)).
Definition space_regex : regex := r_plus (r_char " "%char).

(** [([0-9]{2}:[0-9]{2}:[0-9]{2})], as group [n]. *)
Definition time_regex (n : nat) : regex :=
  RGroup n (RSeq (digits 2) (RSeq (r_char ":"%char) (RSeq (digits 2)
    (RSeq (r_char ":"%char) (digits 2))))).

(** [([0-9]{2}[/]{1}[0-9]{2}[/]{1}[0-9]{year})], as group [n]. *)
Definition date_regex (year n : nat) : regex :=
  RGroup n (RSeq (digits 2) (RSeq (r_char "/"%char) (RSeq (digits 2)
    (RSeq (r_char "/"%char) (digits year))))).

Definition expires_regex (year : nat) : regex :=
  RSeq (date_regex year 1) (RSeq space_regex (RSeq (time_regex 2) (RSeq space_regex
    (RSeq (date_regex year 3) (RSeq space_regex (RSeq (time_regex 4)
      (RSeq space_regex (r_lit "krbtgt")))))))).

(** ** [sscanf( s, "%79s %79s", a, b )] *)
Fixpoint skip_while (p : ascii → bool) (s : string) : string :=
  match s with
  | String c s' => if p c then skip_while p s' else s
  | EmptyString => EmptyString
  end.

Fixpoint take_word (n : nat) (s : string) : string * string :=
  match n, s with
  | S n', String c s' =>
    if isspace c then (EmptyString, s)
    else let '(w, r) := take_word n' s' in (String c w, r)
  | _, _ => (EmptyString, s)
  end.

(** A word, [None] when the conversion fails and its buffer stays as it was. *)
Definition scan_word (s : string) : option (string * string) :=
  let '(w, r) := take_word 79 (skip_while isspace s) in
  if str_empty w then None else Some (w, r).

(** ** [strptime( s, "%m/%d/%Y %T", &tm )] *)
Definition digit_value (c : ascii) : Z := Z.of_nat (code_of c) - 48.

Fixpoint more_digits (n : nat) (to val : Z) (s : string) : Z * string :=
  match n, s with
  | S n', String c s' =>
    if is_digit c && (val * 10 <=? to)%Z then more_digits n' to (val * 10 + digit_value c) s'
    else (val, s)
  | _, _ => (val, s)
  end.

(** A number of at most [n] digits between [from] and [to], blanks before it. *)
Definition get_number (from to : Z) (n : nat) (s : string) : option (Z * string) :=
  match skip_while (λ c, bool_decide (c = " "%char)) s with
  | String c s' =>
    if is_digit c then
      let '(v, r) := more_digits (n - 1) to (digit_value c) s' in
      if (from <=? v)%Z && (v <=? to)%Z then Some (v, r) else None
    else None
  | EmptyString => None
  end.

Definition match_char (c : ascii) (s : string) : option string :=
  match s with
  | String d s' => if decide (d = c) then Some s' else None
  | EmptyString => None
  end.

Definition strptime (s : string) : option tm :=
  '(mon, s) ← get_number 1 12 2 s; s ← match_char "/" s;
  '(mday, s) ← get_number 1 31 2 s; s ← match_char "/" s;
  '(year, s) ← get_number 0 9999 4 s;
  let s := skip_while isspace s in
  '(hour, s) ← get_number 0 23 2 s; s ← match_char ":" s;
  '(min, s) ← get_number 0 59 2 s; s ← match_char ":" s;
  '(sec, _) ← get_number 0 61 2 s;
  Some (Tm mon mday year hour min sec).

(** ** Constants ([common/constants.h]) *)
Definition RENEW_TICKET_HOURS : Z := 1.
Definition SECONDS_IN_HOUR : Z := 3600.

Section klist.
Context {X : Type} `{Platform X}.
Abbreviation MW := (M (world X)).

Definition get_ticket_expiration (klist_ticket_info : string) : MW string :=
  let text := chars_of klist_ticket_info in
  let expires_match :=
    match regex_search (expires_regex 4) text with
    | Some m => Some m
    | None => regex_search (expires_regex 2) text
    end in
  match expires_match with
  | None =>
    log LOG_ERR ("Unable to parse klist for ticket expiration: " +:+ klist_ticket_info);;
    mret ""
  | Some (_, c) =>
    let klist_expires_date := string_of (capture 3 c) in
    let klist_expires_time := string_of (capture 4 c) in
    log LOG_INFO ("klist expires date = " +:+ klist_expires_date +:+ " " +:+ klist_expires_time);;
    mret (klist_expires_date +:+ " " +:+ klist_expires_time)
  end.

(** [sscanf] and what follows it: a word that was not converted leaves its
    buffer uninitialised. [hours <= RENEW_TICKET_HOURS] is decided in seconds. *)
Definition renewal_due (renewal_date_time : string) (w : world X) : outcome bool :=
  match scan_word renewal_date_time with
  | None => Undefined "renewal_date is read uninitialised"
  | Some (renewal_date, rest) =>
    match scan_word rest with
    | None => Undefined "renewal_time is read uninitialised"
    | Some (renewal_time, _) =>
      let renew_until := rtrim (ltrim (renewal_date +:+ " " +:+ renewal_time)) in
      match strptime renew_until with
      | None => Ok false
      | Some tm =>
        let seconds := (mktime (w_ext w) tm - unix_time (w_ext w))%Z in
        Ok (bool_decide (seconds ≤ RENEW_TICKET_HOURS * SECONDS_IN_HOUR)%Z)
      end
    end
  end.

(** The loop over the [#]-separated pieces: the first one with ["renew until"]
    decides. *)
Fixpoint renewal_in (results : list string) : MW bool :=
  match results with
  | [] => mret false
  | result :: rest =>
    match str_find "renew until" result with
    | None => renewal_in rest
    | Some _ =>
      renewal_date_time ← get_ticket_expiration result;
      w ← get_world; lift (renewal_due renewal_date_time w)
    end
  end.

Definition is_ticket_ready_for_renewal (t : krb_ticket_info) : MW bool :=
  r ← exec_shell_cmd ("export KRB5CCNAME=" +:+ krb_file_path t +:+ " &&  klist");
  if negb (r.1 =? 0)%Z then mret false
  else renewal_in (split_string r.2 "#"%char).

End klist.

(** ** Lemmas on the expressions *)
Definition digits_ok (n : nat) (s : list ascii) : Prop :=
  length s = n ∧ Forall (λ c, is_digit c = true) s.

(** [dd:dd:dd], and [dd/dd/d...d]. *)
Definition three_fields (sep : ascii) (last : nat) (s : list ascii) : Prop :=
  ∃ a b d, s = a ++ [sep] ++ b ++ [sep] ++ d ∧
    digits_ok 2 a ∧ digits_ok 2 b ∧ digits_ok last d.

Definition blanks (s : list ascii) : Prop :=
  s ≠ [] ∧ Forall (λ c, c = " "%char) s.

Lemma fields_lang sep n s :
  lang (RSeq (digits 2) (RSeq (r_char sep) (RSeq (digits 2) (RSeq (r_char sep) (digits n))))) s ↔
  three_fields sep n s.
Proof.
  split.
  - intros (a & s1 & -> & Ha%lang_exact & (x & s2 & -> & (c1 & -> & Hc1%bool_decide_eq_true)%lang_char_inv &
      (b & s3 & -> & Hb%lang_exact & (y & d & -> & (c2 & -> & Hc2%bool_decide_eq_true)%lang_char_inv
        & Hd%lang_exact)%lang_seq_inv)%lang_seq_inv)%lang_seq_inv)%lang_seq_inv.
    subst. by exists a, b, d.
  - intros (a & b & d & -> & Ha & Hb & Hd).
    assert (Hsep : lang (r_char sep) [sep]) by by apply lang_char, bool_decide_eq_true.
    repeat (apply lang_seq; [by (apply lang_exact || exact Hsep)|]). by apply lang_exact.
Qed.

Lemma blanks_lang s : lang space_regex s ↔ blanks s.
Proof.
  split.
  - intros (a & b & -> & (c & -> & Hc%bool_decide_eq_true)%lang_char_inv & Hb%lang_star_char)%lang_seq_inv.
    subst c. split; [done|]. constructor; [done|].
    eapply Forall_impl; [exact Hb|]. cbn. by intros x ?%bool_decide_eq_true.
  - intros [Hne Hs]. destruct s as [|c s]; [done|]. apply Forall_cons in Hs as [-> Hs].
    apply (lang_seq _ _ [" "%char]); [by apply lang_char, bool_decide_eq_true|]. apply lang_star_char.
    eapply Forall_impl; [exact Hs|]. intros x ->. by apply bool_decide_eq_true.
Qed.

(** A text has a line "date time  date time  krbtgt" with years of [year] digits,
    and [e] is its second date and time. *)
Definition expiry_line (year : nat) (text e : string) : Prop :=
  ∃ pre d1 b1 t1 b2 d2 b3 t2 b4 post,
    chars_of text = pre ++ (d1 ++ b1 ++ t1 ++ b2 ++ d2 ++ b3 ++ t2 ++ b4 ++ chars_of "krbtgt") ++ post ∧
    three_fields "/" year d1 ∧ three_fields ":" 2 t1 ∧
    three_fields "/" year d2 ∧ three_fields ":" 2 t2 ∧
    blanks b1 ∧ blanks b2 ∧ blanks b3 ∧ blanks b4 ∧
    e = string_of d2 +:+ " " +:+ string_of t2.

(** The expiry in the output of [klist]: of a line with a four-digit year; only if
    there is none, of one with a two-digit year; nothing if there is none either. *)
Definition expiry (text e : string) : Prop :=
  expiry_line 4 text e ∨
  (¬ ∃ e', expiry_line 4 text e') ∧
  (expiry_line 2 text e ∨ (¬ ∃ e', expiry_line 2 text e') ∧ e = "").

(** What a match is made of, and what it captures. *)
Lemma expires_clang year s c :
  clang (expires_regex year) s [] c →
  ∃ d1 b1 t1 b2 d2 b3 t2 b4,
    s = d1 ++ b1 ++ t1 ++ b2 ++ d2 ++ b3 ++ t2 ++ b4 ++ chars_of "krbtgt" ∧
    three_fields "/" year d1 ∧ three_fields ":" 2 t1 ∧
    three_fields "/" year d2 ∧ three_fields ":" 2 t2 ∧
    blanks b1 ∧ blanks b2 ∧ blanks b3 ∧ blanks b4 ∧
    capture 3 c = d2 ∧ capture 4 c = t2.
Proof.
  assert (Hgroup : ∀ n sep k s c c', clang (RGroup n (RSeq (digits 2) (RSeq (r_char sep)
      (RSeq (digits 2) (RSeq (r_char sep) (digits k)))))) s c c' →
      groups (digits k) = 0 → three_fields sep k s ∧ c' = (n, s) :: c).
  { intros n sep k s0 c0 c1 (c2 & -> & Hc)%clang_group_inv Hk.
    split; [by apply fields_lang, (clang_lang _ _ _ _ Hc)|].
    f_equal. apply (clang_no_groups _ _ _ _ Hc). cbn. by rewrite Hk. }
  assert (Hdigits : ∀ n, groups (digits n) = 0) by (induction n as [|n IH]; [done|exact IH]).
  assert (Hblank : ∀ s c c', clang space_regex s c c' → blanks s ∧ c' = c).
  { intros s0 c0 c1 Hc. split; [by apply blanks_lang, (clang_lang _ _ _ _ Hc)|].
    by apply (clang_no_groups _ _ _ _ Hc). }
  intros (d1 & r1 & c1 & -> & [Hd1 ->]%Hgroup & Hr)%clang_seq_inv; [|apply Hdigits].
  apply clang_seq_inv in Hr as (b1 & r2 & c2 & -> & [Hb1 ->]%Hblank & Hr).
  apply clang_seq_inv in Hr as (t1 & r3 & c3 & -> & [Ht1 ->]%Hgroup & Hr); [|apply Hdigits].
  apply clang_seq_inv in Hr as (b2 & r4 & c4 & -> & [Hb2 ->]%Hblank & Hr).
  apply clang_seq_inv in Hr as (d2 & r5 & c5 & -> & [Hd2 ->]%Hgroup & Hr); [|apply Hdigits].
  apply clang_seq_inv in Hr as (b3 & r6 & c6 & -> & [Hb3 ->]%Hblank & Hr).
  apply clang_seq_inv in Hr as (t2 & r7 & c7 & -> & [Ht2 ->]%Hgroup & Hr); [|apply Hdigits].
  apply clang_seq_inv in Hr as (b4 & r8 & c8 & -> & [Hb4 ->]%Hblank & Hr).
  assert (Hlit := clang_lang _ _ _ _ Hr). apply lang_lit in Hlit as ->.
  apply clang_no_groups in Hr as ->; [|done].
  exists d1, b1, t1, b2, d2, b3, t2, b4. by split_and!.
Qed.

(** ** Lemmas on dates *)
#[local] Arguments String.append !_ _ /.

Definition digit_char (n : Z) : ascii := char_of (Z.to_nat (48 + n)).
Definition two (n : Z) : string :=
  String (digit_char (n / 10)) (String (digit_char (n mod 10)) "").
Definition four (n : Z) : string := two (n / 100) +:+ two (n mod 100).

(** A date as [klist] prints it. *)
Definition klist_date (t : tm) : string :=
  two (tm_mon t) +:+ "/" +:+ two (tm_mday t) +:+ "/" +:+ four (tm_year t).
Definition klist_time (t : tm) : string :=
  two (tm_hour t) +:+ ":" +:+ two (tm_min t) +:+ ":" +:+ two (tm_sec t).

Definition tm_ok (t : tm) : Prop :=
  (1 ≤ tm_mon t ≤ 12 ∧ 1 ≤ tm_mday t ≤ 31 ∧ 0 ≤ tm_year t ≤ 9999 ∧
   0 ≤ tm_hour t ≤ 23 ∧ 0 ≤ tm_min t ≤ 59 ∧ 0 ≤ tm_sec t ≤ 59)%Z.

Lemma code_of_char n : n < 256 → code_of (char_of n) = n.
Proof. apply Ascii.nat_ascii_embedding. Qed.

Lemma digit_char_ok n :
  (0 ≤ n ≤ 9)%Z →
  digit_value (digit_char n) = n ∧ is_digit (digit_char n) = true ∧
  isspace (digit_char n) = false ∧ digit_char n ≠ " "%char.
Proof.
  intros Hn.
  assert (Hc : code_of (digit_char n) = Z.to_nat (48 + n)) by (apply code_of_char; lia).
  unfold digit_value, is_digit, isspace. rewrite Hc. split_and!.
  - lia.
  - apply bool_decide_eq_true. lia.
  - apply bool_decide_eq_false. lia.
  - intros Heq. rewrite Heq in Hc. change (code_of " "%char) with 32 in Hc. lia.
Qed.

Lemma get_number_two from to n s :
  (0 ≤ n ≤ 99)%Z → (from ≤ n ≤ to)%Z → get_number from to 2 (two n +:+ s) = Some (n, s).
Proof.
  intros Hn Hb. unfold get_number, two. cbn [String.append].
  destruct (digit_char_ok (n / 10)) as (Hv1 & Hd1 & _ & Hs1);
    [split; [apply Z.div_pos; lia|apply Z.lt_succ_r, Z.div_lt_upper_bound; lia]|].
  destruct (digit_char_ok (n mod 10)) as (Hv2 & Hd2 & _ & _); [pose proof (Z.mod_pos_bound n 10 ltac:(lia)); lia|].
  cbn [skip_while]. rewrite bool_decide_false by done. rewrite Hd1.
  cbn [more_digits Nat.sub]. rewrite Hd2, Hv1, Hv2.
  pose proof (Z.div_mod n 10 ltac:(lia)) as Hdm. pose proof (Z.mod_pos_bound n 10 ltac:(lia)).
  assert ((n / 10 * 10 <=? to)%Z = true) as -> by (apply Z.leb_le; lia). cbn [andb].
  assert ((n / 10 * 10 + n mod 10)%Z = n) as -> by lia.
  assert ((from <=? n)%Z = true) as -> by (apply Z.leb_le; lia).
  assert ((n <=? to)%Z = true) as -> by (apply Z.leb_le; lia). done.
Qed.

Lemma get_number_four n s :
  (0 ≤ n ≤ 9999)%Z → get_number 0 9999 4 (four n +:+ s) = Some (n, s).
Proof.
  intros Hn. unfold get_number, four, two. cbn [String.append].
  set (h := (n / 100)%Z). set (l := (n mod 100)%Z).
  assert (Hh : (0 ≤ h ≤ 99)%Z) by (unfold h; split; [apply Z.div_pos; lia|apply Z.lt_succ_r, Z.div_lt_upper_bound; lia]).
  assert (Hl : (0 ≤ l ≤ 99)%Z) by (unfold l; pose proof (Z.mod_pos_bound n 100 ltac:(lia)); lia).
  assert (Hhl : n = (100 * h + l)%Z) by (unfold h, l; apply Z.div_mod; lia).
  pose proof (Z.div_mod h 10 ltac:(lia)) as Hdh. pose proof (Z.mod_pos_bound h 10 ltac:(lia)).
  pose proof (Z.div_mod l 10 ltac:(lia)) as Hdl. pose proof (Z.mod_pos_bound l 10 ltac:(lia)).
  destruct (digit_char_ok (h / 10)) as (Hv1 & Hd1 & _ & Hs1); [lia|].
  destruct (digit_char_ok (h mod 10)) as (Hv2 & Hd2 & _ & _); [lia|].
  destruct (digit_char_ok (l / 10)) as (Hv3 & Hd3 & _ & _); [lia|].
  destruct (digit_char_ok (l mod 10)) as (Hv4 & Hd4 & _ & _); [lia|].
  cbn [skip_while]. rewrite bool_decide_false by done. rewrite Hd1.
  cbn [more_digits Nat.sub]. rewrite Hd2, Hd3, Hd4, Hv1, Hv2, Hv3, Hv4. cbn [andb].
  repeat match goal with |- context [(?a <=? 9999)%Z] =>
    assert ((a <=? 9999)%Z = true) as -> by (apply Z.leb_le; lia) end.
  match goal with |- context [Some (?v, s)] => assert (v = n) as -> by lia end.
  assert ((0 <=? n)%Z = true) as -> by (apply Z.leb_le; lia). done.
Qed.

Lemma take_word_ok n w rest :
  str_forall (λ c, negb (isspace c)) w = true → String.length w ≤ n →
  match rest with String c _ => isspace c = true | EmptyString => True end →
  take_word n (w +:+ rest) = (w, rest).
Proof.
  intros Hw Hn Hr. revert n Hn. induction w as [|c w IH]; intros n Hn; cbn in *.
  - destruct n as [|n], rest as [|c rest]; cbn; try done. by rewrite Hr.
  - apply andb_true_iff in Hw as [Hc Hw]. apply negb_true_iff in Hc.
    destruct n as [|n]; [lia|]. cbn. rewrite Hc, IH by (done || lia). done.
Qed.

Lemma skip_while_id p c s : p c = false → skip_while p (String c s) = String c s.
Proof. intros Hc. cbn. by rewrite Hc. Qed.

Lemma rtrim_app s c : isspace c = false → rtrim (s +:+ String c "") = s +:+ String c "".
Proof.
  intros Hc. induction s as [|d s IH]; cbn; [by rewrite Hc|].
  rewrite IH. by destruct s.
Qed.

Lemma scan_word_ok c w rest :
  str_forall (λ c, negb (isspace c)) (String c w) = true → String.length (String c w) ≤ 79 →
  match rest with String c _ => isspace c = true | EmptyString => True end →
  scan_word (String c w +:+ rest) = Some (String c w, rest).
Proof.
  intros Hw Hn Hr. unfold scan_word.
  assert (Hc : isspace c = false) by (cbn in Hw; by apply andb_true_iff in Hw as [Hc%negb_true_iff _]).
  assert (skip_while isspace (String c w +:+ rest) = String c w +:+ rest) as ->.
  { cbn [String.append]. by apply skip_while_id. }
  by rewrite take_word_ok.
Qed.

Lemma two_nospace n :
  (0 ≤ n ≤ 99)%Z → str_forall (λ c, negb (isspace c)) (two n) = true.
Proof.
  intros Hn. unfold two. cbn.
  destruct (digit_char_ok (n / 10)) as (_ & _ & -> & _);
    [split; [apply Z.div_pos; lia|apply Z.lt_succ_r, Z.div_lt_upper_bound; lia]|].
  destruct (digit_char_ok (n mod 10)) as (_ & _ & -> & _); [|done].
  pose proof (Z.mod_pos_bound n 10 ltac:(lia)). lia.
Qed.

Lemma four_nospace n :
  (0 ≤ n ≤ 9999)%Z → str_forall (λ c, negb (isspace c)) (four n) = true.
Proof.
  intros Hn. unfold four. rewrite str_forall_app, !two_nospace; [done| |].
  - pose proof (Z.mod_pos_bound n 100 ltac:(lia)). lia.
  - split; [apply Z.div_pos; lia|apply Z.lt_succ_r, Z.div_lt_upper_bound; lia].
Qed.

(** What [strptime] reads after the year. *)
Lemma strptime_fields t ystr :
  tm_ok t →
  (∀ s, get_number 0 9999 4 (ystr +:+ " " +:+ s) = Some (tm_year t, " " +:+ s)) →
  strptime ((two (tm_mon t) +:+ "/" +:+ two (tm_mday t) +:+ "/" +:+ ystr) +:+ " " +:+ klist_time t) = Some t.
Proof.
  intros (Hmon & Hday & Hyear & Hh & Hm & Hs) Hy. unfold strptime, klist_time.
  assert (Hsep : ∀ c s, match_char c (String c "" +:+ s) = Some s)
    by (intros c s; cbn; by rewrite decide_True).
  assert (Hskip : ∀ n s, (0 ≤ n ≤ 99)%Z → skip_while isspace (" " +:+ two n +:+ s) = two n +:+ s).
  { intros n s Hn. unfold two. cbn [String.append].
    enough (Hd : isspace (digit_char (n / 10)) = false) by (cbn; by rewrite Hd).
    apply digit_char_ok. split; [apply Z.div_pos; lia|apply Z.lt_succ_r, Z.div_lt_upper_bound; lia]. }
  rewrite !str_app_assoc, get_number_two by lia. cbn [mbind option_bind].
  rewrite Hsep. cbn [mbind option_bind]. rewrite get_number_two by lia. cbn [mbind option_bind].
  rewrite Hsep. cbn [mbind option_bind]. rewrite Hy. cbn [mbind option_bind].
  rewrite Hskip, get_number_two by lia. cbn [mbind option_bind].
  rewrite Hsep. cbn [mbind option_bind]. rewrite get_number_two by lia. cbn [mbind option_bind].
  rewrite Hsep. cbn [mbind option_bind].
  rewrite <-(str_app_nil_r (two (tm_sec t))), get_number_two by lia. cbn. by destruct t.
Qed.

Lemma strptime_klist t : tm_ok t → strptime (klist_date t +:+ " " +:+ klist_time t) = Some t.
Proof.
  intros Ht. apply strptime_fields; [done|]. intros s. apply get_number_four, Ht.
Qed.

(** The two-digit form, whose year [%Y] takes as it stands. *)
Definition klist_date2 (t : tm) : string :=
  two (tm_mon t) +:+ "/" +:+ two (tm_mday t) +:+ "/" +:+ two (tm_year t).

Lemma get_number_two_year n s :
  (0 ≤ n ≤ 99)%Z → get_number 0 9999 4 (two n +:+ " " +:+ s) = Some (n, " " +:+ s).
Proof.
  intros Hn. unfold get_number, two. cbn [String.append].
  destruct (digit_char_ok (n / 10)) as (Hv1 & Hd1 & _ & Hs1);
    [split; [apply Z.div_pos; lia|apply Z.lt_succ_r, Z.div_lt_upper_bound; lia]|].
  destruct (digit_char_ok (n mod 10)) as (Hv2 & Hd2 & _ & _); [pose proof (Z.mod_pos_bound n 10 ltac:(lia)); lia|].
  cbn [skip_while]. rewrite bool_decide_false by done. rewrite Hd1.
  cbn [more_digits Nat.sub]. rewrite Hd2, Hv1, Hv2. change (is_digit " ") with false. cbn [andb].
  pose proof (Z.div_mod n 10 ltac:(lia)) as Hdm. pose proof (Z.mod_pos_bound n 10 ltac:(lia)).
  assert ((n / 10 * 10 <=? 9999)%Z = true) as -> by (apply Z.leb_le; lia).
  assert ((n / 10 * 10 + n mod 10)%Z = n) as -> by lia.
  assert ((0 <=? n)%Z = true) as -> by (apply Z.leb_le; lia).
  assert ((n <=? 9999)%Z = true) as -> by (apply Z.leb_le; lia). done.
Qed.

Lemma strptime_klist2 t :
  tm_ok t → (tm_year t ≤ 99)%Z → strptime (klist_date2 t +:+ " " +:+ klist_time t) = Some t.
Proof.
  intros Ht Hy. apply strptime_fields; [done|]. intros s. apply get_number_two_year.
  destruct Ht as (_ & _ & ? & _). lia.
Qed.

(** ** Lemmas on words *)
Definition word (s : string) : Prop :=
  s ≠ "" ∧ str_forall (λ c, negb (isspace c)) s = true ∧ String.length s ≤ 79.

Lemma scan_word_word w rest :
  word w → match rest with String c _ => isspace c = true | EmptyString => True end →
  scan_word (w +:+ rest) = Some (w, rest).
Proof. intros (Hne & Hw & Hl). destruct w as [|c w]; [done|]. by apply scan_word_ok. Qed.

Lemma ltrim_word w rest : word w → ltrim (w +:+ rest) = w +:+ rest.
Proof.
  intros (Hne & Hw & _). destruct w as [|c w]; [done|]. cbn in Hw |- *.
  by apply andb_true_iff in Hw as [->%negb_true_iff _].
Qed.

Lemma rtrim_id w : str_forall (λ c, negb (isspace c)) w = true → rtrim w = w.
Proof.
  induction w as [|c w IH]; [done|]. cbn. intros [Hc%negb_true_iff Hw]%andb_true_iff.
  rewrite IH by done. destruct w; cbn; [by rewrite Hc|done].
Qed.

Lemma rtrim_word p w : word w → rtrim (p +:+ w) = p +:+ w.
Proof.
  intros (Hne & Hw & _). induction p as [|c p IH]; cbn [String.append]; [by apply rtrim_id|].
  cbn [rtrim]. rewrite IH. by destruct p, w.
Qed.

Lemma string_of_length l : String.length (string_of l) = length l.
Proof. induction l as [|c l IH]; [done|exact (f_equal S IH)]. Qed.

Lemma three_fields_word sep n s :
  three_fields sep n s → isspace sep = false → n ≤ 4 → word (string_of s).
Proof.
  intros (a & b & d & -> & [Ha Had] & [Hb Hbd] & [Hd Hdd]) Hsep Hn.
  assert (Hdigit : ∀ c, is_digit c = true → isspace c = false).
  { intros c. unfold is_digit, isspace. rewrite bool_decide_eq_true, bool_decide_eq_false. lia. }
  assert (Hall : ∀ l, Forall (λ c, isspace c = false) l →
    str_forall (λ c, negb (isspace c)) (string_of l) = true).
  { induction 1 as [|c l Hc _ IH]; [done|].
    change (string_of (c :: l)) with (String c (string_of l)). cbn [str_forall]. by rewrite Hc, IH. }
  assert (Hlen : ∀ l, String.length (string_of l) = length l) by exact string_of_length.
  split_and!.
  - intros Heq%(f_equal String.length). rewrite Hlen, length_app, Ha in Heq. cbn in Heq. lia.
  - apply Hall. repeat (apply Forall_app; split); try by constructor.
    all: eapply Forall_impl; [eassumption|exact Hdigit].
  - rewrite Hlen, !length_app, Ha, Hb, Hd. cbn. lia.
Qed.

(** ** The expiry in a text *)
Lemma expiry_line_match year text m c :
  regex_search (expires_regex year) (chars_of text) = Some (m, c) →
  expiry_line year text (string_of (capture 3 c) +:+ " " +:+ string_of (capture 4 c)).
Proof.
  intros (a & b & Htext & Hc)%regex_search_clang.
  destruct (expires_clang _ _ _ Hc)
    as (d1 & b1 & t1 & b2 & d2 & b3 & t2 & b4 & -> & ? & ? & ? & ? & ? & ? & ? & ? & <- & <-).
  exists a, d1, b1, t1, b2, (capture 3 c), b3, (capture 4 c), b4, b. by split_and!.
Qed.

Lemma expiry_line_none year text :
  regex_search (expires_regex year) (chars_of text) = None → ¬ ∃ e, expiry_line year text e.
Proof.
  intros Hnone (e & pre & d1 & b1 & t1 & b2 & d2 & b3 & t2 & b4 & post & Htext & Hd1 & Ht1 & Hd2 & Ht2
    & Hb1 & Hb2 & Hb3 & Hb4 & _).
  destruct (regex_search_complete (expires_regex year) pre
    (d1 ++ b1 ++ t1 ++ b2 ++ d2 ++ b3 ++ t2 ++ b4 ++ chars_of "krbtgt") post) as [x Hx].
  - repeat (apply lang_seq; [by (apply blanks_lang || (apply lang_group, fields_lang))|]).
    by apply lang_lit.
  - rewrite <-Htext in Hx. congruence.
Qed.

(** ** Properties *)
Section properties.
Context {X : Type} `{Platform X}.

Lemma get_ticket_expiration_run text (w : world X) :
  log_ready (w_log w) →
  ∃ e l, get_ticket_expiration text w = (Ok e, set_log l w) ∧ expiry text e.
Proof.
  intros Hlog. unfold get_ticket_expiration, expiry.
  assert (Hret : ∀ level msg e, ∃ l, (log level msg;; (mret e : M (world X) string)) w = (Ok e, set_log l w)).
  { intros level msg e. destruct (log_run level msg w Hlog) as (l & Hl & _). exists l.
    unfold mbind, M_bind. by rewrite Hl. }
  destruct (regex_search (expires_regex 4) (chars_of text)) as [[m c]|] eqn:H4.
  { destruct (Hret LOG_INFO ("klist expires date = " +:+ string_of (capture 3 c) +:+ " " +:+ string_of (capture 4 c))
      (string_of (capture 3 c) +:+ " " +:+ string_of (capture 4 c))) as [l Hl].
    eexists _, l. split; [exact Hl|]. left. by eapply expiry_line_match. }
  destruct (regex_search (expires_regex 2) (chars_of text)) as [[m c]|] eqn:H2.
  - destruct (Hret LOG_INFO ("klist expires date = " +:+ string_of (capture 3 c) +:+ " " +:+ string_of (capture 4 c))
      (string_of (capture 3 c) +:+ " " +:+ string_of (capture 4 c))) as [l Hl].
    eexists _, l. split; [exact Hl|]. right. split; [by apply expiry_line_none|].
    left. by eapply expiry_line_match.
  - destruct (Hret LOG_ERR ("Unable to parse klist for ticket expiration: " +:+ text) "") as [l Hl].
    eexists _, l. split; [exact Hl|]. right. split; [by apply expiry_line_none|].
    right. split; [by apply expiry_line_none|done].
Qed.

(** [sscanf] and the trimming give back the text. *)
Lemma renewal_due_words text e (w : world X) :
  expiry text e →
  if str_empty e then ∃ u, renewal_due e w = Undefined u
  else renewal_due e w = Ok (match strptime e with
    | None => false
    | Some t => bool_decide (mktime (w_ext w) t - unix_time (w_ext w) ≤ 3600)%Z
    end).
Proof.
  intros He. assert (e = "" ∨ ∃ year, year ≤ 4 ∧ expiry_line year text e) as [->|(year & Hy & Hl)].
  { destruct He as [?|[_ [?|[_ ?]]]]; [right; by exists 4|right; exists 2; split; [lia|done]|by left]. }
  { by eexists. }
  destruct Hl as (? & d1 & ? & t1 & ? & d2 & ? & t2 & ? & ? & _ & _ & _ & Hd & Ht & _ & _ & _ & _ & ->).
  apply three_fields_word in Hd; [|done..]. apply three_fields_word in Ht; [|done|lia].
  assert (str_empty (string_of d2 +:+ " " +:+ string_of t2) = false) as ->.
  { destruct Hd as [Hd _]. by destruct (string_of d2). }
  unfold renewal_due. rewrite (scan_word_word (string_of d2)) by done.
  assert (Hw2 : scan_word (" " +:+ string_of t2) = Some (string_of t2, "")).
  { pose proof (scan_word_word (string_of t2) "" Ht I) as Hsw. rewrite str_app_nil_r in Hsw. exact Hsw. }
  rewrite Hw2, ltrim_word, <-!str_app_assoc, rtrim_word, !str_app_assoc by done.
  by destruct (strptime _).
Qed.

(** What [is_ticket_ready_for_renewal] reads: the first [#]-separated piece of
    the output of [klist] with the words "renew until". *)
Definition listing (output : string) : option string :=
  head (filter (λ r, is_Some (str_find "renew until" r)) (split_string output "#"%char)).

Lemma renewal_in_listing results (w : world X) :
  renewal_in results w =
  match head (filter (λ r, is_Some (str_find "renew until" r)) results) with
  | None => (Ok false, w)
  | Some p => (e ← get_ticket_expiration p; w ← get_world; lift (renewal_due e w)) w
  end.
Proof.
  induction results as [|r rest IH]; [done|]. cbn [renewal_in].
  destruct (str_find "renew until" r) eqn:Hf.
  - by rewrite filter_cons_True by by rewrite Hf.
  - rewrite filter_cons_False by (rewrite Hf; by intros []). exact IH.
Qed.

End properties.

(** ** At concrete inputs *)
#[local] Existing Instance Script.script_platform.

(** The answers of [klist]; the clock of the script says midnight of 2024-01-01. *)
Definition demo_klist (date : string) : string :=
  "12/04/2023 19:39:06  " +:+ date +:+ "  krbtgt/CUSTOMERTEST.LOCAL" +:+ String nl "renew until 12/11/2023".
Definition demo_klist_world (date : string) : world Script.script :=
  Script.demo_world (Script.Sc [Some (demo_klist date, 0%Z)] [] [] []).

Example renewal_soon :
  (is_ticket_ready_for_renewal new_ticket (demo_klist_world "01/01/2024 00:59:59")).1 = Ok true.
Proof. vm_compute. reflexivity. Qed.
Example renewal_later :
  (is_ticket_ready_for_renewal new_ticket (demo_klist_world "01/01/2024 01:00:01")).1 = Ok false.
Proof. vm_compute. reflexivity. Qed.
(** Two digits: the year 24, long past. *)
Example renewal_two_digits :
  let text := "12/04/23 19:39:06  01/01/24 09:00:00  krbtgt/X renew until 12/11/23" in
  (is_ticket_ready_for_renewal new_ticket
    (Script.demo_world (Script.Sc [Some (text, 0%Z)] [] [] []))).1 = Ok true.
Proof. vm_compute. reflexivity. Qed.

