(* ===== verification/Krb.v ===== *)
(** * Kerberos tickets ([auth/kerberos/src/krb.cpp])

    The ticket of the machine, the gMSA password read over LDAP and the ticket
    made from it, renewal in domainless mode, the search for metadata files and
    the deletion of a lease. *)
From S2P Require Import Prelude StrUtil Logger World Json Regex Validation CredSpec Metadata Kinit Util Klist.
From stdpp Require Import options.

(** ** The password blob ([blob_t] of [common/daemon.h]) *)

(** [offsetof( blob_t, current_password )] *)
Definition current_password_offset : nat := 16.
Definition GMSA_PASSWORD_SIZE : nat := 256.

(** [fwrite( blob->current_password, 1, GMSA_PASSWORD_SIZE, fp )]: the blob is
    as long as what was decoded. *)
Definition blob_password (blob : string) : outcome string :=
  if decide (current_password_offset + GMSA_PASSWORD_SIZE ≤ String.length blob)
  then Ok (str_take GMSA_PASSWORD_SIZE (str_drop current_password_offset blob))
  else Undefined "current_password is read past the decoded blob".

(** [dir->path().parent_path().string() + "/" + filename] of an entry at [rel]
    below [krbdir]. *)
Definition entry_path (krbdir : string) (rel : list string) : string :=
  krbdir +:+ "/" +:+ str_join "/" rel.

(** [filename.find( "_metadata" ) != std::string::npos] on a name that is not
    empty. *)
Definition is_metadata_name (filename : string) : bool :=
  negb (str_empty filename) && bool_decide (is_Some (str_find "_metadata" filename)).

Section krb.
Context {X : Type} `{Platform X} {V : Type} `{JsonCpp V} `{Krb5 X}.
Abbreviation MW := (M (world X)).

(** ** The machine *)

(** [check;] then the next step unless it failed. *)
Definition require_cmd (check : MW (Z * string)) (k : MW (Z * string)) : MW (Z * string) :=
  result ← check;
  if negb (result.1 =? 0)%Z then log LOG_ERR result.2;; mret result else k.

(** The test after [get_machine_principal] looks at the earlier [result], which
    is 0 there. *)
Definition generate_krb_ticket_from_machine_keytab (domain_name : string) : MW (Z * string) :=
  require_cmd is_hostname_cmd_present (
  require_cmd is_hostname_cmd_present (
  require_cmd is_realm_cmd_present (
  require_cmd is_kinit_cmd_present (
  require_cmd is_ldapsearch_cmd_present (
  result ← is_decode_exe_present;
  if negb (result.1 =? 0)%Z then log LOG_ERR result.2;; mret result else
  machine_principal ← get_machine_principal domain_name;
  if negb (result.1 =? 0)%Z then
    log LOG_ERR "ERROR: invalid machine principal";;
    mret ((-1)%Z, "ERROR: invalid machine principal")
  else
    result ← execute_kinit_in_domain_joined_case machine_principal.2;
    if negb (result.1 =? 0)%Z then log LOG_ERR result.2;; mret result else mret result))))).

(** ** The gMSA password *)
Definition password_search_string : string :=
  " -s sub  '(objectClass=msDs-GroupManagedServiceAccount)' msDS-ManagedPassword".

(** One domain controller of the loop; the state is the distinguished name, the
    ticket whose field is set, and the last search result. *)
Definition fetch_body (gmsa_account_name base_dn : string)
    (st : string * krb_ticket_info * (Z * string)) (fqdn : string)
    : MW (ctl (string * krb_ticket_info * (Z * string))) :=
  let '(distinguished_name, t, _) := st in
  distinguished_name ←
    (if str_empty distinguished_name then
       r ← find_dn gmsa_account_name base_dn fqdn;
       let dn := if (r.1 =? 0)%Z && negb (str_empty r.2) then r.2 else distinguished_name in
       log LOG_INFO ("Found dn = " +:+ dn);; mret dn
     else mret distinguished_name);
  let t := with_distinguished_name distinguished_name t in
  r ← execute_ldapsearch gmsa_account_name distinguished_name fqdn password_search_string;
  if (r.1 =? 0)%Z then
    match str_find "msDS-ManagedPassword:" r.2 with
    | Some pos =>
      log LOG_INFO ("ldapsearch successful with FQDN = " +:+ fqdn +:+ ", cmd = " +:+
        str_take pos r.2 +:+ "," +:+ "search_string = " +:+ password_search_string)
    | None => mret tt
    end;;
    mret (Break (distinguished_name, t, r))
  else
    log LOG_INFO ("ldapsearch failed with FQDN = " +:+ fqdn +:+ " " +:+ r.2 +:+ " " +:+
      password_search_string);;
    mret (Next (distinguished_name, t, r)).

Definition kinit_gmsa_cmd (krb_cc_name gmsa_account_name domain_name : string) : string :=
  "dotnet " +:+ install_path_for_decode_exe +:+ " | kinit " +:+ " -c " +:+ krb_cc_name +:+
  " -V " +:+ "'" +:+ gmsa_account_name +:+ "$'" +:+ "@" +:+ transform_toupper domain_name.

(** The second half: decode the password and pipe it to kinit. *)
Definition kinit_with_password (domain_name gmsa_account_name krb_cc_name : string)
    (ldap_search_result : string) : MW (Z * string) :=
  password ← lift (find_password ldap_search_result);
  match password with
  | None =>
    now ← getCurrentTime;
    let log_str := now +:+ String (char_of 9) "ERROR: Password not found" in
    log LOG_ERR log_str;; mret ((-1)%Z, log_str)
  | Some blob =>
    bytes ← lift (blob_password blob);
    r ← pipe_to (kinit_gmsa_cmd krb_cc_name gmsa_account_name domain_name) bytes;
    match r with
    | None =>
      log LOG_ERR "ERROR: fetch_gmsa_password_and_create_krb_ticket : 227 kinit failed";;
      mret ((-1)%Z, "kinit failed")
    | Some error_code =>
      now ← getCurrentTime;
      log LOG_ERR (now +:+ String (char_of 9) "INFO: kinit return value = " +:+
        to_string error_code);;
      mret (error_code, krb_cc_name)
    end
  end.

(** The ticket is passed by pointer: the result carries its new value. Callers
    never pass a null pointer. *)
Definition fetch_gmsa_password_and_create_krb_ticket (domain_name : string)
    (t : krb_ticket_info) (krb_cc_name : string) : MW (Z * string * krb_ticket_info) :=
  let gmsa_account_name := service_account_name t in
  if str_empty domain_name || str_empty gmsa_account_name then
    log LOG_ERR "ERROR: fetch_gmsa_password_and_create_krb_ticket: 125 null args";;
    mret (((-1)%Z, "domain_name " +:+ domain_name +:+ " or gmsa_account_name " +:+
                   gmsa_account_name +:+ " is empty"), t)
  else
    base ← lift (get_base_dn domain_name);
    let base_dn := if (base.1 =? 0)%Z && negb (str_empty base.2) then base.2 else "" in
    ou ← getenv ENV_CF_GMSA_OU;
    let distinguished_name :=
      match ou with
      | Some ou => if str_empty (distinguished_name t) then ou else distinguished_name t
      | None => distinguished_name t
      end in
    fqdn_list_result ← get_FQDN_list domain_name;
    st ← for_each (fetch_body gmsa_account_name base_dn)
           (distinguished_name, t, (0%Z, "")) fqdn_list_result;
    let '(_, t, ldap_search_result) := st in
    if negb (ldap_search_result.1 =? 0)%Z then mret (((-1)%Z, ""), t)
    else
      r ← kinit_with_password domain_name gmsa_account_name krb_cc_name ldap_search_result.2;
      mret (r, t).

(** ** Metadata files *)

(** [recursive_directory_iterator]: throws when the directory cannot be read. *)
Definition get_meta_data_file_paths (krbdir : string) : MW (list string) := λ w,
  let d := resolve krbdir in
  if fs_is_dir krbdir (w_fs w) then
    let rels := entries_below d (w_fs w) in
    (Ok (omap (λ rel : list string,
           if is_regular_file (d ++ rel) (w_fs w) && is_metadata_name (default "" (last rel))
           then Some (entry_path krbdir rel) else None) rels), w)
  else (Throw "filesystem error: recursive directory iterator cannot open directory", w).

(** ** Renewal in domainless mode *)

(** The user's ticket, when the gMSA ticket is theirs. *)
Definition user_ticket (domain_name username password : string) : MW unit :=
  status ← generate_krb_ticket_using_username_and_password domain_name username password;
  (if (status.1 <? 0)%Z then
     log LOG_ERR ("ERROR " +:+ to_string status.1 +:+ ": Cannot get user krb ticket")
   else mret tt).

(** The loop [for ( i = 0; i < num_retries; i++ )] with [num_retries] 2; a
    success makes [i] skip one. *)
Fixpoint renew_loop (fuel i : nat) (t : krb_ticket_info) (domain_name username password : string)
    (renewed_krb_ticket_path : string) : MW string :=
  match fuel with
  | O => mret renewed_krb_ticket_path
  | S fuel' =>
    if decide (i < 2) then
      r ← fetch_gmsa_password_and_create_krb_ticket (CredSpec.domain_name t) t (krb_file_path t);
      let '((code, _), t) := r in
      if negb (code =? 0)%Z then
        (if decide (i = 0) then
           log LOG_WARNING ("WARNING: Cannot get gMSA krb ticket because of expired user/machine " +:+
             "ticket, will be retried automatically, service_account_name = " +:+
             service_account_name t)
         else
           log LOG_ERR ("ERROR: Cannot get gMSA krb ticket using account " +:+
             service_account_name t));;
        if negb (str_empty (domainless_user t)) && String.eqb (domainless_user t) username then
          user_ticket domain_name username password;;
          renew_loop fuel' (i + 1) t domain_name username password renewed_krb_ticket_path
        else mret renewed_krb_ticket_path
      else renew_loop fuel' (i + 2) t domain_name username password (krb_file_path t)
    else mret renewed_krb_ticket_path
  end.

Definition renew_gmsa_ticket (t : krb_ticket_info) (domain_name username password : string)
    : MW string := renew_loop 3 0 t domain_name username password "".

(** The path is pushed only when the list already has one. *)
Definition renew_tickets_body (domain_name username password : string)
    (paths : list string) (t : krb_ticket_info) : MW (ctl (list string)) :=
  if negb (str_empty username) && String.eqb username (domainless_user t) then
    path ← renew_gmsa_ticket t domain_name username password;
    mret (Next (if decide (paths ≠ []) then paths ++ [path] else paths))
  else mret (Next paths).

Definition renew_kerberos_tickets_domainless
    (krb_files_dir domain_name username password : string) : MW (list string) :=
  metadatafiles ← get_meta_data_file_paths krb_files_dir;
  for_each (λ paths file_path,
    tickets ← read_meta_data_json file_path;
    Next <$> for_each (renew_tickets_body domain_name username password) paths tickets)
    [] metadatafiles.

(** ** Deletion *)

(** [kdestroy] on each ticket; the paths that were destroyed are collected. *)
Definition destroy_body (paths : list string) (t : krb_ticket_info) : MW (ctl (list string)) :=
  r ← exec_shell_cmd ("export KRB5CCNAME=" +:+ krb_file_path t +:+ " && kdestroy");
  mret (Next (if (r.1 =? 0)%Z then paths ++ [krb_file_path t] else paths)).

(** One directory entry of the [readdir] loop. *)
Definition delete_entry (krb_tickets_path : string) (paths : list string) (filename : string)
    : MW (ctl (list string)) :=
  if is_metadata_name filename then
    tickets ← read_meta_data_json (krb_tickets_path +:+ "/" +:+ filename);
    Next <$> for_each destroy_body paths tickets
  else mret (Next paths).

(** [readdir] yields the entries the directory had when it was opened. Nothing
    in the loop throws; an exception of [remove_all] is caught after [closedir],
    and the handler closes the directory again. *)
Definition delete_krb_tickets (krb_files_dir lease_id : string) : MW (list string) :=
  if str_empty lease_id || str_empty krb_files_dir then mret []
  else
    let krb_tickets_path := krb_files_dir +:+ "/" +:+ lease_id in
    w ← get_world;
    let d := resolve (c_str krb_tickets_path) in
    if fs_is_dir (c_str krb_tickets_path) (w_fs w) then
      paths ← for_each (delete_entry krb_tickets_path) [] (dir_entries d (w_fs w));
      try_catch (remove_all krb_tickets_path;; mret paths)
        (λ _, undefined "closedir of a closed directory")
    else mret [].

(** ** Lemmas *)

(** [P] holds of every node that the commands run with [popen] may change. *)
Definition commands_change (P : list string → Prop) : Prop :=
  ∀ cmd s x, unchanged P s (popen_read cmd s x).1.2.

Lemma exec_shell_cmd_unchanged P s0 cmd E :
  commands_change P →
  triple (λ w, unchanged P s0 (w_fs w)) (exec_shell_cmd cmd)
    (λ _ w, unchanged P s0 (w_fs w)) E.
Proof.
  intros Hd w Hw. unfold exec_shell_cmd. specialize (Hd (c_str cmd) (w_fs w) (w_ext w)).
  destruct (popen_read _ _ _) as [[[[out status]|] s] x]; cbn in *;
    by etrans.
Qed.

Lemma destroy_unchanged P s0 paths tickets E :
  commands_change P →
  triple (λ w, unchanged P s0 (w_fs w)) (for_each destroy_body paths tickets)
    (λ _ w, unchanged P s0 (w_fs w)) E.
Proof.
  intros Hd. apply (triple_for_each (λ _ _ w, unchanged P s0 (w_fs w))); [|done].
  intros s t l. unfold destroy_body.
  eapply triple_bind; [by apply exec_shell_cmd_unchanged|]. intros r. by apply triple_ret.
Qed.

(** The paths [kdestroy] is run on pass the character filter. *)
Definition paths_clean (paths : list string) : Prop :=
  Forall (λ p, contains_invalid_characters p = false) paths.

Lemma destroy_clean paths tickets s :
  paths_clean paths → Forall (ticket_usable s) tickets →
  triple (λ _, True) (for_each destroy_body paths tickets) (λ r _, paths_clean r) (λ _ _, False).
Proof.
  intros Hp Ht.
  eapply (triple_weaken _ (λ _, paths_clean paths ∧ Forall (ticket_usable s) tickets));
    [|by intros|exact (λ _ _ h, h)|exact (λ _ _ h, h)].
  apply (triple_for_each (λ (r : list string) l (_ : world X),
    paths_clean r ∧ Forall (ticket_usable s) l)); [|by intros ? ? []].
  intros r t l w [Hr [[Hc _] Hl]%Forall_cons]. unfold destroy_body, mbind, M_bind, exec_shell_cmd.
  destruct (popen_read _ _ _) as [[[[out status]|] s1] x1]; cbn; [destruct (_ =? _)%Z|];
    (split; [|done]); try done; (apply Forall_app; split; [done|by constructor]).
Qed.

Lemma triple_and {A W} (P1 P2 : W → Prop) (m : M W A) Q1 Q2 E1 E2 :
  triple P1 m Q1 E1 → triple P2 m Q2 E2 →
  triple (λ w, P1 w ∧ P2 w) m (λ a w, Q1 a w ∧ Q2 a w) (λ e w, E1 e w ∧ E2 e w).
Proof.
  intros H1' H2' w [Hw1 Hw2]. specialize (H1' w Hw1). specialize (H2' w Hw2).
  destruct (m w) as [[a|e|u] w']; auto.
Qed.

Lemma delete_loop_ok `{!JsonCppLaws V} P s0 path paths names :
  commands_change P → paths_clean paths →
  triple (λ w, unchanged P s0 (w_fs w)) (for_each (delete_entry path) paths names)
    (λ r w, unchanged P s0 (w_fs w) ∧ paths_clean r) (λ _ _, False).
Proof.
  intros Hd Hp.
  eapply (triple_weaken _ (λ w, unchanged P s0 (w_fs w) ∧ paths_clean paths));
    [|by intros|exact (λ _ _ h, h)|exact (λ _ _ h, h)].
  apply (triple_for_each (λ r _ w, unchanged P s0 (w_fs w) ∧ paths_clean r)); [|done].
  intros r name l w [Hw Hr]. unfold delete_entry.
  destruct (is_metadata_name name); [|by split].
  destruct (read_meta_data_json_ok (path +:+ "/" +:+ name) w) as (ts & Hread & Hts).
  unfold mbind, M_bind at 1. rewrite Hread. unfold fmap, M_fmap, mbind, M_bind.
  pose proof (triple_and _ _ _ _ _ _ _ (destroy_unchanged P s0 r ts (λ _ _, True) Hd)
    (destroy_clean r ts _ Hr Hts) w (conj Hw I)) as Hrun.
  destruct (for_each destroy_body r ts w) as [[r'|e|u] w']; [done|by destruct Hrun|done].
Qed.

Lemma renew_tickets_body_nil domain_name username password t w :
  match renew_tickets_body domain_name username password [] t w with
  | (Ok c, _) => c = Next []
  | _ => True
  end.
Proof.
  unfold renew_tickets_body. destruct (negb _ && _); [|done].
  unfold mbind, M_bind. destruct (renew_gmsa_ticket _ _ _ _ w) as [[p|e|u] w1]; [|done..].
  cbn. by rewrite decide_False by (intros Hx; by apply Hx).
Qed.

Lemma get_meta_data_file_paths_ok `{!PlatformLaws X} krbdir w :
  let d := resolve krbdir in
  fs_is_dir krbdir (w_fs w) = true →
  ∃ l, get_meta_data_file_paths krbdir w = (Ok l, w) ∧
    ∀ p, p ∈ l ↔ ∃ rel i c, p = entry_path krbdir rel ∧ rel ≠ [] ∧
      w_fs w !! (d ++ rel) = Some (File i c) ∧ is_metadata_name (default "" (last rel)) = true.
Proof.
  intros d Hd. unfold get_meta_data_file_paths. fold d. rewrite Hd. eexists. split; [done|].
  intros p. rewrite list_elem_of_omap. split.
  - intros (rel & Hrel & Hp).
    destruct (is_regular_file (d ++ rel) (w_fs w)) eqn:Hf; [|done]. cbn [andb] in Hp.
    destruct (is_metadata_name _) eqn:Hm; [|done]. injection Hp as <-.
    unfold is_regular_file in Hf. destruct (w_fs w !! (d ++ rel)) as [[|i c]|] eqn:Hl; [done| |done].
    exists rel, i, c. split_and!; try done.
    unfold entries_below in Hrel. rewrite readdir_order_perm, list_elem_of_omap in Hrel.
    destruct Hrel as ([k n] & _ & Hk). cbn in Hk. case_decide as Hpre; [|done].
    injection Hk as <-. destruct Hpre as [[t ->] Hne]. rewrite drop_app_length.
    intros ->. by rewrite app_nil_r in Hne.
  - intros (rel & i & c & -> & Hne & Hl & Hm). exists rel. split.
    + unfold entries_below. rewrite readdir_order_perm, list_elem_of_omap.
      exists (d ++ rel, File i c). split; [by apply elem_of_map_to_list|].
      cbn. rewrite decide_True; [by rewrite drop_app_length|].
      split; [by apply prefix_app_r|]. intros Heq. apply Hne.
      apply (f_equal length) in Heq. rewrite length_app in Heq. destruct rel; [done|cbn in Heq; lia].
    + unfold is_regular_file. by rewrite Hl, Hm.
Qed.

(** ** Properties *)

(** C11: deleting a lease whose id is a file name, below a directory whose path has
    no [.] or [..], removes its directory with everything below it; all else stays
    as it was, except for what the commands change; it returns without exception,
    and only paths that pass the character filter were handed to [kdestroy]. *)
Theorem delete_krb_tickets_spec `{!JsonCppLaws V} dir id P w :
  let path := dir +:+ "/" +:+ id in
  let d := resolve dir ++ [id] in
  dir ≠ "" → plain_path dir → has_char nul path = false → plain_name id →
  fs_is_dir path (w_fs w) = true → commands_change P →
  ∃ paths w', delete_krb_tickets dir id w = (Ok paths, w') ∧ paths_clean paths ∧
    (∀ k, d `prefix_of` k → w_fs w' !! k = None) ∧
    (∀ k, ¬ d `prefix_of` k → ¬ P k → w_fs w' !! k = w_fs w !! k).
Proof.
  intros path d Hdir Hplain Hnul Hid Hisdir Hcmd. unfold delete_krb_tickets.
  assert (Hres : resolve path = d) by by apply resolve_app_plain.
  assert (Hne : id ≠ "") by by destruct Hid.
  apply str_empty_false in Hne as ->. apply str_empty_false in Hdir as ->. cbn [orb].
  fold path. rewrite c_str_id by done. unfold mbind, M_bind, get_world. rewrite Hisdir, Hres.
  pose proof (delete_loop_ok P (w_fs w) path [] (dir_entries d (w_fs w)) Hcmd
    ltac:(constructor) w (reflexivity _)) as Hrun.
  destruct (for_each _ _ _ w) as [[paths|e|u] w'] eqn:Hloop; [|done..].
  destruct Hrun as [Hout Hclean]. unfold try_catch, remove_all.
  unfold path. rewrite fs_remove_all_plain by (done || by apply plain_path_reaches).
  eexists paths, _. split; [reflexivity|]. split; [done|]. cbn [w_fs set_fs]. fold d.
  split; intros k Hk; rewrite lookup_remove_tree;
    [by rewrite decide_True|rewrite decide_False by done; by apply Hout].
Qed.

(** C30: a lease id is not checked: with the id [..] everything below the parent
    of the directory of the leases is removed, whatever the commands change on the
    way, as long as they leave the directories above the leases alone. *)
Theorem delete_krb_tickets_parent `{!JsonCppLaws V} parent leases P w :
  let dir := parent +:+ "/" +:+ leases in
  let path := dir +:+ "/" +:+ ".." in
  plain_path parent → plain_name leases → has_char nul path = false →
  fs_is_dir path (w_fs w) = true → commands_change P →
  (∀ k, k `prefix_of` resolve dir → ¬ P k) →
  ∃ paths w', delete_krb_tickets dir ".." w = (Ok paths, w') ∧
    ∀ k, resolve parent `prefix_of` k → k ≠ resolve parent → w_fs w' !! k = None.
Proof.
  intros dir path Hparent Hleases Hnul Hisdir Hcmd Habove. unfold delete_krb_tickets.
  assert (Hres : resolve path = resolve parent).
  { unfold path. rewrite resolve_app. unfold dir. rewrite resolve_app_plain by done.
    rewrite split_plain by done. cbn. rewrite rev_app_distr. cbn. by rewrite rev_involutive. }
  assert (Hde : str_empty dir = false) by (unfold dir; by destruct parent). rewrite Hde.
  cbn [orb str_empty]. fold path. rewrite c_str_id by done.
  unfold mbind, M_bind, get_world. rewrite Hisdir, Hres.
  pose proof (delete_loop_ok P (w_fs w) path [] (dir_entries (resolve parent) (w_fs w)) Hcmd
    ltac:(constructor) w (reflexivity _)) as Hrun.
  destruct (for_each _ _ _ w) as [[paths|e|u] w'] eqn:Hloop; [|done..]. destruct Hrun as [Hout _].
  unfold try_catch, remove_all, fs_remove_all.
  unfold fs_is_dir in Hisdir. apply andb_true_iff in Hisdir as [[Hpe Hpr]%andb_true_iff Hpd].
  assert (Hreach : reaches path (w_fs w') = true).
  { rewrite <-Hpr. unfold path. rewrite !reaches_app.
    rewrite !(plain_path_reaches dir) by by apply plain_path_app. cbn [andb].
    rewrite split_plain by done. cbn. unfold is_dir. rewrite rev_involutive.
    by rewrite (Hout (resolve dir)) by by apply Habove. }
  apply negb_true_iff in Hpe. rewrite Hpe, Hreach. cbn [negb orb].
  assert (Hlast : last (split_string path slash) = Some "..") by by apply last_split_plain.
  rewrite Hlast, Hres. cbn. eexists paths, _. split; [reflexivity|].
  intros k Hk Hne. cbn. by rewrite lookup_remove_below, decide_True.
Qed.

(** The search for metadata files finds every regular file below the
    directory whose name contains [_metadata], whatever its depth, and nothing
    else. *)
Theorem get_meta_data_file_paths_spec `{!PlatformLaws X} krbdir w :
  let d := resolve krbdir in
  fs_is_dir krbdir (w_fs w) = true →
  ∃ l, get_meta_data_file_paths krbdir w = (Ok l, w) ∧
    ∀ p, p ∈ l ↔ ∃ rel i c, p = entry_path krbdir rel ∧ rel ≠ [] ∧
      w_fs w !! (d ++ rel) = Some (File i c) ∧ is_metadata_name (default "" (last rel)) = true.
Proof. apply get_meta_data_file_paths_ok. Qed.

(** C14: what kinit is fed is exactly the 256 bytes at offset 16 of the decoded
    password blob, and its status is the result; a blob shorter than 272 bytes
    is read past its end. *)
Theorem kinit_with_password_spec domain account cc output blob w :
  find_password output = Ok (Some blob) →
  if decide (272 ≤ String.length blob) then
    ∀ s x code,
    popen_write (c_str (kinit_gmsa_cmd cc account domain))
      (str_take 256 (str_drop 16 blob)) (w_fs w) (w_ext w) = (Some code, s, x) →
    ∀ r w', kinit_with_password domain account cc output w = (Ok r, w') →
    r = (code, cc) ∧ w_fs w' = s ∧ w_ext w' = x
  else ∃ e, kinit_with_password domain account cc output w = (Undefined e, w).
Proof.
  intros Hfind. unfold kinit_with_password. rewrite Hfind.
  unfold mbind, M_bind, lift, blob_password, current_password_offset, GMSA_PASSWORD_SIZE.
  cbn [Nat.add]. case_decide as Hlen; [|by eexists].
  intros s x code Hpipe r w'. unfold pipe_to. rewrite Hpipe.
  unfold getCurrentTime, gets, log. destruct (logger _ _ _ _) as [[[]|e|e] lg]; [|done..].
  intros [= <- <-]. by split_and!.
Qed.

(** The check after [get_machine_principal] is dead code: when the machine
    principal cannot be determined, kinit is run all the same. *)
Theorem machine_keytab_unchecked domain_name w :
  generate_krb_ticket_from_machine_keytab domain_name w =
  require_cmd is_hostname_cmd_present (
  require_cmd is_hostname_cmd_present (
  require_cmd is_realm_cmd_present (
  require_cmd is_kinit_cmd_present (
  require_cmd is_ldapsearch_cmd_present (
  require_cmd is_decode_exe_present (
    machine_principal ← get_machine_principal domain_name;
    result ← execute_kinit_in_domain_joined_case machine_principal.2;
    if negb (result.1 =? 0)%Z then log LOG_ERR result.2;; mret result else mret result)))))) w.
Proof.
  unfold generate_krb_ticket_from_machine_keytab, require_cmd, mbind, M_bind.
  do 5 (match goal with |- context [match ?m ?w with pair _ _ => _ end] =>
    destruct (m w) as [[?|?|?] ?]; [|done..]; case_match; [done|] end).
  destruct (is_decode_exe_present _) as [[rd|e|e] wd]; [|done..].
  destruct (negb (rd.1 =? 0)%Z); [done|].
  by destruct (get_machine_principal domain_name wd) as [[p|e|e] wp].
Qed.

(** Renewing the tickets of a user never reports a renewed ticket: a path is
    pushed only to a list that is not empty, and the list starts empty. *)
Theorem renew_domainless_reports_nothing dir domain_name username password w :
  match renew_kerberos_tickets_domainless dir domain_name username password w with
  | (Ok paths, _) => paths = []
  | _ => True
  end.
Proof.
  assert (Hin : ∀ ts w, match for_each (renew_tickets_body domain_name username password) [] ts w with
    | (Ok r, _) => r = [] | _ => True end).
  { induction ts as [|t ts IH]; intros w0; [done|]. rewrite for_each_cons.
    unfold mbind, M_bind. pose proof (renew_tickets_body_nil domain_name username password t w0) as Hb.
    destruct (renew_tickets_body _ _ _ [] t w0) as [[c|e|u] w1]; [|done..]. subst c. apply IH. }
  unfold renew_kerberos_tickets_domainless. unfold mbind at 1, M_bind at 1.
  destruct (get_meta_data_file_paths dir w) as [[files|e|u] w1]; [|done..].
  revert w1. induction files as [|f files IH]; intros w1; [done|].
  rewrite for_each_cons. unfold mbind at 1, M_bind at 1. unfold mbind at 1, M_bind at 1.
  destruct (read_meta_data_json f w1) as [[ts|e|u] w2]; [|done..].
  specialize (Hin ts w2). unfold fmap, M_fmap. unfold mbind at 1, M_bind at 1.
  destruct (for_each _ [] ts w2) as [[r|e|u] w3]; [|done..]. subst r. apply IH.
Qed.

(** The loop of [renew_gmsa_ticket] is: try; if that fails and the ticket
    belongs to the user, get the user a ticket and try once more. The result is
    the ticket's path as soon as a try succeeds and empty otherwise, and a
    success is never followed by another try. *)
Theorem renew_gmsa_ticket_unrolled t domain_name username password w :
  let fetch t := fetch_gmsa_password_and_create_krb_ticket (CredSpec.domain_name t) t
                   (krb_file_path t) in
  let own t := negb (str_empty (domainless_user t)) && String.eqb (domainless_user t) username in
  renew_gmsa_ticket t domain_name username password w =
  (r1 ← fetch t;
   if (r1.1.1 =? 0)%Z then mret (krb_file_path r1.2)
   else
     log LOG_WARNING ("WARNING: Cannot get gMSA krb ticket because of expired user/machine " +:+
       "ticket, will be retried automatically, service_account_name = " +:+
       service_account_name r1.2);;
     if own r1.2 then
       user_ticket domain_name username password;;
       r2 ← fetch r1.2;
       if (r2.1.1 =? 0)%Z then mret (krb_file_path r2.2)
       else
         log LOG_ERR ("ERROR: Cannot get gMSA krb ticket using account " +:+
           service_account_name r2.2);;
         if own r2.2 then user_ticket domain_name username password;; mret ""
         else mret ""
     else mret "") w.
Proof.
  intros fetch own. unfold renew_gmsa_ticket. cbn [renew_loop].
  rewrite decide_True by lia. fold (fetch t). unfold mbind, M_bind.
  destruct (fetch t w) as [[[[c1 p1] t1]|e|u] w1]; [|done..]. cbn [fst snd].
  destruct (c1 =? 0)%Z; cbn [negb]; [by rewrite decide_False by lia|].
  rewrite decide_True by done. destruct (log _ _ w1) as [[[]|e|u] w2]; [|done..].
  fold (own t1). destruct (own t1); [|done].
  destruct (user_ticket _ _ _ w2) as [[[]|e|u] w3]; [|done..].
  rewrite decide_True by lia. fold (fetch t1).
  destruct (fetch t1 w3) as [[[[c2 p2] t2]|e|u] w4]; [|done..]. cbn [fst snd].
  destruct (c2 =? 0)%Z; cbn [negb]; [done|].
  rewrite decide_False by lia. destruct (log _ _ w4) as [[[]|e|u] w5]; [|done..].
  fold (own t2). destruct (own t2); [|done].
  destruct (user_ticket _ _ _ w5) as [[[]|e|u] w6]; [|done..].
  by rewrite decide_False by lia.
Qed.

End krb.

(** ** At concrete inputs *)
#[local] Existing Instance Script.script_platform.
#[local] Existing Instance Script.script_platform_laws.
#[local] Existing Instance script_krb5.
#[local] Existing Instance Tree.tree_json.
#[local] Existing Instance Tree.tree_json_laws.

Lemma script_changes_nothing : commands_change (X := Script.script) (λ _, False).
Proof.
  intros cmd s x k _. cbn. by destruct (Script.sc_read x).
Qed.

(** A lease directory [5f] with a metadata file. *)
Definition demo_lease : world Script.script :=
  World (<[["var"; "credentials-fetcher"; "krbdir"; "5f"] := Dir new_dir_info]>
    (<[["var"; "credentials-fetcher"; "krbdir"; "5f"; "5f_metadata.json"] :=
       File new_file_info "{}"]> Script.demo_fs)) ∅ Script.demo_log Script.idle.

Definition demo_krbdir : string := "/var/credentials-fetcher/krbdir".

Lemma delete_krb_tickets_spec_witness :
  ∃ paths w', delete_krb_tickets (V := Tree.tree) demo_krbdir "5f" demo_lease = (Ok paths, w') ∧
    w_fs w' !! ["var"; "credentials-fetcher"; "krbdir"; "5f"; "5f_metadata.json"] = None.
Proof.
  destruct (delete_krb_tickets_spec (V := Tree.tree) demo_krbdir "5f" (λ _, False) demo_lease)
    as (paths & w' & Hrun & _ & Hgone & _).
  - done.
  - apply (bool_decide_unpack _). by vm_compute.
  - reflexivity.
  - apply (bool_decide_unpack _). by vm_compute.
  - vm_compute. reflexivity.
  - apply script_changes_nothing.
  - exists paths, w'. split; [exact Hrun|]. apply Hgone. by exists ["5f_metadata.json"].
Defined.

Lemma delete_krb_tickets_parent_witness :
  ∃ paths w', delete_krb_tickets (V := Tree.tree) demo_krbdir ".." demo_lease = (Ok paths, w') ∧
    w_fs w' !! ["var"; "credentials-fetcher"; "krbdir"] = None.
Proof.
  destruct (delete_krb_tickets_parent (V := Tree.tree) "/var/credentials-fetcher" "krbdir" (λ _, False)
    demo_lease) as (paths & w' & Hrun & Hgone).
  - apply (bool_decide_unpack _). by vm_compute.
  - apply (bool_decide_unpack _). by vm_compute.
  - reflexivity.
  - vm_compute. reflexivity.
  - apply script_changes_nothing.
  - by intros k _ [].
  - exists paths, w'. split; [exact Hrun|]. apply Hgone; [by exists ["krbdir"]|done].
Defined.

Lemma get_meta_data_file_paths_spec_witness :
  ∃ l, get_meta_data_file_paths demo_krbdir demo_lease = (Ok l, demo_lease) ∧
    "/var/credentials-fetcher/krbdir/5f/5f_metadata.json" ∈ l.
Proof.
  destruct (get_meta_data_file_paths_spec demo_krbdir demo_lease) as (l & Hrun & Hl).
  - vm_compute. reflexivity.
  - exists l. split; [exact Hrun|]. apply Hl.
    exists ["5f"; "5f_metadata.json"], new_file_info, "{}". split_and!; [reflexivity|done|reflexivity|reflexivity].
Defined.

(** A blob of 272 bytes. *)
Definition demo_blob : string := ff 272.

Definition demo_output : string := "msDS-ManagedPassword:: " +:+ demo_blob.

Lemma kinit_with_password_spec_witness :
  ∃ r w', kinit_with_password (X := Script.script) "contoso.com" "gmsa1" "/cc" demo_output (demo [])
    = (Ok r, w') ∧ r = (0%Z, "/cc").
Proof.
  set (m := kinit_with_password (X := Script.script) "contoso.com" "gmsa1" "/cc" demo_output (demo [])).
  assert (Hm : m = (Ok (0%Z, "/cc"), m.2)) by (vm_compute; reflexivity).
  assert (Hf : find_password (X := Script.script) demo_output = Ok (Some demo_blob))
    by (vm_compute; reflexivity).
  pose proof (kinit_with_password_spec (X := Script.script) "contoso.com" "gmsa1" "/cc" demo_output
    demo_blob (demo []) Hf) as Hspec.
  rewrite decide_True in Hspec by (apply Nat.leb_le; vm_compute; reflexivity).
  exists (0%Z, "/cc"), m.2. split; [exact Hm|].
  refine (proj1 (Hspec _ _ 0%Z _ (0%Z, "/cc") m.2 Hm)). reflexivity.
Defined.
