(* ===== verification/Utf16.v ===== *)
(** * The UTF-16 decoder and its self test

    The password of a gMSA account is 256 bytes of UTF-16; [kinit] reads UTF-8.
    The program of [auth/kerberos/src/utf16_decode/Program.cs] stands between the
    two, and [test_utf16_decode] of [class Util] ([common/util.hpp]) checks it on a
    fixed password. Bytes are integers from 0 to 255. *)
From S2P Require Import Prelude StrUtil Logger World Json Regex Validation CredSpec Metadata Kinit Util Klist Krb.
From stdpp Require Import options.

Definition bytes_of (s : string) : list Z := (λ c, Z.of_nat (nat_of_ascii c)) <$> chars_of s.
Definition text_of (l : list Z) : string := string_of ((λ b, ascii_of_nat (Z.to_nat b)) <$> l).

(** ** [Encoding.Convert( Unicode, UTF8, bytes )] *)

(** The 16-bit units of little-endian bytes. *)
Fixpoint utf16_units (l : list Z) : list Z :=
  match l with
  | lo :: hi :: l' => Z.lor lo (Z.shiftl hi 8) :: utf16_units l'
  | _ => []
  end.

Definition high_surrogate (u : Z) : bool := (55296 <=? u)%Z && (u <=? 56319)%Z.
Definition low_surrogate (u : Z) : bool := (56320 <=? u)%Z && (u <=? 57343)%Z.

(** U+FFFD, which .NET puts for a surrogate without its other half *)
Definition replacement : Z := 65533.

(** The code points of a sequence of units. *)
Fixpoint utf16_scalars (us : list Z) : list Z :=
  match us with
  | [] => []
  | u :: us' =>
    if high_surrogate u then
      match us' with
      | v :: us'' =>
        if low_surrogate v then
          (65536 + Z.lor (Z.shiftl (u - 55296) 10) (v - 56320))%Z :: utf16_scalars us''
        else replacement :: utf16_scalars us'
      | [] => [replacement]
      end
    else if low_surrogate u then replacement :: utf16_scalars us'
    else u :: utf16_scalars us'
  end.

Definition utf8_of_scalar (c : Z) : list Z :=
  let tail n := Z.lor 128 (Z.land (Z.shiftr c (6 * n)) 63) in
  if (c <? 128)%Z then [c]
  else if (c <? 2048)%Z then [Z.lor 192 (Z.shiftr c 6); tail 0%Z]
  else if (c <? 65536)%Z then [Z.lor 224 (Z.shiftr c 12); tail 1%Z; tail 0%Z]
  else [Z.lor 240 (Z.shiftr c 18); tail 2%Z; tail 1%Z; tail 0%Z].

Definition utf8_encode (cs : list Z) : list Z := cs ≫= utf8_of_scalar.

Definition convert_utf16_utf8 (l : list Z) : list Z := utf8_encode (utf16_scalars (utf16_units l)).

(** ** [EncodeToUTF8.Main] *)
Definition inputBufferSize : nat := 1024.

(** The argument is what is there for the one call of [Read], which of a pipe may be
    less than what will be sent; it fills the start of the buffer, the rest of which
    is zero, and all of the buffer is converted. *)
Definition EncodeToUTF8 (input : list Z) : list Z :=
  let read := take inputBufferSize input in
  convert_utf16_utf8 (read ++ replicate (inputBufferSize - length read) 0%Z).

(** ** [test_utf16_decode] *)
Definition test_msds_managed_password : string :=
  "msDS-ManagedPassword:: " +:+
  "AQAAACIBAAAQAAAAEgEaAciMhCofvo1R4kkVYm79aRysUcOs7NhhHvO" +:+
  "exhNTV9KXAn1v8AYMN1lMC/V6W0dZVrQRpGZ/EvWi33Lq2xoR5ANuJf623JQRj3pMZQBqQLRjRoPn" +:+
  "UJYY8H74aVysf0t+1M0moLkm0IPSCB52Mm0CC9flTT0D9KZV2Mvf4FpgvYpYoOQvUmd0UOV72Tk/d" +:+
  "leM8zTWjRL5ccfzwt5p8akMEl6W0RPj1pDbqxtbpJFQiLQd7HRlSkYPeBKDB9r6CItrQTo8j+pgJf" +:+
  "B4+wVbOUZuMXrKkDVh8XUOUBdGhznntRWnDM2DhwBoFEisBr133Vo8aRcedYqwNj/LEsrimEJaeuY" +:+
  "AAAQCCBrPFgAABKQ3Z84WAAA= #".

Definition test_gmsa_utf8_password : list Z :=
  [232; 179; 136; 226; 170; 132; 235; 184; 159; 229; 134; 141; 228; 167; 162; 230; 136; 149; 239; 181;
   174; 225; 177; 169; 229; 134; 172; 234; 179; 131; 239; 191; 189; 225; 185; 161; 233; 187; 179; 225;
   143; 134; 229; 157; 147; 233; 159; 146; 231; 180; 130; 239; 129; 175; 224; 176; 134; 229; 164; 183;
   224; 173; 140; 231; 171; 181; 228; 157; 155; 229; 153; 153; 225; 134; 180; 230; 154; 164; 225; 137;
   191; 234; 139; 181; 231; 139; 159; 239; 191; 189; 225; 132; 154; 207; 164; 226; 149; 174; 235; 155;
   190; 233; 147; 156; 232; 188; 145; 228; 177; 186; 101; 228; 129; 170; 230; 142; 180; 232; 141; 134;
   229; 131; 167; 225; 162; 150; 231; 187; 176; 230; 167; 184; 234; 177; 156; 228; 173; 191; 237; 145;
   190; 226; 155; 141; 235; 166; 160; 237; 128; 166; 237; 138; 131; 225; 184; 136; 227; 137; 182; 201;
   173; 237; 156; 139; 228; 183; 165; 204; 189; 234; 155; 180; 240; 165; 159; 139; 229; 171; 160; 235;
   181; 160; 229; 162; 138; 238; 146; 160; 229; 136; 175; 231; 145; 167; 238; 149; 144; 239; 191; 189;
   227; 188; 185; 229; 157; 182; 239; 142; 140; 237; 152; 180; 225; 138; 141; 231; 135; 185; 239; 143;
   135; 239; 191; 189; 239; 133; 169; 224; 178; 169; 229; 184; 146; 237; 134; 150; 238; 140; 147; 233;
   131; 150; 234; 175; 155; 229; 172; 155; 233; 134; 164; 232; 161; 144; 225; 182; 180; 231; 147; 172;
   228; 169; 165; 224; 189; 134; 225; 137; 184; 222; 131; 239; 171; 154; 232; 172; 136; 228; 133; 171;
   227; 176; 186; 238; 170; 143; 226; 149; 160; 231; 163; 176; 215; 187; 227; 165; 155; 230; 185; 134;
   231; 168; 177; 233; 131; 138; 230; 132; 181; 231; 151; 177; 229; 128; 142; 228; 152; 151; 227; 166;
   135; 235; 151; 167; 234; 156; 149; 236; 180; 140; 232; 158; 131; 230; 160; 128; 228; 160; 148; 218;
   172; 231; 158; 189; 229; 171; 157; 230; 164; 188; 225; 184; 151; 232; 169; 181; 227; 154; 176; 236;
   172; 191; 236; 168; 146; 233; 163; 162; 229; 169; 130; 238; 153; 186]%Z.

Definition decoded_password_file : string := "./decoded_password_file".

Section self_test.
Context {X : Type} `{Platform X}.
Abbreviation MW := (M (world X)).

(** [unlink( p )] of a file *)
Definition unlink (p : string) : MW unit := modify (λ w,
  match fs_lookup p (w_fs w) with
  | Some (File _ _) => set_fs (delete (resolve p) (w_fs w)) w
  | _ => w
  end).

(** [stat( p, &st ) == 0] *)
Definition stat_ok (p : string) : MW bool := gets (λ w, bool_decide (is_Some (fs_lstat p (w_fs w)))).

Definition decode_cmd : MW string :=
  installed ← stat_ok install_path_for_decode_exe;
  mret ((if installed : bool then install_path_for_decode_exe else "./decode.exe") +:+ "  > " +:+
        decoded_password_file).

(** The first 256 bytes are compared, also where the file was too short to fill
    the buffer. *)
Definition password_matches (text : string) : outcome bool :=
  if decide (GMSA_PASSWORD_SIZE ≤ String.length text) then
    Ok (bool_decide (take GMSA_PASSWORD_SIZE test_gmsa_utf8_password =
                     take GMSA_PASSWORD_SIZE (bytes_of text)))
  else Undefined "test_password_buf is compared where it was not written".

Definition test_utf16_decode : MW Z :=
  password ← lift (find_password test_msds_managed_password);
  match password with
  | None => mret EXIT_FAILURE
  | Some blob =>
    cmd ← decode_cmd;
    bytes ← lift (blob_password blob);
    r ← pipe_to cmd bytes;
    match r with
    | None => mret EXIT_FAILURE
    | Some status =>
      if (status <? 0)%Z then mret EXIT_FAILURE
      else
        text ← read_file decoded_password_file;
        match text with
        | None => mret EXIT_FAILURE
        | Some text =>
          equal ← lift (password_matches text);
          unlink decoded_password_file;;
          mret (if equal : bool then EXIT_SUCCESS else EXIT_FAILURE)
        end
    end
  end.
End self_test.

(** ** References *)

(** *** Base 64 (RFC 4648), as glib decodes it: other characters are skipped. *)
Definition sextet (c : ascii) : option Z :=
  let n := Z.of_nat (nat_of_ascii c) in
  if (65 <=? n)%Z && (n <=? 90)%Z then Some (n - 65)%Z
  else if (97 <=? n)%Z && (n <=? 122)%Z then Some (n - 71)%Z
  else if (48 <=? n)%Z && (n <=? 57)%Z then Some (n + 4)%Z
  else if (n =? 43)%Z then Some 62%Z else if (n =? 47)%Z then Some 63%Z else None.

Fixpoint octets (l : list Z) : list Z :=
  match l with
  | a :: b :: c :: d :: l' =>
    (a * 4 + b / 16)%Z :: ((b mod 16) * 16 + c / 4)%Z :: ((c mod 4) * 64 + d)%Z :: octets l'
  | [a; b; c] => [(a * 4 + b / 16)%Z; ((b mod 16) * 16 + c / 4)%Z]
  | [a; b] => [(a * 4 + b / 16)%Z]
  | _ => []
  end.

Definition base64_reference (s : string) : string := text_of (octets (omap sextet (chars_of s))).

(** *** UTF-16 (RFC 2781) *)
Definition scalar_value (c : Z) : Prop := (0 ≤ c < 55296 ∨ 57344 ≤ c < 1114112)%Z.

Definition utf16_of_scalar (c : Z) : list Z :=
  if (c <? 65536)%Z then [c]
  else [(55296 + (c - 65536) / 1024)%Z; (56320 + (c - 65536) mod 1024)%Z].

Definition le_bytes (u : Z) : list Z := [(u mod 256)%Z; (u / 256)%Z].

Definition utf16_encode (cs : list Z) : list Z := (cs ≫= utf16_of_scalar) ≫= le_bytes.

(** *** UTF-8 (RFC 3629), strictly: no overlong forms and no surrogates *)
Definition scalar_value_b (c : Z) : bool :=
  (0 <=? c)%Z && (c <? 55296)%Z || (57344 <=? c)%Z && (c <? 1114112)%Z.
Definition is_tail (b : Z) : bool := (128 <=? b)%Z && (b <? 192)%Z.

Fixpoint utf8_decode (l : list Z) : option (list Z) :=
  match l with
  | [] => Some []
  | b :: l1 =>
    if (b <? 128)%Z then (if (0 <=? b)%Z then cons b <$> utf8_decode l1 else None)
    else match l1 with
    | [] => None
    | b1 :: l2 =>
      if negb (is_tail b1) then None
      else if (192 <=? b)%Z && (b <? 224)%Z then
        let c := ((b - 192) * 64 + (b1 - 128))%Z in
        if (128 <=? c)%Z then cons c <$> utf8_decode l2 else None
      else match l2 with
      | [] => None
      | b2 :: l3 =>
        if negb (is_tail b2) then None
        else if (224 <=? b)%Z && (b <? 240)%Z then
          let c := ((b - 224) * 4096 + (b1 - 128) * 64 + (b2 - 128))%Z in
          if (2048 <=? c)%Z && scalar_value_b c then cons c <$> utf8_decode l3 else None
        else match l3 with
        | [] => None
        | b3 :: l4 =>
          let c := ((b - 240) * 262144 + (b1 - 128) * 4096 + (b2 - 128) * 64 + (b3 - 128))%Z in
          if (240 <=? b)%Z && is_tail b3 && (65536 <=? c)%Z && scalar_value_b c
          then cons c <$> utf8_decode l4 else None
        end
      end
    end
  end.

(** ** Lemmas *)

(** Bit operations on disjoint bits are additions. *)
Lemma lor_disjoint n a b : (0 ≤ n → 0 ≤ b < 2 ^ n → Z.lor (a * 2 ^ n) b = a * 2 ^ n + b)%Z.
Proof.
  intros Hn Hb. rewrite <-Z.shiftl_mul_pow2 by done. symmetry. apply Z.add_nocarry_lor.
  apply Z.bits_inj'. intros i Hi. rewrite Z.land_spec, Z.bits_0, Z.shiftl_spec by done.
  destruct (decide (i < n)%Z).
  - by rewrite Z.testbit_neg_r by lia.
  - enough (Z.testbit b i = false) as -> by apply andb_false_r.
    destruct (decide (b = 0)%Z) as [->|]; [apply Z.bits_0|].
    apply Z.bits_above_log2; [lia|]. apply Z.log2_lt_pow2; [lia|].
    eapply Z.lt_le_trans; [apply Hb|]. apply Z.pow_le_mono_r; lia.
Qed.

Lemma lor_shiftl n a b : (0 ≤ n → 0 ≤ b < 2 ^ n → Z.lor (Z.shiftl a n) b = a * 2 ^ n + b)%Z.
Proof. intros Hn Hb. rewrite Z.shiftl_mul_pow2 by done. by apply lor_disjoint. Qed.

Lemma tail_byte c k :
  (0 ≤ k → Z.lor 128 (Z.land (Z.shiftr c k) 63) = 128 + (c / 2 ^ k) mod 64)%Z.
Proof.
  intros Hk. rewrite Z.shiftr_div_pow2 by done. change 63%Z with (Z.ones 6).
  rewrite Z.land_ones by lia. apply (lor_disjoint 6 2); [lia|]. apply Z.mod_pos_bound. lia.
Qed.

Lemma utf8_of_scalar_eq c :
  (0 ≤ c < 1114112)%Z →
  utf8_of_scalar c =
    if (c <? 128)%Z then [c]
    else if (c <? 2048)%Z then [192 + c / 64; 128 + c mod 64]%Z
    else if (c <? 65536)%Z then [224 + c / 4096; 128 + (c / 64) mod 64; 128 + c mod 64]%Z
    else [240 + c / 262144; 128 + (c / 4096) mod 64; 128 + (c / 64) mod 64; 128 + c mod 64]%Z.
Proof.
  intros Hc. unfold utf8_of_scalar. rewrite !tail_byte by lia.
  rewrite !Z.shiftr_div_pow2 by lia. cbn -[Z.lor Z.div Z.modulo Z.ltb]. rewrite Z.div_1_r.
  change (Z.pow_pos 2 6) with 64%Z. change (Z.pow_pos 2 12) with 4096%Z.
  change (Z.pow_pos 2 18) with 262144%Z.
  destruct (Z.ltb_spec c 128); [done|]. destruct (Z.ltb_spec c 2048); [|destruct (Z.ltb_spec c 65536)].
  - f_equal. apply (lor_disjoint 5 6); [lia|]. split; [by apply Z.div_pos; lia|]. apply Z.div_lt_upper_bound; lia.
  - f_equal. apply (lor_disjoint 4 14); [lia|]. split; [by apply Z.div_pos; lia|]. apply Z.div_lt_upper_bound; lia.
  - f_equal. apply (lor_disjoint 3 30); [lia|]. split; [by apply Z.div_pos; lia|]. apply Z.div_lt_upper_bound; lia.
Qed.

(** Decide the comparisons of a goal, if need be by arithmetic with divisions. *)
Ltac lia_div := first [lia|Z.to_euclidean_division_equations; lia].
Ltac compare_z :=
  repeat match goal with
  | |- context [(?a <? ?b)%Z] =>
    first [rewrite (proj2 (Z.ltb_lt a b)) by lia_div|rewrite (proj2 (Z.ltb_ge a b)) by lia_div]
  | |- context [(?a <=? ?b)%Z] =>
    first [rewrite (proj2 (Z.leb_le a b)) by lia_div|rewrite (proj2 (Z.leb_gt a b)) by lia_div]
  end; cbn [negb andb orb].

Lemma utf8_decode_scalar c l :
  scalar_value c → utf8_decode (utf8_of_scalar c ++ l) = cons c <$> utf8_decode l.
Proof.
  unfold scalar_value. intros Hc. rewrite utf8_of_scalar_eq by lia.
  destruct (Z.ltb_spec c 128); [|destruct (Z.ltb_spec c 2048); [|destruct (Z.ltb_spec c 65536)]];
    cbn [app utf8_decode]; unfold is_tail, scalar_value_b.
  - compare_z. done.
  - compare_z. do 2 f_equal. Z.to_euclidean_division_equations; lia.
  - assert (Hsum : ((224 + c / 4096 - 224) * 4096 + (128 + (c / 64) mod 64 - 128) * 64 +
      (128 + c mod 64 - 128) = c)%Z) by (Z.to_euclidean_division_equations; lia).
    assert (Hb : (0 ≤ c / 4096 < 16 ∧ 0 ≤ (c / 64) mod 64 < 64 ∧ 0 ≤ c mod 64 < 64)%Z)
      by (Z.to_euclidean_division_equations; lia).
    rewrite Hsum. clear Hsum. destruct Hc; compare_z; done.
  - assert (Hsum : ((240 + c / 262144 - 240) * 262144 + (128 + (c / 4096) mod 64 - 128) * 4096 +
      (128 + (c / 64) mod 64 - 128) * 64 + (128 + c mod 64 - 128) = c)%Z)
      by (Z.to_euclidean_division_equations; lia).
    assert (Hb : (0 ≤ c / 262144 < 8 ∧ 0 ≤ (c / 4096) mod 64 < 64 ∧ 0 ≤ (c / 64) mod 64 < 64 ∧
      0 ≤ c mod 64 < 64)%Z) by (Z.to_euclidean_division_equations; lia).
    rewrite Hsum. clear Hsum. compare_z; done.
Qed.

Lemma utf8_decode_encode cs : Forall scalar_value cs → utf8_decode (utf8_encode cs) = Some cs.
Proof.
  induction 1 as [|c cs Hc _ IH]; [done|]. unfold utf8_encode. cbn [mbind list_bind].
  rewrite utf8_decode_scalar by done. unfold utf8_encode in IH. by rewrite IH.
Qed.

(** Units of bytes are 16-bit, and what they decode to are code points. *)
Definition byte_value (b : Z) : Prop := (0 ≤ b < 256)%Z.
Definition unit_value (u : Z) : Prop := (0 ≤ u < 65536)%Z.

Lemma unit_of_bytes lo hi : byte_value lo → byte_value hi → Z.lor lo (Z.shiftl hi 8) = (hi * 256 + lo)%Z.
Proof. intros Hlo Hhi. rewrite Z.lor_comm. by apply (lor_shiftl 8). Qed.

Lemma utf16_units_range l : Forall byte_value l → Forall unit_value (utf16_units l).
Proof.
  remember (length l) as n eqn:Hn. revert l Hn. induction (lt_wf n) as [n _ IH]. intros l -> Hl.
  destruct Hl as [|lo l1 Hlo Hl1]; [constructor|]. destruct Hl1 as [|hi l2 Hhi Hl2]; [constructor|].
  cbn [utf16_units]. constructor.
  - rewrite unit_of_bytes by done. unfold byte_value, unit_value in *. lia.
  - eapply IH; [|reflexivity|done]. cbn. lia.
Qed.

Lemma utf16_scalars_range us : Forall unit_value us → Forall scalar_value (utf16_scalars us).
Proof.
  remember (length us) as n eqn:Hn. revert us Hn. induction (lt_wf n) as [n _ IH]. intros us -> Hus.
  assert (Hrep : scalar_value replacement) by (unfold scalar_value, replacement; lia).
  destruct Hus as [|u us1 Hu Hus1]; [constructor|]. cbn [utf16_scalars].
  assert (Hrest : Forall scalar_value (utf16_scalars us1)) by (eapply IH; [|reflexivity|done]; cbn; lia).
  unfold high_surrogate, low_surrogate. unfold unit_value in Hu.
  destruct (_ && _) eqn:Hh.
  - destruct us1 as [|v us2]; [by repeat constructor|].
    destruct (_ && _) eqn:Hlo in |- *; constructor; try done.
    + apply andb_true_iff in Hh as [?%Z.leb_le ?%Z.leb_le], Hlo as [?%Z.leb_le ?%Z.leb_le].
      rewrite (lor_shiftl 10) by lia. unfold scalar_value. lia.
    + eapply IH; [|reflexivity|by inversion Hus1]. cbn. lia.
  - destruct (_ && _) eqn:Hlo in |- *; constructor; try done. unfold scalar_value.
    apply andb_false_iff in Hh as [?%Z.leb_gt|?%Z.leb_gt], Hlo as [?%Z.leb_gt|?%Z.leb_gt]; lia.
Qed.

(** What the reference encodes is decoded. *)
Lemma utf16_units_encode us l :
  Forall unit_value us → utf16_units ((us ≫= le_bytes) ++ l) = us ++ utf16_units l.
Proof.
  induction 1 as [|u us Hu _ IH]; [done|]. cbn [mbind list_bind]. unfold le_bytes at 1.
  cbn [app utf16_units]. unfold unit_value in Hu. rewrite unit_of_bytes.
  - rewrite IH. f_equal. Z.to_euclidean_division_equations; lia.
  - unfold byte_value. Z.to_euclidean_division_equations; lia.
  - unfold byte_value. Z.to_euclidean_division_equations; lia.
Qed.

Lemma utf16_scalars_encode cs us :
  Forall scalar_value cs → utf16_scalars ((cs ≫= utf16_of_scalar) ++ us) = cs ++ utf16_scalars us.
Proof.
  induction 1 as [|c cs Hc _ IH]; [done|]. cbn [mbind list_bind]. unfold utf16_of_scalar at 1.
  rewrite <-app_assoc. unfold scalar_value in Hc. destruct (Z.ltb_spec c 65536).
  - cbn [app utf16_scalars]. unfold high_surrogate, low_surrogate. rewrite IH.
    destruct ((55296 <=? c)%Z && (c <=? 56319)%Z) eqn:Hh.
    { apply andb_true_iff in Hh as [?%Z.leb_le ?%Z.leb_le]. lia. }
    destruct ((56320 <=? c)%Z && (c <=? 57343)%Z) eqn:Hl; [|done].
    apply andb_true_iff in Hl as [?%Z.leb_le ?%Z.leb_le]. lia.
  - cbn [app utf16_scalars]. rewrite IH. unfold high_surrogate, low_surrogate. compare_z.
    f_equal. rewrite (lor_shiftl 10) by (Z.to_euclidean_division_equations; lia).
    Z.to_euclidean_division_equations; lia.
Qed.

Lemma utf16_units_zeros n : utf16_units (replicate (2 * n) 0%Z) = replicate n 0%Z.
Proof.
  induction n as [|n IH]; [done|]. replace (2 * S n) with (S (S (2 * n))) by lia.
  cbn [replicate utf16_units]. by rewrite IH.
Qed.

Lemma utf16_scalars_zeros n : utf16_scalars (replicate n 0%Z) = replicate n 0%Z.
Proof. induction n as [|n IH]; [done|]. cbn [replicate utf16_scalars]. by rewrite IH. Qed.

Lemma utf16_of_scalar_range c : scalar_value c → Forall unit_value (utf16_of_scalar c).
Proof.
  unfold scalar_value, utf16_of_scalar, unit_value. intros Hc. destruct (Z.ltb_spec c 65536);
    repeat constructor; Z.to_euclidean_division_equations; lia.
Qed.

Lemma le_bytes_length us : length (us ≫= le_bytes) = 2 * length us.
Proof. induction us as [|u us IH]; [done|]. cbn [mbind list_bind]. rewrite length_app, IH. cbn. lia. Qed.

Lemma le_bytes_range us : Forall unit_value us → Forall byte_value (us ≫= le_bytes).
Proof.
  induction 1 as [|u us Hu _ IH]; [constructor|]. cbn [mbind list_bind]. apply Forall_app. split; [|done].
  unfold unit_value in Hu. unfold le_bytes, byte_value.
  repeat constructor; Z.to_euclidean_division_equations; lia.
Qed.

Lemma bytes_of_range s : Forall byte_value (bytes_of s).
Proof.
  unfold bytes_of. apply Forall_fmap, Forall_forall. intros c _. unfold byte_value. cbn.
  pose proof (nat_ascii_bounded c). lia.
Qed.

Lemma bytes_of_text_of l : Forall byte_value l → bytes_of (text_of l) = l.
Proof.
  intros Hl. unfold bytes_of, text_of. rewrite chars_of_string_of, <-list_fmap_compose.
  induction Hl as [|b l Hb _ IH]; [done|]. cbn. rewrite IH. f_equal. unfold byte_value in Hb.
  rewrite nat_ascii_embedding by lia. lia.
Qed.

(** ** Properties *)

(** C21: whatever bytes the decoder reads, what it writes is well-formed UTF-8, of
    the code points of its buffer; for text in UTF-16 that fits the buffer these
    are the code points of the text, followed by a NUL for each unit of the
    buffer the text does not fill. *)
Theorem EncodeToUTF8_correct input :
  (Forall byte_value input →
   utf8_decode (EncodeToUTF8 input) =
     Some (utf16_scalars (utf16_units (take 1024 input ++ replicate (1024 - length input) 0%Z)))) ∧
  (∀ cs, Forall scalar_value cs → input = utf16_encode cs → length input ≤ 1024 →
   utf8_decode (EncodeToUTF8 input) =
     Some (cs ++ replicate (512 - length (cs ≫= utf16_of_scalar)) 0%Z)).
Proof.
  assert (Hany : Forall byte_value input →
    utf8_decode (EncodeToUTF8 input) =
      Some (utf16_scalars (utf16_units (take 1024 input ++ replicate (1024 - length input) 0%Z)))).
  { intros Hi. unfold EncodeToUTF8, inputBufferSize, convert_utf16_utf8.
    assert (1024 - length (take 1024 input) = 1024 - length input) as ->
      by (rewrite length_take; lia).
    apply utf8_decode_encode, utf16_scalars_range, utf16_units_range, Forall_app. split.
    - by apply Forall_take.
    - apply Forall_replicate. unfold byte_value. lia. }
  split; [exact Hany|]. intros cs Hcs -> Hlen.
  assert (Hu : Forall unit_value (cs ≫= utf16_of_scalar)).
  { clear -Hcs. induction Hcs as [|c cs Hc _ IH]; [constructor|]. cbn [mbind list_bind].
    apply Forall_app. split; [by apply utf16_of_scalar_range|done]. }
  rewrite Hany by (by apply le_bytes_range). f_equal.
  rewrite take_ge by done. unfold utf16_encode in Hlen |- *. rewrite le_bytes_length in Hlen |- *.
  rewrite utf16_units_encode by done.
  replace (1024 - 2 * length (cs ≫= utf16_of_scalar)) with
    (2 * (512 - length (cs ≫= utf16_of_scalar))) by lia.
  by rewrite utf16_units_zeros, utf16_scalars_encode, utf16_scalars_zeros.
Qed.


#[local] Arguments String.append : simpl never.

(** The base 64 text the self test decodes, and the password in it. *)
Definition test_base64 : string := str_drop 23 (str_take (String.length test_msds_managed_password - 1)
  test_msds_managed_password).
Definition test_utf16_password : string := str_take 256 (str_drop 16 (base64_reference test_base64)).

Section self_test_properties.
Context {X : Type} `{Platform X}.

Lemma test_password_found :
  password_in (split_string test_msds_managed_password "#"%char) = Ok (Some test_base64).
Proof. vm_compute. reflexivity. Qed.

(** The blob decoded, and the password in it. *)
Lemma test_blob_found :
  (∀ s, g_base64_decode s = Some (base64_reference s)) →
  ∃ blob, find_password test_msds_managed_password = Ok (Some blob) ∧
    blob_password blob = Ok test_utf16_password.
Proof.
  intros Hb64. exists (base64_reference test_base64). split; [|vm_compute; reflexivity].
  unfold find_password. rewrite test_password_found. cbn [mbind outcome_bind].
  unfold base64_decode. rewrite Hb64.
  assert (c_str test_base64 = test_base64) as -> by (vm_compute; reflexivity).
  assert (str_empty test_base64 = false) as -> by (vm_compute; reflexivity).
  by assert (str_empty (base64_reference test_base64) = false) as -> by (vm_compute; reflexivity).
Qed.

Lemma decode_cmd_run (w : world X) : ∃ cmd, decode_cmd w = (Ok cmd, w).
Proof. by eexists. Qed.

Lemma fs_read_file p s text : fs_read p s = Some text → ∃ i, fs_lookup p s = Some (File i text).
Proof. unfold fs_read. destruct (fs_lookup p s) as [[i|i t]|]; [done| |done]. intros [= ->]. eauto. Qed.

(** The self test of the decoder. It passes when the file the decoder leaves
    starts with the 256 bytes expected and fails when it starts with others, and
    the file is removed; and the program of [Program.cs] passes it, if glib
    decodes base 64. The password expected has 374 bytes, the last 118 of which
    are not looked at. *)
Theorem test_utf16_decode_spec (w : world X) text :
  (∀ s, g_base64_decode s = Some (base64_reference s)) →
  (∀ cmd, (decode_cmd w).1 = Ok cmd → ∃ s x,
     popen_write (c_str cmd) test_utf16_password (w_fs w) (w_ext w) = (Some 0%Z, s, x) ∧
     fs_read decoded_password_file s = Some text) →
  256 ≤ String.length text →
  (∃ w', test_utf16_decode w =
     (Ok (if bool_decide (take 256 (bytes_of text) = take 256 test_gmsa_utf8_password)
          then EXIT_SUCCESS else EXIT_FAILURE), w') ∧
     w_fs w' !! resolve decoded_password_file = None) ∧
  (text = text_of (EncodeToUTF8 (bytes_of test_utf16_password)) →
   bool_decide (take 256 (bytes_of text) = take 256 test_gmsa_utf8_password) = true).
Proof.
  intros Hb64 Hpipe Hlen. split.
  - destruct (test_blob_found Hb64) as (blob & Hfind & Hpass).
    destruct (decode_cmd_run w) as [cmd Hcmd].
    destruct (Hpipe cmd) as (s & x & Hpopen & Hread); [by rewrite Hcmd|].
    destruct (fs_read_file _ _ _ Hread) as [i Hfile].
    unfold test_utf16_decode. rewrite Hfind. unfold mbind at 1, M_bind at 1, lift at 1.
    unfold mbind at 1, M_bind at 1. rewrite Hcmd, Hpass.
    unfold mbind, M_bind, lift, pipe_to, read_file, gets. rewrite Hpopen. cbn [Z.ltb Z.compare w_fs set_fs].
    rewrite Hread. unfold password_matches, GMSA_PASSWORD_SIZE. rewrite decide_True by done.
    unfold unlink, modify. cbn [w_fs set_fs]. rewrite Hfile. eexists. split.
    + unfold mret, M_ret. do 2 f_equal.
      by rewrite (bool_decide_ext _ (take 256 (bytes_of text) = take 256 test_gmsa_utf8_password)).
    + cbn [w_fs set_fs]. apply lookup_delete_eq.
  - intros ->. vm_compute. reflexivity.
Qed.
End self_test_properties.

(** ** At concrete inputs *)

(** A machine with glib and the decoder. *)
Definition decoder_machine : Platform () := {|
  popen_read _ s x := (Some ("", 0%Z), s, x);
  popen_write _ bytes s x :=
    (Some 0%Z, <[resolve decoded_password_file :=
       File new_file_info (text_of (EncodeToUTF8 (bytes_of bytes)))]> s, x);
  current_time _ := "";
  unix_time _ := 0%Z;
  mktime _ _ := 0%Z;
  random_byte x := (0, x);
  host_name _ := (0%Z, "host1");
  g_base64_decode s := Some (base64_reference s);
  readdir_order l := l
|}.
#[local] Existing Instance decoder_machine.

Lemma EncodeToUTF8_correct_witness :
  utf8_decode (EncodeToUTF8 (utf16_encode [233; 8364; 128512]%Z)) =
    Some ([233; 8364; 128512]%Z ++ replicate 508 0%Z).
Proof.
  destruct (EncodeToUTF8_correct (utf16_encode [233; 8364; 128512]%Z)) as [_ Htext].
  apply (Htext [233; 8364; 128512]%Z); [|reflexivity|].
  - repeat constructor; unfold scalar_value; lia.
  - apply (bool_decide_unpack _). vm_compute. exact I.
Defined.

Lemma test_utf16_decode_spec_witness :
  ∃ w', test_utf16_decode (World Script.demo_fs ∅ Script.demo_log ()) = (Ok EXIT_SUCCESS, w').
Proof.
  destruct (test_utf16_decode_spec (World Script.demo_fs ∅ Script.demo_log ())
    (text_of (EncodeToUTF8 (bytes_of test_utf16_password)))) as [(w' & Hrun & _) Hok].
  - done.
  - intros cmd _. eexists _, _. split; [reflexivity|]. vm_compute. reflexivity.
  - apply (bool_decide_unpack _). vm_compute. exact I.
  - rewrite Hok in Hrun by reflexivity. by exists w'.
Defined.
