(* ===== verification/Confine.v ===== *)
(** * Confinement of file-system changes

    [confined P s0 m Q]: started in a world whose file system differs from [s0]
    only at paths in [P], the computation [m] ends in such a world whatever its
    outcome, and a result it returns satisfies [Q]. The lemmas cover every
    routine the lease handlers call; the hint database [confined] and the tactic
    [confine] put them together. *)
From S2P Require Import Prelude StrUtil Logger World Json Regex Validation CredSpec Metadata Kinit Util Klist Krb.
From stdpp Require Import options.

(** The rule set is stated for any state that has a file system. *)
Class HasFs (W : Type) := fs_of : W → fs.
#[export] Instance world_has_fs X : HasFs (world X) := w_fs.
#[export] Instance kst_has_fs X : HasFs (kst X) := λ st, w_fs (kw st).

Definition confined {W A : Type} `{HasFs W} (P : list string → Prop) (s0 : fs)
    (m : M W A) (Q : A → Prop) : Prop :=
  ∀ w, unchanged P s0 (fs_of w) →
    unchanged P s0 (fs_of (m w).2) ∧
    match (m w).1 with Ok a => Q a | _ => True end.

(** Every program outside the daemon keeps to [P]. *)
Class ExternalIn (X : Type) `{Platform X} `{Krb5 X} (P : list string → Prop) := {
  ext_read cmd s x : unchanged P s (popen_read cmd s x).1.2;
  ext_write cmd bytes s x : unchanged P s (popen_write cmd bytes s x).1.2;
  ext_krb5 fn args s x : unchanged P s (krb5_call fn args s x).1.2
}.

Create HintDb confined.

Section rules.
Context {W : Type} `{HasFs W} (P : list string → Prop) (s0 : fs).
Abbreviation conf m Q := (confined P s0 m Q).

Lemma confined_weaken {A : Type} (m : M W A) (Q Q' : A → Prop) :
  conf m Q → (∀ a, Q a → Q' a) → conf m Q'.
Proof.
  intros Hm HQ w Hw. destruct (Hm w Hw) as [H1 H2]. split; [done|].
  destruct (m w).1; auto.
Qed.

Lemma confined_true {A : Type} (m : M W A) (Q : A → Prop) : conf m Q → conf m (λ _, True).
Proof. intros Hm. by eapply confined_weaken. Qed.

Lemma confined_ret {A : Type} (a : A) (Q : A → Prop) : Q a → conf (mret a) Q.
Proof. by intros Ha w Hw. Qed.

Lemma confined_throw {A : Type} e (Q : A → Prop) : conf (throw e) Q.
Proof. by intros w Hw. Qed.

Lemma confined_undefined {A : Type} e (Q : A → Prop) : conf (undefined e) Q.
Proof. by intros w Hw. Qed.

Lemma confined_bind {A B : Type} (m : M W A) (k : A → M W B) R Q :
  conf m R → (∀ a, R a → conf (k a) Q) → conf (m ≫= k) Q.
Proof.
  intros Hm Hk w Hw. destruct (Hm w Hw) as [H1 H2]. unfold mbind, M_bind.
  destruct (m w) as [[a|e|e] w']; [|done..]. by apply Hk.
Qed.

(** The common case: nothing is needed of the intermediate result. *)
Lemma confined_seq {A B : Type} (m : M W A) (k : A → M W B) Q :
  conf m (λ _, True) → (∀ a, conf (k a) Q) → conf (m ≫= k) Q.
Proof. intros Hm Hk. eapply confined_bind; [exact Hm|auto]. Qed.

Lemma confined_fmap {A B : Type} (f : A → B) (m : M W A) (Q : B → Prop) :
  conf m (λ a, Q (f a)) → conf (f <$> m) Q.
Proof. intros Hm. eapply confined_bind; [exact Hm|]. intros a Ha. by apply confined_ret. Qed.

Lemma confined_gets {A : Type} (f : W → A) : conf (gets f) (λ _, True).
Proof. by intros w Hw. Qed.

Lemma confined_lift {A : Type} (o : outcome A) : conf (lift o) (λ a, o = Ok a).
Proof. intros w Hw. split; [done|]. by destruct o. Qed.

Lemma confined_catch {A : Type} (m : M W A) h Q :
  conf m Q → (∀ e, conf (h e) Q) → conf (try_catch m h) Q.
Proof.
  intros Hm Hh w Hw. destruct (Hm w Hw) as [H1 H2]. unfold try_catch.
  destruct (m w) as [[a|e|e] w']; [done| |done]. by apply Hh.
Qed.

Lemma confined_for_each {A S : Type} (body : S → A → M W (ctl S)) (I : S → Prop) l s :
  I s → (∀ s a, a ∈ l → I s → conf (body s a) (λ c, match c with Next s' | Break s' => I s' end)) →
  conf (for_each body s l) I.
Proof.
  revert s. induction l as [|a l IH]; intros s Hs Hb; cbn.
  - by apply confined_ret.
  - eapply confined_bind; [apply Hb; [by left|done]|]. intros [s'|s'] Hs'.
    + apply IH; [done|]. intros s1 a1 Ha1. apply Hb. by right.
    + by apply confined_ret.
Qed.

(** A step that leaves the file system alone. *)
Lemma confined_same {A : Type} (m : M W A) :
  (∀ w, fs_of (m w).2 = fs_of w) → conf m (λ _, True).
Proof. intros Hm w Hw. rewrite Hm. split; [done|]. by destruct (m w).1. Qed.

End rules.

#[export] Hint Resolve confined_ret confined_throw confined_undefined confined_gets
  confined_true : confined.

(** [confine] splits sequences and case distinctions and leaves what the hint
    database does not know. *)
Ltac confine :=
  repeat first
    [ progress cbn beta zeta
    | progress intros
    | match goal with
      | |- confined _ _ (mbind _ _) _ => apply confined_seq
      | |- confined _ _ (mret _) _ => apply confined_ret
      | |- confined _ _ (fmap _ _) _ => apply confined_fmap
      | |- confined _ _ (lift _) _ => eapply confined_true, confined_lift
      | |- confined _ _ (try_catch _ _) _ => apply confined_catch
      | |- confined _ _ (match ?x with _ => _ end) _ => destruct x
      | |- True => exact I
      end
    | solve [eauto with confined] ].

Section world.
Context {X : Type} `{Platform X} `{Krb5 X}.
Context (P : list string → Prop) (s0 : fs) `{!ExternalIn X P}.
#[local] Set Default Proof Using "Type*".
Abbreviation conf m := (confined P s0 m (λ _, True)).

Lemma confined_log level msg : conf (log (X := X) level msg).
Proof.
  apply confined_same. intros w. unfold log. by destruct (logger _ _ _ _) as [[[]|e|e] l].
Qed.
Lemma confined_read_file p : conf (read_file (X := X) p).
Proof. apply confined_gets. Qed.
Lemma confined_exists p : conf (exists_ (X := X) p).
Proof. apply confined_gets. Qed.
Lemma confined_getenv p : conf (getenv (X := X) p).
Proof. apply confined_gets. Qed.
Lemma confined_time : conf (getCurrentTime (X := X)).
Proof. apply confined_gets. Qed.

Lemma confined_exec cmd : conf (exec_shell_cmd (X := X) cmd).
Proof.
  intros w Hw. unfold exec_shell_cmd. pose proof (ext_read (c_str cmd) (w_fs w) (w_ext w)) as Hr.
  destruct (popen_read _ _ _) as [[[[out st]|] s] x]; cbn in *; (split; [|done]); by etrans.
Qed.

Lemma confined_pipe cmd bytes : conf (pipe_to (X := X) cmd bytes).
Proof.
  intros w Hw. unfold pipe_to. pose proof (ext_write (c_str cmd) bytes (w_fs w) (w_ext w)) as Hr.
  destruct (popen_write _ _ _ _) as [[r s] x]; cbn in *; (split; [|done]); by etrans.
Qed.

Hint Resolve confined_log confined_read_file confined_exists confined_getenv confined_time
  confined_exec confined_pipe : confined.

(** *** The Kerberos library *)
Lemma confined_call fn args : conf (call (X := X) fn args).
Proof.
  intros st Hst. unfold call. destruct (forallb _ _); [|done].
  pose proof (ext_krb5 fn (arg_val st <$> args) (w_fs (kw st)) (w_ext (kw st))) as Hr.
  destruct (krb5_call _ _ _ _) as [[r s] x]; cbn in *. split; [|done]. unfold fs_of, kst_has_fs in *.
  cbn. by etrans.
Qed.
Hint Resolve confined_call : confined.

Lemma confined_alloc v fn args : conf (alloc (X := X) v fn args).
Proof. unfold alloc. confine; by apply confined_same. Qed.
Lemma confined_release v : conf (release (X := X) v).
Proof.
  apply confined_same. intros st. unfold release. destruct (vars st v); [|done]. by case_decide.
Qed.
Lemma confined_move t f : conf (move (X := X) t f).
Proof. by apply confined_same. Qed.
Lemma confined_check z : conf (check (X := X) z).
Proof. unfold check, goto_cleanup. confine. Qed.
Lemma confined_is_null v : conf (is_null (X := X) v).
Proof. apply confined_gets. Qed.
Lemma confined_prompts l : conf (run_prompts (X := X) l).
Proof.
  induction l as [|p l IH]; cbn [run_prompts]; confine.
  apply confined_same. intros st. unfold kinit_prompter. by destruct (has_char _ _); [case_decide|].
Qed.
Lemma confined_cleanup {A} : confined P s0 (goto_cleanup (X := X) (A := A)) (λ _, True).
Proof. apply confined_throw. Qed.
Hint Resolve confined_alloc confined_release confined_move confined_check confined_is_null
  confined_prompts confined_cleanup : confined.

Lemma confined_pa_opts l : conf (set_pa_opts (X := X) l).
Proof. induction l as [|[a v] l IH]; cbn [set_pa_opts]; confine. Qed.
Hint Resolve confined_pa_opts : confined.

Lemma confined_k5_begin opts : conf (k5_begin (X := X) opts).
Proof.
  unfold k5_begin, begin_cleanup, k5_begin_body, begin_in_cache, begin_name, begin_cache, begin_principal, begin_local_name, begin_switch,
    get_name_from_os, when.
  confine; by apply confined_same.
Qed.
Lemma confined_k5_kinit opts : conf (k5_kinit (X := X) opts).
Proof.
  unfold k5_kinit, kinit_end, k5_kinit_body, set_options, set_option, resolve_keytab, kinit_kdb_init,
    get_creds, store_creds, kinit_kdb_fini, when.
  confine.
Qed.
Hint Resolve confined_k5_begin confined_k5_kinit : confined.

Lemma confined_kinit name pass : conf (my_kinit_main (X := X) name pass).
Proof.
  assert (Hst : conf (my_kinit_main_st (X := X) name pass)).
  { unfold my_kinit_main_st, k5_end. confine; by apply confined_same. }
  intros w Hw. unfold my_kinit_main. specialize (Hst (kst_init w) Hw).
  destruct (my_kinit_main_st _ _ _) as [[r|e|e] st]; by destruct Hst.
Qed.
Hint Resolve confined_kinit : confined.

(** *** [Util] *)
Lemma confined_permissions f : conf (check_file_permissions (X := X) f).
Proof. unfold check_file_permissions. confine. Qed.
Hint Resolve confined_permissions : confined.
Lemma confined_which c e : conf (which_present (X := X) c e).
Proof. unfold which_present. confine. Qed.
Hint Resolve confined_which : confined.
Lemma confined_binaries : conf (check_util_binaries_permissions (X := X)).
Proof. unfold check_util_binaries_permissions. confine. Qed.
Lemma confined_ecs v : conf (retrieve_variable_from_ecs_config (X := X) v).
Proof. unfold retrieve_variable_from_ecs_config. confine. Qed.
Lemma confined_secret {V : Type} `{JsonCpp V} n : conf (get_secret_from_secrets_manager (X := X) (V := V) n).
Proof. unfold get_secret_from_secrets_manager. confine. Qed.
Hint Resolve confined_binaries confined_ecs confined_secret : confined.
Lemma confined_base_dn_secret {V : Type} `{JsonCpp V} n : conf (get_base_dn_from_secret (X := X) (V := V) n).
Proof. unfold get_base_dn_from_secret. confine. Qed.
Lemma confined_fqdns d : conf (get_FQDN_list (X := X) d).
Proof. unfold get_FQDN_list, get_FQDNs. confine. Qed.
Lemma confined_ldap_attempts n fqdn cmd last : conf (ldap_attempts (X := X) n fqdn cmd last).
Proof. revert cmd last. induction n as [|n IH]; intros cmd last; cbn [ldap_attempts]; confine. Qed.
Hint Resolve confined_base_dn_secret confined_fqdns confined_ldap_attempts : confined.
Lemma confined_ldap a d f s : conf (execute_ldapsearch (X := X) a d f s).
Proof. unfold execute_ldapsearch. confine. Qed.
Hint Resolve confined_ldap : confined.
Lemma confined_find_dn a b f : conf (find_dn (X := X) a b f).
Proof. unfold find_dn. confine. Qed.
Lemma confined_vault {V : Type} `{JsonCpp V} d s :
  conf (generate_krb_ticket_using_secret_vault (X := X) (V := V) d s).
Proof. unfold generate_krb_ticket_using_secret_vault. confine. Qed.
Lemma confined_user_ticket d u p :
  conf (generate_krb_ticket_using_username_and_password (X := X) d u p).
Proof.
  unfold generate_krb_ticket_using_username_and_password, is_kinit_cmd_present,
    is_ldapsearch_cmd_present. confine.
Qed.
Lemma confined_machine_principal d : conf (get_machine_principal (X := X) d).
Proof. unfold get_machine_principal, get_realm_name, check_domain_name. confine. Qed.
Hint Resolve confined_find_dn confined_vault confined_user_ticket confined_machine_principal
  : confined.

(** *** [krb.cpp] *)
Lemma confined_machine d : conf (generate_krb_ticket_from_machine_keytab (X := X) d).
Proof.
  unfold generate_krb_ticket_from_machine_keytab, require_cmd, is_hostname_cmd_present,
    is_realm_cmd_present, is_kinit_cmd_present, is_ldapsearch_cmd_present,
    is_decode_exe_present, execute_kinit_in_domain_joined_case.
  confine.
Qed.

(** [fetch_gmsa_password_and_create_krb_ticket] changes no field of the ticket but
    the distinguished name. *)
Definition same_ticket (t t' : krb_ticket_info) : Prop :=
  with_distinguished_name "" t' = with_distinguished_name "" t.

Lemma same_ticket_path t t' : same_ticket t t' → krb_file_path t' = krb_file_path t.
Proof. unfold same_ticket, with_distinguished_name. congruence. Qed.

Lemma same_ticket_set_dn t t' d : same_ticket t t' → same_ticket t (with_distinguished_name d t').
Proof. unfold same_ticket, with_distinguished_name. by destruct t, t'. Qed.

Lemma confined_fetch d t cc :
  confined P s0 (fetch_gmsa_password_and_create_krb_ticket (X := X) d t cc)
    (λ r, same_ticket t r.2).
Proof.
  unfold fetch_gmsa_password_and_create_krb_ticket. destruct (_ || _).
  { apply confined_seq; [apply confined_log|]. intros _. by apply confined_ret. }
  apply confined_seq; [eapply confined_true, confined_lift|]. intros base.
  apply confined_seq; [apply confined_getenv|]. intros ou.
  apply confined_seq; [apply confined_fqdns|]. intros fqdns. cbv zeta.
  eapply confined_bind.
  { apply (confined_for_each _ _ _ (λ st, same_ticket t st.1.2)); [done|].
    intros [[dn t1] r1] fqdn _ Ht. unfold fetch_body. cbn in Ht.
    apply confined_seq; [confine|]. intros dn'. cbv zeta.
    apply confined_seq; [apply confined_ldap|]. intros r.
    destruct (r.1 =? 0)%Z; (apply confined_seq; [confine|]); intros _; apply confined_ret; cbn;
      by apply same_ticket_set_dn. }
  intros [[dn t1] r1] Ht. cbn in Ht. destruct (negb _); [by apply confined_ret|].
  apply confined_seq.
  - unfold kinit_with_password. confine.
  - intros r. by apply confined_ret.
Qed.

(** *** The loops over the metadata files *)
Context {V : Type} `{JsonCpp V}.

Lemma confined_read_meta p : conf (read_meta_data_json (X := X) (V := V) p).
Proof.
  apply confined_same. intros w. pose proof (read_meta_data_json_run (V := V) p w) as Hrun.
  destruct (read_meta_data_json p w) as [[l|e|e] w']; cbn; [by destruct Hrun as [-> _]|done|by subst].
Qed.

Lemma confined_loop {A S} (body : S → A → M (world X) (ctl S)) s l :
  (∀ s a, conf (body s a)) → conf (for_each body s l).
Proof using.
  intros Hb. apply confined_for_each; [done|]. intros s' a _ _.
  eapply confined_weaken; [apply Hb|]. by intros [].
Qed.

(** A loop over the tickets of each metadata file. *)
Lemma confined_tickets_loop {S} (body : S → krb_ticket_info → M (world X) (ctl S)) s p :
  (∀ s t, conf (body s t)) →
  conf (tickets ← read_meta_data_json (V := V) p; Next <$> for_each body s tickets).
Proof.
  intros Hb. apply confined_seq; [apply confined_read_meta|]. intros tickets.
  apply confined_fmap. by apply confined_loop.
Qed.

Lemma confined_renew_loop fuel i t d u p path : conf (renew_loop (X := X) fuel i t d u p path).
Proof.
  revert i t path. induction fuel as [|fuel IH]; intros i t path; cbn [renew_loop]; [confine|].
  case_decide; [|confine]. apply confined_seq; [eapply confined_true, confined_fetch|].
  intros [[code out] t']. unfold user_ticket. confine.
Qed.

Lemma confined_renew_domainless dir d u p :
  conf (renew_kerberos_tickets_domainless (X := X) (V := V) dir d u p).
Proof.
  unfold renew_kerberos_tickets_domainless. apply confined_seq.
  { apply confined_same. intros w. unfold get_meta_data_file_paths. by destruct (fs_is_dir _ _). }
  intros files. apply confined_loop. intros paths file. apply confined_tickets_loop.
  intros ps t. unfold renew_tickets_body, renew_gmsa_ticket. destruct (_ && _); [|by apply confined_ret].
  apply confined_seq; [apply confined_renew_loop|]. intros path. by apply confined_ret.
Qed.

Lemma confined_delete_loop path paths names :
  conf (for_each (delete_entry (X := X) (V := V) path) paths names).
Proof.
  apply confined_loop. intros ps name. unfold delete_entry.
  destruct (is_metadata_name name); [|by apply confined_ret].
  apply confined_tickets_loop. intros ps' t. unfold destroy_body. confine.
Qed.

End world.

#[export] Hint Resolve confined_log confined_read_file confined_exists confined_getenv confined_time
  confined_exec confined_pipe confined_kinit confined_permissions confined_which confined_binaries
  confined_ecs confined_secret confined_base_dn_secret confined_fqdns confined_ldap
  confined_find_dn confined_vault confined_user_ticket confined_machine_principal
  confined_machine : confined.
