(* ===== verification/Lease.v ===== *)
(** * Leases ([api/src/gmsa_service.cpp])

    What the gRPC handlers do between the arrival of a request and the reply
    (the PROCESS branch of each [CallData...::Proceed]), and the credential
    specification file the daemon processes at its start. *)
From S2P Require Import Prelude StrUtil Logger World Json Regex Validation CredSpec Metadata Kinit Util Klist Krb Confine.
From stdpp Require Import options.

(** ** Requests and replies ([protos/credentialsfetcher.proto]) *)
Definition INPUT_CREDENTIALS_LENGTH : nat := 104.
Definition DOMAIN_LENGTH : nat := 253.

(** [None] is [grpc::Status::OK], [Some msg] the status INTERNAL. *)
Record lease_reply := LeaseReply {
  lr_lease_id : string;
  lr_paths : list string;
  lr_status : option string
}.

(** ** Loops shared by the handlers *)

(** What becomes of a ticket: the next one follows, or the loop stops, with an
    error unless the message is empty. *)
Inductive made := Made (t : krb_ticket_info) | Stop (err_msg : string) (t : krb_ticket_info).

Definition krb_files_path (krb_files_dir lease_id account : string) : string :=
  krb_files_dir +:+ "/" +:+ lease_id +:+ "/" +:+ account.

Section lease.
Context {X : Type} `{Platform X} {V : Type} `{JsonCpp V} `{Krb5 X}.
Abbreviation MW := (M (world X)).

(** [n] random bytes, one at a time. *)
Fixpoint random_bytes (n : nat) : MW (list nat) :=
  match n with
  | O => mret []
  | S n' => b ← (λ w : world X, let '(b, x) := random_byte (w_ext w) in (Ok b, set_ext x w));
            l ← random_bytes n'; mret (b :: l)
  end.

Definition generate_lease_id : MW string :=
  bytes ← random_bytes LEASE_ID_LENGTH; mret (lease_id_of_bytes bytes).

(** The loop over the credential specifications of a request: the error message
    and the tickets, one for each account. [empty_err] is the message for an
    empty specification where the handler looks for one. *)
Fixpoint parse_credspecs (krb_files_dir lease_id user : string) (empty_err : option string)
    (contents : list string) (krb_ticket_dirs : gset string) (tickets : list krb_ticket_info)
    : outcome (string * list krb_ticket_info) :=
  match contents with
  | [] => Ok ("", tickets)
  | content :: rest =>
    match empty_err, str_empty content with
    | Some err, true => Ok (err, tickets)
    | _, _ =>
      r ← parse_cred_spec (V := V) content new_ticket;
      let '(parse_result, t) := r in
      if negb (parse_result =? 0)%Z then Ok ("ERROR: invalid credentialspec fields", tickets)
      else
        let path := krb_files_path krb_files_dir lease_id (service_account_name t) in
        let t := with_domainless_user user (with_krb_file_path path t) in
        if decide (path ∈ krb_ticket_dirs)
        then parse_credspecs krb_files_dir lease_id user empty_err rest krb_ticket_dirs tickets
        else parse_credspecs krb_files_dir lease_id user empty_err rest
               ({[path]} ∪ krb_ticket_dirs) (tickets ++ [t])
    end
  end.

(** The directory of a ticket and its empty cache file: [None] when the
    directory is there already. *)
Definition make_cache (t : krb_ticket_info) : MW (option krb_ticket_info) :=
  let krb_file_path := krb_file_path t in
  found ← exists_ krb_file_path;
  if found : bool then
    log LOG_INFO ("Directory already exists: " +:+ krb_file_path);; mret None
  else
    create_directories krb_file_path;;
    let krb_ccname_str := krb_file_path +:+ "/krb5cc" in
    found ← exists_ krb_ccname_str;
    if found : bool then mret (Some t)
    else write_file krb_ccname_str "";; mret (Some (with_krb_file_path krb_ccname_str t)).

(** The loop over the tickets: the error message, the tickets as they are now,
    and the paths added to the reply. *)
Fixpoint create_tickets (step : krb_ticket_info → MW made) (tickets : list krb_ticket_info)
    : MW (string * list krb_ticket_info * list string) :=
  match tickets with
  | [] => mret ("", [], [])
  | t :: rest =>
    r ← step t;
    match r with
    | Stop err_msg t' => mret (err_msg, t' :: rest, [])
    | Made t' =>
      r ← create_tickets step rest;
      let '(err_msg, rest', paths) := r in
      mret (err_msg, t' :: rest', krb_file_path t :: paths)
    end
  end.

(** [for ( auto krb_ticket : krb_ticket_info_list ) remove_all( krb_file_path )] *)
Fixpoint remove_tickets (tickets : list krb_ticket_info) : MW unit :=
  match tickets with
  | [] => mret tt
  | t :: rest => remove_all (krb_file_path t);; remove_tickets rest
  end.

(** The end of a handler that creates leases. *)
Definition finish_lease (krb_files_dir lease_id reply_id : string)
    (r : string * list krb_ticket_info * list string) : MW lease_reply :=
  let '(err_msg, tickets, paths) := r in
  if negb (str_empty err_msg) then
    remove_tickets tickets;; mret (LeaseReply reply_id paths (Some err_msg))
  else
    write_meta_data_json tickets lease_id krb_files_dir;;
    mret (LeaseReply reply_id paths None).

(** ** [AddKerberosLease] *)

(** One ticket of the loop. *)
Definition create_lease_step (aws_sm_secret_name : string) (t : krb_ticket_info) : MW made :=
  st ← (if negb (String.length aws_sm_secret_name =? 0)%nat then
          status ← generate_krb_ticket_using_secret_vault (domain_name t) aws_sm_secret_name;
          mret (status, with_domainless_user ("awsdomainlessusersecret:" +:+ aws_sm_secret_name) t)
        else
          status ← generate_krb_ticket_from_machine_keytab (domain_name t); mret (status, t));
  let '(status, t) := st in
  if (status.1 <? 0)%Z then
    log LOG_ERR ("Error: " +:+ to_string status.1 +:+ " Cannot get machine krb ticket " +:+ status.2);;
    mret (Stop "ERROR: cannot get machine krb ticket" t)
  else
    let krb_ccname_str := krb_file_path t +:+ "/krb5cc" in
    made ← make_cache t;
    match made with
    | None => mret (Stop "" t)
    | Some t =>
      r ← fetch_gmsa_password_and_create_krb_ticket (domain_name t) t krb_ccname_str;
      let '(gmsa_ticket_result, t) := r in
      if negb (gmsa_ticket_result.1 =? 0)%Z then
        log LOG_ERR ("ERROR: Cannot get gMSA krb ticket " +:+ to_string status.1 +:+ " " +:+ status.2);;
        mret (Stop "ERROR: Cannot get gMSA krb ticket" t)
      else
        log LOG_INFO ("gMSA ticket is at " +:+ gmsa_ticket_result.2);; mret (Made t)
    end.

Definition CreateKerberosLease (krb_files_dir aws_sm_secret_name : string)
    (credspec_contents : list string) : MW lease_reply :=
  lease_id ← generate_lease_id;
  parsed ← lift (parse_credspecs krb_files_dir lease_id "" None credspec_contents ∅ []);
  let '(err_msg, tickets) := parsed in
  r ← (if str_empty err_msg then create_tickets (create_lease_step aws_sm_secret_name) tickets
       else mret (err_msg, tickets, []));
  finish_lease krb_files_dir lease_id lease_id r.

(** ** [AddNonDomainJoinedKerberosLease] *)
Definition credentials_ok (username password domain : string) : bool :=
  negb (str_empty username) && negb (str_empty password) && negb (str_empty domain) &&
  (String.length username <? INPUT_CREDENTIALS_LENGTH)%nat &&
  (String.length password <? INPUT_CREDENTIALS_LENGTH)%nat &&
  (String.length domain <? DOMAIN_LENGTH)%nat.

Definition names_ok (username domain : string) : bool :=
  isValidDomain domain && negb (contains_invalid_characters_in_ad_account_name username).

Definition err_credentials : string :=
  "Error: domainless AD user credentials is not valid/ " +:+
  "credentials should not be more than 256 charaters".
Definition err_names : string := "Error: invalid domainName/username".

Definition nondomain_step (domain username password : string) (t : krb_ticket_info) : MW made :=
  if str_empty username || str_empty password then
    log LOG_ERR ("Invalid credentials for domainless user " +:+ username);;
    mret (Stop "ERROR: Invalid credentials for domainless user" t)
  else
    status ← generate_krb_ticket_using_username_and_password domain username password;
    if (status.1 <? 0)%Z then
      let err_msg := "ERROR: " +:+ to_string status.1 +:+
                     ": cannot retrieve domainless user kerberos tickets" in
      log LOG_ERR err_msg;; mret (Stop err_msg t)
    else
      let krb_ccname_str := krb_file_path t +:+ "/krb5cc" in
      made ← make_cache t;
      match made with
      | None => mret (Stop "" t)
      | Some t =>
        from_config ← retrieve_variable_from_ecs_config ENV_CF_DISTINGUISHED_NAME;
        distinguished_name ←
          (if str_empty from_config then
             v ← get_base_dn_from_secret (credential_arn t);
             mret (if (v.1 =? 0)%Z then v.2 else from_config)
           else mret from_config);
        let t := with_distinguished_name distinguished_name t in
        r ← fetch_gmsa_password_and_create_krb_ticket domain t krb_ccname_str;
        let '(gmsa_ticket_result, t) := r in
        if negb (gmsa_ticket_result.1 =? 0)%Z then
          let err_msg := "ERROR: Cannot get gMSA krb ticket " +:+ gmsa_ticket_result.2 in
          log LOG_ERR err_msg;; mret (Stop err_msg t)
        else
          log LOG_INFO ("gMSA ticket is at " +:+ gmsa_ticket_result.2);; mret (Made t)
      end.

Definition AddNonDomainJoinedKerberosLease (krb_files_dir username password domain : string)
    (credspec_contents : list string) : MW lease_reply :=
  lease_id ← generate_lease_id;
  parsed ←
    (if names_ok username domain then
       if credentials_ok username password domain && (0 <? length credspec_contents)%nat then
         r ← lift (parse_credspecs krb_files_dir lease_id username
                     (Some "Error: credentialspec content shouldn't be empty formatted")
                     credspec_contents ∅ []);
         mret (r, lease_id)
       else mret ((err_credentials, []), "")
     else mret ((err_names, []), ""));
  let '((err_msg, tickets), reply_id) := parsed in
  r ← (if str_empty err_msg then create_tickets (nondomain_step domain username password) tickets
       else mret (err_msg, tickets, []));
  finish_lease krb_files_dir lease_id reply_id r.

(** ** [RenewNonDomainJoinedKerberosLease] *)
Definition RenewNonDomainJoinedKerberosLease (krb_files_dir username password domain : string)
    : MW lease_reply :=
  if names_ok username domain then
    if credentials_ok username password domain then
      paths ← renew_kerberos_tickets_domainless krb_files_dir domain username password;
      mret (LeaseReply "" paths None)
    else mret (LeaseReply "" [] (Some err_credentials))
  else mret (LeaseReply "" [] (Some err_names)).

(** ** [DeleteKerberosLease] *)
Definition DeleteKerberosLease (krb_files_dir lease_id : string) : MW lease_reply :=
  if negb (str_empty lease_id) then
    paths ← delete_krb_tickets krb_files_dir lease_id;
    mret (LeaseReply lease_id paths None)
  else mret (LeaseReply "" [] (Some "Error: lease_id is not valid")).

(** ** [ProcessCredSpecFile] *)

(** What follows a successful parse: the error message and the ticket, or an
    early failure. *)
Definition credspec_file_ticket (t : krb_ticket_info) : MW (option (string * krb_ticket_info)) :=
  status ← generate_krb_ticket_from_machine_keytab (domain_name t);
  if (status.1 <? 0)%Z then
    log LOG_ERR ("Error: " +:+ to_string status.1 +:+ " " +:+ status.2 +:+
      " Cannot get machine krb ticket");;
    mret None
  else
    let path := krb_file_path t in
    found ← exists_ path;
    (if found : bool then
       log LOG_INFO ("Deleting existing credential file directory " +:+ path);; remove_all path
     else mret tt);;
    create_directories path;;
    let krb_ccname_str := path +:+ "/krb5cc" in
    found ← exists_ krb_ccname_str;
    t ← (if found : bool then mret t
         else write_file krb_ccname_str "";; mret (with_krb_file_path krb_ccname_str t));
    r ← fetch_gmsa_password_and_create_krb_ticket (domain_name t) t krb_ccname_str;
    let '(gmsa_ticket_result, t) := r in
    if negb (gmsa_ticket_result.1 =? 0)%Z then
      log LOG_ERR ("ERROR: Cannot get gMSA krb ticket " +:+ to_string status.1 +:+ " " +:+ status.2);;
      mret (Some ("ERROR: Cannot get gMSA krb ticket", t))
    else
      chmod krb_ccname_str 420;;
      log LOG_INFO ("gMSA ticket is at " +:+ gmsa_ticket_result.2);; mret (Some ("", t)).

Definition ProcessCredSpecFile (krb_files_dir credspec_filepath cred_file_lease_id : string) : MW Z :=
  log LOG_INFO ("Generating lease id " +:+ cred_file_lease_id);;
  found ← exists_ credspec_filepath;
  if negb found then
    log LOG_ERR ("The credential spec file " +:+ credspec_filepath +:+ " was not found!");;
    mret EXIT_FAILURE
  else
  contents ← read_file credspec_filepath;
  match contents with
  | None =>
    log LOG_ERR ("Unable to open credential spec file: " +:+ credspec_filepath);;
    mret EXIT_FAILURE
  | Some credspec_contents =>
    parsed ← lift (parse_cred_spec (V := V) credspec_contents new_ticket);
    let '(parse_result, t) := parsed in
    done ←
      (if (parse_result =? EXIT_SUCCESS)%Z then
         let path := krb_files_path krb_files_dir cred_file_lease_id (service_account_name t) in
         credspec_file_ticket
           (with_credspec_info "" (with_domainless_user "" (with_krb_file_path path t)))
       else mret (Some ("Error: credential spec provided is not properly formatted", t)));
    match done with
    | None => mret EXIT_FAILURE
    | Some (err_msg, t) =>
      if negb (str_empty err_msg) then
        remove_all (krb_file_path t);; log LOG_ERR err_msg;; mret EXIT_FAILURE
      else
        write_meta_data_json_one t cred_file_lease_id krb_files_dir;; mret EXIT_SUCCESS
    end
  end.

(** ** Confinement *)
Section confinement.
Context (dir lease : string) (ext : list string → Prop) (s0 : fs).

(** The directory of the lease, and what may change: what is below it and what
    the programs outside the daemon write. *)
Definition lease_dir : list string := resolve dir ++ [lease].
Definition may_change (k : list string) : Prop := lease_dir `prefix_of` k ∨ ext k.

Context `{!ExternalIn X may_change}.
Hypothesis Hdir : plain_path dir.
Hypothesis Hlease : plain_name lease.
Hypothesis Hexist : dirs_exist (resolve dir) s0.
Hypothesis Hext : ∀ k, k `prefix_of` resolve dir → ¬ ext k.
#[local] Set Default Proof Using "Type*".
Abbreviation conf m Q := (confined may_change s0 m Q).

Lemma dirs_stay s : unchanged may_change s0 s → dirs_exist (resolve dir) s.
Proof.
  intros Hs k Hk Hne. rewrite Hs; [by apply Hexist|]. intros [Hp|Hx]; [|by eapply Hext].
  assert (Hl : length lease_dir ≤ length (resolve dir)) by (apply prefix_length; by etrans).
  unfold lease_dir in Hl. rewrite length_app in Hl. cbn in Hl. lia.
Qed.

Lemma confined_write p c : lease_dir `prefix_of` resolve p → conf (write_file (X := X) p c) (λ _, True).
Proof.
  intros Hp w Hw. unfold write_file, fs_write. destruct (_ && _); [|done].
  destruct (w_fs w !! resolve p) as [[i|i t]|]; [done| |case_decide; [done|]];
    (split; [|done]); intros k Hk; unfold fs_of, world_has_fs; cbn;
    (rewrite lookup_insert_ne; [by apply Hw|]); intros <-; apply Hk; by left.
Qed.

Lemma confined_remove p : lease_dir `prefix_of` resolve p → conf (remove_all (X := X) p) (λ _, True).
Proof.
  intros Hp w Hw. unfold remove_all. pose proof (fs_remove_all_other p (w_fs w)) as Ho.
  destruct (fs_remove_all p (w_fs w)) as [r s]. cbn in Ho |- *. split; [|by destruct r].
  intros k Hk. unfold fs_of, world_has_fs. cbn. rewrite Ho; [by apply Hw|].
  intros Hpk. apply Hk. left. by etrans.
Qed.

Lemma confined_create p pad rest :
  split_string p slash = split_string dir slash ++ pad ++ lease :: rest →
  Forall (λ c, c = "") pad → no_dots rest →
  conf (create_directories (X := X) p) (λ _, True).
Proof.
  intros Hp Hpad Hrest w Hw. unfold create_directories.
  destruct (fs_create_directories p (w_fs w)) as [s|e|e] eqn:Hc; [|done..].
  split; [|done]. intros k Hk. unfold fs_of, world_has_fs. cbn.
  rewrite (create_below p dir pad lease rest (w_fs w) s k Hp Hdir Hpad Hlease Hrest
    (dirs_stay _ Hw) Hc); [by apply Hw|].
  intros Hx. apply Hk. by left.
Qed.

Lemma resolve_files_path acc :
  plain_name acc → resolve (krb_files_path dir lease acc) = lease_dir ++ [acc].
Proof using Hlease.
  intros Ha.
  assert (krb_files_path dir lease acc = (dir +:+ "/" +:+ lease) +:+ "/" +:+ acc) as ->
    by (unfold krb_files_path; by rewrite !str_app_assoc).
  by rewrite !resolve_app_plain.
Qed.

(** A ticket of the lease: its path is below the lease's directory. *)
Definition inside (t : krb_ticket_info) : Prop := lease_dir `prefix_of` resolve (krb_file_path t).

(** A ticket before its cache is made. *)
Definition fresh_ticket (t : krb_ticket_info) : Prop :=
  ∃ acc, plain_name acc ∧ krb_file_path t = krb_files_path dir lease acc.

Lemma fresh_inside t : fresh_ticket t → inside t.
Proof using Hlease.
  intros (acc & Ha & Ht). unfold inside. rewrite Ht, resolve_files_path by done.
  by apply prefix_app_r.
Qed.

(** The directory of an account and its empty cache. *)
Lemma confined_account_dir t :
  fresh_ticket t → conf (create_directories (X := X) (krb_file_path t)) (λ _, True).
Proof.
  intros (acc & Ha & ->). unfold krb_files_path.
  destruct (split_app dir (lease +:+ "/" +:+ acc)) as (pad & Hpad & Heq).
  destruct (split_app lease acc) as (pad' & Hpad' & Heq').
  rewrite (split_plain lease) in Heq' by apply Hlease.
  rewrite (split_plain acc) in Heq' by apply Ha.
  rewrite Heq' in Heq. eapply (confined_create _ pad (pad' ++ [acc])); [exact Heq|done|].
  apply Forall_app. split; [by apply no_dots_pad|].
  constructor; [split; apply Ha|constructor].
Qed.

Lemma cache_inside t : fresh_ticket t → lease_dir `prefix_of` resolve (krb_file_path t +:+ "/krb5cc").
Proof using Hlease.
  intros (acc & Ha & ->). change "/krb5cc" with ("/" +:+ "krb5cc").
  rewrite resolve_app_plain by (apply (bool_decide_unpack _); by vm_compute).
  rewrite resolve_files_path, <-app_assoc by done. by apply prefix_app_r.
Qed.

Lemma confined_make_cache t :
  fresh_ticket t →
  conf (make_cache t) (λ o, match o with
    | Some t' => inside t' ∧ domain_name t' = domain_name t | None => True end).
Proof.
  intros Ht. unfold make_cache. cbv zeta.
  apply confined_seq; [by apply confined_exists|]. intros [].
  { apply confined_seq; [by apply confined_log|]. intros _. by apply confined_ret. }
  apply confined_seq; [by apply confined_account_dir|].
  intros _. apply confined_seq; [by apply confined_exists|]. intros [].
  - apply confined_ret. split; [by apply fresh_inside|done].
  - apply confined_seq; [by apply confined_write, cache_inside|].
    intros _. apply confined_ret. split; [by apply cache_inside|done].
Qed.

(** The ticket a step leaves behind. *)
Definition made_inside (m : made) : Prop :=
  match m with Made t | Stop _ t => inside t end.

Lemma fetch_inside d t cc :
  inside t → conf (fetch_gmsa_password_and_create_krb_ticket (X := X) d t cc) (λ r, inside r.2).
Proof.
  intros Ht. eapply confined_weaken; [by apply confined_fetch|].
  intros r Hr. unfold inside. by rewrite (same_ticket_path _ _ Hr).
Qed.

Lemma confined_chmod p mode : lease_dir `prefix_of` resolve p → conf (chmod (X := X) p mode) (λ _, True).
Proof.
  intros Hp w Hw. split; [|done]. intros k Hk. unfold fs_of, world_has_fs. cbn. unfold fs_chmod.
  destruct (fs_lookup p (w_fs w)) as [[]|]; [rewrite lookup_insert_ne..|]; try by apply Hw.
  all: intros <-; apply Hk; by left.
Qed.

(** The ticket of a credential specification file, when one is left behind. *)
Lemma confined_credspec_file_ticket t :
  fresh_ticket t →
  conf (credspec_file_ticket t) (λ r, match r with Some (_, t') => inside t' | None => True end).
Proof.
  intros Ht. unfold credspec_file_ticket. apply confined_seq; [eauto with confined|]. intros st.
  destruct (st.1 <? 0)%Z.
  { apply confined_seq; [by apply confined_log|]. intros _. by apply confined_ret. }
  cbv zeta. apply confined_seq; [by apply confined_exists|]. intros found.
  apply confined_seq.
  { destruct found; [|by apply confined_ret].
    apply confined_seq; [by apply confined_log|]. intros _. by apply confined_remove, fresh_inside. }
  intros _. apply confined_seq; [by apply confined_account_dir|]. intros _.
  apply confined_seq; [by apply confined_exists|]. intros found2.
  eapply (confined_bind _ _ _ _ inside).
  { destruct found2; [by apply confined_ret, fresh_inside|].
    apply confined_seq; [by apply confined_write, cache_inside|]. intros _.
    apply confined_ret. by apply cache_inside. }
  intros t2 Ht2. eapply confined_bind; [by apply fetch_inside|]. intros [r t3] Ht3.
  destruct (negb _).
  - apply confined_seq; [by apply confined_log|]. intros _. by apply confined_ret.
  - apply confined_seq; [by apply confined_chmod, cache_inside|]. intros _.
    apply confined_seq; [by apply confined_log|]. intros _. by apply confined_ret.
Qed.

Lemma confined_create_step secret t :
  fresh_ticket t → conf (create_lease_step secret t) made_inside.
Proof.
  intros Ht. unfold create_lease_step. eapply (confined_bind _ _ _ _ (λ st, fresh_ticket st.2)).
  { destruct (negb _); (apply confined_seq; [eauto with confined|]); intros st; by apply confined_ret. }
  intros [st t1] Ht1. cbn [snd] in Ht1. destruct (st.1 <? 0)%Z.
  { apply confined_seq; [by apply confined_log|]. intros _. apply confined_ret. by apply fresh_inside. }
  cbv zeta. eapply confined_bind; [by apply confined_make_cache|]. intros [t2|].
  2:{ intros _. apply confined_ret. by apply fresh_inside. }
  intros [Ht2 _]. eapply confined_bind; [by apply fetch_inside|]. intros [r t3] Ht3.
  destruct (negb _); (apply confined_seq; [by apply confined_log|]); intros _; by apply confined_ret.
Qed.

Lemma confined_nondomain_step domain user pass t :
  fresh_ticket t → conf (nondomain_step domain user pass t) made_inside.
Proof.
  intros Ht. unfold nondomain_step. destruct (_ || _).
  { apply confined_seq; [by apply confined_log|]. intros _. apply confined_ret. by apply fresh_inside. }
  apply confined_seq; [eauto with confined|]. intros st. destruct (st.1 <? 0)%Z.
  { apply confined_seq; [by apply confined_log|]. intros _. apply confined_ret. by apply fresh_inside. }
  cbv zeta. eapply confined_bind; [by apply confined_make_cache|]. intros [t2|].
  2:{ intros _. apply confined_ret. by apply fresh_inside. }
  intros [Ht2 _]. apply confined_seq; [eauto with confined|]. intros cfg.
  apply confined_seq; [confine|]. intros dn.
  eapply confined_bind; [by apply fetch_inside|]. intros [r t3] Ht3.
  destruct (negb _); (apply confined_seq; [by apply confined_log|]); intros _; by apply confined_ret.
Qed.

Lemma confined_create_tickets step tickets :
  (∀ t, fresh_ticket t → conf (step t) made_inside) → Forall fresh_ticket tickets →
  conf (create_tickets step tickets) (λ r, Forall inside r.1.2).
Proof.
  intros Hstep. induction 1 as [|t rest Ht Hrest IH]; cbn [create_tickets].
  { by apply confined_ret. }
  eapply confined_bind; [by apply Hstep|]. intros [t'|err t'] Ht'.
  - eapply confined_bind; [exact IH|]. intros [[err ts] ps] Hts. apply confined_ret. by constructor.
  - apply confined_ret. constructor; [done|].
    eapply Forall_impl; [exact Hrest|]. intros x. apply fresh_inside.
Qed.

Lemma confined_remove_tickets tickets :
  Forall inside tickets → conf (remove_tickets tickets) (λ _, True).
Proof.
  induction 1 as [|t rest Ht _ IH]; cbn [remove_tickets]; [by apply confined_ret|].
  apply confined_seq; [by apply confined_remove|]. by intros _.
Qed.

Lemma confined_write_metadata tickets :
  conf (write_meta_data_json (X := X) (V := V) tickets lease dir) (λ _, True).
Proof.
  unfold write_meta_data_json. cbv zeta.
  assert (Hm : meta_file_path lease dir = (dir +:+ "/" +:+ lease) +:+ String slash (lease +:+ "_metadata.json")).
  { unfold meta_file_path. by rewrite !str_app_assoc. }
  destruct Hlease as (Hne & Hd & Hdd & Hno).
  assert (Hslash : has_char slash (lease +:+ "_metadata.json") = false)
    by by rewrite has_char_app, Hno.
  apply confined_catch; [|by intros e; apply confined_ret].
  apply confined_seq.
  { rewrite Hm, parent_path_app by done. destruct (split_app dir lease) as (pad & Hpad & Heq).
    rewrite (split_plain lease) in Heq by done.
    eapply (confined_create _ pad []); [exact Heq|done|constructor]. }
  intros _. apply confined_seq; [eapply confined_true, confined_lift|]. intros root.
  apply confined_seq; [|intros _; by apply confined_ret].
  apply confined_write. rewrite Hm.
  change (String slash (lease +:+ "_metadata.json")) with ("/" +:+ (lease +:+ "_metadata.json")).
  rewrite resolve_app_plain; [rewrite resolve_app_plain by (by split_and!); by apply prefix_app_r|].
  split_and!; [by destruct lease|intros Hx|intros Hx|done];
    apply (f_equal String.length) in Hx; rewrite str_app_length in Hx; cbn in Hx; lia.
Qed.

Lemma confined_finish reply_id r :
  Forall inside r.1.2 →
  conf (finish_lease dir lease reply_id r) (λ reply, lr_lease_id reply = reply_id).
Proof.
  destruct r as [[err ts] ps]. cbn. intros Hts. unfold finish_lease. destruct (negb _).
  - apply confined_seq; [by apply confined_remove_tickets|]. intros _. by apply confined_ret.
  - apply confined_seq; [apply confined_write_metadata|]. intros _. by apply confined_ret.
Qed.

(** The account names of the specifications that parse are not dot names. *)
Definition accounts_plain (contents : list string) : Prop :=
  ∀ c t, c ∈ contents → parse_cred_spec (V := V) c new_ticket = Ok (0%Z, t) →
    service_account_name t ≠ "." ∧ service_account_name t ≠ "..".

Lemma parse_credspecs_fresh user empty_err contents dirs acc r :
  accounts_plain contents → Forall fresh_ticket acc →
  parse_credspecs dir lease user empty_err contents dirs acc = Ok r →
  Forall fresh_ticket r.2.
Proof using Hlease.
  intros Hplain. revert dirs acc. induction contents as [|c rest IH]; intros dirs acc Hacc; cbn [parse_credspecs].
  { by intros [= <-]. }
  assert (Hstep : ∀ o : outcome (string * list krb_ticket_info), o =
      (r0 ← parse_cred_spec (V := V) c new_ticket;
       let '(parse_result, t) := r0 in
       if negb (parse_result =? 0)%Z then Ok ("ERROR: invalid credentialspec fields", acc)
       else
         let path := krb_files_path dir lease (service_account_name t) in
         let t := with_domainless_user user (with_krb_file_path path t) in
         if decide (path ∈ dirs)
         then parse_credspecs dir lease user empty_err rest dirs acc
         else parse_credspecs dir lease user empty_err rest ({[path]} ∪ dirs) (acc ++ [t])) →
    o = Ok r → Forall fresh_ticket r.2).
  { intros o ->. destruct (parse_cred_spec c new_ticket) as [[z t]|e|e] eqn:Hp; [|done..].
    cbn [mbind outcome_bind]. destruct (z =? 0)%Z eqn:Hz; cbn [negb]; [|by intros [= <-]].
    apply Z.eqb_eq in Hz as ->. cbv zeta.
    assert (Hrest : accounts_plain rest) by (intros c' t' Hc'; apply Hplain; by right).
    case_decide; [by apply IH|]. apply IH; [done|]. apply Forall_app. split; [done|].
    constructor; [|constructor]. exists (service_account_name t). split; [|done].
    destruct (Hplain c t ltac:(by left) Hp) as [Hd Hdd].
    apply parse_cred_spec_ok in Hp as ((_ & Hne & Hchars) & _).
    split_and!; try done. eapply contains_any_false; [exact Hchars|].
    apply (bool_decide_unpack _). by vm_compute. }
  destruct empty_err as [err|]; [destruct (str_empty c); [by intros [= <-]|]|]; intros Hr;
    by eapply Hstep.
Qed.

End confinement.

#[export] Instance external_may_change `{!ExternalIn X ext} dir lease :
  ExternalIn X (may_change dir lease ext).
Proof.
  split; intros; intros k Hk; (apply ext_read || apply ext_write || apply ext_krb5);
    intros Hx; apply Hk; by right.
Qed.

(** ** Fresh lease ids *)
Lemma hex_no_slash s : str_forall is_hex_digit s = true → has_char slash s = false.
Proof.
  induction s as [|c s IH]; [done|]. cbn. intros [Hc Hs]%andb_true_iff.
  rewrite IH by done. rewrite orb_false_r. by destruct c as [[] [] [] [] [] [] [] []].
Qed.

Lemma random_bytes_spec `{!PlatformLaws X} n (w : world X) :
  ∃ l x, random_bytes n w = (Ok l, set_ext x w) ∧ length l = n ∧ Forall (λ b, b < 256) l.
Proof.
  revert w. induction n as [|n IH]; intros w; cbn [random_bytes].
  { exists [], (w_ext w). by destruct w. }
  unfold mbind, M_bind. pose proof (random_byte_bound (w_ext w)) as Hb.
  destruct (random_byte (w_ext w)) as [b x]. cbn in Hb.
  destruct (IH (set_ext x w)) as (l & y & -> & Hl & Hf).
  exists (b :: l), y. split_and!; [done|cbn; by rewrite Hl|by constructor].
Qed.

Lemma generate_lease_id_run `{!PlatformLaws X} (w : world X) :
  ∃ id x, plain_name id ∧ String.length id = 20 ∧ generate_lease_id w = (Ok id, set_ext x w).
Proof.
  destruct (random_bytes_spec LEASE_ID_LENGTH w) as (l & x & Hr & Hl & Hf).
  exists (lease_id_of_bytes l), x.
  assert (Hlen : String.length (lease_id_of_bytes l) = 20)
    by (rewrite lease_id_of_bytes_length, Hl by done; done).
  split_and!; [|done|].
  - split_and!; [by destruct (lease_id_of_bytes l)|by intros Hx; rewrite Hx in Hlen..|].
    by apply hex_no_slash, lease_id_of_bytes_hex.
  - unfold generate_lease_id, mbind, M_bind. by rewrite Hr.
Qed.

Lemma generate_lease_id_bind `{!PlatformLaws X} (w : world X) :
  ∃ id x, plain_name id ∧ String.length id = 20 ∧
    ∀ k : string → MW lease_reply, (generate_lease_id ≫= k) w = k id (set_ext x w).
Proof.
  destruct (generate_lease_id_run w) as (id & x & Hid & Hlen & Hrun). exists id, x.
  split_and!; [done..|]. intros k. unfold mbind, M_bind. by rewrite Hrun.
Qed.

(** A handler after the id is drawn. *)
Lemma confined_create_lease dir lease ext s0 user empty_err contents step :
  ExternalIn X ext → plain_path dir → plain_name lease → dirs_exist (resolve dir) s0 →
  (∀ k, k `prefix_of` resolve dir → ¬ ext k) → accounts_plain contents →
  (∀ t, fresh_ticket dir lease t →
    confined (may_change dir lease ext) s0 (step t) (made_inside dir lease)) →
  confined (may_change dir lease ext) s0
    (parsed ← lift (parse_credspecs dir lease user empty_err contents ∅ []);
     let '(err_msg, tickets) := parsed in
     r ← (if str_empty err_msg then create_tickets step tickets else mret (err_msg, tickets, []));
     finish_lease dir lease lease r)
    (λ reply, lr_lease_id reply = lease).
Proof.
  intros Hin Hdir Hlease Hexist Hext Hplain Hstep.
  eapply confined_bind; [apply confined_lift|]. intros [err ts] Hparse.
  apply (parse_credspecs_fresh dir lease) in Hparse; [|done..]. cbn [snd] in Hparse.
  eapply (confined_bind _ _ _ _ (λ r, Forall (inside dir lease) r.1.2)).
  - destruct (str_empty err); [by eapply confined_create_tickets; [apply _|..]|].
    apply confined_ret. eapply Forall_impl; [exact Hparse|]. intros t. by apply fresh_inside.
  - intros r Hr. eapply confined_finish; [apply _|done..].
Qed.

(** ** The directories of the accounts *)
Lemma krb_files_path_inj dir lease a b :
  krb_files_path dir lease a = krb_files_path dir lease b → a = b.
Proof.
  unfold krb_files_path. intros Heq.
  induction dir as [|c dir IH]; cbn in Heq; [|injection Heq; auto]. injection Heq as Heq.
  induction lease as [|c lease IH]; cbn in Heq; injection Heq; auto.
Qed.

Lemma krb_files_path_plain dir lease acc :
  plain_path dir → plain_name lease → plain_name acc → plain_path (krb_files_path dir lease acc).
Proof.
  intros Hdir (Hln & Hl & Hl' & Hls) (Han & Ha & Ha' & Has).
  unfold krb_files_path, plain_path.
  destruct (split_app dir (lease +:+ "/" +:+ acc)) as (pad & Hpad & Heq). rewrite Heq.
  destruct (split_app lease acc) as (pad' & Hpad' & Heq'). rewrite Heq'.
  rewrite (split_plain lease), (split_plain acc) by done.
  repeat (apply Forall_app; split); [done|by apply no_dots_pad|..|by apply no_dots_pad|];
    by repeat constructor.
Qed.

(** The ticket a specification that parses adds to the list. *)
Definition stamp (dir lease user : string) (t : krb_ticket_info) : krb_ticket_info :=
  with_domainless_user user
    (with_krb_file_path (krb_files_path dir lease (service_account_name t)) t).

Definition parses (c : string) (t : krb_ticket_info) : Prop :=
  c ≠ "" ∧ parse_cred_spec (V := V) c new_ticket = Ok (0%Z, t).

Lemma parse_credspecs_cons dir lease user empty_err c t rest dirs acc :
  parses c t →
  parse_credspecs dir lease user empty_err (c :: rest) dirs acc =
  let path := krb_files_path dir lease (service_account_name t) in
  if decide (path ∈ dirs) then parse_credspecs dir lease user empty_err rest dirs acc
  else parse_credspecs dir lease user empty_err rest ({[path]} ∪ dirs)
         (acc ++ [stamp dir lease user t]).
Proof.
  intros [Hne Hp]. apply str_empty_false in Hne. cbn [parse_credspecs]. rewrite Hne, Hp.
  by destruct empty_err.
Qed.

(** The first ticket of each account. *)
Fixpoint firsts (ts : list krb_ticket_info) : list krb_ticket_info :=
  match ts with
  | [] => []
  | t :: rest => t :: filter (λ u, service_account_name u ≠ service_account_name t) (firsts rest)
  end.

Lemma firsts_elem ts t : t ∈ firsts ts → t ∈ ts.
Proof.
  induction ts as [|u ts IH]; cbn [firsts]; [done|].
  intros [->|[_ Ht]%list_elem_of_filter]%elem_of_cons; [by left|right; by apply IH].
Qed.

Lemma firsts_NoDup ts : NoDup (service_account_name <$> firsts ts).
Proof.
  induction ts as [|t ts IH]; cbn; [constructor|]. constructor.
  - intros (u & Heq & [Hne _]%list_elem_of_filter)%list_elem_of_fmap. by symmetry in Heq.
  - revert IH. generalize (firsts ts) as l. induction l as [|u l IHl]; cbn; [done|].
    intros [Hu Hl]%NoDup_cons. case_decide; [|by apply IHl]. cbn. constructor; [|by apply IHl].
    intros (v & Heq & [_ Hv]%list_elem_of_filter)%list_elem_of_fmap. apply Hu. rewrite Heq.
    by apply list_elem_of_fmap_2.
Qed.

Lemma firsts_cover ts t :
  t ∈ ts → service_account_name t ∈ service_account_name <$> firsts ts.
Proof.
  induction ts as [|u ts IH]; [by intros ?%elem_of_nil|]. cbn [firsts fmap list_fmap].
  intros [->|Ht]%elem_of_cons; [by left|].
  destruct (decide (service_account_name t = service_account_name u)) as [->|Hne]; [by left|right].
  apply IH, list_elem_of_fmap in Ht as (v & Heq & Hv). rewrite Heq. apply list_elem_of_fmap_2.
  apply list_elem_of_filter. by rewrite <-Heq.
Qed.

(** Those whose path is not among [dirs]. *)
Definition unseen (dir lease : string) (dirs : gset string) (ts : list krb_ticket_info) : list krb_ticket_info :=
  filter (λ t, krb_files_path dir lease (service_account_name t) ∉ dirs) ts.

Lemma unseen_filter dir lease dirs t ts :
  krb_files_path dir lease (service_account_name t) ∈ dirs →
  unseen dir lease dirs (filter (λ u, service_account_name u ≠ service_account_name t) ts) =
  unseen dir lease dirs ts.
Proof.
  intros Hin. unfold unseen. rewrite list_filter_filter. apply list_filter_iff. intros u. split; [by intros []|].
  intros Hu. split; [done|]. intros Heq. by rewrite Heq in Hu.
Qed.

Lemma unseen_add dir lease dirs t ts :
  unseen dir lease ({[krb_files_path dir lease (service_account_name t)]} ∪ dirs) ts =
  unseen dir lease dirs (filter (λ u, service_account_name u ≠ service_account_name t) ts).
Proof.
  unfold unseen. rewrite list_filter_filter. apply list_filter_iff. intros u.
  rewrite not_elem_of_union, not_elem_of_singleton. split; intros [Hu1 Hu2].
  - split; [done|congruence].
  - split; [by intros ?%krb_files_path_inj|done].
Qed.

Lemma unseen_empty dir lease ts : unseen dir lease ∅ ts = ts.
Proof.
  unfold unseen. induction ts as [|t ts IH]; [done|].
  rewrite filter_cons_True by apply not_elem_of_empty. by rewrite IH.
Qed.

Lemma parse_credspecs_app dir lease user pre ts dirs acc :
  Forall2 parses pre ts →
  ∃ dirs', ∀ empty_err rest, parse_credspecs dir lease user empty_err (pre ++ rest) dirs acc =
    parse_credspecs dir lease user empty_err rest dirs'
      (acc ++ (stamp dir lease user <$> unseen dir lease dirs (firsts ts))).
Proof.
  intros Hall. revert dirs acc. induction Hall as [|c t pre ts Hc _ IH]; intros dirs acc.
  { exists dirs. intros. by rewrite app_nil_r. }
  set (path := krb_files_path dir lease (service_account_name t)).
  destruct (decide (path ∈ dirs)) as [Hin|Hin]; cbn [firsts].
  - destruct (IH dirs acc) as (dirs' & Hrun). exists dirs'. intros err rest. cbn [app].
    rewrite (parse_credspecs_cons _ _ _ _ _ t) by done. cbv zeta. rewrite decide_True by done.
    rewrite Hrun, <-(unseen_filter _ _ _ t) by done. do 3 f_equal.
    unfold unseen at 2. by rewrite filter_cons_False by (intros Hn; by apply Hn).
  - destruct (IH ({[path]} ∪ dirs) (acc ++ [stamp dir lease user t])) as (dirs' & Hrun).
    exists dirs'. intros err rest. cbn [app].
    rewrite (parse_credspecs_cons _ _ _ _ _ t) by done. cbv zeta. rewrite decide_False by done.
    unfold path in Hrun |- *. rewrite Hrun, unseen_add, <-app_assoc. do 2 f_equal.
    unfold unseen at 2. by rewrite filter_cons_True.
Qed.

(** ** Cleaning up *)

(** The ticket's path once its cache is made. *)
Definition cached_ticket (dir lease : string) (t : krb_ticket_info) : Prop :=
  ∃ acc, plain_name acc ∧ krb_file_path t = krb_files_path dir lease acc +:+ "/krb5cc".

Lemma resolve_lease_path dir lease acc :
  plain_name lease → plain_name acc → resolve (krb_files_path dir lease acc) = resolve dir ++ [lease; acc].
Proof.
  intros Hl Ha. unfold krb_files_path.
  assert (dir +:+ "/" +:+ lease +:+ "/" +:+ acc = (dir +:+ "/" +:+ lease) +:+ "/" +:+ acc) as ->
    by (by rewrite !str_app_assoc).
  by rewrite !resolve_app_plain, <-app_assoc.
Qed.

Lemma plain_krb5cc : plain_name "krb5cc".
Proof. apply (bool_decide_unpack _). by vm_compute. Qed.

Lemma resolve_cached_ticket dir lease acc :
  plain_name lease → plain_name acc →
  resolve (krb_files_path dir lease acc +:+ "/krb5cc") = resolve dir ++ [lease; acc; "krb5cc"].
Proof.
  intros Hl Ha. change "/krb5cc" with ("/" +:+ "krb5cc").
  by rewrite (resolve_app_plain _ _ plain_krb5cc), resolve_lease_path, <-app_assoc.
Qed.

(** Removing tickets whose paths have no dot names succeeds. *)
Lemma remove_tickets_run ts (w : world X) :
  Forall (λ t, plain_path (krb_file_path t) ∧ krb_file_path t ≠ "") ts →
  ∃ s, remove_tickets ts w = (Ok tt, set_fs s w) ∧
    ∀ k, s !! k = if decide (Exists (λ t, resolve (krb_file_path t) `prefix_of` k) ts)
                  then None else w_fs w !! k.
Proof.
  intros Hts. revert w. induction Hts as [|t ts [Ht Hne] _ IH]; intros w.
  { exists (w_fs w). split; [by destruct w|]. intros k. rewrite decide_False; [done|]. by intros ?%Exists_nil. }
  cbn [remove_tickets]. unfold mbind, M_bind, remove_all.
  rewrite fs_remove_all_no_dots by done.
  destruct (IH (set_fs (remove_tree (resolve (krb_file_path t)) (w_fs w)) w)) as (s & Hrun & Hs).
  rewrite Hrun. exists s. split; [done|]. intros k. rewrite Hs. cbn [w_fs set_fs].
  rewrite lookup_remove_tree. repeat case_decide; rewrite ?Exists_cons in *; naive_solver.
Qed.

Lemma lease_ticket_plain (dir lease : string) t :
  plain_path dir → plain_name lease → fresh_ticket dir lease t ∨ cached_ticket dir lease t →
  plain_path (krb_file_path t) ∧ krb_file_path t ≠ "".
Proof.
  intros Hdir Hl [(acc & Ha & ->)|(acc & Ha & ->)].
  - split; [by apply krb_files_path_plain|]. unfold krb_files_path. by destruct dir.
  - split; [|unfold krb_files_path; by destruct dir].
    change "/krb5cc" with ("/" +:+ "krb5cc"). unfold plain_path.
    destruct (split_app (krb_files_path dir lease acc) "krb5cc") as (pad & Hpad & ->).
    repeat (apply Forall_app; split); [by apply krb_files_path_plain|by apply no_dots_pad|].
    apply (bool_decide_unpack _). by vm_compute.
Qed.

(** ** Properties *)

(** C6: if no account of the request is named [.] or [..], creating a lease touches
    nothing but the directory of the lease id it draws: whatever the outcome, an
    error, an exception or undefined behaviour included, the paths that differ
    afterwards are below [dir/id], or are files the external programs write; and a
    reply carries that id. The directory of the leases is there, and the external
    programs leave it and those above it. An account named [..] does escape
    ([dotdot_account_escapes] of [Lifecycle]). *)
Theorem create_lease_confined `{!PlatformLaws X} dir aws ext contents (w : world X) :
  ExternalIn X ext → plain_path dir → dirs_exist (resolve dir) (w_fs w) →
  (∀ k, k `prefix_of` resolve dir → ¬ ext k) → accounts_plain contents →
  let r := CreateKerberosLease dir aws contents w in
  ∃ id, plain_name id ∧ String.length id = 20 ∧
    (∀ k, ¬ (resolve dir ++ [id]) `prefix_of` k → ¬ ext k → w_fs r.2 !! k = w_fs w !! k) ∧
    (∀ reply, r.1 = Ok reply → lr_lease_id reply = id).
Proof.
  intros Hin Hdir Hexist Hext Hplain. destruct (generate_lease_id_bind w) as (id & x & Hid & Hlen & Hrun).
  pose proof (confined_create_lease dir id ext (w_fs w) "" None contents (create_lease_step aws)
    Hin Hdir Hid Hexist Hext Hplain) as Hc.
  assert (Hrest : ∀ t, fresh_ticket dir id t → confined (may_change dir id ext) (w_fs w)
    (create_lease_step aws t) (made_inside dir id)).
  { intros t Ht. eapply confined_create_step; [apply _|done..]. }
  specialize (Hc Hrest (set_ext x w)).
  unfold CreateKerberosLease. rewrite Hrun. destruct Hc as [Hfs Hok]; [by intros k|].
  cbv zeta. exists id. split_and!; [done..| |].
  - intros k Hk Hx. apply Hfs. by intros [?|?].
  - intros reply Hreply. by rewrite Hreply in Hok.
Qed.

(** C7: the same of the leases of a domainless user, once the user, the domain
    and the credentials pass the handler's tests, and again if no account is named
    [.] or [..]; a request that fails the tests is answered with an error and no
    lease id, and all that happened is that an id was drawn: the world is the one
    [generate_lease_id] leaves, so that no program was run, no file created and
    nothing logged. *)
Theorem create_domainless_lease_confined `{!PlatformLaws X} dir user pass domain ext contents (w : world X) :
  let r := AddNonDomainJoinedKerberosLease dir user pass domain contents w in
  if names_ok user domain && credentials_ok user pass domain && (0 <? length contents)%nat then
    ExternalIn X ext → plain_path dir → dirs_exist (resolve dir) (w_fs w) →
    (∀ k, k `prefix_of` resolve dir → ¬ ext k) → accounts_plain contents →
    ∃ id, plain_name id ∧ String.length id = 20 ∧
      (∀ k, ¬ (resolve dir ++ [id]) `prefix_of` k → ¬ ext k → w_fs r.2 !! k = w_fs w !! k) ∧
      (∀ reply, r.1 = Ok reply → lr_lease_id reply = id)
  else
    ∃ err id x, generate_lease_id w = (Ok id, set_ext x w) ∧
      r = (Ok (LeaseReply "" [] (Some err)), set_ext x w) ∧ str_empty err = false.
Proof.
  destruct (generate_lease_id_run w) as (id & x & Hid & Hlen & Hrun).
  assert (Hbind : ∀ k : string → MW lease_reply, (generate_lease_id ≫= k) w = k id (set_ext x w))
    by (intros k; unfold mbind, M_bind; by rewrite Hrun).
  unfold AddNonDomainJoinedKerberosLease. rewrite Hbind. cbv zeta. clear Hbind.
  rewrite <-andb_assoc. destruct (names_ok user domain); cbn [andb]; [|exists err_names, id, x; split_and!; [done|reflexivity..]].
  destruct (_ && _); [|exists err_credentials, id, x; split_and!; [done|reflexivity..]].
  intros Hin Hdir Hexist Hext Hplain.
  pose proof (confined_create_lease dir id ext (w_fs w) user
    (Some "Error: credentialspec content shouldn't be empty formatted") contents
    (nondomain_step domain user pass) Hin Hdir Hid Hexist Hext Hplain) as Hc.
  assert (Hrest : ∀ t, fresh_ticket dir id t → confined (may_change dir id ext) (w_fs w)
    (nondomain_step domain user pass t) (made_inside dir id)).
  { intros t Ht. eapply confined_nondomain_step; [apply _|done..]. }
  destruct (Hc Hrest (set_ext x w)) as [Hfs Hok]; [by intros k|].
  unfold mbind, M_bind, lift, mret, M_ret in Hfs, Hok |- *.
  destruct (parse_credspecs _ _ _ _ _ _ _) as [[err ts]|e|e]; cbn in *.
  2-3: (exists id; split_and!; [done..| |done]; intros k Hk Hx; apply Hfs; by intros [?|?]).
  exists id. split_and!; [done..| |].
  - intros k Hk Hx. apply Hfs. by intros [?|?].
  - intros reply Hreply. by rewrite Hreply in Hok.
Qed.

(** C16: the specifications of a request become one ticket per account: the
    first of each account ([firsts]), in the order of the request, with the
    account's directory below the lease's and the user of the request. The first
    specification that does not parse, or is empty where the handler looks for
    that, ends the loop with its error and the tickets so far. *)
Theorem parse_credspecs_spec dir lease user empty_err pre ts :
  Forall2 parses pre ts →
  let l := stamp dir lease user <$> firsts ts in
  NoDup (service_account_name <$> l) ∧
  (∀ t, t ∈ ts → service_account_name t ∈ service_account_name <$> l) ∧
  parse_credspecs dir lease user empty_err pre ∅ [] = Ok ("", l) ∧
  (∀ c post t, str_empty c && bool_decide (is_Some empty_err) = false →
    parse_cred_spec (V := V) c new_ticket = Ok ((-1)%Z, t) →
    parse_credspecs dir lease user empty_err (pre ++ c :: post) ∅ [] =
      Ok ("ERROR: invalid credentialspec fields", l)) ∧
  (∀ err post, empty_err = Some err →
    parse_credspecs dir lease user empty_err (pre ++ "" :: post) ∅ [] = Ok (err, l)).
Proof.
  intros Hall l. destruct (parse_credspecs_app dir lease user pre ts ∅ [] Hall) as (dirs & Hrun).
  rewrite unseen_empty in Hrun. cbn [app] in Hrun. fold l in Hrun.
  assert (Hnames : service_account_name <$> l = service_account_name <$> firsts ts).
  { unfold l. by rewrite <-list_fmap_compose. }
  rewrite Hnames. split_and!; [apply firsts_NoDup|by apply firsts_cover|..].
  - specialize (Hrun empty_err []). by rewrite app_nil_r in Hrun.
  - intros c post t Hc Hp. rewrite Hrun. cbn [parse_credspecs]. rewrite Hp.
    destruct empty_err, (str_empty c); done.
  - intros err post ->. by rewrite Hrun.
Qed.

(** C26: a handler that fails, whose tickets are of accounts with file names ([..] is
    not one), removes exactly what is at or below the paths of its tickets. The path
    of a ticket whose cache was made is the cache file's, so the directory of its
    account stays, and so does the lease's. *)
Theorem failed_lease_cleanup (dir lease id err : string) ts paths (w : world X) :
  plain_path dir → plain_name lease → str_empty err = false →
  Forall (λ t, fresh_ticket dir lease t ∨ cached_ticket dir lease t) ts →
  ∃ s, finish_lease dir lease id (err, ts, paths) w =
      (Ok (LeaseReply id paths (Some err)), set_fs s w) ∧
    (∀ k, s !! k = if decide (Exists (λ t, resolve (krb_file_path t) `prefix_of` k) ts)
                   then None else w_fs w !! k) ∧
    s !! (resolve dir ++ [lease]) = w_fs w !! (resolve dir ++ [lease]) ∧
    (∀ acc, plain_name acc → Forall (λ t, krb_file_path t ≠ krb_files_path dir lease acc) ts →
      s !! (resolve dir ++ [lease; acc]) = w_fs w !! (resolve dir ++ [lease; acc])).
Proof.
  intros Hdir Hl Herr Hts. destruct (remove_tickets_run ts w) as (s & Hrun & Hs).
  { eapply Forall_impl; [exact Hts|]. intros t. by apply lease_ticket_plain. }
  exists s. unfold finish_lease. rewrite Herr. cbn [negb]. unfold mbind, M_bind. rewrite Hrun.
  split_and!; [done..| |].
  - rewrite Hs, decide_False; [done|]. intros Hex.
    apply Exists_exists in Hex as (t & Ht & Hp). rewrite Forall_forall in Hts.
    apply prefix_length in Hp. rewrite length_app in Hp.
    destruct (Hts t Ht) as [(a & Ha & Heq)|(a & Ha & Heq)]; rewrite Heq in Hp;
      rewrite ?resolve_lease_path, ?resolve_cached_ticket, length_app in Hp by done; cbn in Hp; lia.
  - intros acc Hacc Hno. rewrite Hs, decide_False; [done|]. intros Hex.
    apply Exists_exists in Hex as (t & Ht & Hp). rewrite Forall_forall in Hts, Hno.
    destruct (Hts t Ht) as [(a & Ha & Heq)|(a & Ha & Heq)]; rewrite Heq in Hp.
    + rewrite resolve_lease_path in Hp by done. apply prefix_app_inv in Hp.
      destruct Hp as [k Hk]. cbn in Hk. injection Hk as Hk. apply (Hno t Ht). by rewrite Hk.
    + rewrite resolve_cached_ticket in Hp by done. apply prefix_length in Hp.
      rewrite !length_app in Hp. cbn in Hp. lia.
Qed.

End lease.

(** ** At concrete inputs *)
#[local] Existing Instance Script.script_platform.
#[local] Existing Instance Script.script_platform_laws.
#[local] Existing Instance script_krb5.
#[local] Existing Instance Tree.tree_json.
#[local] Existing Instance Tree.tree_json_laws.

(** The scripted programs write no file. *)
#[export] Instance script_external P : ExternalIn Script.script P.
Proof.
  split.
  - intros cmd s x. cbn. by destruct (Script.sc_read x).
  - intros cmd bytes s x. cbn. by destruct (Script.sc_write x).
  - intros fn args s x. unfold krb5_call, script_krb5. case_decide; [|done].
    by destruct (Script.sc_write x) as [|[]].
Qed.

Lemma demo_plain_path : plain_path demo_krbdir.
Proof. apply (bool_decide_unpack _). by vm_compute. Qed.

Lemma demo_dirs_exist x : dirs_exist (resolve demo_krbdir) (w_fs (Script.demo_world x)).
Proof.
  intros k Hk Hne.
  assert (Hin : k ∈ [[]; ["var"]; ["var"; "credentials-fetcher"]; ["var"; "credentials-fetcher"; "krbdir"]]).
  { destruct Hk as [k' Hk]. change (resolve demo_krbdir) with ["var"; "credentials-fetcher"; "krbdir"] in Hk.
    do 3 (destruct k as [|? k]; [set_solver|injection Hk as <- Hk]). destruct k; [set_solver|done]. }
  repeat (apply elem_of_cons in Hin as [->|Hin]; [done || (eexists; vm_compute; reflexivity)|]).
  by apply elem_of_nil in Hin.
Qed.

Definition demo_ticket : krb_ticket_info := KrbTicket "" "webapp01" "contoso.com" "" "" ""
  "arn:aws:secretsmanager:us-west-2:123456789:secret:gMSAUserSecret-PwmPaO".

Lemma demo_parsed : parse_cred_spec (V := Tree.tree) dummy_credspec new_ticket = Ok (0%Z, demo_ticket).
Proof. vm_compute. reflexivity. Qed.

Lemma demo_accounts_plain : accounts_plain (V := Tree.tree) [dummy_credspec].
Proof.
  intros c t ->%list_elem_of_singleton Hp. rewrite demo_parsed in Hp. injection Hp as <-.
  split; discriminate.
Qed.

Lemma create_lease_confined_witness :
  ∃ id, String.length id = 20 ∧
    ∀ k, ¬ ["var"; "credentials-fetcher"; "krbdir"; id] `prefix_of` k →
      w_fs (CreateKerberosLease (X := Script.script) (V := Tree.tree) demo_krbdir ""
        [dummy_credspec] (Script.demo_world Script.idle)).2 !! k = Script.demo_fs !! k.
Proof.
  destruct (create_lease_confined (X := Script.script) (V := Tree.tree) demo_krbdir ""
    (λ _, False) [dummy_credspec] (Script.demo_world Script.idle)) as (id & _ & Hlen & Hfs & _).
  - apply _.
  - apply demo_plain_path.
  - apply demo_dirs_exist.
  - by intros k _ [].
  - apply demo_accounts_plain.
  - exists id. split; [exact Hlen|]. intros k Hk. apply Hfs; [exact Hk|by intros []].
Defined.

Lemma create_domainless_lease_confined_witness :
  ∃ id, String.length id = 20 ∧
    ∀ k, ¬ ["var"; "credentials-fetcher"; "krbdir"; id] `prefix_of` k →
      w_fs (AddNonDomainJoinedKerberosLease (X := Script.script) (V := Tree.tree) demo_krbdir
        "user1" "secret" "contoso.com" [dummy_credspec] (Script.demo_world Script.idle)).2 !! k
      = Script.demo_fs !! k.
Proof.
  assert (Hok : names_ok "user1" "contoso.com" && credentials_ok "user1" "secret" "contoso.com" &&
    (0 <? length [dummy_credspec])%nat = true) by (vm_compute; reflexivity).
  pose proof (create_domainless_lease_confined (X := Script.script) (V := Tree.tree) demo_krbdir
    "user1" "secret" "contoso.com" (λ _, False) [dummy_credspec] (Script.demo_world Script.idle)) as Hc.
  rewrite Hok in Hc. destruct Hc as (id & _ & Hlen & Hfs & _).
  - apply _.
  - apply demo_plain_path.
  - apply demo_dirs_exist.
  - by intros k _ [].
  - apply demo_accounts_plain.
  - exists id. split; [exact Hlen|]. intros k Hk. apply Hfs; [exact Hk|by intros []].
Defined.

Lemma parse_credspecs_spec_witness :
  parse_credspecs (V := Tree.tree) demo_krbdir "5f" "user1" None
    [dummy_credspec; dummy_credspec] ∅ [] = Ok ("", [stamp demo_krbdir "5f" "user1" demo_ticket]).
Proof.
  assert (Hp : parses (V := Tree.tree) dummy_credspec demo_ticket) by (split; [done|apply demo_parsed]).
  apply (parse_credspecs_spec (V := Tree.tree) demo_krbdir "5f" "user1" None
    [dummy_credspec; dummy_credspec] [demo_ticket; demo_ticket]).
  by repeat constructor.
Defined.

(** A lease whose one ticket's cache was made before the failure. *)
Lemma failed_lease_cleanup_witness :
  let w := World (<[["var"; "credentials-fetcher"; "krbdir"; "5f"; "webapp01"] := Dir new_dir_info]>
    (w_fs demo_lease)) ∅ Script.demo_log Script.idle in
  ∃ s, finish_lease (V := Tree.tree) demo_krbdir "5f" "5f"
      ("ERROR: Cannot get gMSA krb ticket",
       [with_krb_file_path (krb_files_path demo_krbdir "5f" "webapp01" +:+ "/krb5cc") new_ticket], []) w
      = (Ok (LeaseReply "5f" [] (Some "ERROR: Cannot get gMSA krb ticket")), set_fs s w) ∧
    s !! ["var"; "credentials-fetcher"; "krbdir"; "5f"; "webapp01"] = Some (Dir new_dir_info).
Proof.
  assert (Hacc : plain_name "webapp01") by (apply (bool_decide_unpack _); by vm_compute).
  destruct (failed_lease_cleanup (V := Tree.tree) demo_krbdir "5f" "5f"
    "ERROR: Cannot get gMSA krb ticket"
    [with_krb_file_path (krb_files_path demo_krbdir "5f" "webapp01" +:+ "/krb5cc") new_ticket] []
    (World (<[["var"; "credentials-fetcher"; "krbdir"; "5f"; "webapp01"] := Dir new_dir_info]>
      (w_fs demo_lease)) ∅ Script.demo_log Script.idle)) as (s & Hrun & _ & _ & Hkeep).
  - apply demo_plain_path.
  - apply (bool_decide_unpack _). by vm_compute.
  - reflexivity.
  - constructor; [|constructor]. right. exists "webapp01". split; [exact Hacc|reflexivity].
  - exists s. split; [exact Hrun|]. etrans.
    + apply (Hkeep "webapp01" Hacc). constructor; [|constructor]. by vm_compute.
    + vm_compute. reflexivity.
Defined.
