(* ===== verification/Lifecycle.v ===== *)
(** * The life of a lease

    What a reply of the handlers that create leases ([Lease]) promises: an OK
    reply means that every specification of the request has its ticket and that
    the metadata file gives the tickets back; an error means that the lease was
    not recorded. *)
From S2P Require Import Prelude StrUtil Logger World Json Regex Validation CredSpec Metadata Kinit Util Klist Krb Confine Lease.
From stdpp Require Import options.

(** The only files of the leases that programs outside the daemon write are the
    caches: [kinit] writes the one it is told to. *)
Definition external_caches (dir : string) (ext : list string → Prop) : Prop :=
  ∀ k, ext k → k `prefix_of` resolve dir ∨ resolve dir `prefix_of` k →
    ∃ id acc, k = resolve dir ++ [id; acc; "krb5cc"].

Lemma external_not_above dir ext k :
  external_caches dir ext → k `prefix_of` resolve dir → ¬ ext k.
Proof.
  intros He Hk Hx. destruct (He k Hx (or_introl Hk)) as (id & acc & ->).
  apply prefix_length in Hk. rewrite length_app in Hk. cbn in Hk. lia.
Qed.

(** Nothing else of a lease: neither its directory, nor one of its accounts, nor
    its metadata file. *)
Lemma external_not_lease dir ext l :
  external_caches dir ext → length l ≤ 2 → ¬ ext (resolve dir ++ l).
Proof.
  intros He Hl Hx. destruct (He _ Hx) as (id & acc & Heq); [right; by apply prefix_app_r|].
  apply app_inv_head in Heq as ->. cbn in Hl. lia.
Qed.

Section lifecycle.
Context {X : Type} `{Platform X} {V : Type} `{JsonCpp V} `{Krb5 X}.
Abbreviation MW := (M (world X)).

(** A computation that succeeds moved within [P]. *)
Lemma confined_unchanged {A} P (m : MW A) Q w :
  confined P (w_fs w) m Q → unchanged P (w_fs w) (w_fs (m w).2).
Proof. intros Hm. by apply Hm. Qed.

Lemma confined_run {A} P (m : MW A) Q w a w' :
  confined P (w_fs w) m Q → m w = (Ok a, w') → unchanged P (w_fs w) (w_fs w') ∧ Q a.
Proof. intros Hm Hr. destruct (Hm w) as [Hu Hq]; [done|]. by rewrite Hr in Hu, Hq. Qed.

(** ** The specifications *)
Section specifications.
Context (dir lease : string).

(** The tickets of a request all of whose specifications parse: one for each
    account. *)
Record covers (user : string) (contents : list string) (ts : list krb_ticket_info) : Prop := {
  covers_once : NoDup (service_account_name <$> ts);
  covers_all c : c ∈ contents → ∃ t, parse_cred_spec (V := V) c new_ticket = Ok (0%Z, t) ∧
    service_account_name t ∈ service_account_name <$> ts;
  covers_only t : t ∈ ts → ∃ c t0, c ∈ contents ∧
    parse_cred_spec (V := V) c new_ticket = Ok (0%Z, t0) ∧ t = stamp dir lease user t0
}.

Lemma parse_credspecs_complete user empty_err contents dirs acc r :
  (∀ err, empty_err = Some err → str_empty err = false) →
  parse_credspecs (V := V) dir lease user empty_err contents dirs acc = Ok ("", r) →
  ∃ l, r = acc ++ l ∧ NoDup (krb_file_path <$> l) ∧ (∀ t, t ∈ l → krb_file_path t ∉ dirs) ∧
    (∀ c, c ∈ contents → ∃ t, parse_cred_spec (V := V) c new_ticket = Ok (0%Z, t) ∧
       let path := krb_files_path dir lease (service_account_name t) in
       path ∈ dirs ∨ path ∈ krb_file_path <$> l) ∧
    (∀ t, t ∈ l → ∃ c t0, c ∈ contents ∧
       parse_cred_spec (V := V) c new_ticket = Ok (0%Z, t0) ∧ t = stamp dir lease user t0).
Proof.
  intros Herr. revert dirs acc. induction contents as [|c contents IH]; intros dirs acc; cbn [parse_credspecs].
  { intros [= ->]. exists []. split_and!; [by rewrite app_nil_r|constructor|by intros ? ?%elem_of_nil..]. }
  intros Hrun.
  assert (Hbody : (r0 ← parse_cred_spec (V := V) c new_ticket;
    let '(parse_result, t) := r0 in
    if negb (parse_result =? 0)%Z then Ok ("ERROR: invalid credentialspec fields", acc)
    else
      let path := krb_files_path dir lease (service_account_name t) in
      let t := with_domainless_user user (with_krb_file_path path t) in
      if decide (path ∈ dirs)
      then parse_credspecs (V := V) dir lease user empty_err contents dirs acc
      else parse_credspecs (V := V) dir lease user empty_err contents ({[path]} ∪ dirs) (acc ++ [t]))
    = Ok ("", r)).
  { destruct empty_err as [err|]; [|done]. destruct (str_empty c); [|done].
    injection Hrun as -> _. by specialize (Herr _ eq_refl). }
  clear Hrun. destruct (parse_cred_spec c new_ticket) as [[z t]|e|e] eqn:Hp; [|done..].
  cbn [mbind outcome_bind] in Hbody. destruct (z =? 0)%Z eqn:Hz; cbn [negb] in Hbody; [|done].
  apply Z.eqb_eq in Hz as ->. cbv zeta in Hbody.
  set (path := krb_files_path dir lease (service_account_name t)) in *.
  case_decide as Hin.
  - destruct (IH dirs acc Hbody) as (l & -> & Hnd & Hfresh & Hall & Honly).
    exists l. split_and!; [done..| |].
    + intros c' [->|Hc']%elem_of_cons; [exists t; split; [done|by left]|by apply Hall].
    + intros t' (c' & t0 & Hc' & Ht')%Honly. exists c', t0. split; [by right|done].
  - destruct (IH _ _ Hbody) as (l & -> & Hnd & Hfresh & Hall & Honly).
    exists (stamp dir lease user t :: l). split_and!.
    + by rewrite <-app_assoc.
    + cbn. constructor; [|done]. intros (t' & Ht' & Hin')%list_elem_of_fmap.
      apply Hfresh in Hin'. set_solver.
    + intros t' [->|Ht']%elem_of_cons; [done|]. apply Hfresh in Ht'. set_solver.
    + intros c' [->|Hc']%elem_of_cons; [exists t; split; [done|right; by left]|].
      destruct (Hall c' Hc') as (t' & Ht' & Hpath). exists t'. split; [done|]. cbv zeta in Hpath |- *.
      destruct Hpath as [[Heq%elem_of_singleton|?]%elem_of_union|?]; [|by left|right; by right].
      right. rewrite Heq. by left.
    + intros t' [->|(c' & t0 & Hc' & Ht')%Honly]%elem_of_cons.
      * exists c, t. split_and!; [by left|done..].
      * exists c', t0. split; [by right|done].
Qed.

Lemma covers_complete user empty_err contents ts :
  (∀ err, empty_err = Some err → str_empty err = false) →
  parse_credspecs (V := V) dir lease user empty_err contents ∅ [] = Ok ("", ts) →
  covers user contents ts.
Proof.
  intros Herr Hrun. destruct (parse_credspecs_complete _ _ _ _ _ _ Herr Hrun)
    as (l & Heq & Hnd & _ & Hall & Honly). cbn in Heq. subst ts.
  assert (Hpath : ∀ t, t ∈ l → krb_file_path t = krb_files_path dir lease (service_account_name t)).
  { intros t (c & t0 & _ & _ & ->)%Honly. done. }
  split; [|intros c Hc|exact Honly].
  - eapply (NoDup_fmap_1 (krb_files_path dir lease)). rewrite <-list_fmap_compose.
    erewrite list_fmap_ext; [exact Hnd|]. intros i t Ht. symmetry. by eapply Hpath, list_elem_of_lookup_2.
  - destruct (Hall c Hc) as (t & Ht & [[]%not_elem_of_empty|Hin]). exists t. split; [done|].
    apply list_elem_of_fmap in Hin as (t' & Heq & Hin). rewrite Hpath in Heq by done.
    apply krb_files_path_inj in Heq. apply list_elem_of_fmap. by exists t'.
Qed.

End specifications.

Section one_lease.
Context (dir lease : string) (ext : list string → Prop) `{!ExternalIn X ext}.
Hypothesis Hext : external_caches dir ext.
Hypothesis Hdir : plain_path dir.
Hypothesis Hlease : plain_name lease.
#[local] Set Default Proof Using "Type*".

Abbreviation root := (resolve dir ++ [lease]).
Abbreviation account_dir acc := (resolve dir ++ [lease; acc]).

(** What the work on one account may change. *)
Definition of_account (acc : string) (k : list string) : Prop :=
  k = root ∨ account_dir acc `prefix_of` k ∨ ext k.

(** The file system as the handlers find it: the directories are there, and where
    the lease's own should be there is nothing but a directory. *)
Record ready (s : fs) : Prop := {
  ready_dirs : dirs_exist (resolve dir) s;
  ready_root : s !! root = None ∨ ∃ i, s !! root = Some (Dir i)
}.

Definition has_dir (d : list string) (s : fs) : Prop := ∃ i, s !! d = Some (Dir i).

(** The directories on the way to an account's. *)
Lemma account_prefix acc k :
  k `prefix_of` account_dir acc → k `prefix_of` resolve dir ∨ k = root ∨ k = account_dir acc.
Proof using.
  change [lease; acc] with ([lease] ++ [acc]). rewrite app_assoc.
  intros [[?| ->]%prefix_snoc_inv| ->]%prefix_snoc_inv; auto.
Qed.

Lemma account_root acc : root `prefix_of` account_dir acc.
Proof using. exists [acc]. by rewrite <-app_assoc. Qed.

(** What may be found where an account's directory should be: nothing, or nothing
    but a directory. *)
Definition vacant (x : option node) : Prop := x = None.
Definition unfiled (x : option node) : Prop := x = None ∨ ∃ i, x = Some (Dir i).

Lemma ready_no_file s acc :
  ready s → unfiled (s !! account_dir acc) → no_file_on (account_dir acc) s.
Proof using Hlease.
  intros [Hd Hr] Ha k Hk Hne. apply account_prefix in Hk as [Hk|[-> | ->]]; [|done..].
  right. by apply Hd.
Qed.

Lemma ready_keep s s' acc :
  ready s → unchanged (of_account acc) s s' → has_dir root s' ∨ s' !! root = s !! root → ready s'.
Proof using Hext.
  intros [Hd Hr] Hu Hroot. split.
  - intros k Hk Hne. rewrite Hu; [by apply Hd|].
    assert (Hl := prefix_length _ _ Hk). intros [->|[Hp|Hx]].
    + rewrite length_app in Hl. cbn in Hl. lia.
    + apply prefix_length in Hp. rewrite length_app in Hp. cbn in Hp. lia.
    + by apply (external_not_above dir ext k).
  - destruct Hroot as [?| ->]; [by right|done].
Qed.

(** *** The cache of an account *)
Definition cc_path (acc : string) : string := krb_files_path dir lease acc +:+ "/krb5cc".

Lemma cc_resolve acc : plain_name acc → resolve (cc_path acc) = account_dir acc ++ ["krb5cc"].
Proof using Hlease. intros Ha. unfold cc_path. by rewrite resolve_cached_ticket, <-app_assoc. Qed.

(** The directories of an account are there or made. *)
Lemma account_dirs_made acc s :
  plain_name acc → ready s → unfiled (s !! account_dir acc) →
  ∃ s1, fs_create_directories (krb_files_path dir lease acc) s = Ok s1 ∧
    unchanged (of_account acc) s s1 ∧ has_dir root s1 ∧ has_dir (account_dir acc) s1.
Proof.
  intros Hacc Hready Hnone.
  assert (Hres := resolve_lease_path dir lease acc Hlease Hacc).
  destruct (create_directories_ok (krb_files_path dir lease acc) s) as (s1 & Hrun & Hex & Hch).
  { by apply krb_files_path_plain. }
  { unfold krb_files_path. by destruct dir. }
  { rewrite Hres. by apply ready_no_file. }
  rewrite Hres in Hex, Hch. exists s1. split_and!; [done| | |].
  - intros k Hk. destruct (decide (s1 !! k = s !! k)) as [|Hne1]; [done|].
    destruct (Hch k Hne1) as (Hk0 & Hkn & Hp). exfalso.
    apply account_prefix in Hp as [Hp|[->| ->]]; [|by apply Hk; left|by apply Hk; right; left].
    destruct (ready_dirs _ Hready k Hp Hk0) as [i Hi]. by rewrite Hi in Hkn.
  - apply Hex; [by apply account_root|by destruct (resolve dir)].
  - apply Hex; [done|by destruct (resolve dir)].
Qed.

(** What touches only the cache of an account. *)
Lemma cache_only acc s s' :
  (∀ k, k ≠ account_dir acc ++ ["krb5cc"] → s' !! k = s !! k) →
  unchanged (of_account acc) s s' ∧
  ∀ l, length l ≤ 2 → has_dir (resolve dir ++ l) s → has_dir (resolve dir ++ l) s'.
Proof using.
  intros Ho. split.
  - intros k Hk. apply Ho. intros ->. apply Hk. right. left. by apply prefix_app_r.
  - intros l Hl [i Hi]. exists i. rewrite Ho; [done|]. intros Heq%(f_equal length).
    rewrite !length_app in Heq. cbn in Heq. lia.
Qed.

Lemma make_cache_new t acc w :
  plain_name acc → krb_file_path t = krb_files_path dir lease acc →
  ready (w_fs w) → w_fs w !! account_dir acc = None →
  ∃ t' w', make_cache t w = (Ok (Some t'), w') ∧
    (t' = t ∨ t' = with_krb_file_path (cc_path acc) t) ∧
    unchanged (of_account acc) (w_fs w) (w_fs w') ∧
    has_dir root (w_fs w') ∧ has_dir (account_dir acc) (w_fs w').
Proof.
  intros Hacc Ht Hready Hnone. unfold make_cache. cbv zeta. rewrite !Ht. fold (cc_path acc).
  destruct (account_dirs_made acc (w_fs w) Hacc Hready (or_introl Hnone)) as (s1 & Hrun & Hu1 & Hroot1 & Hacc1).
  unfold mbind, M_bind, exists_, gets.
  rewrite (fs_exists_none (krb_files_path dir lease acc)) by
    (try apply krb_files_path_plain; try rewrite resolve_lease_path; done).
  unfold create_directories. rewrite Hrun. cbn [w_fs set_fs].
  destruct (fs_exists (cc_path acc) s1); [exists t, (set_fs s1 w); split_and!; auto|].
  unfold write_file. cbn [w_fs set_fs]. destruct (fs_write (cc_path acc) "" s1) as [s2|] eqn:Hw.
  - exists (with_krb_file_path (cc_path acc) t), (set_fs s2 (set_fs s1 w)).
    pose proof (fs_write_other _ _ _ _ Hw) as Ho. rewrite cc_resolve in Ho by done.
    apply cache_only in Ho as [Hu2 Hd]. split_and!; [done|by right|by etrans|..];
      (apply Hd; [cbn; lia|done]).
  - exists (with_krb_file_path (cc_path acc) t), (set_fs s1 w). split_and!; auto.
Qed.

(** *** One ticket *)

(** The external programs alone change nothing of a lease but caches. *)
Lemma ext_lookup s s' l :
  unchanged ext s s' → length l ≤ 2 → s' !! (resolve dir ++ l) = s !! (resolve dir ++ l).
Proof. intros Hu Hl. apply Hu. by apply external_not_lease. Qed.

Lemma ready_ext s s' : unchanged ext s s' → ready s → ready s'.
Proof.
  intros Hu Hr. apply (ready_keep s s' lease); [done| |right; apply ext_lookup; [done|cbn; lia]].
  intros k Hk. apply Hu. intros Hx. apply Hk. by right; right.
Qed.

Lemma ext_of_account s s' acc : unchanged ext s s' → unchanged (of_account acc) s s'.
Proof using. intros Hu k Hk. apply Hu. intros Hx. apply Hk. by right; right. Qed.

Lemma has_dir_ext s s' l :
  unchanged ext s s' → length l ≤ 2 → has_dir (resolve dir ++ l) s → has_dir (resolve dir ++ l) s'.
Proof. intros Hu Hl [i Hi]. exists i. by rewrite (ext_lookup s s'). Qed.

(** The ticket a step makes of [t], for the user [u]: only its path, its user and
    its distinguished name are new. *)
Definition made_of (u : string) (t t' : krb_ticket_info) : Prop :=
  ∃ p d, t' = KrbTicket p (service_account_name t) (domain_name t) u (credspec_info t) d
                (credential_arn t) ∧
    (p = krb_file_path t ∨ p = krb_file_path t +:+ "/krb5cc").

Lemma made_of_same u t t1 t2 : made_of u t t1 → same_ticket t1 t2 → made_of u t t2.
Proof using.
  intros (p & d & -> & Hp) Hs. exists p, (distinguished_name t2). split; [|done].
  unfold same_ticket, with_distinguished_name in Hs. destruct t2; cbn in *.
  injection Hs; intros; by subst.
Qed.

Lemma made_of_cached t acc t' :
  krb_file_path t = krb_files_path dir lease acc →
  t' = t ∨ t' = with_krb_file_path (cc_path acc) t → made_of (domainless_user t) t t'.
Proof using.
  intros Ht [->| ->]; [exists (krb_file_path t), (distinguished_name t)|
    exists (cc_path acc), (distinguished_name t)]; (split; [by destruct t|]); [by left|right].
  by rewrite Ht.
Qed.

(** Its path: the account's directory, or the cache in it. *)
Definition cached_path (t t' : krb_ticket_info) : Prop :=
  krb_file_path t' = krb_file_path t ∨ krb_file_path t' = krb_file_path t +:+ "/krb5cc".

Lemma made_cached_path u t t' : made_of u t t' → cached_path t t'.
Proof using. by intros (p & d & -> & Hp). Qed.

(** How a step ends. *)
Definition step_result (u : string) (t : krb_ticket_info) (r : made) : Prop :=
  match r with
  | Made t' => made_of u t t'
  | Stop err t' => str_empty err = false ∧ cached_path t t'
  end.

Record step_ends (u : string) (t : krb_ticket_info) (acc : string) (r : made) (s s' : fs) : Prop := {
  se_unchanged : unchanged (of_account acc) s s';
  se_ready : ready s';
  se_root : has_dir root s → has_dir root s';
  se_result : step_result u t r;
  se_account : match r with Made _ => has_dir (account_dir acc) s' | Stop _ _ => True end
}.

(** What the loop over the tickets relies on, where the accounts' directories
    [start] as said. *)
Definition step_makes (start : option node → Prop) (u : krb_ticket_info → string)
    (step : krb_ticket_info → MW made) : Prop :=
  ∀ t acc (w : world X) r w', plain_name acc → krb_file_path t = krb_files_path dir lease acc →
    ready (w_fs w) → start (w_fs w !! account_dir acc) → step t w = (Ok r, w') →
    step_ends (u t) t acc r (w_fs w) (w_fs w').

(** Before the cache: external programs only. *)
Lemma step_ext {A} (m : MW A) (k : A → MW made) Q start u t acc w r w' :
  confined ext (w_fs w) m Q → ready (w_fs w) → start (w_fs w !! account_dir acc) →
  (m ≫= k) w = (Ok r, w') →
  (∀ a w1, Q a → ready (w_fs w1) → start (w_fs w1 !! account_dir acc) → k a w1 = (Ok r, w') →
    step_ends u t acc r (w_fs w1) (w_fs w')) →
  step_ends u t acc r (w_fs w) (w_fs w').
Proof.
  intros Hm Hr Ha (a & w1 & Hrun & Hk)%bind_ok HG.
  destruct (confined_run _ _ _ _ _ _ Hm Hrun) as [Hu HQ].
  destruct (HG a w1) as [Hu' Hr' Hroot Hres Hacc]; [done|by eapply ready_ext| |done|].
  - by rewrite (ext_lookup _ _ _ Hu) by (cbn; lia).
  - constructor; [|done| |done..]; [etrans; [by apply ext_of_account|done]|].
    intros Hx. apply Hroot. eapply has_dir_ext; [done|cbn; lia|done].
Qed.

(** A step that stops before the cache. *)
Lemma step_stop acc u t w (m : MW made) r w' :
  ready (w_fs w) →
  confined ext (w_fs w) m (λ r, ∃ err t', r = Stop err t' ∧ str_empty err = false ∧ cached_path t t') →
  m w = (Ok r, w') → step_ends u t acc r (w_fs w) (w_fs w').
Proof.
  intros Hr Hm Hrun. destruct (confined_run _ _ _ _ _ _ Hm Hrun) as [Hu (err & t' & -> & He)].
  constructor; [by apply ext_of_account|by eapply ready_ext| |done..].
  intros Hx. eapply has_dir_ext; [done|cbn; lia|done].
Qed.

(** The cache made, what follows runs external programs only. *)
Lemma step_end (u : string) (t0 : krb_ticket_info) (acc : string) (w w1 : world X) (m : MW made) r w' :
  ready (w_fs w) → unchanged (of_account acc) (w_fs w) (w_fs w1) →
  has_dir root (w_fs w1) → has_dir (account_dir acc) (w_fs w1) →
  confined ext (w_fs w1) m (step_result u t0) → m w1 = (Ok r, w') →
  step_ends u t0 acc r (w_fs w) (w_fs w').
Proof.
  intros Hr Hu Hroot Hdirs Hm Hrun.
  destruct (confined_run _ _ _ _ _ _ Hm Hrun) as [Hu' Hg].
  assert (Hr1 : ready (w_fs w1)) by (eapply ready_keep; [done..|by left]).
  constructor; [etrans; [exact Hu|by apply ext_of_account]|by eapply ready_ext| |done|].
  - intros _. eapply has_dir_ext; [done|cbn; lia|done].
  - destruct r; [|done]. eapply has_dir_ext; [done|cbn; lia|done].
Qed.

Lemma step_cache (u : string) (t t0 : krb_ticket_info) (acc : string) (w : world X)
    (k : option krb_ticket_info → MW made) r w' :
  plain_name acc → krb_file_path t = krb_files_path dir lease acc →
  ready (w_fs w) → vacant (w_fs w !! account_dir acc) →
  (make_cache t ≫= k) w = (Ok r, w') →
  (∀ t' s, (t' = t ∨ t' = with_krb_file_path (cc_path acc) t) →
    confined ext s (k (Some t')) (step_result u t0)) →
  step_ends u t0 acc r (w_fs w) (w_fs w').
Proof.
  intros Hacc Ht Hr Ha Hrun HG.
  destruct (make_cache_new t acc w) as (t' & w1 & Hmake & Ht' & Hu & Hroot & Hdirs); [done..|].
  unfold mbind, M_bind in Hrun. rewrite Hmake in Hrun.
  by eapply step_end; [..|exact (HG t' _ Ht')|exact Hrun].
Qed.

(** The cache, in the account's directory, whether or not that was there; a cache
    that was there stays, and so does the ticket's path. *)
Lemma cache_made {A} acc t (k : krb_ticket_info → MW A) (w : world X) r w' :
  plain_name acc → krb_file_path t = krb_files_path dir lease acc →
  ready (w_fs w) → unfiled (w_fs w !! account_dir acc) →
  (create_directories (krb_files_path dir lease acc);;
   found ← exists_ (cc_path acc);
   t ← (if found : bool then mret t
        else write_file (cc_path acc) "";; mret (with_krb_file_path (cc_path acc) t));
   k t) w = (Ok r, w') →
  ∃ t1 w1, k t1 w1 = (Ok r, w') ∧ made_of (domainless_user t) t t1 ∧
    unchanged (of_account acc) (w_fs w) (w_fs w1) ∧
    has_dir root (w_fs w1) ∧ has_dir (account_dir acc) (w_fs w1).
Proof.
  intros Hacc Ht Hr Ha Hrun.
  destruct (account_dirs_made acc (w_fs w) Hacc Hr Ha) as (s1 & Hmk & Hu1 & Hroot1 & Hacc1).
  apply bind_ok in Hrun as ([] & w1 & Hcreate & Hrun). unfold create_directories in Hcreate.
  rewrite Hmk in Hcreate. injection Hcreate as <-.
  apply bind_ok in Hrun as (found & w2 & Hfound & Hrun). injection Hfound as _ <-.
  apply bind_ok in Hrun as (t1 & w3 & Hcache & Hrun).
  assert (Hw3 : (t1 = t ∨ t1 = with_krb_file_path (cc_path acc) t) ∧
    ∀ k, k ≠ account_dir acc ++ ["krb5cc"] → w_fs w3 !! k = s1 !! k).
  { destruct found; [injection Hcache as <- <-; auto|].
    apply bind_ok in Hcache as (b & w4 & Hwrite & [= <- <-]). split; [by right|].
    unfold write_file in Hwrite. cbn [w_fs set_fs] in Hwrite.
    destruct (fs_write _ _ _) as [s4|] eqn:Hs4; injection Hwrite as <- <-; [|done].
    rewrite <-cc_resolve by done. apply (fs_write_other _ _ _ _ Hs4). }
  destruct Hw3 as [Ht1 Hkeep]. apply cache_only in Hkeep as [Hu3 Hd3].
  exists t1, w3. split_and!; [exact Hrun|by eapply made_of_cached|by etrans|..].
  - apply (Hd3 [lease]); [cbn; lia|done].
  - apply (Hd3 [lease; acc]); [cbn; lia|done].
Qed.

(** The account's ticket, after which a step succeeds or fails with a message. *)
Lemma confined_fetch_end s u t0 t1 d cc (k : (Z * string) * krb_ticket_info → MW made) :
  made_of u t0 t1 →
  (∀ q, made_of u t0 q.2 → confined ext s (k q) (step_result u t0)) →
  confined ext s (fetch_gmsa_password_and_create_krb_ticket d t1 cc ≫= k) (step_result u t0).
Proof.
  intros Ht Hk. eapply confined_bind; [by apply confined_fetch|]. intros q Hq. apply Hk.
  by eapply made_of_same.
Qed.

(** A log line before a result. *)
Lemma confined_log_ret s level msg u t0 (r : made) :
  step_result u t0 r → confined ext s (log (X := X) level msg;; mret r) (step_result u t0).
Proof.
  intros Hr. apply confined_seq; [by apply confined_log|]. intros _. by apply confined_ret.
Qed.

(** The user recorded by [create_lease_step]. *)
Definition secret_user (aws_sm_secret_name : string) (t : krb_ticket_info) : string :=
  if (String.length aws_sm_secret_name =? 0)%nat then domainless_user t
  else "awsdomainlessusersecret:" +:+ aws_sm_secret_name.

Lemma create_lease_step_makes secret :
  step_makes vacant (secret_user secret) (create_lease_step (V := V) secret).
Proof.
  intros t acc w r w' Hacc Ht Hr Ha Hrun. unfold create_lease_step in Hrun.
  eapply (step_ext _ _ (λ st, st.2 = with_domainless_user (secret_user secret t) t)); [|done..|].
  { unfold secret_user. destruct (_ =? _)%nat; cbn [negb];
      (apply confined_seq; [eauto with confined|]); intros st; apply confined_ret; [|done].
    by destruct t. }
  clear Hr Ha Hrun. intros [st t1] w1 Ht1 Hr Ha Hrun. cbn [snd] in Ht1. subst t1.
  destruct (st.1 <? 0)%Z.
  { eapply step_stop; [done| |exact Hrun]. apply confined_seq; [by apply confined_log|].
    intros _. apply confined_ret. eexists _, _. split_and!; [done..|by left]. }
  cbv zeta in Hrun.
  eapply (step_cache _ (with_domainless_user (secret_user secret t) t)); [exact Hacc|exact Ht|done..|].
  intros t' s Ht'. apply confined_fetch_end.
  { apply (made_of_cached _ acc) in Ht'; [|done]. destruct Ht' as (p & d & -> & Hp). by exists p, d. }
  intros [q t2] Hq. destruct (negb _); apply confined_log_ret; [split; [done|by eapply made_cached_path]|exact Hq].
Qed.

Lemma nondomain_step_makes domain user pass :
  step_makes vacant domainless_user (nondomain_step (V := V) domain user pass).
Proof.
  intros t acc w r w' Hacc Ht Hr Ha Hrun. unfold nondomain_step in Hrun.
  destruct (_ || _).
  { eapply step_stop; [done| |exact Hrun]. apply confined_seq; [by apply confined_log|].
    intros _. apply confined_ret. eexists _, _. split_and!; [done..|by left]. }
  eapply (step_ext _ _ (λ _, True)); [|done..|]; [eauto with confined|].
  clear Hr Ha Hrun. intros st w1 _ Hr Ha Hrun. cbv beta zeta in Hrun.
  destruct (st.1 <? 0)%Z.
  { eapply step_stop; [done| |exact Hrun]. cbv zeta. apply confined_seq; [by apply confined_log|].
    intros _. apply confined_ret. eexists _, _. split_and!; [done..|by left]. }
  cbv zeta in Hrun. eapply (step_cache _ t); [exact Hacc|exact Ht|done..|].
  intros t' s Ht'. apply (made_of_cached _ acc) in Ht'; [|done].
  apply confined_seq; [eauto with confined|]. intros cfg.
  apply confined_seq; [confine|]. intros dn. apply confined_fetch_end.
  { eapply made_of_same; [done|]. by destruct t'. }
  intros [q t2] Hq. destruct (negb _); apply confined_log_ret; [split; [done|by eapply made_cached_path]|exact Hq].
Qed.

(** *** All tickets of a request *)
Definition ticket_of (t : krb_ticket_info) (acc : string) : Prop :=
  plain_name acc ∧ krb_file_path t = krb_files_path dir lease acc.

Definition of_accounts (accs : list string) (k : list string) : Prop :=
  k = root ∨ (∃ acc, acc ∈ accs ∧ account_dir acc `prefix_of` k) ∨ ext k.

Lemma account_dir_prefix a b : account_dir a `prefix_of` account_dir b → a = b.
Proof using. intros Hp%prefix_app_inv. destruct Hp as [k Hk]. cbn in Hk. by simplify_eq. Qed.

(** What the loop leaves of the tickets, whatever becomes of it: paths below the
    accounts' directories. *)
Definition below_account (acc : string) (t : krb_ticket_info) : Prop :=
  account_dir acc `prefix_of` resolve (krb_file_path t).

Lemma cached_below acc t t' :
  plain_name acc → krb_file_path t = krb_files_path dir lease acc → cached_path t t' →
  below_account acc t'.
Proof using Hlease.
  intros Hacc Ht Hp. unfold below_account. unfold cached_path in Hp. rewrite Ht in Hp. destruct Hp as [-> | ->].
  - by rewrite resolve_lease_path.
  - rewrite resolve_cached_ticket by done. exists ["krb5cc"]. by rewrite <-app_assoc.
Qed.

Lemma tickets_below ts accs : Forall2 ticket_of ts accs → Forall2 below_account accs ts.
Proof using Hlease.
  induction 1 as [|t acc ts accs [Hacc Ht] _ IH]; constructor; [|done].
  by apply (cached_below acc t); [..|left].
Qed.

Lemma of_account_accounts acc accs s s' :
  acc ∈ accs → unchanged (of_account acc) s s' → unchanged (of_accounts accs) s s'.
Proof using.
  intros Hin Hu k Hk. apply Hu. intros [?|[?|?]]; apply Hk; [by left| |by right; right].
  right; left. by exists acc.
Qed.

Lemma of_accounts_cons acc accs s s' :
  unchanged (of_accounts accs) s s' → unchanged (of_accounts (acc :: accs)) s s'.
Proof using.
  intros Hu k Hk. apply Hu. intros [?|[(a & Ha & Hp)|?]]; apply Hk; [by left| |by right; right].
  right; left. exists a. split; [by right|done].
Qed.

(** The directory of an account the work is not about. *)
Lemma other_account acc accs s s' :
  acc ∉ accs → unchanged (of_accounts accs) s s' → s' !! account_dir acc = s !! account_dir acc.
Proof.
  intros Hnin Hu. apply Hu. intros [Heq|[(a & Ha & Hp)|Hx]].
  - apply (f_equal length) in Heq. rewrite !length_app in Heq. cbn in Heq. lia.
  - by apply account_dir_prefix in Hp as ->.
  - by apply (external_not_lease dir ext) in Hx; [|done|cbn; lia].
Qed.

Record tickets_end (u : krb_ticket_info → string) (ts : list krb_ticket_info) (accs : list string)
    (err : string) (ts' : list krb_ticket_info) (paths : list string) (s s' : fs) : Prop := {
  te_unchanged : unchanged (of_accounts accs) s s';
  te_ready : ready s';
  te_root : has_dir root s → has_dir root s';
  te_below : Forall2 below_account accs ts';
  te_made : str_empty err = true →
    Forall2 (λ t t', made_of (u t) t t') ts ts' ∧ paths = krb_file_path <$> ts ∧
    Forall (λ acc, has_dir (account_dir acc) s') accs
}.

Lemma create_tickets_run start u step ts accs w err ts' paths w' :
  step_makes start u step → Forall2 ticket_of ts accs → NoDup accs → ready (w_fs w) →
  (∀ acc, acc ∈ accs → start (w_fs w !! account_dir acc)) →
  create_tickets step ts w = (Ok (err, ts', paths), w') →
  tickets_end u ts accs err ts' paths (w_fs w) (w_fs w').
Proof.
  intros Hstep Hts. revert w err ts' paths w'.
  induction Hts as [|t acc ts accs [Hacc Ht] Hts IH]; intros w err ts' paths w' Hnd Hr Hno; cbn [create_tickets].
  { intros [= <- <- <- <-]. by constructor. }
  apply NoDup_cons in Hnd as [Hnin Hnd]. intros (r & w1 & Hrun & Hk)%bind_ok.
  destruct (Hstep t acc w r w1) as [Hu Hr1 Hroot1 Hres Hdir1]; [done..|apply Hno; by left|done|].
  apply (of_account_accounts acc (acc :: accs)) in Hu as Hu1; [|by left].
  destruct r as [t1|err1 t1].
  2:{ injection Hk as <- <- <- <-. destruct Hres as [He Hpath]. constructor; [done..| |by rewrite He].
      constructor; [by eapply cached_below|by apply tickets_below]. }
  apply bind_ok in Hk as ([[err2 ts2] paths2] & w2 & Hrun2 & Hk). injection Hk as <- <- <- <-.
  destruct (IH w1 err2 ts2 paths2 w2) as [Hu2 Hr2 Hroot2 Hbelow Hend]; [done|done| |done|].
  { intros acc' Hin. rewrite (other_account acc' [acc] (w_fs w)); [apply Hno; by right| |].
    - intros ->%list_elem_of_singleton. done.
    - apply (of_account_accounts acc); [by left|done]. }
  constructor; [etrans; [exact Hu1|by apply of_accounts_cons]|done|by auto| |].
  - constructor; [|done]. by eapply cached_below, made_cached_path.
  - intros He. destruct (Hend He) as (Hmade & -> & Hdirs). split_and!; [by constructor|done|].
    constructor; [|done]. destruct Hdir1 as [i Hi]. exists i.
    by rewrite (other_account acc accs (w_fs w1)).
Qed.

(** *** The metadata file *)
Definition meta_name : string := lease +:+ "_metadata.json".
Abbreviation meta := (resolve dir ++ [lease; meta_name]).

Lemma meta_name_plain : plain_name meta_name.
Proof using Hlease.
  destruct Hlease as (Hne & _ & _ & Hno). unfold meta_name. split_and!.
  - by destruct lease.
  - intros Hx%(f_equal String.length). rewrite str_app_length in Hx. cbn in Hx. lia.
  - intros Hx%(f_equal String.length). rewrite str_app_length in Hx. cbn in Hx. lia.
  - by rewrite has_char_app, Hno.
Qed.

Lemma meta_is_account : meta_file_path lease dir = krb_files_path dir lease meta_name.
Proof using. done. Qed.

Lemma meta_parent : parent_path (meta_file_path lease dir) = dir +:+ "/" +:+ lease.
Proof using Hlease.
  assert (meta_file_path lease dir = (dir +:+ "/" +:+ lease) +:+ String slash meta_name) as ->
    by (unfold meta_file_path, meta_name; by rewrite !str_app_assoc).
  apply parent_path_app, meta_name_plain.
Qed.

Lemma lease_plain : plain_path (dir +:+ "/" +:+ lease) ∧ resolve (dir +:+ "/" +:+ lease) = root.
Proof using Hdir Hlease.
  split; [|by apply resolve_app_plain]. unfold plain_path.
  destruct (split_app dir lease) as (pad & Hpad & ->). destruct Hlease as (Hne & Hd & Hdd & Hno).
  rewrite (split_plain lease) by done. repeat (apply Forall_app; split); [done|by apply no_dots_pad|].
  by repeat constructor.
Qed.

(** The metadata file holds the JSON of the tickets. *)
Definition recorded (ts : list krb_ticket_info) (s : fs) : Prop :=
  ∃ i v, metadata_json (V := V) ts = Ok v ∧ s !! meta = Some (File i (json_write v)).

(** The file can be written, and only it and the lease directory are new. *)
Lemma write_meta_ok `{!JsonCppLaws V} ts (w : world X) :
  ready (w_fs w) → (∀ i, w_fs w !! meta ≠ Some (Dir i)) →
  ∃ w', write_meta_data_json (V := V) ts lease dir w = (Ok 0%Z, w') ∧
    (Forall ticket_ascii ts →
     read_meta_data_json (V := V) (meta_file_path lease dir) w' =
       (Ok (read_back (w_fs w') ts), w')) ∧
    (∀ d, has_dir d (w_fs w) → has_dir d (w_fs w')) ∧
    has_dir root (w_fs w') ∧ recorded ts (w_fs w').
Proof.
  intros [Hd Hr] Hnone. destruct lease_plain as [Hlp Hlr].
  assert (Hmr : resolve (meta_file_path lease dir) = meta)
    by (rewrite meta_is_account; apply resolve_lease_path; [done|apply meta_name_plain]).
  destruct (create_directories_ok (dir +:+ "/" +:+ lease) (w_fs w)) as (s1 & Hrun & Hex & Hch); [done|by destruct dir| |].
  { rewrite Hlr. intros k Hk Hne. apply prefix_snoc_inv in Hk as [Hk| ->]; [|done].
    right. by apply Hd. }
  rewrite Hlr in Hex, Hch.
  assert (Hnone1 : ∀ i, s1 !! meta ≠ Some (Dir i)).
  { destruct (decide (s1 !! meta = w_fs w !! meta)) as [Heq|Hne]; [by rewrite Heq|].
    apply Hch in Hne as (_ & _ & Hp). apply prefix_length in Hp. rewrite !length_app in Hp. cbn in Hp. lia. }
  destruct (write_then_read ts lease dir w s1) as (s2 & v & Hv & Hw & Hwrite & Hread).
  - by rewrite meta_parent.
  - intros text. unfold fs_write. rewrite Hmr.
    rewrite plain_path_reaches by (rewrite meta_is_account; apply krb_files_path_plain; [done..|apply meta_name_plain]).
    assert (parent_of meta = root) as ->.
    { change [lease; meta_name] with ([lease] ++ [meta_name]). rewrite app_assoc. apply parent_of_snoc. }
    destruct (Hex root) as [i Hi]; [done|by destruct (resolve dir)|].
    unfold is_dir. rewrite Hi. cbn [andb]. rewrite decide_False by (by destruct (resolve dir)).
    destruct (s1 !! meta) as [[j|j c]|] eqn:Hm; [by destruct (Hnone1 j)|eauto..].
  - unfold meta_file_path. by destruct dir.
  - assert (Hkeep : ∀ d i, s1 !! d = Some (Dir i) → s2 !! d = Some (Dir i)).
    { intros d i Hi. rewrite (fs_write_other _ _ _ _ Hw); [done|]. rewrite Hmr. intros ->.
      by apply (Hnone1 i). }
    exists (set_fs s2 w). split_and!; [done|done| | |].
    + intros d [i Hi]. exists i. apply Hkeep.
      destruct (decide (s1 !! d = w_fs w !! d)) as [->|Hne]; [done|].
      apply Hch in Hne as (_ & Hn & _). congruence.
    + destruct (Hex root) as [i Hi]; [done|by destruct (resolve dir)|]. exists i. by apply Hkeep.
    + destruct (fs_write_at _ _ _ _ Hw) as [i Hi]. rewrite Hmr in Hi. by exists i, v.
Qed.

(** Removing the tickets of a failed request leaves what is not below them. *)
Lemma remove_tickets_other ts w r w' k :
  remove_tickets (X := X) ts w = (r, w') →
  Forall (λ t, ¬ resolve (krb_file_path t) `prefix_of` k) ts → w_fs w' !! k = w_fs w !! k.
Proof using.
  intros Hrun Hts. revert w Hrun.
  induction Hts as [|t ts Ht _ IH]; intros w; cbn [remove_tickets]; [by intros [= <- <-]|].
  unfold mbind, M_bind, remove_all. pose proof (fs_remove_all_other (krb_file_path t) (w_fs w) k) as Ho.
  destruct (fs_remove_all _ _) as [r1 s]. cbn [snd] in Ho.
  destruct r1 as [[]|e|e]; [|by intros [= <- <-]; apply Ho..].
  intros ->%IH. by apply Ho.
Qed.

(** It adds nothing. *)
Lemma remove_tickets_none ts w r w' k :
  remove_tickets (X := X) ts w = (r, w') → w_fs w !! k = None → w_fs w' !! k = None.
Proof using.
  revert w. induction ts as [|t ts IH]; intros w; cbn [remove_tickets]; [by intros [= <- <-]|].
  unfold mbind, M_bind, remove_all. destruct (fs_remove_all _ _) as [r1 s] eqn:Hr.
  assert (Hs : w_fs w !! k = None → s !! k = None).
  { intros Hk. pose proof (fs_remove_all_none (krb_file_path t) (w_fs w) k Hk) as Hx. by rewrite Hr in Hx. }
  destruct r1 as [[]|e|e]; [|by intros [= <- <-]..]. intros Hrest Hk. eapply IH; [exact Hrest|]. auto.
Qed.

(** *** The reply *)

(** What a reply says of the lease. [u] is the user recorded for a ticket. *)
Definition lease_outcome (user : string) (u : krb_ticket_info → string) (contents : list string)
    (reply : lease_reply) (w' : world X) : Prop :=
  match lr_status reply with
  | None => ∃ ts ts', covers dir lease user contents ts ∧
      lr_paths reply = krb_file_path <$> ts ∧
      (∀ t, t ∈ ts → has_dir (resolve (krb_file_path t)) (w_fs w')) ∧
      Forall2 (λ t t', made_of (u t) t t') ts ts' ∧
      has_dir root (w_fs w') ∧ recorded ts' (w_fs w') ∧
      (Forall ticket_ascii ts' →
       read_meta_data_json (V := V) (meta_file_path lease dir) w' =
         (Ok (read_back (w_fs w') ts'), w'))
  | Some err => str_empty err = false ∧ w_fs w' !! resolve (meta_file_path lease dir) = None
  end.

(** The accounts of the request. *)
Definition accounts_known (contents : list string) : Prop :=
  ∀ c t, c ∈ contents → parse_cred_spec (V := V) c new_ticket = Ok (0%Z, t) →
    service_account_name t ≠ meta_name.

Lemma parsed_account_plain c t :
  parse_cred_spec (V := V) c new_ticket = Ok (0%Z, t) →
  service_account_name t ≠ "." → service_account_name t ≠ ".." → plain_name (service_account_name t).
Proof using.
  intros ((_ & Hne & Hchars) & _)%parse_cred_spec_ok Hd Hdd.
  split_and!; try done. eapply contains_any_false; [exact Hchars|].
  apply (bool_decide_unpack _). by vm_compute.
Qed.

Lemma covered_ticket user contents ts t :
  accounts_plain (V := V) contents → covers dir lease user contents ts → t ∈ ts →
  ticket_of t (service_account_name t).
Proof using.
  intros Hplain Hc Ht. destruct (covers_only _ _ _ _ _ Hc t Ht) as (c & t0 & Hin & Hp & ->).
  split; [|done]. destruct (Hplain c t0 Hin Hp) as [Hd Hdd]. exact (parsed_account_plain c t0 Hp Hd Hdd).
Qed.

Lemma tickets_of_accounts user contents ts :
  accounts_plain (V := V) contents → covers dir lease user contents ts →
  Forall2 ticket_of ts (service_account_name <$> ts).
Proof using.
  intros Hplain Hc. rewrite Forall2_fmap_r. apply Forall_Forall2_diag, Forall_forall. intros t.
  by eapply covered_ticket.
Qed.

Lemma meta_resolve : resolve (meta_file_path lease dir) = meta.
Proof using Hlease. rewrite meta_is_account. apply resolve_lease_path; [done|by apply meta_name_plain]. Qed.

Lemma meta_unchanged accs s s' :
  meta_name ∉ accs → unchanged (of_accounts accs) s s' → s' !! meta = s !! meta.
Proof. apply other_account. Qed.

Lemma lease_tail `{!JsonCppLaws V} user u empty_err contents step (w : world X) reply w' :
  (∀ err, empty_err = Some err → str_empty err = false) →
  step_makes vacant u step → accounts_plain (V := V) contents → accounts_known contents →
  dirs_exist (resolve dir) (w_fs w) → (∀ k, w_fs w !! (root ++ k) = None) →
  (parsed ← lift (parse_credspecs (V := V) dir lease user empty_err contents ∅ []);
   let '(err_msg, tickets) := parsed in
   r ← (if str_empty err_msg then create_tickets step tickets else mret (err_msg, tickets, []));
   finish_lease (V := V) dir lease lease r) w = (Ok reply, w') →
  lease_outcome user u contents reply w'.
Proof.
  intros Herr Hstep Hplain Hknown Hdirs Hfresh Hrun.
  assert (Hmeta : w_fs w !! meta = None).
  { specialize (Hfresh [meta_name]). by rewrite <-app_assoc in Hfresh. }
  apply bind_ok in Hrun as ([err ts] & w0 & Hp & Hrun). unfold lift in Hp.
  injection Hp as Hp <-. destruct (str_empty err) eqn:Hempty.
  2:{ apply bind_ok in Hrun as (r & w1 & [= <- <-] & Hrun). unfold finish_lease in Hrun.
      rewrite Hempty in Hrun. cbn [negb] in Hrun. apply bind_ok in Hrun as ([] & w2 & Hrm & [= <- <-]).
      split; [done|]. rewrite meta_resolve. by eapply remove_tickets_none. }
  apply str_empty_true in Hempty as ->.
  pose proof (covers_complete _ _ _ _ _ _ Herr Hp) as Hcov.
  apply bind_ok in Hrun as ([[err ts'] paths] & w1 & Hct & Hrun).
  destruct (create_tickets_run vacant u step ts (service_account_name <$> ts) w err ts' paths w1)
    as [Hu Hr _ _ Hend]; [done|by eapply tickets_of_accounts|by eapply covers_once|..|done|].
  { split; [done|left]. specialize (Hfresh []). by rewrite app_nil_r in Hfresh. }
  { intros acc _. specialize (Hfresh [acc]). unfold vacant. by rewrite <-app_assoc in Hfresh. }
  assert (Hmeta1 : w_fs w1 !! meta = None).
  { rewrite (meta_unchanged (service_account_name <$> ts) (w_fs w)); [done| |done].
    intros (t & Heq & Ht)%list_elem_of_fmap. destruct (covers_only _ _ _ _ _ Hcov t Ht) as (c & t0 & Hc & Hp0 & ->).
    by apply (Hknown c t0 Hc Hp0). }
  unfold finish_lease in Hrun. destruct (str_empty err) eqn:Hempty; cbn [negb] in Hrun.
  - destruct (Hend eq_refl) as (Hmade & -> & Hall).
    destruct (write_meta_ok ts' w1 Hr ltac:(by rewrite Hmeta1)) as (w2 & Hwrite & Hread & Hkeep & Hroot & Hrec).
    unfold mbind, M_bind in Hrun. rewrite Hwrite in Hrun. injection Hrun as <- <-.
    exists ts, ts'. split_and!; [done|done| |done..].
    intros t Ht. apply Hkeep. destruct (covered_ticket _ _ _ t Hplain Hcov Ht) as [Hacc ->].
    rewrite resolve_lease_path by done. rewrite Forall_forall in Hall. apply Hall.
    by apply list_elem_of_fmap_2.
  - apply bind_ok in Hrun as ([] & w2 & Hrm & [= <- <-]). split; [done|].
    rewrite meta_resolve. by eapply remove_tickets_none.
Qed.

(** *** The credential specification file of the environment *)

(** The account's directory, if there is one, is removed. *)
Lemma clear_account acc (w : world X) :
  plain_name acc → ready (w_fs w) →
  let path := krb_files_path dir lease acc in
  ∀ w1, (found ← exists_ path;
         if found : bool then
           log LOG_INFO ("Deleting existing credential file directory " +:+ path);; remove_all path
         else mret tt) w = (Ok tt, w1) →
  unchanged (of_account acc) (w_fs w) (w_fs w1) ∧ ready (w_fs w1) ∧ w_fs w1 !! account_dir acc = None.
Proof.
  intros Hacc Hr path w1. unfold exists_, gets, mbind, M_bind.
  assert (Hp : plain_path path) by by apply krb_files_path_plain.
  assert (Hne : path ≠ "") by (unfold path, krb_files_path; by destruct dir).
  assert (Hres : resolve path = account_dir acc) by by apply resolve_lease_path.
  rewrite (fs_exists_plain path (w_fs w) Hp Hne), Hres.
  case_bool_decide as Hex.
  - destruct (log _ _ w) as [[[]|e|e] w0] eqn:Hlog; [|done..].
    destruct (confined_run ext _ (λ _, True) _ _ _ (confined_log _ _ _ _) Hlog) as [Hu0 _].
    unfold remove_all. rewrite fs_remove_all_no_dots, Hres by done. intros [= <-]. cbn [w_fs set_fs].
    assert (Hu : unchanged (of_account acc) (w_fs w0) (remove_tree (account_dir acc) (w_fs w0))).
    { intros k Hk. rewrite lookup_remove_tree, decide_False; [done|]. intros Hx. apply Hk. by right; left. }
    split_and!.
    + etrans; [by apply ext_of_account|done].
    + eapply ready_keep; [by eapply ready_ext|done|right]. rewrite lookup_remove_tree, decide_False; [done|].
      intros Hx%prefix_length. rewrite !length_app in Hx. cbn in Hx. lia.
    + by rewrite lookup_remove_tree, decide_True.
  - intros [= <-]. split_and!; [done|done|]. by apply eq_None_not_Some.
Qed.

Lemma log_fs level msg (w : world X) r w1 : log level msg w = (r, w1) → w_fs w1 = w_fs w.
Proof using. unfold log. by destruct (logger _ _ _ _) as [[[]|e|e] l]; intros [= _ <-]. Qed.

Lemma chmod_cache acc mode (w : world X) :
  plain_name acc →
  ∀ k, k ≠ account_dir acc ++ ["krb5cc"] → fs_chmod (cc_path acc) mode (w_fs w) !! k = w_fs w !! k.
Proof using Hlease.
  intros Hacc k Hk. unfold fs_chmod. rewrite cc_resolve by done.
  destruct (fs_lookup _ _) as [[]|]; [by rewrite lookup_insert_ne..|done].
Qed.

Lemma credspec_file_ticket_run t acc (w : world X) r w' :
  plain_name acc → krb_file_path t = krb_files_path dir lease acc → ready (w_fs w) →
  credspec_file_ticket t w = (Ok r, w') →
  unchanged (of_account acc) (w_fs w) (w_fs w') ∧ ready (w_fs w') ∧
  match r with
  | None => True
  | Some (err, t') => made_of (domainless_user t) t t' ∧
      (str_empty err = true → has_dir (account_dir acc) (w_fs w'))
  end.
Proof.
  intros Hacc Ht Hr0 Hrun. unfold credspec_file_ticket in Hrun.
  apply bind_ok in Hrun as (status & w1 & Hrun1 & Hrun).
  destruct (confined_run ext _ (λ _, True) _ _ _ (confined_machine _ _ _) Hrun1) as [Hu1 _].
  apply (ready_ext _ _ Hu1) in Hr0 as Hr1. apply (ext_of_account _ _ acc) in Hu1.
  destruct (status.1 <? 0)%Z.
  { apply bind_ok in Hrun as ([] & w2 & Hlog & [= <- <-]).
    destruct (confined_run ext _ (λ _, True) _ _ _ (confined_log _ _ _ _) Hlog) as [Hu2 _].
    split_and!; [etrans; [done|by apply ext_of_account]|by eapply ready_ext|done]. }
  cbv zeta in Hrun. rewrite Ht in Hrun. fold (cc_path acc) in Hrun.
  apply bind_ok in Hrun as (found & w1' & Hfound & Hrun).
  apply bind_ok in Hrun as ([] & w2 & Hclear & Hrun).
  destruct (clear_account acc w1 Hacc Hr1 w2) as (Hu2 & Hr2 & Hnone).
  { unfold mbind at 1, M_bind at 1. rewrite Hfound. exact Hclear. }
  apply (cache_made acc t) in Hrun as (t1 & w4 & Hrun & Ht1 & Hu4 & Hroot4 & Hacc4); [|done..|by left].
  assert (Hr4 : ready (w_fs w4)) by (eapply ready_keep; [exact Hr2|exact Hu4|by left]).
  apply bind_ok in Hrun as ([res t2] & w5 & Hfetch & Hrun).
  destruct (confined_run ext _ _ _ _ _ (confined_fetch _ _ _ _ _) Hfetch) as [Hu5 Hsame].
  apply (made_of_same _ _ _ _ Ht1) in Hsame. cbn [snd] in Hsame.
  apply (ready_ext _ _ Hu5) in Hr4 as Hr5.
  assert (Hacc5 : has_dir (account_dir acc) (w_fs w5))
    by (eapply (has_dir_ext _ _ [lease; acc] Hu5); [cbn; lia|done]).
  apply (ext_of_account _ _ acc) in Hu5 as Hu5a.
  assert (Hu : unchanged (of_account acc) (w_fs w) (w_fs w5))
    by (etrans; [exact Hu1|etrans; [exact Hu2|by etrans]]).
  destruct (negb _).
  - apply bind_ok in Hrun as ([] & w6 & Hlog & [= <- <-]).
    destruct (confined_run ext _ (λ _, True) _ _ _ (confined_log _ _ _ _) Hlog) as [Hu6 _].
    split_and!; [etrans; [exact Hu|by apply ext_of_account]|by eapply ready_ext|done|done].
  - apply bind_ok in Hrun as ([] & w6 & Hchmod & Hrun). injection Hchmod as <-.
    destruct (cache_only acc (w_fs w5) _ (chmod_cache acc 420 w5 Hacc)) as [Hu6 Hd6].
    apply bind_ok in Hrun as ([] & w7 & Hlog & [= <- <-]).
    destruct (confined_run ext _ (λ _, True) _ _ _ (confined_log _ _ _ _) Hlog) as [Hu7 _].
    cbn [w_fs set_fs] in Hu7. split_and!; [|eapply ready_ext; [exact Hu7|]|done|intros _].
    + etrans; [exact Hu|etrans; [exact Hu6|by apply ext_of_account]].
    + eapply ready_keep; [exact Hr5|exact Hu6|left]. apply (Hd6 [lease]); [cbn; lia|].
      eapply (has_dir_ext _ _ [lease] Hu5); [cbn; lia|done].
    + eapply (has_dir_ext _ _ [lease; acc] Hu7); [cbn; lia|]. apply Hd6; [cbn; lia|done].
Qed.

(** The ticket of the credential specification file. *)
Definition file_ticket (t : krb_ticket_info) : krb_ticket_info :=
  with_credspec_info "" (stamp dir lease "" t).

Lemma process_cred_spec_run `{!JsonCppLaws V} file text (w : world X) code w' :
  ready (w_fs w) → fs_exists file (w_fs w) = true → fs_read file (w_fs w) = Some text →
  accounts_plain (V := V) [text] → accounts_known [text] →
  (∀ i, w_fs w !! meta ≠ Some (Dir i)) →
  ProcessCredSpecFile (V := V) dir file lease w = (Ok code, w') →
  (code = EXIT_SUCCESS ∧ ∃ t t', parse_cred_spec (V := V) text new_ticket = Ok (0%Z, t) ∧
     made_of "" (file_ticket t) t' ∧
     has_dir (resolve (krb_file_path (file_ticket t))) (w_fs w') ∧
     recorded [t'] (w_fs w') ∧ has_dir root (w_fs w') ∧
     (ticket_ascii t' → read_meta_data_json (V := V) (meta_file_path lease dir) w' =
        (Ok (read_back (w_fs w') [t']), w'))) ∨
  (code = EXIT_FAILURE ∧ w_fs w' !! meta = w_fs w !! meta).
Proof.
  intros Hr0 Hex Hread Hplain Hknown Hnodir Hrun. unfold ProcessCredSpecFile in Hrun.
  apply bind_ok in Hrun as ([] & w1 & Hlog & Hrun).
  apply log_fs in Hlog as Hsame. clear Hlog.
  unfold exists_, read_file, gets, mbind at 1, M_bind at 1 in Hrun. rewrite Hsame, Hex in Hrun. cbn [negb] in Hrun.
  unfold mbind at 1, M_bind at 1 in Hrun. rewrite Hsame, Hread in Hrun.
  apply bind_ok in Hrun as ([z t] & w2 & Hparse & Hrun). unfold lift in Hparse. injection Hparse as Hparse <-.
  destruct (parse_cred_spec_codes _ _ _ _ Hparse) as [-> | [-> ->]].
  2:{ right. cbn [Z.eqb EXIT_SUCCESS] in Hrun. apply bind_ok in Hrun as (d & w3 & [= <- <-] & Hrun).
      cbn [str_empty negb] in Hrun. apply bind_ok in Hrun as ([] & w4 & Hrm & Hrun).
      injection Hrm as <-. apply bind_ok in Hrun as ([] & w5 & Hlog5 & [= <- <-]). split; [done|].
      apply log_fs in Hlog5 as ->. cbn [w_fs set_fs]. by rewrite Hsame. }
  set (acc := service_account_name t) in *.
  destruct (Hplain text t ltac:(by left) Hparse) as [Hd Hdd].
  pose proof (Hknown text t ltac:(by left) Hparse) as Hnm.
  assert (Hacc : plain_name acc) by (by apply (parsed_account_plain text)).
  cbn [Z.eqb EXIT_SUCCESS] in Hrun. cbv zeta in Hrun.
  apply bind_ok in Hrun as (r & w3 & Hticket & Hrun).
  change (with_credspec_info _ _) with (file_ticket t) in Hticket.
  destruct (credspec_file_ticket_run (file_ticket t) acc w1 r w3) as (Hu & Hr3 & Hend);
    [done|done|by rewrite Hsame|done|].
  rewrite Hsame in Hu.
  assert (Hmeta : w_fs w3 !! meta = w_fs w !! meta).
  { apply Hu. intros [Heq|[Hp|Hx]].
    - apply (f_equal length) in Heq. rewrite !length_app in Heq. cbn in Heq. lia.
    - by apply account_dir_prefix in Hp.
    - by apply (external_not_lease dir ext) in Hx; [|done|cbn; lia]. }
  destruct r as [[err t']|]; [|injection Hrun as <- <-; by right].
  destruct Hend as [Hmade Hdirs]. destruct (str_empty err); cbn [negb] in Hrun.
  - left. destruct (write_meta_ok [t'] w3 Hr3) as (w4 & Hwrite & Hback & Hkeep & Hroot & Hrec); [by rewrite Hmeta|].
    unfold write_meta_data_json_one, mbind, M_bind in Hrun. rewrite Hwrite in Hrun. injection Hrun as <- <-.
    split; [done|]. exists t, t'. split_and!; [done|done| |done|done|].
    + apply Hkeep. change (krb_file_path (file_ticket t)) with (krb_files_path dir lease acc).
      rewrite resolve_lease_path by done. by apply Hdirs.
    + intros Ha. apply Hback. by constructor.
  - right. apply bind_ok in Hrun as ([] & w4 & Hrm & Hrun). apply bind_ok in Hrun as ([] & w5 & Hlog5 & [= <- <-]).
    split; [done|]. apply log_fs in Hlog5 as ->. rewrite <-Hmeta.
    unfold remove_all in Hrm. pose proof (fs_remove_all_other (krb_file_path t') (w_fs w3) meta) as Ho.
    destruct (fs_remove_all _ _) as [r s]. injection Hrm as -> <-. cbn [w_fs set_fs]. apply Ho.
    intros Hp. apply Hnm, account_dir_prefix. etrans; [|exact Hp].
    exact (cached_below acc (file_ticket t) _ Hacc eq_refl (made_cached_path _ _ _ Hmade)).
Qed.

End one_lease.

(** The reply carries the id given to the end of the handler. *)
Lemma finished_id dir id user empty_err contents step (w : world X) reply w' :
  (parsed ← lift (parse_credspecs (V := V) dir id user empty_err contents ∅ []);
   let '(err_msg, tickets) := parsed in
   r ← (if str_empty err_msg then create_tickets step tickets else mret (err_msg, tickets, []));
   finish_lease (V := V) dir id id r) w = (Ok reply, w') → lr_lease_id reply = id.
Proof.
  intros ([err ts] & w1 & _ & ([[err' ts'] paths] & w2 & _ & Hrun)%bind_ok)%bind_ok.
  unfold finish_lease in Hrun. destruct (negb _);
    by apply bind_ok in Hrun as (? & w3 & _ & [= <- <-]).
Qed.

Lemma bind_lift_pair {A B C} (o : outcome A) (b : B) (k : A * B → MW C) w :
  ((r ← (r ← lift o; mret (r, b)); k r) w : outcome C * world X) = (r ← lift o; k (r, b)) w.
Proof. unfold mbind, M_bind, lift, mret, M_ret. by destruct o. Qed.

(** ** Properties *)

(** A specification file that is missing or cannot be read. *)
Lemma cred_spec_file_missing dir file id (w : world X) code w' :
  fs_exists file (w_fs w) = false ∨ fs_read file (w_fs w) = None →
  ProcessCredSpecFile (V := V) dir file id w = (Ok code, w') →
  code = EXIT_FAILURE ∧
  w_fs w' !! resolve (meta_file_path id dir) = w_fs w !! resolve (meta_file_path id dir).
Proof.
  intros Hno Hrun. unfold ProcessCredSpecFile in Hrun.
  apply bind_ok in Hrun as ([] & w1 & Hlog & Hrun). apply log_fs in Hlog as Hsame. rewrite <-Hsame.
  unfold exists_, read_file, gets, mbind at 1, M_bind at 1 in Hrun. rewrite Hsame in Hrun.
  destruct (fs_exists file (w_fs w)); cbn [negb] in Hrun.
  - destruct Hno as [|Hno]; [done|]. unfold mbind at 1, M_bind at 1 in Hrun. rewrite Hsame, Hno in Hrun.
    apply bind_ok in Hrun as ([] & w2 & Hlog2 & [= <- <-]). by apply log_fs in Hlog2 as ->.
  - apply bind_ok in Hrun as ([] & w2 & Hlog2 & [= <- <-]). by apply log_fs in Hlog2 as ->.
Qed.

(** C3: an OK reply of [AddKerberosLease] is a promise kept, and an error is one
    not made, for a request in which no account is named [.] or [..] or like the
    metadata file, and if the id drawn is one not in use and external programs write
    nothing of the leases but the caches. If the reply is OK, every specification of
    the request parsed, the reply names the directory of each account once, these
    directories are there, and the lease's metadata file records the tickets; if
    their fields are ASCII, reading it gives them back up to the first whose path
    the reader refuses and except those whose cache is gone. If it is an error, the
    lease has no metadata file, so that it is never renewed. *)
Theorem lease_recorded `{!PlatformLaws X} `{!JsonCppLaws V} dir aws ext contents
    (w : world X) reply w' :
  ExternalIn X ext → external_caches dir ext → plain_path dir →
  dirs_exist (resolve dir) (w_fs w) → accounts_plain (V := V) contents →
  CreateKerberosLease (V := V) dir aws contents w = (Ok reply, w') →
  let id := lr_lease_id reply in
  (∀ k, w_fs w !! (resolve dir ++ id :: k) = None) → accounts_known id contents →
  lease_outcome dir id "" (secret_user aws) contents reply w'.
Proof.
  intros Hin Hext Hdir Hdirs Hplain Hrun.
  destruct (generate_lease_id_bind w) as (id & x & Hid & _ & Hgen).
  unfold CreateKerberosLease in Hrun. rewrite Hgen in Hrun.
  assert (Hreply : lr_lease_id reply = id) by (by eapply finished_id).
  rewrite Hreply. cbv zeta. intros Hfresh Hknown.
  eapply (lease_tail dir id ext Hext Hdir Hid); [|by eapply create_lease_step_makes| | | | |exact Hrun]; try done.
  intros k. rewrite <-app_assoc. apply Hfresh.
Qed.

(** C4: the same of [AddNonDomainJoinedKerberosLease], under the same conditions, for
    a request that passes the handler's tests; the tickets carry the user of the
    request. *)
Theorem domainless_lease_recorded `{!PlatformLaws X} `{!JsonCppLaws V} dir user pass domain ext
    contents (w : world X) reply w' :
  names_ok user domain && credentials_ok user pass domain && (0 <? length contents)%nat = true →
  ExternalIn X ext → external_caches dir ext → plain_path dir →
  dirs_exist (resolve dir) (w_fs w) → accounts_plain (V := V) contents →
  AddNonDomainJoinedKerberosLease (V := V) dir user pass domain contents w = (Ok reply, w') →
  let id := lr_lease_id reply in
  (∀ k, w_fs w !! (resolve dir ++ id :: k) = None) → accounts_known id contents →
  lease_outcome dir id user domainless_user contents reply w'.
Proof.
  intros Htests Hin Hext Hdir Hdirs Hplain Hrun.
  destruct (generate_lease_id_bind w) as (id & x & Hid & _ & Hgen).
  unfold AddNonDomainJoinedKerberosLease in Hrun. rewrite Hgen in Hrun. cbv beta in Hrun.
  rewrite <-andb_assoc in Htests. apply andb_true_iff in Htests as [Hnames Htests].
  rewrite Hnames, Htests in Hrun. rewrite bind_lift_pair in Hrun.
  assert (Hreply : lr_lease_id reply = id) by (by eapply finished_id).
  rewrite Hreply. cbv zeta. intros Hfresh Hknown.
  eapply (lease_tail dir id ext Hext Hdir Hid); [|by eapply nondomain_step_makes| | | | |exact Hrun]; try done.
  - by intros err [= <-].
  - intros k. rewrite <-app_assoc. apply Hfresh.
Qed.

(** C19: the lease of [CF_CRED_SPEC_FILE], under an id that is a file name, where
    nothing but directories is in the way. If the account of the specification, if
    any, is not named [.] or [..] or like the metadata file, [ProcessCredSpecFile]
    succeeds only with a file that can be read and a specification that parses: the
    directory of its account is there and the metadata file under the id holds the
    one ticket made of it. If it fails, the metadata file is what it was before,
    though the account's directory may be gone. *)
Theorem cred_spec_file_recorded `{!JsonCppLaws V} dir file id ext (w : world X) code w' :
  ExternalIn X ext → external_caches dir ext → plain_path dir → plain_name id →
  ready dir id (w_fs w) →
  (∀ text, fs_read file (w_fs w) = Some text → accounts_plain (V := V) [text] ∧ accounts_known id [text]) →
  (∀ i, w_fs w !! resolve (meta_file_path id dir) ≠ Some (Dir i)) →
  ProcessCredSpecFile (V := V) dir file id w = (Ok code, w') →
  (code = EXIT_SUCCESS ∧ ∃ text t t', fs_read file (w_fs w) = Some text ∧
     parse_cred_spec (V := V) text new_ticket = Ok (0%Z, t) ∧
     made_of "" (file_ticket dir id t) t' ∧
     has_dir (resolve (krb_files_path dir id (service_account_name t))) (w_fs w') ∧
     recorded dir id [t'] (w_fs w') ∧ has_dir (resolve dir ++ [id]) (w_fs w') ∧
     (ticket_ascii t' → read_meta_data_json (V := V) (meta_file_path id dir) w' =
        (Ok (read_back (w_fs w') [t']), w'))) ∨
  (code = EXIT_FAILURE ∧
   w_fs w' !! resolve (meta_file_path id dir) = w_fs w !! resolve (meta_file_path id dir)).
Proof.
  intros Hin Hext Hdir Hid Hready Htext Hmeta Hrun.
  destruct (fs_exists file (w_fs w)) eqn:Hex; [destruct (fs_read file (w_fs w)) as [text|] eqn:Hread|].
  - destruct (Htext text eq_refl) as [Hplain Hknown]. rewrite (meta_resolve dir id Hid) in Hmeta |- *.
    destruct (process_cred_spec_run dir id ext Hext Hdir Hid file text w code w' Hready Hex Hread
      Hplain Hknown Hmeta Hrun) as [(Hc & t & t' & Hend)|Hend]; [left|by right].
    split; [exact Hc|]. by exists text, t, t'.
  - right. by apply (cred_spec_file_missing dir file id w code w'); [right|].
  - right. by apply (cred_spec_file_missing dir file id w code w'); [left|].
Qed.

End lifecycle.

(** ** At concrete inputs *)
#[local] Existing Instance Script.script_platform.
#[local] Existing Instance Script.script_platform_laws.
#[local] Existing Instance script_krb5.
#[local] Existing Instance Tree.tree_json.
#[local] Existing Instance Tree.tree_json_laws.

(** A machine on which every program does its work. *)
Definition demo_fs_tools : fs :=
  <[resolve install_path_for_decode_exe := File new_file_info ""]>
    (<[["usr"; "bin"; "tool"] := File new_file_info ""]> Script.demo_fs).
Definition demo_password : string := Nat.iter 272 (String "A") "".
Definition demo_which : option (string * Z) := Some ("/usr/bin/tool" +:+ String nl "", 0%Z).
Definition demo_ldap : list (option (string * Z)) :=
  [Some ("dc1.contoso.com." +:+ String nl "", 0%Z);
   Some ("distinguishedName: CN=webapp01,OU=x" +:+ String nl "", 0%Z);
   Some ("msDS-ManagedPassword:: " +:+ demo_password, 0%Z)].
Definition demo_machine (answers : list (option (string * Z))) : world Script.script :=
  World demo_fs_tools ∅ Script.demo_log (Script.Sc (answers ++ demo_ldap) [] [] []).
Definition demo_joined : world Script.script :=
  demo_machine ([demo_which; demo_which; demo_which; demo_which; demo_which;
                 Some ("CONTOSO.COM", 0%Z); Some ("contoso.com", 0%Z); Some ("", 0%Z)]).
Definition demo_domainless : world Script.script :=
  demo_machine [demo_which; demo_which; Some ("", 1%Z)].

Lemma demo_tools_dirs answers : dirs_exist (resolve demo_krbdir) (w_fs (demo_machine answers)).
Proof.
  intros k Hk Hne. destruct (demo_dirs_exist Script.idle k Hk Hne) as [i Hi]. exists i.
  cbn [w_fs demo_machine]. unfold demo_fs_tools. rewrite !lookup_insert_ne; [done| |];
    intros <-; by vm_compute in Hi.
Qed.

Lemma demo_tools_fresh answers id k :
  w_fs (demo_machine answers) !! (resolve demo_krbdir ++ id :: k) = None.
Proof.
  change (resolve demo_krbdir) with ["var"; "credentials-fetcher"; "krbdir"].
  cbn [w_fs demo_machine app]. unfold demo_fs_tools, Script.demo_fs, list_to_map. cbn [foldr uncurry].
  rewrite !lookup_insert_ne; [apply lookup_empty|discriminate..].
Qed.

Lemma demo_accounts_known id :
  String.length id = 20 → accounts_known (V := Tree.tree) id [dummy_credspec].
Proof.
  intros Hid c t ->%list_elem_of_singleton Hp. rewrite demo_parsed in Hp. injection Hp as <-.
  intros Heq%(f_equal String.length). unfold meta_name in Heq.
  rewrite str_app_length, Hid in Heq. by vm_compute in Heq.
Qed.

Lemma demo_caches dir : external_caches dir (λ _, False).
Proof. by intros k []. Qed.

(** The lease has one ticket, and the metadata file gives it back. *)
Lemma lease_recorded_witness :
  ∃ reply w' ts', CreateKerberosLease (X := Script.script) (V := Tree.tree) demo_krbdir ""
      [dummy_credspec] demo_joined = (Ok reply, w') ∧
    lr_paths reply = [krb_files_path demo_krbdir "00000000000000000000" "webapp01"] ∧
    Forall2 (λ t t', made_of (domainless_user t) t t')
      [stamp demo_krbdir "00000000000000000000" "" demo_ticket] ts'.
Proof.
  assert (Hrun : match CreateKerberosLease (X := Script.script) (V := Tree.tree) demo_krbdir ""
      [dummy_credspec] demo_joined with
    | (Ok r, _) => r = LeaseReply "00000000000000000000"
        [krb_files_path demo_krbdir "00000000000000000000" "webapp01"] None
    | _ => False end) by (vm_compute; reflexivity).
  pose proof (lease_recorded (X := Script.script) (V := Tree.tree) demo_krbdir "" (λ _, False)
    [dummy_credspec] demo_joined) as Hall.
  destruct (CreateKerberosLease _ _ _ _) as [[reply|e|e] w']; [|done..]. subst reply.
  destruct (Hall (LeaseReply "00000000000000000000"
        [krb_files_path demo_krbdir "00000000000000000000" "webapp01"] None) w')
    as (ts & ts' & Hcov & Hpaths & _ & Hmade & _).
  - apply _.
  - apply demo_caches.
  - apply demo_plain_path.
  - apply demo_tools_dirs.
  - apply demo_accounts_plain.
  - done.
  - intros k. apply demo_tools_fresh.
  - by apply demo_accounts_known.
  - exists (LeaseReply "00000000000000000000"
        [krb_files_path demo_krbdir "00000000000000000000" "webapp01"] None), w', ts'.
    split_and!; [done|done|]. cbn [lr_paths lr_lease_id] in *.
    destruct ts as [|t [|t2 ts]]; [done| |done].
    destruct (covers_only _ _ _ _ _ Hcov t ltac:(by left)) as (c & t0 & ->%list_elem_of_singleton & Hp & ->).
    rewrite demo_parsed in Hp. injection Hp as <-. exact Hmade.
Defined.

Lemma domainless_lease_recorded_witness :
  ∃ reply w' ts', AddNonDomainJoinedKerberosLease (X := Script.script) (V := Tree.tree) demo_krbdir
      "user1" "secret" "contoso.com" [dummy_credspec] demo_domainless = (Ok reply, w') ∧
    lr_status reply = None ∧
    (Forall ticket_ascii ts' → read_meta_data_json (V := Tree.tree)
       (meta_file_path "00000000000000000000" demo_krbdir) w' = (Ok (read_back (w_fs w') ts'), w')).
Proof.
  assert (Hok : names_ok "user1" "contoso.com" && credentials_ok "user1" "secret" "contoso.com" &&
    (0 <? length [dummy_credspec])%nat = true) by (vm_compute; reflexivity).
  assert (Hrun : match AddNonDomainJoinedKerberosLease (X := Script.script) (V := Tree.tree)
      demo_krbdir "user1" "secret" "contoso.com" [dummy_credspec] demo_domainless with
    | (Ok r, _) => lr_lease_id r = "00000000000000000000" ∧ lr_status r = None
    | _ => False end) by (vm_compute; split; reflexivity).
  pose proof (domainless_lease_recorded (X := Script.script) (V := Tree.tree) demo_krbdir "user1"
    "secret" "contoso.com" (λ _, False) [dummy_credspec] demo_domainless) as Hall.
  destruct (AddNonDomainJoinedKerberosLease _ _ _ _ _ _) as [[reply|e|e] w']; [|done..].
  destruct Hrun as [Hid Hstatus]. specialize (Hall reply w' Hok).
  unfold lease_outcome in Hall. cbv zeta in Hall. rewrite Hid, Hstatus in Hall.
  destruct Hall as (ts & ts' & _ & _ & _ & _ & _ & _ & Hread).
  - apply _.
  - apply demo_caches.
  - apply demo_plain_path.
  - apply demo_tools_dirs.
  - apply demo_accounts_plain.
  - done.
  - intros k. apply demo_tools_fresh.
  - by apply demo_accounts_known.
  - exists reply, w', ts'. by split_and!.
Defined.

(** A specification for another account, and a machine that serves several. *)
Definition account_credspec (account : string) : string :=
  str_map (λ c, if decide (c = "'"%char) then char_of 34 else c)
  ("{'DomainJoinConfig':{'DnsName':'contoso.com'},'ActiveDirectoryConfig':{" +:+
   "'GroupManagedServiceAccounts':[{'Name':'" +:+ account +:+ "','Scope':'contoso.com'}]}}").
Definition demo_joined_twice : world Script.script :=
  World demo_fs_tools ∅ Script.demo_log
    (Script.Sc (Script.sc_read (w_ext demo_joined) ++ Script.sc_read (w_ext demo_joined)) [] [] []).

(** Why no account may be named [..]: its name passes the filter, and its cache is
    made next to the leases, ... *)
Example dotdot_account_escapes :
  let r := CreateKerberosLease (X := Script.script) (V := Tree.tree) demo_krbdir ""
    [account_credspec ".."] demo_joined in
  (lr_status <$> match r.1 with Ok reply => Some reply | _ => None end) = Some None ∧
  w_fs demo_joined !! (resolve demo_krbdir ++ ["krb5cc"]) = None ∧
  is_Some (w_fs r.2 !! (resolve demo_krbdir ++ ["krb5cc"])).
Proof. split_and!; [by vm_compute..|]. apply (bool_decide_unpack _). by vm_compute. Qed.

(** ... and after an account that made the lease's directory its own directory is
    there, which ends the loop: the reply is OK, and the accounts after it, whose
    specifications parse, have nothing. *)
Example dotdot_account_stops :
  let r := CreateKerberosLease (X := Script.script) (V := Tree.tree) demo_krbdir ""
    [account_credspec "web1"; account_credspec ".."; account_credspec "web2"] demo_joined_twice in
  r.1 = Ok (LeaseReply "00000000000000000000"
    [krb_files_path demo_krbdir "00000000000000000000" "web1"] None) ∧
  w_fs r.2 !! (resolve demo_krbdir ++ ["00000000000000000000"; "web2"]) = None.
Proof. split; by vm_compute. Qed.

(** A specification file, for a lease of the name the daemon gives it. *)
Definition demo_spec_file : world Script.script :=
  set_fs (<[["spec.json"] := File new_file_info dummy_credspec]> (w_fs demo_joined)) demo_joined.

Lemma demo_spec_fresh id k : w_fs demo_spec_file !! (resolve demo_krbdir ++ id :: k) = None.
Proof.
  cbn [demo_spec_file w_fs set_fs]. rewrite lookup_insert_ne; [apply demo_tools_fresh|].
  change (resolve demo_krbdir) with ["var"; "credentials-fetcher"; "krbdir"]. discriminate.
Qed.

Lemma demo_spec_dirs : dirs_exist (resolve demo_krbdir) (w_fs demo_spec_file).
Proof.
  intros k Hk Hne.
  destruct ((demo_tools_dirs _ : dirs_exist _ (w_fs demo_joined)) k Hk Hne) as [i Hi]. exists i.
  cbn [demo_spec_file w_fs set_fs]. rewrite lookup_insert_ne; [exact Hi|]. intros <-.
  apply prefix_cons_inv_1 in Hk. discriminate.
Qed.

Lemma demo_spec_ready : ready demo_krbdir DEFAULT_CRED_FILE_LEASE_ID (w_fs demo_spec_file).
Proof. split; [exact demo_spec_dirs|]. left. apply (demo_spec_fresh DEFAULT_CRED_FILE_LEASE_ID []). Qed.

Lemma demo_spec_known : accounts_known (V := Tree.tree) DEFAULT_CRED_FILE_LEASE_ID [dummy_credspec].
Proof. intros c t ->%list_elem_of_singleton Hp. rewrite demo_parsed in Hp. injection Hp as <-. discriminate. Qed.

Lemma demo_spec_meta i :
  w_fs demo_spec_file !! resolve (meta_file_path DEFAULT_CRED_FILE_LEASE_ID demo_krbdir) ≠ Some (Dir i).
Proof. rewrite meta_resolve by (apply (bool_decide_unpack _); by vm_compute). by rewrite demo_spec_fresh. Qed.

Lemma cred_spec_file_recorded_witness :
  ∃ w' t t', ProcessCredSpecFile (X := Script.script) (V := Tree.tree) demo_krbdir "/spec.json"
      DEFAULT_CRED_FILE_LEASE_ID demo_spec_file = (Ok EXIT_SUCCESS, w') ∧
    made_of "" (file_ticket demo_krbdir DEFAULT_CRED_FILE_LEASE_ID t) t' ∧
    recorded (V := Tree.tree) demo_krbdir DEFAULT_CRED_FILE_LEASE_ID [t'] (w_fs w').
Proof.
  assert (Hrun : match ProcessCredSpecFile (X := Script.script) (V := Tree.tree) demo_krbdir "/spec.json"
      DEFAULT_CRED_FILE_LEASE_ID demo_spec_file with
    | (Ok code, _) => code = EXIT_SUCCESS
    | _ => False end) by (vm_compute; reflexivity).
  pose proof (cred_spec_file_recorded (X := Script.script) (V := Tree.tree) demo_krbdir "/spec.json"
    DEFAULT_CRED_FILE_LEASE_ID (λ _, False) demo_spec_file) as Hall.
  destruct (ProcessCredSpecFile _ _ _ _) as [[code|e|e] w']; [|done..]. subst code.
  destruct (Hall EXIT_SUCCESS w') as [(_ & text & t & t' & _ & _ & Hmade & _ & Hrec & _)|[Hcode _]].
  - apply _.
  - apply demo_caches.
  - apply demo_plain_path.
  - apply (bool_decide_unpack _). by vm_compute.
  - apply demo_spec_ready.
  - intros text Htext. vm_compute in Htext. injection Htext as <-.
    split; [exact demo_accounts_plain|exact demo_spec_known].
  - apply demo_spec_meta.
  - done.
  - exists w', t, t'. by split_and!.
  - discriminate.
Defined.
