(* ===== verification/Aws.v ===== *)
(** * AWS ([api/src/gmsa_service.cpp], under [AMAZON_LINUX_DISTRO])

    The four routines that talk to AWS. The SDK is a library of its own: the
    class [Aws] holds the calls the code makes, each of which may change the
    world outside, fail, or throw. *)
From S2P Require Import Prelude StrUtil Logger World Json Regex Validation CredSpec.
From stdpp Require Import options.

(** What the code sets of [Aws::Auth::AWSCredentials]. *)
Record aws_credentials := AwsCredentials {
  access_key_id : string;
  secret_key : string;
  session_token : string
}.

(** The object an ARN of S3 names. *)
Record s3_object := S3Object { s3_bucket : string; s3_key : string }.

Class Aws (X : Type) := {
  (** [Aws::InitAPI] *)
  aws_init : X → outcome unit * X;
  (** [AWSCredentials::IsEmpty], on what the provider gives back *)
  aws_is_empty : aws_credentials → bool;
  (** [STSClient::GetCallerIdentity]: the account, [None] on failure *)
  aws_caller_identity (region : string) (creds : aws_credentials) : X → outcome (option string) * X;
  (** [S3Client::HeadObject]: the content length *)
  aws_head_object (region : string) (creds : aws_credentials) (o : s3_object) :
    X → outcome (option Z) * X;
  (** [S3Client::GetObject]: the body *)
  aws_get_object (region : string) (creds : aws_credentials) (o : s3_object) :
    X → outcome (option string) * X;
  (** [SecretsManagerClient::GetSecretValue]: the secret string *)
  aws_get_secret (region : string) (creds : aws_credentials) (arn : string) :
    X → outcome (option string) * X
}.

(** [std::regex pattern( "arn:([^:]+):s3:::([^/]+)/(.+)" )]; a dot is any
    character but a line end. *)
Definition not_char (d c : ascii) : bool := bool_decide (c ≠ d).
Definition not_line_end (c : ascii) : bool := bool_decide (code_of c ≠ 10 ∧ code_of c ≠ 13).
Definition s3_arn_regex : regex :=
  RSeq (r_lit "arn:") (RSeq (RGroup 1 (r_plus (RChar (not_char ":"%char))))
    (RSeq (r_lit ":s3:::") (RSeq (RGroup 2 (r_plus (RChar (not_char slash))))
      (RSeq (r_lit "/") (RGroup 3 (r_plus (RChar not_line_end))))))).

(** [std::regex_search( s3_arn, arn_match, pattern )], and the groups used. *)
Definition s3_object_of_arn (s3_arn : string) : option s3_object :=
  match regex_search s3_arn_regex (chars_of s3_arn) with
  | Some (_, c) => Some (S3Object (string_of (capture 2 c)) (string_of (capture 3 c)))
  | None => None
  end.

Section aws.
Context {X : Type} `{Platform X} `{Aws X}.
Abbreviation MW := (M (world X)).

Definition aws {A : Type} (f : X → outcome A * X) : MW A := λ w,
  let '(r, x) := f (w_ext w) in (r, set_ext x w).

Definition get_credentials (accessKeyId secretKey sessionToken : string) : aws_credentials :=
  AwsCredentials accessKeyId secretKey sessionToken.

(** What the routines share: the SDK is initialised, and empty credentials are
    refused. *)
Definition with_aws {A : Type} (creds : aws_credentials) (failed : A) (m : MW A) : MW A :=
  try_catch
    (aws aws_init;; if aws_is_empty creds then mret failed else m)
    (λ _, mret failed).

Definition get_caller_id (region : string) (credentials : aws_credentials) : MW string :=
  with_aws credentials "" (
    outcome ← aws (aws_caller_identity region credentials);
    mret (default "" outcome)).

Definition check_file_size_s3 (s3_arn region : string) (credentials : aws_credentials)
    (test : bool) : MW bool :=
  with_aws credentials false (
    match s3_object_of_arn s3_arn with
    | None => mret false
    | Some o =>
      if test then mret true
      else
        outcome ← aws (aws_head_object region credentials o);
        match outcome with
        | None => mret false
        | Some objLen => mret (negb (4000 <? objLen)%Z)
        end
    end).

Definition retrieve_credspec_from_s3 (s3_arn region : string) (credentials : aws_credentials)
    (test : bool) : MW string :=
  with_aws credentials "" (
    match s3_object_of_arn s3_arn with
    | None => mret ""
    | Some o =>
      if test then mret dummy_credspec
      else
        outcome ← aws (aws_get_object region credentials o);
        mret (default "" outcome)
    end).

(** The tuple [( username, password, domain, distinguished name )]. *)
Record user_secret := UserSecret {
  us_username : string;
  us_password : string;
  us_domain : string;
  us_distinguished_name : string
}.

Definition no_secret : user_secret := UserSecret "" "" "" "".

(** A member of the secret, or the member that replaces it when it is empty. *)
Definition member_or {V : Type} `{JsonCpp V} (root : V) (k k' : string) : outcome string :=
  s ← json_path_string root [k];
  if str_empty s then json_path_string root [k'] else Ok s.

Definition user_secret_of {V : Type} `{JsonCpp V} (response : string) : outcome user_secret :=
  let root : V := (json_parse response).2 in
  username ← member_or root "username" "usernameOfStandardUserAccount";
  password ← member_or root "password" "passwordOfStandardUserAccount";
  distinguished_name ← member_or root "distinguishedName" "distinguishedNameOfgMSA";
  domain ← json_path_string root ["domainName"];
  Ok (UserSecret username password domain distinguished_name).

Definition retrieve_credspec_from_secrets_manager (V : Type) `{JsonCpp V} (sm_arn region : string)
    (credentials : aws_credentials) : MW user_secret :=
  with_aws credentials no_secret (
    outcome ← aws (aws_get_secret region credentials sm_arn);
    match outcome with
    | None => mret no_secret
    | Some response => lift (user_secret_of (V := V) response)
    end).

End aws.

(** ** Lemmas on ARNs of S3 *)

(** *** The first match tried *)
Definition fails (p : ascii → bool) (s : list ascii) : Prop :=
  match s with [] => True | a :: _ => p a = false end.

Lemma first_seq r1 r2 s c s1 c1 x :
  head (match_all r1 s c) = Some (s1, c1) → head (match_all r2 s1 c1) = Some x →
  head (match_all (RSeq r1 r2) s c) = Some x.
Proof.
  intros H1 H2. cbn [match_all]. destruct (match_all r1 s c) as [|y l]; [done|].
  injection H1 as ->. cbn. by destruct (match_all r2 s1 c1).
Qed.

Lemma first_group n r s1 rest c c' :
  head (match_all r (s1 ++ rest) c) = Some (rest, c') →
  head (match_all (RGroup n r) (s1 ++ rest) c) = Some (rest, (n, s1) :: c').
Proof.
  intros Hh. cbn [match_all]. destruct (match_all r (s1 ++ rest) c) as [|y l]; [done|].
  injection Hh as ->. cbn. by rewrite length_app, Nat.add_sub, take_app_length.
Qed.

Lemma first_lit t rest c : head (match_all (r_lit t) (chars_of t ++ rest) c) = Some (rest, c).
Proof.
  revert c. induction t as [|a t IH]; intros c; [done|]. cbn [r_lit].
  apply (first_seq _ _ _ _ (chars_of t ++ rest) c); [|apply IH].
  cbn. by rewrite bool_decide_true.
Qed.

Lemma first_star p s1 rest c n :
  Forall (λ a, p a = true) s1 → fails p rest → length (s1 ++ rest) ≤ n →
  head (match_star (RChar p) n (s1 ++ rest) c) = Some (rest, c).
Proof.
  intros Hall. revert n. induction Hall as [|a s1 Ha _ IH]; intros n Hf Hn; cbn [app].
  - destruct n as [|n]; [done|]. cbn [match_star match_all].
    destruct rest as [|b rest]; [done|]. cbn in Hf. by rewrite Hf.
  - destruct n as [|n]; [cbn in Hn; lia|]. cbn [match_star match_all]. rewrite Ha. cbn.
    destruct (Nat.leb_spec (length (s1 ++ rest)) (length (s1 ++ rest))) as [_|]; [|lia].
    specialize (IH n Hf). rewrite app_nil_r. cbn in Hn.
    destruct (match_star (RChar p) n (s1 ++ rest) c); [by discriminate IH; lia|]. apply IH. lia.
Qed.

Lemma first_plus p s1 rest c :
  s1 ≠ [] → Forall (λ a, p a = true) s1 → fails p rest →
  head (match_all (r_plus (RChar p)) (s1 ++ rest) c) = Some (rest, c).
Proof.
  intros Hne Hall Hf. destruct s1 as [|a s1]; [done|]. apply Forall_cons in Hall as [Ha Hall].
  eapply first_seq; [cbn; by rewrite Ha|]. rewrite match_all_star. by apply first_star.
Qed.

Lemma lang_plus p s : lang (r_plus (RChar p)) s ↔ s ≠ [] ∧ Forall (λ a, p a = true) s.
Proof.
  unfold r_plus. rewrite lang_seq_inv. split.
  - intros (s1 & s2 & -> & (a & -> & Ha)%lang_char_inv & Hs%lang_star_char).
    split; [done|by constructor].
  - intros [Hne Hall]. destruct s as [|a s]; [done|]. apply Forall_cons in Hall as [Ha Hall].
    exists [a], s. split_and!; [done|by constructor|by apply lang_star_char].
Qed.

Lemma has_char_chars d s : has_char d s = false ↔ Forall (λ a, not_char d a = true) (chars_of s).
Proof.
  induction s as [|a s IH]; cbn; [split; [constructor|done]|].
  rewrite orb_false_iff, IH, Forall_cons, bool_decide_eq_false. unfold not_char.
  rewrite bool_decide_eq_true. naive_solver.
Qed.

(** The parts of an ARN. *)
Definition s3_arn_parts (partition bucket key : string) : Prop :=
  partition ≠ "" ∧ has_char ":"%char partition = false ∧
  bucket ≠ "" ∧ has_char slash bucket = false ∧
  key ≠ "" ∧ str_forall not_line_end key = true.

Definition s3_arn (partition bucket key : string) : string :=
  "arn:" +:+ partition +:+ ":s3:::" +:+ bucket +:+ "/" +:+ key.

Lemma chars_nonempty s : chars_of s ≠ [] ↔ s ≠ "".
Proof. by destruct s. Qed.

Lemma str_forall_chars p s : str_forall p s = true ↔ Forall (λ a, p a = true) (chars_of s).
Proof.
  induction s as [|a s IH]; cbn; [split; [constructor|done]|].
  by rewrite andb_true_iff, IH, Forall_cons.
Qed.

Lemma s3_arn_lang m c :
  clang s3_arn_regex m [] c →
  ∃ partition bucket key, s3_arn_parts partition bucket key ∧
    m = chars_of (s3_arn partition bucket key) ∧
    capture 2 c = chars_of bucket ∧ capture 3 c = chars_of key.
Proof.
  unfold s3_arn_regex. intros Hm.
  apply clang_seq_inv in Hm as (m1 & m' & c1 & -> & Hl1 & Hm).
  apply clang_seq_inv in Hm as (p & m'' & c2 & -> & Hp & Hm).
  apply clang_seq_inv in Hm as (m3 & m''' & c3 & -> & Hl3 & Hm).
  apply clang_seq_inv in Hm as (b & m4 & c4 & -> & Hb & Hm).
  apply clang_seq_inv in Hm as (m5 & k & c5 & -> & Hl5 & Hk).
  pose proof (clang_no_groups _ _ _ _ Hl1 eq_refl) as ->. apply clang_lang, lang_lit in Hl1 as ->.
  pose proof (clang_no_groups _ _ _ _ Hl3 eq_refl) as ->. apply clang_lang, lang_lit in Hl3 as ->.
  pose proof (clang_no_groups _ _ _ _ Hl5 eq_refl) as ->. apply clang_lang, lang_lit in Hl5 as ->.
  apply clang_group_inv in Hp as (d1 & -> & Hp). apply clang_group_inv in Hb as (d2 & -> & Hb).
  apply clang_group_inv in Hk as (d3 & -> & Hk).
  apply clang_lang, lang_plus in Hp as [Hpn Hp]. 
  pose proof (clang_no_groups _ _ _ _ Hb eq_refl) as ->. apply clang_lang, lang_plus in Hb as [Hbn Hb].
  pose proof (clang_no_groups _ _ _ _ Hk eq_refl) as ->. apply clang_lang, lang_plus in Hk as [Hkn Hk].
  exists (string_of p), (string_of b), (string_of k).
  unfold s3_arn_parts, s3_arn. rewrite !chars_of_app, <-!chars_nonempty, !has_char_chars,
    str_forall_chars, !chars_of_string_of. done.
Qed.

(** C25: an object of S3 is only looked up when the text contains an ARN of S3,
    and then it is the bucket and key of that ARN; of a well-formed ARN it is
    exactly the bucket up to the first slash and the whole key. *)
Theorem s3_object_of_arn_spec text :
  match s3_object_of_arn text with
  | Some o => ∃ pre partition post, s3_arn_parts partition (s3_bucket o) (s3_key o) ∧
      text = pre +:+ s3_arn partition (s3_bucket o) (s3_key o) +:+ post
  | None => ∀ partition bucket key, s3_arn_parts partition bucket key →
      ∀ pre post, text ≠ pre +:+ s3_arn partition bucket key +:+ post
  end ∧
  (∀ partition bucket key, s3_arn_parts partition bucket key →
     text = s3_arn partition bucket key → s3_object_of_arn text = Some (S3Object bucket key)).
Proof.
  assert (Hfirst : ∀ partition bucket key, s3_arn_parts partition bucket key →
    head (match_all s3_arn_regex (chars_of (s3_arn partition bucket key)) []) =
    Some ([], [(3, chars_of key); (2, chars_of bucket); (1, chars_of partition)])).
  { intros p b k (Hpn & Hp & Hbn & Hb & Hkn & Hk).
    rewrite <-chars_nonempty in Hpn, Hbn, Hkn. rewrite has_char_chars in Hp, Hb.
    rewrite str_forall_chars in Hk. unfold s3_arn, s3_arn_regex. rewrite !chars_of_app.
    eapply first_seq; [apply first_lit|]. eapply first_seq; [by apply first_group, first_plus|].
    eapply first_seq; [apply first_lit|]. eapply first_seq; [by apply first_group, first_plus|].
    eapply first_seq; [apply first_lit|]. rewrite <-(app_nil_r (chars_of k)) at 1.
    by apply first_group, first_plus. }
  split.
  - unfold s3_object_of_arn. destruct (regex_search _ _) as [[m c]|] eqn:Hs.
    + apply regex_search_clang in Hs as (a & b & Heq & Hm).
      apply s3_arn_lang in Hm as (p & bu & k & Hparts & -> & -> & ->). cbn.
      rewrite !string_of_chars_of. exists (string_of a), p, (string_of b). split; [done|].
      apply chars_of_inj. by rewrite !chars_of_app, !chars_of_string_of.
    + intros p b k Hparts pre post ->. rewrite !chars_of_app in Hs.
      destruct (regex_search_complete s3_arn_regex (chars_of pre) (chars_of (s3_arn p b k)) (chars_of post))
        as [x Hx]; [|congruence].
      specialize (Hfirst p b k Hparts). destruct (match_all _ _ []) as [|y l] eqn:Hall; [done|].
      injection Hfirst as ->.
      destruct (match_all_sound s3_arn_regex (chars_of (s3_arn p b k)) [] []
        [(3, chars_of k); (2, chars_of b); (1, chars_of p)]) as (m & Heq & Hm); [rewrite Hall; by left|].
      by rewrite app_nil_r in Heq; rewrite Heq.
  - intros p b k Hparts ->. specialize (Hfirst p b k Hparts). unfold s3_object_of_arn.
    destruct (chars_of (s3_arn p b k)) eqn:Hc; [done|]. cbn [regex_search].
    destruct (match_all _ _ []) as [|y ms]; [done|]. injection Hfirst as ->. cbn -[chars_of string_of].
    repeat case_decide; try lia. by rewrite !string_of_chars_of.
Qed.

Lemma s3_object_of_arn_spec_witness :
  s3_object_of_arn "arn:aws:s3:::gmsacredspec/gmsa-cred-spec.json"
  = Some (S3Object "gmsacredspec" "gmsa-cred-spec.json").
Proof.
  destruct (s3_object_of_arn_spec "arn:aws:s3:::gmsacredspec/gmsa-cred-spec.json") as [_ Hwf].
  apply (Hwf "aws" "gmsacredspec" "gmsa-cred-spec.json"); [|reflexivity].
  repeat split; discriminate || (vm_compute; reflexivity).
Defined.
