(* ===== verification/ArnLease.v ===== *)
(** * Leases from ARNs ([api/src/gmsa_service.cpp], under [AMAZON_LINUX_DISTRO])

    The handlers [CallDataCreateKerberosArnLease] and
    [CallDataRenewKerberosArnLease]: the credential specifications are objects
    in S3, the user's credentials a secret. *)
From S2P Require Import Prelude StrUtil Logger World Json Regex Validation CredSpec Metadata Kinit Util Klist Krb Confine Lease Aws.
From stdpp Require Import options.

(** ** Requests and replies *)
Record arn_request := ArnRequest {
  rq_credspec_arns : list string;
  rq_access_key_id : string;
  rq_secret_access_key : string;
  rq_session_token : string;
  rq_region : string
}.

Record arn_reply := ArnReply {
  ar_lease_id : string;
  ar_response_map : list (string * string);   (* the ARN and the path *)
  ar_status : option string
}.

Definition credentials_present (rq : arn_request) : bool :=
  negb (str_empty (rq_access_key_id rq)) && negb (str_empty (rq_secret_access_key rq)) &&
  negb (str_empty (rq_session_token rq)) && negb (str_empty (rq_region rq)).

(** The local variables of the handler that the loop changes. *)
Record arn_locals := ArnLocals {
  al_lease_id : string;
  al_secret : user_secret;
  al_isTest : bool;
  al_dirs : gset string;
  al_tickets : list krb_ticket_info;
  al_arns : list krb_ticket_arn_mapping
}.

Definition arn_locals_init : arn_locals := ArnLocals "" no_secret false ∅ [] [].
Definition set_isTest (b : bool) (l : arn_locals) : arn_locals :=
  ArnLocals (al_lease_id l) (al_secret l) b (al_dirs l) (al_tickets l) (al_arns l).
Definition set_lease_id (i : string) (l : arn_locals) : arn_locals :=
  ArnLocals i (al_secret l) (al_isTest l) (al_dirs l) (al_tickets l) (al_arns l).
Definition set_secret (s : user_secret) (l : arn_locals) : arn_locals :=
  ArnLocals (al_lease_id l) s (al_isTest l) (al_dirs l) (al_tickets l) (al_arns l).
Definition add_arn_ticket (path : string) (t : krb_ticket_info) (m : krb_ticket_arn_mapping)
    (l : arn_locals) : arn_locals :=
  ArnLocals (al_lease_id l) (al_secret l) (al_isTest l) ({[path]} ∪ al_dirs l)
    (al_tickets l ++ [t]) (al_arns l ++ [m]).

Section arn.
Context {X : Type} `{Platform X} {V : Type} `{JsonCpp V} `{Krb5 X} `{Aws X}.
Abbreviation MW := (M (world X)).

(** *** Creating *)

(** [results[0]] and [results[1]] of an element of the request, or the error. *)
Definition split_credspec_arn (credspecarn : string) : string + (string * string) :=
  if str_empty credspecarn then inl "ERROR: credentialspec arn should not be empty"
  else
    match split_string credspecarn "#"%char with
    | [arn; mount] =>
      if negb (length (split_string mount slash) =? 2)%nat ||
         contains_invalid_characters_in_credentials mount
      then inl "ERROR: mount path is invalid"
      else inr (arn, mount)
    | _ => inl "ERROR: credentialspec arn is not valid"
    end.

Definition err_arn_credentials : string :=
  "ERROR: domainless AD user credentials is not valid/ " +:+
  "credentials should not be more than 256 charaters".

(** The user, password and domain of a secret pass the handler's tests, or the
    error. *)
Definition secret_error (s : user_secret) : option string :=
  if names_ok (us_username s) (us_domain s) then
    if credentials_ok (us_username s) (us_password s) (us_domain s) then None
    else Some err_arn_credentials
  else Some "ERROR: invalid domainName/username".

(** [mountpath[0]] *)
Definition task_id (mount : string) : string := default "" (head (split_string mount slash)).

(** The body of the loop for an element that is not a test: the error message,
    empty to go on, and the variables. *)
Definition add_arn_credspec (krb_files_dir : string) (rq : arn_request) (arn mount : string)
    (l : arn_locals) : MW (string * arn_locals) :=
  let creds := get_credentials (rq_access_key_id rq) (rq_secret_access_key rq) (rq_session_token rq) in
  isObjectValid ← check_file_size_s3 arn (rq_region rq) creds false;
  if negb isObjectValid then mret ("ERROR: invalid object for credentialspec in s3", l)
  else
    response ← retrieve_credspec_from_s3 arn (rq_region rq) creds false;
    if str_empty response then mret ("ERROR: credentialspec cannot be retrieved from s3", l)
    else
      parsed ← lift (parse_cred_spec_domainless (V := V) response new_ticket (ArnMapping "" arn ""));
      let '(parse_result, (t, m)) := parsed in
      if negb (parse_result =? 0)%Z then mret ("ERROR: invalid credentialspec fields", l)
      else if str_empty (credential_domainless_user_arn m) then
        mret ("ERROR: invalid secrets manager arn", l)
      else
        s ← retrieve_credspec_from_secrets_manager V (credential_domainless_user_arn m)
              (rq_region rq) creds;
        let l := set_secret s l in
        match secret_error s with
        | Some err => mret (err, l)
        | None =>
          let path := krb_files_dir +:+ "/" +:+ mount in
          let l := set_lease_id (task_id mount) l in
          let t := with_distinguished_name (us_distinguished_name s)
                     (with_domainless_user (us_username s) (with_krb_file_path path t)) in
          let m := ArnMapping path (credential_spec_arn m) (credential_domainless_user_arn m) in
          if decide (path ∈ al_dirs l) then mret ("ERROR: found duplicate mount paths", l)
          else mret ("", add_arn_ticket path t m l)
        end.

(** The body of the loop. *)
Definition arn_body (krb_files_dir : string) (rq : arn_request) (l : arn_locals)
    (credspecarn : string) : MW (string * arn_locals) :=
  match split_credspec_arn credspecarn with
  | inl err => mret (err, l)
  | inr (arn, mount) =>
    let isTest := IsTestInvocationForUnitTests arn in
    let l := set_isTest isTest l in
    if isTest then
      let path := krb_files_dir +:+ "/" +:+ mount in
      create_directories path;;
      write_file (path +:+ "/krb5cc") "";;
      mret ("", set_lease_id (task_id mount) l)
    else add_arn_credspec krb_files_dir rq arn mount l
  end.

Fixpoint arn_loop (krb_files_dir : string) (rq : arn_request) (l : arn_locals)
    (arns : list string) : MW (string * arn_locals) :=
  match arns with
  | [] => mret ("", l)
  | a :: rest =>
    r ← arn_body krb_files_dir rq l a;
    let '(err_msg, l) := r in
    if str_empty err_msg then arn_loop krb_files_dir rq l rest else mret (err_msg, l)
  end.

(** One ticket, with the credentials the loop left behind. *)
Definition arn_step (s : user_secret) (t : krb_ticket_info) : MW made :=
  if str_empty (us_username s) || str_empty (us_password s) then
    log LOG_ERR ("Invalid credentials for domainless user " +:+ us_username s);;
    mret (Stop "ERROR: Invalid credentials for domainless user" t)
  else
    status ← generate_krb_ticket_using_username_and_password (us_domain s) (us_username s)
               (us_password s);
    if (status.1 <? 0)%Z then
      let err_msg := "ERROR :" +:+ to_string status.1 +:+
                     ": Cannot retrieve domainless user kerberos tickets" in
      log LOG_ERR (err_msg +:+ " Status: " +:+ to_string status.1 +:+ " " +:+ status.2);;
      mret (Stop err_msg t)
    else
      create_directories (krb_file_path t);;
      let krb_ccname_str := krb_file_path t +:+ "/krb5cc" in
      found ← exists_ krb_ccname_str;
      t ← (if found : bool then mret t
           else write_file krb_ccname_str "";; mret (with_krb_file_path krb_ccname_str t));
      r ← fetch_gmsa_password_and_create_krb_ticket (us_domain s) t krb_ccname_str;
      let '(gmsa_ticket_result, t) := r in
      if negb (gmsa_ticket_result.1 =? 0)%Z then
        let err_msg := "ERROR: " +:+ to_string status.1 +:+ ": Cannot get gMSA krb ticket" in
        log LOG_ERR err_msg;; mret (Stop err_msg t)
      else
        log LOG_INFO ("gMSA ticket is at " +:+ gmsa_ticket_result.2);; mret (Made t).

(** The end of the handler, from the error message, the variables and the
    tickets as they are now. *)
Definition finish_arn_lease (krb_files_dir err_msg : string) (l : arn_locals)
    (tickets : list krb_ticket_info) : MW arn_reply :=
  if negb (str_empty err_msg) && negb (al_isTest l) then
    remove_tickets tickets;; mret (ArnReply (al_lease_id l) [] (Some err_msg))
  else if negb (al_isTest l) then
    write_meta_data_json (V := V) tickets (al_lease_id l) krb_files_dir;;
    mret (ArnReply (al_lease_id l)
            ((λ m, (credential_spec_arn m, am_krb_file_path m)) <$> al_arns l) None)
  else mret (ArnReply (al_lease_id l) [] None).

Definition AddKerberosArnLease (krb_files_dir : string) (rq : arn_request) : MW arn_reply :=
  r ← (if credentials_present rq && (0 <? length (rq_credspec_arns rq))%nat
       then arn_loop krb_files_dir rq arn_locals_init (rq_credspec_arns rq)
       else mret ("Error: access credentials should not be empty", arn_locals_init));
  let '(err_msg, l) := r in
  r ← (if str_empty err_msg && negb (al_isTest l) then
         c ← create_tickets (arn_step (al_secret l)) (al_tickets l); mret c.1
       else mret (err_msg, al_tickets l));
  finish_arn_lease krb_files_dir r.1 l r.2.

(** *** Renewing *)

(** One ticket of a metadata file. [tm] is what the readers filled of the
    ticket and the mapping shared by the file's tickets; the error ends the
    loop over the file. *)
Definition renew_arn_ticket (rq : arn_request) (tm : krb_ticket_info * krb_ticket_arn_mapping)
    (t : krb_ticket_info) : MW (string * (krb_ticket_info * krb_ticket_arn_mapping)) :=
  if str_empty (credspec_info t) then mret ("", tm)
  else
    let creds := get_credentials (rq_access_key_id rq) (rq_secret_access_key rq) (rq_session_token rq) in
    response ← retrieve_credspec_from_s3 (credspec_info t) (rq_region rq) creds false;
    if str_empty response then mret ("ERROR: credentialspec cannot be retrieved from s3", tm)
    else
      parsed ← lift (parse_cred_spec_domainless (V := V) response tm.1 tm.2);
      let '(parse_result, tm) := parsed in
      if negb (parse_result =? 0)%Z then mret ("ERROR: invalid credentialspec fields", tm)
      else if str_empty (credential_domainless_user_arn tm.2) then
        mret ("ERROR: invalid secrets manager arn", tm)
      else
        s ← retrieve_credspec_from_secrets_manager V (credential_domainless_user_arn tm.2)
              (rq_region rq) creds;
        match secret_error s with
        | Some err => mret (err, tm)
        | None =>
          renew_gmsa_ticket t (us_domain s) (us_username s) (us_password s);; mret ("", tm)
        end.

Fixpoint renew_arn_tickets (rq : arn_request) (tm : krb_ticket_info * krb_ticket_arn_mapping)
    (ts : list krb_ticket_info) : MW string :=
  match ts with
  | [] => mret ""
  | t :: rest =>
    r ← renew_arn_ticket rq tm t;
    if str_empty r.1 then renew_arn_tickets rq r.2 rest else mret r.1
  end.

(** The loop over the files: an error ends a file's tickets, not the loop, and
    the last one is kept. *)
Fixpoint renew_arn_files (rq : arn_request) (err_msg : string) (files : list string) : MW string :=
  match files with
  | [] => mret err_msg
  | file_path :: rest =>
    ts ← read_meta_data_json (V := V) file_path;
    err ← renew_arn_tickets rq (new_ticket, new_mapping) ts;
    renew_arn_files rq (if str_empty err then err_msg else err) rest
  end.

(** The reply's [status] field and the gRPC status. *)
Definition RenewKerberosArnLease (krb_files_dir : string) (rq : arn_request)
    : MW (string * option string) :=
  err_msg ← (if credentials_present rq then
               files ← get_meta_data_file_paths krb_files_dir;
               renew_arn_files rq "" files
             else mret "ERROR: invalid credentials/region");
  mret (if negb (str_empty err_msg) then ("failed", Some err_msg) else ("successful", None)).

(** ** Mount paths *)
Lemma no_dot_char comps : Forall (λ t, has_char dot t = false) comps → no_dots comps.
Proof.
  intros Hc. eapply Forall_impl; [exact Hc|]. intros c Hdot. by split; intros ->.
Qed.

Lemma mount_no_dot mount :
  contains_invalid_characters_in_credentials mount = false → has_char dot mount = false.
Proof.
  intros Hm. eapply contains_any_false; [exact Hm|]. apply (bool_decide_unpack _). by vm_compute.
Qed.

Lemma split_credspec_arn_ok a arn mount :
  split_credspec_arn a = inr (arn, mount) →
  split_string a "#"%char = [arn; mount] ∧ length (split_string mount slash) = 2 ∧
  has_char dot mount = false.
Proof.
  unfold split_credspec_arn. destruct (str_empty a); [done|].
  destruct (split_string a "#"%char) as [|x [|y [|]]]; try done.
  destruct (_ || _) eqn:Hm; [done|]. intros [= -> ->].
  apply orb_false_iff in Hm as [Hn%negb_false_iff%Nat.eqb_eq Hm]. by split_and!; [| |apply mount_no_dot].
Qed.

Lemma mount_no_dots mount : has_char dot mount = false → no_dots (split_string mount slash).
Proof. intros Hm. by apply no_dot_char, split_string_chars. Qed.

Lemma Forall_head_or (P : string → Prop) l : Forall P l → P "" → P (default "" (head l)).
Proof. by intros [|]. Qed.

Lemma task_id_no_dot mount : has_char dot mount = false → has_char dot (task_id mount) = false.
Proof. intros Hm. unfold task_id. apply Forall_head_or; [by apply split_string_chars|done]. Qed.

Lemma task_id_no_slash mount : has_char slash (task_id mount) = false.
Proof. unfold task_id. apply Forall_head_or; [by apply split_string_tokens|done]. Qed.

(** ** Paths below the directory of the leases *)
Section arn_paths.
Context (dir : string).

(** A path of the form [dir/sub] without dot names. *)
Definition sub_path (p : string) : Prop :=
  ∃ sub, p = dir +:+ "/" +:+ sub ∧ no_dots (split_string sub slash).

Lemma sub_path_resolve p : sub_path p → resolve dir `prefix_of` resolve p.
Proof.
  intros (sub & -> & Hs). rewrite resolve_app. etrans; [|by apply resolve_comps_no_dots].
  by rewrite rev_involutive.
Qed.

Lemma sub_path_app p f : sub_path p → plain_name f → sub_path (p +:+ "/" +:+ f).
Proof.
  intros (sub & -> & Hs) (Hne & Hd & Hdd & Hno). exists (sub +:+ "/" +:+ f). split.
  - by rewrite !str_app_assoc.
  - destruct (split_app sub f) as (pad & Hpad & ->). rewrite (split_plain f) by done.
    repeat (apply Forall_app; split); [done|by apply no_dots_pad|by repeat constructor].
Qed.

Lemma sub_path_krb5cc p : sub_path p → sub_path (p +:+ "/krb5cc").
Proof. intros Hp. change "/krb5cc" with ("/" +:+ "krb5cc"). by apply sub_path_app, plain_krb5cc. Qed.

Lemma sub_path_mount mount : has_char dot mount = false → sub_path (dir +:+ "/" +:+ mount).
Proof. intros Hm. exists mount. split; [done|by apply mount_no_dots]. Qed.

End arn_paths.

Abbreviation ticket_below dir t := (sub_path dir (krb_file_path t)).

(** The locals of the loop: plain paths below the directory, a plain id. *)
Definition locals_below (dir : string) (l : arn_locals) : Prop :=
  Forall (λ t, ticket_below dir t) (al_tickets l) ∧
  has_char dot (al_lease_id l) = false ∧ has_char slash (al_lease_id l) = false.

(** What a step leaves behind. *)
Definition made_below (dir : string) (m : made) : Prop :=
  match m with Made t | Stop _ t => ticket_below dir t end.

(** ** The loops over the request and over the tickets

    For any set of paths in which the directories and files of the test
    elements lie. *)
Section arn_loop_rules.
Context (dir : string) (P : list string → Prop) (s0 : fs).
Abbreviation conf m Q := (confined P s0 m Q).
Hypothesis Hcreate : ∀ p, sub_path dir p → conf (create_directories (X := X) p) (λ _, True).
Hypothesis Hwrite : ∀ p c, sub_path dir p → conf (write_file (X := X) p c) (λ _, True).

Lemma confined_with_aws {A : Type} creds (failed : A) m :
  conf m (λ _, True) → conf (with_aws (X := X) creds failed m) (λ _, True).
Proof.
  intros Hm. unfold with_aws. apply confined_catch; [|by intros; apply confined_ret].
  apply confined_seq.
  - apply confined_same. intros w. unfold aws. by destruct (aws_init (w_ext w)).
  - intros _. by destruct (aws_is_empty creds); [apply confined_ret|].
Qed.

Lemma confined_aws {A : Type} (f : X → outcome A * X) : conf (aws f) (λ _, True).
Proof. apply confined_same. intros w. unfold aws. by destruct (f (w_ext w)). Qed.

Lemma confined_check_size arn region creds test :
  conf (check_file_size_s3 (X := X) arn region creds test) (λ _, True).
Proof.
  apply confined_with_aws. destruct (s3_object_of_arn arn), test; try by apply confined_ret.
  apply confined_seq; [apply confined_aws|]. intros [z|]; by apply confined_ret.
Qed.

Lemma confined_s3 arn region creds test :
  conf (retrieve_credspec_from_s3 (X := X) arn region creds test) (λ _, True).
Proof.
  apply confined_with_aws. destruct (s3_object_of_arn arn), test; try by apply confined_ret.
  apply confined_seq; [apply confined_aws|]. intros z. by apply confined_ret.
Qed.

Lemma confined_user_secret arn region creds :
  conf (retrieve_credspec_from_secrets_manager (X := X) V arn region creds) (λ _, True).
Proof.
  apply confined_with_aws. apply confined_seq; [apply confined_aws|].
  intros [r|]; [eapply confined_true, confined_lift|by apply confined_ret].
Qed.

#[local] Set Default Proof Using "Type*".
Lemma confined_add_arn rq arn mount l :
  has_char dot mount = false → locals_below dir l →
  conf (add_arn_credspec dir rq arn mount l) (λ r, locals_below dir r.2).
Proof.
  intros Hm Hl. unfold add_arn_credspec. cbv zeta.
  apply confined_seq; [by apply confined_check_size|]. intros [|]; cbn [negb]; [|by apply confined_ret].
  apply confined_seq; [by apply confined_s3|]. intros response.
  destruct (str_empty response); [by apply confined_ret|].
  apply confined_seq; [eapply confined_true, confined_lift|]. intros [z [t m]].
  destruct (negb _); [by apply confined_ret|]. destruct (str_empty _); [by apply confined_ret|].
  apply confined_seq; [by apply confined_user_secret|]. intros us.
  destruct (secret_error us); [by apply confined_ret|].
  destruct Hl as (Hts & Hdot & Hslash). case_decide; apply confined_ret; cbn [snd].
  - split_and!; [done|by apply task_id_no_dot|by apply task_id_no_slash].
  - split_and!; [|by apply task_id_no_dot|by apply task_id_no_slash].
    apply Forall_app. split; [done|]. constructor; [|constructor]. by apply sub_path_mount.
Qed.

Lemma confined_arn_loop rq arns l :
  locals_below dir l → conf (arn_loop dir rq l arns) (λ r, locals_below dir r.2).
Proof.
  revert l. induction arns as [|a rest IH]; intros l Hl; cbn [arn_loop]; [by apply confined_ret|].
  eapply (confined_bind _ _ _ _ (λ r, locals_below dir r.2)).
  2:{ intros [err l'] Hl'. destruct (str_empty err); [by apply IH|by apply confined_ret]. }
  unfold arn_body. destruct (split_credspec_arn a) as [err|[arn mount]] eqn:Ha; [by apply confined_ret|].
  apply split_credspec_arn_ok in Ha as (_ & _ & Hm). cbv zeta.
  destruct (IsTestInvocationForUnitTests arn); [|by apply confined_add_arn].
  apply confined_seq; [by apply Hcreate, sub_path_mount|]. intros _.
  apply confined_seq; [by apply Hwrite, sub_path_krb5cc, sub_path_mount|]. intros _.
  destruct Hl as (Hts & _ & _).
  apply confined_ret. split_and!; [done|by apply task_id_no_dot|by apply task_id_no_slash].
Qed.

Context `{!ExternalIn X P}.

Lemma confined_arn_step us t : ticket_below dir t → conf (arn_step us t) (made_below dir).
Proof.
  intros Ht. unfold arn_step. destruct (_ || _).
  { apply confined_seq; [by apply confined_log|]. intros _. by apply confined_ret. }
  apply confined_seq; [by apply confined_user_ticket|]. intros st. destruct (st.1 <? 0)%Z.
  { apply confined_seq; [by apply confined_log|]. intros _. by apply confined_ret. }
  cbv zeta. apply confined_seq; [by apply Hcreate|]. intros _.
  apply confined_seq; [by apply confined_exists|]. intros found.
  eapply (confined_bind _ _ _ _ (λ t, ticket_below dir t)).
  { destruct found; [by apply confined_ret|].
    apply confined_seq; [by apply Hwrite, sub_path_krb5cc|]. intros _.
    apply confined_ret. by apply sub_path_krb5cc. }
  intros t1 Ht1. eapply confined_bind; [by apply confined_fetch|].
  intros [r t2] Ht2. cbn [snd] in Ht2.
  assert (ticket_below dir t2) by by rewrite (same_ticket_path _ _ Ht2).
  destruct (negb _); (apply confined_seq; [by apply confined_log|]); intros _; by apply confined_ret.
Qed.

Lemma confined_arn_tickets us ts :
  Forall (λ t, ticket_below dir t) ts →
  conf (create_tickets (arn_step us) ts) (λ r, Forall (λ t, ticket_below dir t) r.1.2).
Proof.
  induction 1 as [|t rest Ht Hrest IH]; cbn [create_tickets]; [by apply confined_ret|].
  eapply confined_bind; [by apply confined_arn_step|]. intros [t'|err t'] Ht'.
  - eapply confined_bind; [exact IH|]. intros [[err ts'] ps] Hts. apply confined_ret. by constructor.
  - apply confined_ret. by constructor.
Qed.

End arn_loop_rules.

(** What the loops leave behind, whatever the world. *)
Lemma confined_any {A} (m : MW A) s : confined (λ _, True) s m (λ _, True).
Proof. intros w0 _. split; [by intros k []|]. by destruct (m w0).1. Qed.

#[local] Instance external_any : ExternalIn X (λ _, True).
Proof. split; intros; by intros k []. Qed.

Lemma arn_loop_below dir rq arns l w err l' w' :
  locals_below dir l → arn_loop dir rq l arns w = (Ok (err, l'), w') → locals_below dir l'.
Proof using Type*.
  intros Hl Hrun.
  pose proof (confined_arn_loop dir (λ _, True) (w_fs w) (λ p _, confined_any _ _)
    (λ p c _, confined_any _ _) rq arns l Hl w (reflexivity _)) as Hc.
  rewrite Hrun in Hc. by destruct Hc.
Qed.

Lemma arn_tickets_below dir us ts w r w' :
  Forall (λ t, ticket_below dir t) ts → create_tickets (arn_step us) ts w = (Ok r, w') →
  Forall (λ t, ticket_below dir t) r.1.2.
Proof using Type*.
  intros Hts Hrun.
  pose proof (confined_arn_tickets dir (λ _, True) (w_fs w) (λ p _, confined_any _ _)
    (λ p c _, confined_any _ _) us ts Hts w (reflexivity _)) as Hc.
  rewrite Hrun in Hc. by destruct Hc.
Qed.

(** ** Confinement to the directory of the leases *)
Section arn_confinement.
Context (dir : string) (ext : list string → Prop) (s0 : fs).

Definition below_dir (k : list string) : Prop := resolve dir `prefix_of` k ∨ ext k.

Context `{!ExternalIn X below_dir}.
Hypothesis Hdir : plain_path dir.
Hypothesis Hexist : dirs_exist (resolve dir) s0.
Hypothesis Hext : ∀ k, k `prefix_of` resolve dir → ¬ ext k.
#[local] Set Default Proof Using "Type*".
Abbreviation conf m Q := (confined below_dir s0 m Q).

Lemma dir_above s k :
  unchanged below_dir s0 s → k `prefix_of` resolve dir → k ≠ resolve dir → k ≠ [] →
  s !! k ≠ None.
Proof.
  intros Hs Hp Hne Hnil. rewrite Hs.
  - by destruct (Hexist k Hp Hnil) as [i ->].
  - intros [Hp'|Hx]; [|by eapply Hext]. apply Hne. by apply (anti_symm prefix).
Qed.

Lemma confined_create_sub p : sub_path dir p → conf (create_directories (X := X) p) (λ _, True).
Proof.
  intros Hp w Hw. unfold create_directories, fs_create_directories.
  destruct (str_empty p); [done|]. destruct (make_dirs _ _ _) as [s|e|e] eqn:Hc; [|done..].
  split; [|done]. intros k Hk. unfold fs_of, world_has_fs. cbn. rewrite <-Hw by done.
  destruct (decide (s !! k = w_fs w !! k)) as [|Hne]; [done|exfalso].
  pose proof Hp as (sub & -> & Hsub).
  assert (Hnd : no_dots (split_string (dir +:+ "/" +:+ sub) slash)).
  { destruct (split_app dir sub) as (pad & Hpad & ->).
    repeat (apply Forall_app; split); [done|by apply no_dots_pad|done]. }
  destruct (make_dirs_new _ _ _ _ k Hnd Hc Hne) as (Hnil & Hnone & Hpk).
  pose proof (sub_path_resolve dir _ Hp) as Hpd.
  destruct (prefix_weak_total _ _ _ Hpk Hpd) as [Hkd|Hdk]; [|apply Hk; by left].
  destruct (decide (k = resolve dir)) as [->|Hkne]; [apply Hk; by left|].
  by apply (dir_above (w_fs w) k).
Qed.

Lemma confined_write_sub p c : sub_path dir p → conf (write_file (X := X) p c) (λ _, True).
Proof.
  intros Hp%sub_path_resolve w Hw. unfold write_file, fs_write. destruct (_ && _); [|done].
  destruct (w_fs w !! resolve p) as [[i|i t]|]; [done| |case_decide; [done|]];
    (split; [|done]); intros k Hk; unfold fs_of, world_has_fs; cbn;
    (rewrite lookup_insert_ne; [by apply Hw|]); intros <-; apply Hk; by left.
Qed.

Lemma confined_remove_sub p : sub_path dir p → conf (remove_all (X := X) p) (λ _, True).
Proof.
  intros Hp%sub_path_resolve w Hw. unfold remove_all. pose proof (fs_remove_all_other p (w_fs w)) as Ho.
  destruct (fs_remove_all p (w_fs w)) as [r s]. cbn in Ho |- *. split; [|by destruct r].
  intros k Hk. unfold fs_of, world_has_fs. cbn. rewrite Ho; [by apply Hw|].
  intros Hpk. apply Hk. left. by etrans.
Qed.

Lemma confined_remove_below ts :
  Forall (λ t, ticket_below dir t) ts → conf (remove_tickets (X := X) ts) (λ _, True).
Proof.
  induction 1 as [|t rest Ht _ IH]; cbn [remove_tickets]; [by apply confined_ret|].
  apply confined_seq; [by apply confined_remove_sub|]. by intros _.
Qed.

Lemma confined_arn_metadata ts id :
  has_char dot id = false → has_char slash id = false →
  conf (write_meta_data_json (X := X) (V := V) ts id dir) (λ _, True).
Proof.
  intros Hdot Hslash. unfold write_meta_data_json. cbv zeta.
  assert (Hid : no_dots (split_string id slash)) by by apply mount_no_dots.
  assert (Hm : meta_file_path id dir = (dir +:+ "/" +:+ id) +:+ String slash (id +:+ "_metadata.json")).
  { unfold meta_file_path. by rewrite !str_app_assoc. }
  assert (Hf : has_char slash (id +:+ "_metadata.json") = false) by by rewrite has_char_app, Hslash.
  apply confined_catch; [|by intros e; apply confined_ret].
  apply confined_seq.
  { rewrite Hm, parent_path_app by done. apply confined_create_sub. by exists id. }
  intros _. apply confined_seq; [eapply confined_true, confined_lift|]. intros root.
  apply confined_seq; [|intros _; by apply confined_ret].
  apply confined_write_sub. rewrite Hm.
  change (String slash (id +:+ "_metadata.json")) with ("/" +:+ (id +:+ "_metadata.json")).
  apply sub_path_app; [by exists id|].
  split_and!; [by destruct id|intros Hx|intros Hx|done];
    apply (f_equal String.length) in Hx; rewrite str_app_length in Hx; cbn in Hx; lia.
Qed.

Lemma confined_arn rq : conf (AddKerberosArnLease dir rq) (λ _, True).
Proof.
  unfold AddKerberosArnLease. eapply (confined_bind _ _ _ _ (λ r, locals_below dir r.2)).
  { assert (locals_below dir arn_locals_init) by (by split_and!; [constructor|..]).
    destruct (_ && _); [apply confined_arn_loop; [apply confined_create_sub|apply confined_write_sub|done]|by apply confined_ret]. }
  intros [err l] (Hts & Hdot & Hslash). cbn [snd] in *.
  eapply (confined_bind _ _ _ _ (λ r, Forall (λ t, ticket_below dir t) r.2)).
  { destruct (_ && _); [|by apply confined_ret].
    eapply confined_bind; [apply confined_arn_tickets; [apply confined_create_sub|apply confined_write_sub|apply _|done]|]. intros c Hc. by apply confined_ret. }
  intros [err' ts] Hts'. cbn [snd fst] in *. unfold finish_arn_lease. destruct (_ && _).
  - apply confined_seq; [by apply confined_remove_below|]. intros _. by apply confined_ret.
  - destruct (negb _); [|by apply confined_ret].
    apply confined_seq; [by apply confined_arn_metadata|]. intros _. by apply confined_ret.
Qed.

End arn_confinement.

#[export] Instance external_below_dir `{!ExternalIn X ext} dir : ExternalIn X (below_dir dir ext).
Proof.
  split; intros; intros k Hk; (apply ext_read || apply ext_write || apply ext_krb5);
    intros Hx; apply Hk; by right.
Qed.

Lemma sub_path_plain dir p : plain_path dir → sub_path dir p → plain_path p ∧ p ≠ "".
Proof.
  intros Hdir (sub & -> & Hs). split; [|by destruct dir].
  unfold plain_path. destruct (split_app dir sub) as (pad & Hpad & ->).
  repeat (apply Forall_app; split); [done|by apply no_dots_pad|done].
Qed.

(** ** What the loop reads

    An element of the request: its ARN, its mount path, and its secret, if it is not
    a test. *)
Record element := Element {
  el_arn : string;
  el_mount : string;
  el_secret : option user_secret
}.

(** The secret that the specification at an ARN names: both as AWS gave them. *)
Definition secret_of_spec (rq : arn_request) (arn : string) (s : user_secret) : Prop :=
  let creds := get_credentials (rq_access_key_id rq) (rq_secret_access_key rq) (rq_session_token rq) in
  ∃ (w1 w2 w3 w4 : world X) text t m,
    retrieve_credspec_from_s3 arn (rq_region rq) creds false w1 = (Ok text, w2) ∧
    parse_cred_spec_domainless (V := V) text new_ticket (ArnMapping "" arn "") = Ok (0%Z, (t, m)) ∧
    retrieve_credspec_from_secrets_manager V (credential_domainless_user_arn m) (rq_region rq) creds w3 =
      (Ok s, w4) ∧ secret_error s = None.

Definition element_read (rq : arn_request) (a : string) (e : element) : Prop :=
  split_credspec_arn a = inr (el_arn e, el_mount e) ∧
  match el_secret e with
  | None => IsTestInvocationForUnitTests (el_arn e) = true
  | Some s => IsTestInvocationForUnitTests (el_arn e) = false ∧ secret_of_spec rq (el_arn e) s
  end.

(** The elements that are not tests have a ticket each, at the mount path and of the
    user of the element's own secret, and a line of the reply. *)
Definition element_made (dir : string) (e : element) (t : krb_ticket_info) : Prop :=
  krb_file_path t = dir +:+ "/" +:+ el_mount e ∧ us_username <$> el_secret e = Some (domainless_user t).

Definition wanted (els : list element) : list element := filter (λ e, is_Some (el_secret e)) els.
Definition reply_line (dir : string) (e : element) : string * string :=
  (el_arn e, dir +:+ "/" +:+ el_mount e).

(** The element last looked at is a test one. *)
Definition last_is_test (els : list element) : bool :=
  match last els with Some e => bool_decide (el_secret e = None) | None => false end.

(** The task of the element last looked at. *)
Definition last_id (els : list element) : string := default "" (task_id ∘ el_mount <$> last els).

(** The variables after the elements [els], all of which were read. *)
Record arn_state (dir : string) (els : list element) (l : arn_locals) : Prop := {
  as_tickets : Forall2 (element_made dir) (wanted els) (al_tickets l);
  as_isTest : al_isTest l = last_is_test els;
  as_secret : al_secret l = default no_secret (last (omap el_secret els));
  as_id : al_lease_id l = last_id els;
  as_lines : (λ m, (credential_spec_arn m, am_krb_file_path m)) <$> al_arns l =
    reply_line dir <$> wanted els
}.

Lemma arn_state_test dir els l arn mount :
  arn_state dir els l →
  arn_state dir (els ++ [Element arn mount None]) (set_lease_id (task_id mount) (set_isTest true l)).
Proof using.
  intros [Hts _ Hs _ Hlines].
  assert (Hw : wanted (els ++ [Element arn mount None]) = wanted els).
  { unfold wanted. rewrite filter_app, filter_cons_False by by intros []. apply app_nil_r. }
  split; cbn [al_tickets al_isTest al_secret al_lease_id al_arns set_isTest set_lease_id].
  - by rewrite Hw.
  - unfold last_is_test. by rewrite last_snoc.
  - rewrite omap_app. cbn. by rewrite app_nil_r.
  - unfold last_id. by rewrite last_snoc.
  - by rewrite Hw.
Qed.

Lemma arn_state_add dir els l arn mount us path t m :
  arn_state dir els l → krb_file_path t = dir +:+ "/" +:+ mount → domainless_user t = us_username us →
  credential_spec_arn m = arn → am_krb_file_path m = dir +:+ "/" +:+ mount →
  arn_state dir (els ++ [Element arn mount (Some us)])
    (add_arn_ticket path t m (set_lease_id (task_id mount) (set_secret us (set_isTest false l)))).
Proof using.
  intros [Hts _ Hs _ Hlines] Ht Hu Ha Hm.
  assert (Hw : wanted (els ++ [Element arn mount (Some us)]) = wanted els ++ [Element arn mount (Some us)]).
  { unfold wanted. by rewrite filter_app, filter_cons_True. }
  split; cbn [al_tickets al_isTest al_secret al_lease_id al_arns set_isTest set_lease_id set_secret add_arn_ticket].
  - rewrite Hw. apply Forall2_app; [done|]. constructor; [|constructor]. split; [done|cbn; by rewrite Hu].
  - unfold last_is_test. by rewrite last_snoc.
  - rewrite omap_app. cbn. by rewrite last_snoc.
  - unfold last_id. by rewrite last_snoc.
  - rewrite Hw, !fmap_app, Hlines. cbn. by rewrite Ha, Hm.
Qed.

Lemma split_error a err : split_credspec_arn a = inl err → str_empty err = false.
Proof.
  unfold split_credspec_arn. destruct (str_empty a); [by intros [= <-]|].
  destruct (split_string a "#"%char) as [|x [|y [|]]]; try by intros [= <-].
  destruct (_ || _); [by intros [= <-]|done].
Qed.

Lemma secret_error_full us err : secret_error us = Some err → str_empty err = false.
Proof.
  unfold secret_error. destruct (names_ok _ _); [destruct (credentials_ok _ _ _)|]; [done|by intros [= <-]..].
Qed.

(** One element. *)
Lemma add_arn_read dir rq els l arn mount a w err l' w' :
  arn_state dir els l → split_credspec_arn a = inr (arn, mount) →
  IsTestInvocationForUnitTests arn = false →
  add_arn_credspec dir rq arn mount (set_isTest false l) w = (Ok (err, l'), w') →
  if str_empty err then ∃ e, element_read rq a e ∧ arn_state dir (els ++ [e]) l'
  else al_tickets l' = al_tickets l ∧ al_isTest l' = false ∧
    (al_lease_id l' = al_lease_id l ∨ al_lease_id l' = task_id mount).
Proof.
  intros Hst Ha Htest. unfold add_arn_credspec. cbv zeta. intros (ok & w1 & _ & Hk)%bind_ok.
  destruct ok; cbn [negb] in Hk; [|injection Hk as <- <- <-; cbn [str_empty]; by auto].
  apply bind_ok in Hk as (response & w2 & Hs3 & Hk).
  destruct (str_empty response); [injection Hk as <- <- <-; cbn [str_empty]; by auto|].
  apply bind_ok in Hk as ([z [t m]] & w3 & Hparse & Hk). injection Hparse as Hparse <-.
  destruct (z =? 0)%Z eqn:Hz; cbn [negb] in Hk; [|injection Hk as <- <- <-; cbn [str_empty]; by auto]. apply Z.eqb_eq in Hz as ->.
  destruct (str_empty (credential_domainless_user_arn m)); [injection Hk as <- <- <-; cbn [str_empty]; by auto|].
  apply bind_ok in Hk as (us & w4 & Hus & Hk).
  destruct (secret_error us) as [err0|] eqn:Hsec.
  { injection Hk as <- <- <-. rewrite (secret_error_full _ _ Hsec). by auto. }
  case_decide; injection Hk as <- <- <-; [by split_and!; [..|right]|]. cbn [str_empty].
  exists (Element arn mount (Some us)). split.
  - split; [exact Ha|]. split; [exact Htest|]. by exists w1, w2, w2, w4, response, t, m.
  - apply parse_cred_spec_domainless_ok in Hparse as (_ & _ & _ & _ & _ & _ & _ & Harn).
    by apply arn_state_add.
Qed.

Lemma arn_body_read dir rq els l a w err l' w' :
  arn_state dir els l → arn_body dir rq l a w = (Ok (err, l'), w') →
  if str_empty err then ∃ e, element_read rq a e ∧ arn_state dir (els ++ [e]) l'
  else al_tickets l' = al_tickets l ∧
    match split_credspec_arn a with
    | inl _ => al_isTest l' = al_isTest l ∧ al_lease_id l' = al_lease_id l
    | inr (_, mount) => al_isTest l' = false ∧
        (al_lease_id l' = al_lease_id l ∨ al_lease_id l' = task_id mount)
    end.
Proof.
  intros Hst Hrun. unfold arn_body in Hrun. destruct (split_credspec_arn a) as [e|[arn mount]] eqn:Ha.
  { injection Hrun as <- <- <-. by rewrite (split_error _ _ Ha). }
  cbv zeta in Hrun. destruct (IsTestInvocationForUnitTests arn) eqn:Htest.
  - apply bind_ok in Hrun as (? & w1 & _ & Hrun). apply bind_ok in Hrun as (? & w2 & _ & Hrun).
    injection Hrun as <- <- <-. cbn [str_empty].
    exists (Element arn mount None). split; [by split|by apply arn_state_test].
  - by eapply add_arn_read.
Qed.

(** ** The end of the handler *)
Lemma finish_test dir err l ts (w : world X) :
  al_isTest l = true →
  (r ← mret (err, ts); finish_arn_lease dir r.1 l r.2) w = (Ok (ArnReply (al_lease_id l) [] None), w).
Proof.
  intros Hl. unfold mbind, M_bind, mret, M_ret, finish_arn_lease. cbn [fst snd].
  by rewrite Hl, andb_false_r.
Qed.

Lemma finish_error dir err l ts (w : world X) :
  plain_path dir → str_empty err = false → al_isTest l = false → Forall (λ t, ticket_below dir t) ts →
  ∃ s, finish_arn_lease dir err l ts w = (Ok (ArnReply (al_lease_id l) [] (Some err)), set_fs s w) ∧
    ∀ k, s !! k = if decide (Exists (λ t, resolve (krb_file_path t) `prefix_of` k) ts)
                  then None else w_fs w !! k.
Proof.
  intros Hdir He Hl Hts. destruct (remove_tickets_run ts w) as (s & Hrm & Hs).
  { eapply Forall_impl; [exact Hts|]. intros t. by apply sub_path_plain. }
  exists s. split; [|exact Hs]. unfold finish_arn_lease. rewrite He, Hl. cbn [negb andb].
  unfold mbind, M_bind. by rewrite Hrm.
Qed.

Lemma exists_made dir k els ts :
  Forall2 (element_made dir) els ts →
  Exists (λ t, resolve (krb_file_path t) `prefix_of` k) ts ↔
  Exists (λ e, resolve (dir +:+ "/" +:+ el_mount e) `prefix_of` k) els.
Proof using.
  induction 1 as [|e t els ts [Hp _] _ IH]; [by rewrite !Exists_nil|]. by rewrite !Exists_cons, IH, Hp.
Qed.

Lemma omap_last els e us : last els = Some e → el_secret e = Some us → last (omap el_secret els) = Some us.
Proof using.
  intros [els' ->]%last_Some Hus. rewrite omap_app. cbn. by rewrite Hus, last_snoc.
Qed.

(** All elements were read, and the last is not a test. *)
Lemma arn_made_outcome dir els e us l (w1 : world X) reply w' :
  plain_path dir → arn_state dir els l → al_isTest l = false → Forall (λ t, ticket_below dir t) (al_tickets l) →
  last els = Some e → el_secret e = Some us →
  (r ← (c ← create_tickets (arn_step (al_secret l)) (al_tickets l); mret c.1);
   finish_arn_lease dir r.1 l r.2) w1 = (Ok reply, w') →
  ∃ err2 ts paths w2, create_tickets (arn_step us) (al_tickets l) w1 = (Ok (err2, ts, paths), w2) ∧
    if str_empty err2 then
      reply = ArnReply (task_id (el_mount e)) (reply_line dir <$> wanted els) None ∧
      ∃ z, write_meta_data_json (V := V) ts (task_id (el_mount e)) dir w2 = (Ok z, w')
    else
      reply = ArnReply (task_id (el_mount e)) [] (Some err2) ∧
      ∃ s, w' = set_fs s w2 ∧
        ∀ k, s !! k = if decide (Exists (λ t, resolve (krb_file_path t) `prefix_of` k) ts)
                      then None else w_fs w2 !! k.
Proof using Type*.
  intros Hdir [Hts _ Hsec Hid Hlines] Hl Hbelow Hlast Hus Hrun.
  rewrite (omap_last _ _ _ Hlast Hus) in Hsec. cbn in Hsec. unfold last_id in Hid. rewrite Hlast in Hid. cbn in Hid. rewrite Hsec in Hrun.
  apply bind_ok in Hrun as (r & w2 & Hrun & Hfin).
  apply bind_ok in Hrun as ([[err2 ts] paths] & w3 & Hct & [= <- <-]). cbn [fst snd] in Hfin.
  exists err2, ts, paths, w3. split; [exact Hct|].
  apply (arn_tickets_below dir) in Hct as Hts2; [|done]. cbn [fst snd] in Hts2.
  destruct (str_empty err2) eqn:He.
  - unfold finish_arn_lease in Hfin. rewrite He, Hl in Hfin. cbn [negb andb] in Hfin.
    apply bind_ok in Hfin as (z & w4 & Hw & [= <- <-]). rewrite Hid in Hw |- *.
    split; [by rewrite Hlines|]. by exists z.
  - destruct (finish_error dir err2 l ts w3) as (s & Hf & Hs); [done..|]. rewrite Hf in Hfin.
    injection Hfin as <- <-. rewrite Hid. split; [done|]. by exists s.
Qed.

(** ** The trace of the loop

    What the loop has read: the elements [els], up to the end or to the one that
    gave the error, the first of [rest]. *)
Definition masked (els : list element) (rest : list string) : bool :=
  match rest with
  | a :: _ => match split_credspec_arn a with inl _ => last_is_test els | inr _ => false end
  | [] => last_is_test els
  end.

(** The id of the reply: the task of the last element, or that of the element that
    gave the error. *)
Definition reply_id (els : list element) (rest : list string) (id : string) : Prop :=
  id = last_id els ∨
  ∃ a arn mount, head rest = Some a ∧ split_credspec_arn a = inr (arn, mount) ∧ id = task_id mount.

Record arn_loop_read (dir : string) (rq : arn_request) (arns : list string) (els : list element)
    (rest : list string) (err : string) (l : arn_locals) : Prop := {
  lr_elements : ∃ seen, arns = seen ++ rest ∧ Forall2 (element_read rq) seen els;
  lr_end : str_empty err = bool_decide (rest = []);
  lr_isTest : al_isTest l = masked els rest;
  lr_id : reply_id els rest (al_lease_id l);
  lr_masked_id : masked els rest = true → al_lease_id l = last_id els;
  lr_tickets : Forall2 (element_made dir) (wanted els) (al_tickets l);
  lr_state : rest = [] → arn_state dir els l
}.

Lemma arn_loop_stops dir rq seen els a arns l err l' :
  Forall2 (element_read rq) seen els → arn_state dir els l → str_empty err = false →
  al_tickets l' = al_tickets l ∧
    match split_credspec_arn a with
    | inl _ => al_isTest l' = al_isTest l ∧ al_lease_id l' = al_lease_id l
    | inr (_, mount) => al_isTest l' = false ∧
        (al_lease_id l' = al_lease_id l ∨ al_lease_id l' = task_id mount)
    end →
  arn_loop_read dir rq (seen ++ a :: arns) els (a :: arns) err l'.
Proof using.
  intros Hseen [Hmade Hl _ Hid _] He [Hts Hbody]. split.
  - by exists seen.
  - by rewrite He.
  - cbn [masked]. destruct (split_credspec_arn a) as [|[]]; destruct Hbody as [-> _]; [exact Hl|done].
  - unfold reply_id. destruct (split_credspec_arn a) as [|[arn mount]] eqn:Ha.
    + left. destruct Hbody as [_ ->]. exact Hid.
    + destruct Hbody as [_ [->| ->]]; [by left|]. right. by exists a, arn, mount.
  - cbn [masked]. destruct (split_credspec_arn a) as [|[]]; [|done]. destruct Hbody as [_ ->]. by intros _.
  - by rewrite Hts.
  - done.
Qed.

Lemma arn_loop_reads dir rq arns seen els l w err l' w' :
  Forall2 (element_read rq) seen els → arn_state dir els l →
  arn_loop dir rq l arns w = (Ok (err, l'), w') →
  ∃ els' rest, arn_loop_read dir rq (seen ++ arns) els' rest err l'.
Proof.
  revert seen els l w. induction arns as [|a arns IH]; intros seen els l w Hseen Hst Hrun; cbn [arn_loop] in Hrun.
  { injection Hrun as <- <- <-. exists els, [].
    split; [by exists seen|done|apply Hst|left; apply Hst|intros _; apply Hst|apply Hst|done]. }
  apply bind_ok in Hrun as ([err1 l1] & w1 & Hbody & Hrun).
  apply (arn_body_read dir rq els) in Hbody; [|done]. destruct (str_empty err1) eqn:He.
  - destruct Hbody as (e & He1 & Hst1). rewrite cons_middle, app_assoc.
    apply (IH (seen ++ [a]) (els ++ [e]) l1 w1); [|done..]. apply Forall2_app; [done|by constructor].
  - injection Hrun as <- <- <-. exists els, (a :: arns). by apply (arn_loop_stops dir rq seen els a arns l).
Qed.

(** ** Properties *)

(** C12: whatever a request for leases from ARNs holds, and whatever the outcome,
    only paths at or below the directory of the leases and what the external
    programs write are changed: the mount path of the request cannot leave it. *)
Theorem arn_lease_confined dir rq ext (w : world X) :
  ExternalIn X ext → plain_path dir → dirs_exist (resolve dir) (w_fs w) →
  (∀ k, k `prefix_of` resolve dir → ¬ ext k) →
  ∀ k, ¬ resolve dir `prefix_of` k → ¬ ext k →
    w_fs (AddKerberosArnLease dir rq w).2 !! k = w_fs w !! k.
Proof.
  intros Hin Hdir Hexist Hext k Hk Hx.
  destruct (confined_arn dir ext (w_fs w) Hdir Hexist Hext rq w (reflexivity _)) as [Hfs _].
  apply Hfs. by intros [?|?].
Qed.


End arn.

(** ** At concrete inputs *)
#[local] Existing Instance Script.script_platform.
#[local] Existing Instance script_krb5.
#[local] Existing Instance Tree.tree_json.

(** A scripted AWS: objects and secrets are the next answers of the script. *)
#[export] Instance script_aws : Aws Script.script :=
  let next x :=
    match Script.sc_read x with
    | Some (text, _) :: l =>
      (Ok (Some text), Script.Sc l (Script.sc_write x) (Script.sc_random x) (Script.sc_ran x))
    | _ => (Ok None, x)
    end in {|
  aws_init x := (Ok tt, x);
  aws_is_empty c := str_empty (access_key_id c) && str_empty (secret_key c);
  aws_caller_identity _ _ x := (Ok (Some "123456789"), x);
  aws_head_object _ _ _ x := (Ok (Some 100%Z), x);
  aws_get_object _ _ _ := next;
  aws_get_secret _ _ _ := next
|}.

Definition demo_arn_request (arns : list string) : arn_request :=
  ArnRequest arns "AKIA" "key" "token" "us-west-2".

Lemma arn_lease_confined_witness :
  w_fs (AddKerberosArnLease (X := Script.script) (V := Tree.tree) demo_krbdir
    (demo_arn_request ["arn:aws:s3:::bucket/spec.json#../etc/passwd"])
    (Script.demo_world Script.idle)).2 !! ["var"; "credentials-fetcher"; "etc"] = None.
Proof.
  etrans; [apply (arn_lease_confined (X := Script.script) (V := Tree.tree) demo_krbdir
    (demo_arn_request ["arn:aws:s3:::bucket/spec.json#../etc/passwd"]) (λ _, False)
    (Script.demo_world Script.idle))|].
  - apply script_external.
  - apply demo_plain_path.
  - apply demo_dirs_exist.
  - by intros k _ [].
  - apply (bool_decide_unpack _). by vm_compute.
  - by intros [].
  - reflexivity.
Defined.

Definition demo_secret : string :=
  Tree.write (Tree.TObj [("username", Tree.TStr "user1"); ("password", Tree.TStr "secret");
    ("domainName", Tree.TStr "contoso.com"); ("distinguishedName", Tree.TStr "CN=gmsa")]).

(** The lease of [demo_lease], and a machine that answers one element. *)
Definition demo_arn_world : world Script.script :=
  World (w_fs demo_lease) ∅ Script.demo_log
    (Script.Sc [Some (dummy_credspec, 0%Z); Some (demo_secret, 0%Z)] [] [] []).

