(* ===== verification/ArnLifecycle.v ===== *)
(** * The life of a lease from ARNs

    What a reply of [AddKerberosArnLease] ([ArnLease]) promises, for the requests
    the service means: the elements name accounts of one task, up to the end or to
    one that is refused as it stands, and none is a test. The task may have a lease
    already. *)
From S2P Require Import Prelude StrUtil Logger World Json Regex Validation CredSpec Metadata Kinit Util Klist Krb Confine Lease Lifecycle Aws ArnLease.
From stdpp Require Import options.

Section arn_lifecycle.
Context {X : Type} `{Platform X} {V : Type} `{JsonCpp V} `{Krb5 X} `{Aws X}.
Abbreviation MW := (M (world X)).

(** An element [arn#task/account], which is not a test. *)
Definition names_account (task a : string) (e : string * string) : Prop :=
  split_string a "#"%char = [e.1; task +:+ "/" +:+ e.2] ∧
  IsTestInvocationForUnitTests e.1 = false.

(** Nothing more is read: the request ends, or its next element is refused as it
    stands. *)
Definition refused (arns : list string) : bool :=
  match arns with
  | [] => true
  | a :: _ => match split_credspec_arn a with inl _ => true | inr _ => false end
  end.

(** A request refused before anything is read. *)
Definition arn_refused (rq : arn_request) : bool :=
  negb (credentials_present rq) || refused (rq_credspec_arns rq).

(** ** The loop over the request *)

Lemma arn_loop_refused dir rq l arns :
  refused arns = true → ∃ err, arn_loop (V := V) (X := X) dir rq l arns = mret (err, l) ∧
    (str_empty err = true → arns = []).
Proof.
  destruct arns as [|a arns]; cbn [refused arn_loop]; [by exists ""|].
  unfold arn_body. destruct (split_credspec_arn a) as [err|] eqn:Ha; [|done]. intros _.
  apply split_error in Ha as He. exists err. split; [|by rewrite He].
  unfold mbind, M_bind, mret, M_ret. by rewrite He.
Qed.

(** It is answered with an error and does nothing. *)
Lemma arn_refused_run dir rq (w : world X) :
  arn_refused rq = true → ∃ reply err, AddKerberosArnLease (V := V) dir rq w = (Ok reply, w) ∧
    ar_status reply = Some err ∧ str_empty err = false.
Proof.
  intros Hrq. unfold AddKerberosArnLease.
  assert (Hloop : ∃ err, str_empty err = false ∧
    (if credentials_present rq && (0 <? length (rq_credspec_arns rq))%nat
     then arn_loop (V := V) (X := X) dir rq arn_locals_init (rq_credspec_arns rq)
     else mret ("Error: access credentials should not be empty", arn_locals_init)) =
    mret (err, arn_locals_init)).
  { unfold arn_refused in Hrq.
    destruct (credentials_present rq); [|by exists "Error: access credentials should not be empty"].
    destruct (arn_loop_refused dir rq arn_locals_init _ Hrq) as (err & -> & Hend).
    destruct (rq_credspec_arns rq) as [|a arns];
      [by exists "Error: access credentials should not be empty"|]. exists err. split; [|done].
    destruct (str_empty err); [|done]. by discriminate Hend. }
  destruct Hloop as (err & He & ->). unfold mbind, M_bind, mret, M_ret. rewrite He. cbn [andb].
  unfold finish_arn_lease. cbn [fst snd]. rewrite He. by eexists _, err.
Qed.

(** What asks AWS leaves the files alone. *)
Lemma confined_nowhere {A} (m : MW A) Q w a w' :
  confined (λ _, False) (w_fs w) m Q → m w = (Ok a, w') → w_fs w' = w_fs w.
Proof using.
  intros Hm Hrun. destruct (confined_run (λ _, False) m Q w a w' Hm Hrun) as [Hu _].
  apply map_eq. intros k. apply Hu. by intros [].
Qed.

Section one_task.
Context (dir task : string).
Hypothesis Htask : plain_name task.
#[local] Set Default Proof Using "Type*".

Lemma task_id_mount acc : task_id (task +:+ "/" +:+ acc) = task.
Proof.
  destruct Htask as (Hne & _ & _ & Hno). unfold task_id.
  destruct (split_app task acc) as (pad & _ & ->). by rewrite split_plain.
Qed.

(** What an element adds: a ticket and a line of the reply. *)
Definition element_ticket (e : string * string) (t : krb_ticket_info) : Prop :=
  krb_file_path t = krb_files_path dir task e.2 ∧ credspec_info t = e.1.

Record added (e : string * string) (l l' : arn_locals) : Prop := {
  added_task : al_lease_id l' = task;
  added_new : krb_files_path dir task e.2 ∉ al_dirs l;
  added_dirs : al_dirs l' = {[krb_files_path dir task e.2]} ∪ al_dirs l;
  added_ticket : ∃ t, element_ticket e t ∧ al_tickets l' = al_tickets l ++ [t];
  added_arn : ((λ m, (credential_spec_arn m, am_krb_file_path m)) <$> al_arns l') =
    ((λ m, (credential_spec_arn m, am_krb_file_path m)) <$> al_arns l) ++
    [(e.1, krb_files_path dir task e.2)]
}.

Lemma add_arn_run rq e l (w : world X) err l' w' :
  add_arn_credspec (V := V) dir rq e.1 (task +:+ "/" +:+ e.2) l w = (Ok (err, l'), w') →
  w_fs w' = w_fs w ∧ al_isTest l' = al_isTest l ∧
  if str_empty err then added e l l' else al_tickets l' = al_tickets l.
Proof.
  unfold add_arn_credspec. cbv zeta. intros (ok & w1 & Hrun & Hk)%bind_ok.
  apply (confined_nowhere _ _ _ _ _ (confined_check_size _ _ _ _ _ _)) in Hrun as Hw1. rewrite <-Hw1.
  destruct ok; cbn [negb] in Hk; [|by injection Hk as <- <- <-].
  apply bind_ok in Hk as (response & w2 & Hrun2 & Hk).
  apply (confined_nowhere _ _ _ _ _ (confined_s3 _ _ _ _ _ _)) in Hrun2 as Hw2. rewrite <-Hw2.
  destruct (str_empty response); [by injection Hk as <- <- <-|].
  apply bind_ok in Hk as ([z [t m]] & w3 & Hparse & Hk). injection Hparse as Hparse <-.
  destruct (z =? 0)%Z eqn:Hz; cbn [negb] in Hk; [|by injection Hk as <- <- <-].
  apply Z.eqb_eq in Hz as ->.
  apply parse_cred_spec_domainless_ok in Hparse as (_ & _ & _ & Hinfo & _ & _ & _ & Harn).
  destruct (str_empty (credential_domainless_user_arn m)); [by injection Hk as <- <- <-|].
  apply bind_ok in Hk as (us & w4 & Hrun4 & Hk).
  apply (confined_nowhere _ _ _ _ _ (confined_user_secret _ _ _ _ _)) in Hrun4 as Hw4. rewrite <-Hw4.
  destruct (secret_error us) as [err0|] eqn:Hsec.
  { injection Hk as <- <- <-. split_and!; [done|done|].
    by rewrite (secret_error_full _ _ Hsec). }
  rewrite task_id_mount in Hk. change (dir +:+ "/" +:+ (task +:+ "/" +:+ e.2)) with (krb_files_path dir task e.2) in Hk.
  case_decide as Hin; injection Hk as <- <- <-; (split_and!; [done|done|]); [done|].
  split; [done|exact Hin|done| |].
  - eexists. split; [|done]. split; [done|exact Hinfo].
  - cbn [al_arns add_arn_ticket set_lease_id set_secret]. rewrite fmap_app. cbn. by rewrite Harn.
Qed.

(** All elements. *)
Lemma arn_loop_run rq arns bad es l (w : world X) err l' w' :
  Forall2 (names_account task) arns es → refused bad = true → al_isTest l = false →
  arn_loop (V := V) dir rq l (arns ++ bad) w = (Ok (err, l'), w') →
  w_fs w' = w_fs w ∧ al_isTest l' = false ∧
  (∃ ts, Forall (λ t, ∃ e, e ∈ es ∧ element_ticket e t) ts ∧ al_tickets l' = al_tickets l ++ ts) ∧
  if str_empty err then
    bad = [] ∧ al_lease_id l' = (if decide (arns = []) then al_lease_id l else task) ∧
    (∃ ts, Forall2 element_ticket es ts ∧ al_tickets l' = al_tickets l ++ ts) ∧
    NoDup (krb_files_path dir task <$> es.*2) ∧
    (∀ e, e ∈ es → krb_files_path dir task e.2 ∉ al_dirs l) ∧
    ((λ m, (credential_spec_arn m, am_krb_file_path m)) <$> al_arns l') =
      ((λ m, (credential_spec_arn m, am_krb_file_path m)) <$> al_arns l) ++
      ((λ e : string * string, (e.1, krb_files_path dir task e.2)) <$> es)
  else True.
Proof.
  intros Hes Hbad. revert l w. induction Hes as [|a e arns es [Hsplit Htest] Hes IH]; intros l w Hl; cbn [app arn_loop].
  { destruct (arn_loop_refused dir rq l bad Hbad) as (err0 & -> & Hend). intros [= -> <- <-].
    split_and!; [done|done|exists []; by rewrite app_nil_r|]. destruct (str_empty err); [|done].
    split_and!; [by apply Hend|done| |constructor| |].
    - exists []. by rewrite app_nil_r.
    - by intros e ?%elem_of_nil.
    - by rewrite app_nil_r. }
  intros ([err1 l1] & w1 & Hbody & Hk)%bind_ok. 
  assert (Hadd : add_arn_credspec (V := V) dir rq e.1 (task +:+ "/" +:+ e.2) (set_isTest false l) w
    = (Ok (err1, l1), w1) ∨ (str_empty err1 = false ∧ l1 = l ∧ w1 = w)).
  { unfold arn_body, split_credspec_arn in Hbody. rewrite Hsplit in Hbody.
    destruct (str_empty a); [injection Hbody as <- <- <-; by right|].
    destruct (_ || _); [injection Hbody as <- <- <-; by right|]. rewrite Htest in Hbody. by left. }
  assert (Hstop : ∀ l1, str_empty err1 = false → al_tickets l1 = al_tickets l →
    (∃ ts, Forall (λ t, ∃ e', e' ∈ e :: es ∧ element_ticket e' t) ts ∧ al_tickets l1 = al_tickets l ++ ts))
    by (intros l2 _ ->; exists []; by rewrite app_nil_r).
  destruct Hadd as [Hadd|(He & -> & ->)].
  2:{ rewrite He in Hk. injection Hk as <- <- <-. rewrite He. split_and!; [done|done|by apply Hstop|done]. }
  apply add_arn_run in Hadd as (Hw1 & Ht1 & Hend). cbn [al_isTest set_isTest] in Ht1.
  destruct (str_empty err1) eqn:He1.
  2:{ injection Hk as <- <- <-. rewrite He1. split_and!; [done|done|by apply Hstop|done]. }
  destruct Hend as [Htask1 Hnew1 Hdirs1 (t & Ht & Hts1) Harn1].
  cbn [al_dirs al_tickets al_arns set_isTest] in Hnew1, Hdirs1, Hts1, Harn1.
  apply IH in Hk as (Hw' & Ht' & (ts' & Hall & Hts') & Hrest); [|done]. split_and!; [congruence|done| |].
  { exists (t :: ts'). rewrite Hts', Hts1, <-app_assoc. split; [|done]. constructor; [exists e; split; [by left|done]|].
    eapply Forall_impl; [exact Hall|]. intros t' (e' & Hin & Ht2). exists e'. split; [by right|done]. }
  destruct (str_empty err); [|done].
  destruct Hrest as (Hnil & Hid & (ts & Hf & Hts) & Hnd & Hfresh & Harns). split_and!; [done|..].
  - rewrite Hid. by case_decide.
  - exists (t :: ts). split; [by constructor|]. by rewrite Hts, Hts1, <-app_assoc.
  - cbn. constructor; [|done]. intros (e2 & Heq & (e1 & -> & Hin)%list_elem_of_fmap)%list_elem_of_fmap.
    apply (Hfresh _ Hin). rewrite Hdirs1, <-Heq. by apply elem_of_union_l, elem_of_singleton.
  - intros e' [->|Hin]%elem_of_cons; [done|]. apply Hfresh in Hin. rewrite Hdirs1 in Hin. intros Hx. by apply Hin, elem_of_union_r.
  - rewrite Harns, Harn1, <-app_assoc. done.
Qed.

(** ** The tickets *)
Context (ext : list string → Prop) `{!ExternalIn X ext}.
Hypothesis Hext : external_caches dir ext.
Hypothesis Hdir : plain_path dir.

(** The cache, in the account's directory, whether or not that was there; a cache
    that was there stays, and so does the ticket's path. *)
Lemma arn_cache acc t (k : krb_ticket_info → MW made) u (w : world X) r w' :
  plain_name acc → krb_file_path t = krb_files_path dir task acc →
  ready dir task (w_fs w) → unfiled (w_fs w !! (resolve dir ++ [task; acc])) →
  (create_directories (krb_file_path t);;
   found ← exists_ (krb_file_path t +:+ "/krb5cc");
   t ← (if found : bool then mret t
        else write_file (krb_file_path t +:+ "/krb5cc") "";;
             mret (with_krb_file_path (krb_file_path t +:+ "/krb5cc") t));
   k t) w = (Ok r, w') →
  (∀ t' s, made_of (domainless_user t) t t' → confined ext s (k t') (step_result u t)) →
  step_ends dir task ext u t acc r (w_fs w) (w_fs w').
Proof.
  intros Hacc Ht Hr Ha Hrun Hk. rewrite Ht in Hrun.
  apply (cache_made dir task ext Hext Hdir Htask acc t) in Hrun
    as (t1 & w1 & Hrun & Ht1 & Hu & Hroot & Hdirs); [|done..].
  eapply (step_end dir task ext Hext Hdir Htask u t acc w w1); [done..|by apply Hk|exact Hrun].
Qed.

Lemma arn_step_makes s : step_makes dir task ext unfiled domainless_user (arn_step s).
Proof.
  intros t acc w r w' Hacc Ht Hr Ha Hrun. unfold arn_step in Hrun.
  assert (Hstop : ∀ s0 level msg err, str_empty err = false →
    confined ext s0 (log (X := X) level msg;; mret (Stop err t))
      (λ r, ∃ err t', r = Stop err t' ∧ str_empty err = false ∧ cached_path t t')).
  { intros s0 level msg err He. apply confined_seq; [by apply confined_log|]. intros _.
    apply confined_ret. eexists _, _. split_and!; [done..|by left]. }
  destruct (_ || _).
  { eapply (step_stop dir task ext Hext Hdir Htask); [done| |exact Hrun]. by apply Hstop. }
  eapply (step_ext dir task ext Hext Hdir Htask _ _ (λ _, True)); [|done..|]; [eauto with confined|].
  clear Hr Ha Hrun. intros st w1 _ Hr Ha Hrun. cbv beta zeta in Hrun.
  destruct (st.1 <? 0)%Z.
  { eapply (step_stop dir task ext Hext Hdir Htask); [done| |exact Hrun]. by apply Hstop. }
  eapply (arn_cache acc t); [exact Hacc|exact Ht|done|done|exact Hrun|]. intros t' s' Ht'.
  eapply (confined_fetch_end dir ext Hext Hdir); [exact Ht'|]. intros [q t2] Hq. cbv beta iota.
  destruct (negb _); eapply (confined_log_ret dir ext Hext Hdir);
    [split; [done|by eapply made_cached_path]|exact Hq].
Qed.

(** *** What the tickets may change: only the directory of the task *)
Section confinement.
Context (s0 : fs) `{!ExternalIn X (may_change dir task ext)}.
Hypothesis Hexist : dirs_exist (resolve dir) s0.
Abbreviation conf m Q := (confined (may_change dir task ext) s0 m Q).
#[local] Set Default Proof Using "Type*".

Lemma dir_not_external k : k `prefix_of` resolve dir → ¬ ext k.
Proof using Hext. by apply (external_not_above dir ext k). Qed.

Lemma confined_task_step s t :
  fresh_ticket dir task t → conf (arn_step s t) (made_inside dir task).
Proof.
  intros Ht. pose proof dir_not_external as Habove.
  assert (Hin : inside dir task t) by by apply fresh_inside.
  unfold arn_step. destruct (_ || _).
  { apply confined_seq; [by apply confined_log|]. intros _. by apply confined_ret. }
  apply confined_seq; [eauto with confined|]. intros st. destruct (st.1 <? 0)%Z.
  { apply confined_seq; [by apply confined_log|]. intros _. by apply confined_ret. }
  apply confined_seq; [by apply confined_account_dir; [done|..]|]. intros _. cbv zeta.
  apply confined_seq; [by apply confined_exists|]. intros found.
  eapply (confined_bind _ _ _ _ (inside dir task)).
  { destruct found; [by apply confined_ret|].
    apply confined_seq; [by apply confined_write; [..|by apply cache_inside]|].
    intros _. apply confined_ret. by apply cache_inside. }
  intros t2 Ht2. eapply confined_bind; [by apply fetch_inside; [done|..]|]. intros [r t3] Ht3.
  destruct (negb _); (apply confined_seq; [by apply confined_log|]); intros _; by apply confined_ret.
Qed.

(** The handler after its loop. *)
Lemma confined_task_tail l err :
  Forall (fresh_ticket dir task) (al_tickets l) → al_isTest l = false →
  (str_empty err = true → al_lease_id l = task) →
  conf (r ← (if str_empty err
             then c ← create_tickets (arn_step (al_secret l)) (al_tickets l); mret c.1
             else mret (err, al_tickets l));
        finish_arn_lease (V := V) dir r.1 l r.2) (λ _, True).
Proof.
  intros Hts Htest Hid. pose proof dir_not_external as Habove.
  assert (Hremove : ∀ e ts, Forall (inside dir task) ts →
    conf (remove_tickets (X := X) ts;; mret (ArnReply (al_lease_id l) [] (Some e))) (λ _, True)).
  { intros e ts Hin. apply confined_seq; [by apply confined_remove_tickets; [done|..]|].
    intros _. by apply confined_ret. }
  destruct (str_empty err) eqn:He.
  - eapply (confined_bind _ _ _ _ (λ r, Forall (inside dir task) r.2)).
    { eapply (confined_bind _ _ _ _ (λ c, Forall (inside dir task) c.1.2)); [|intros c Hc; by apply confined_ret].
      apply (confined_create_tickets dir task ext s0); [done..|apply confined_task_step|done]. }
    intros [e ts] Hin. cbn [fst snd] in *. unfold finish_arn_lease. rewrite Htest, Hid by done.
    destruct (str_empty e); cbn [negb andb].
    + apply confined_seq; [by apply confined_write_metadata; [done|..]|]. intros _. by apply confined_ret.
    + specialize (Hremove e ts Hin). by rewrite Hid in Hremove.
  - apply (confined_bind _ _ _ _ (λ r, r = (err, al_tickets l))); [by apply confined_ret|].
    intros r ->. cbn [fst snd]. unfold finish_arn_lease. rewrite He, Htest. cbn [negb andb].
    apply Hremove. eapply Forall_impl; [exact Hts|]. intros t. by apply fresh_inside.
Qed.
End confinement.

(** ** The reply *)

(** The request names accounts of the task, each with the ARN of its
    specification, up to its end or to an element that is refused. *)
Record names_accounts (arns : list string) (es : list (string * string)) : Prop := {
  na_elements : ∃ good bad, arns = good ++ bad ∧ Forall2 (names_account task) good es ∧ refused bad = true;
  na_plain e : e ∈ es → plain_name e.2 ∧ e.2 ≠ meta_name task
}.

(** There is room for the tickets: nothing, or nothing but a directory, where the
    directories of the task and of its accounts should be, and no directory where
    the metadata file should be. What the service has made itself leaves room. *)
Record room (es : list (string * string)) (s : fs) : Prop := {
  room_ready : ready dir task s;
  room_meta i : s !! (resolve dir ++ [task; meta_name task]) ≠ Some (Dir i);
  room_accounts e : e ∈ es → unfiled (s !! (resolve dir ++ [task; e.2]))
}.

Lemma fresh_room es s :
  dirs_exist (resolve dir) s → (∀ k, s !! (resolve dir ++ task :: k) = None) → room es s.
Proof using.
  intros Hdirs Hfresh. split.
  - split; [done|left]. apply Hfresh.
  - intros i. by rewrite Hfresh.
  - intros e _. left. apply Hfresh.
Qed.

Definition arn_outcome (arns : list string) (es : list (string * string)) (reply : arn_reply)
    (w w' : world X) : Prop :=
  match ar_status reply with
  | None => Forall2 (names_account task) arns es ∧ ∃ ts ts', Forall2 element_ticket es ts ∧ NoDup es.*2 ∧
      ar_lease_id reply = task ∧
      ar_response_map reply =
        (λ e : string * string, (e.1, krb_files_path dir task e.2)) <$> es ∧
      (∀ e, e ∈ es → has_dir (resolve dir ++ [task; e.2]) (w_fs w')) ∧
      Forall2 (λ t t', made_of (domainless_user t) t t') ts ts' ∧
      has_dir (resolve dir ++ [task]) (w_fs w') ∧ recorded (V := V) dir task ts' (w_fs w') ∧
      (Forall ticket_ascii ts' →
       read_meta_data_json (V := V) (meta_file_path task dir) w' =
         (Ok (read_back (w_fs w') ts'), w'))
  | Some err => str_empty err = false ∧
      w_fs w' !! (resolve dir ++ [task; meta_name task]) =
        w_fs w !! (resolve dir ++ [task; meta_name task]) ∧
      (has_dir (resolve dir ++ [task]) (w_fs w) → has_dir (resolve dir ++ [task]) (w_fs w'))
  end.

Lemma element_tickets_of es ts :
  Forall2 element_ticket es ts → (∀ e, e ∈ es → plain_name e.2 ∧ e.2 ≠ meta_name task) →
  Forall2 (ticket_of dir task) ts es.*2.
Proof using.
  induction 1 as [|e t es ts [Ht _] _ IH]; intros Hp; [constructor|]. cbn. constructor.
  - split; [apply (Hp e); by left|done].
  - apply IH. intros e' He'. apply Hp. by right.
Qed.

(** The loop, whatever its outcome. *)
Lemma confined_elements P s0 rq arns es l :
  ExternalIn X P → names_accounts arns es →
  confined P s0 (arn_loop (V := V) dir rq l arns) (λ _, True).
Proof using.
  intros HP [(good & bad & -> & Hes & Hbad) _]. revert l.
  induction Hes as [|a e arns es [Hsplit Htest] _ IH]; intros l; cbn [app arn_loop].
  { destruct (arn_loop_refused dir rq l bad Hbad) as (err & -> & _). by apply confined_ret. }
  apply confined_seq.
  2:{ intros [err l']. destruct (str_empty err); [apply IH|by apply confined_ret]. }
  unfold arn_body, split_credspec_arn. rewrite Hsplit.
  destruct (str_empty a); [by apply confined_ret|]. destruct (_ || _); [by apply confined_ret|].
  rewrite Htest. unfold add_arn_credspec. cbv zeta.
  apply confined_seq; [by apply confined_check_size|]. intros [|]; cbn [negb]; [|by apply confined_ret].
  apply confined_seq; [by apply confined_s3|]. intros response.
  destruct (str_empty response); [by apply confined_ret|].
  apply confined_seq; [eapply confined_true, confined_lift|]. intros [z [t m]].
  destruct (negb _); [by apply confined_ret|]. destruct (str_empty _); [by apply confined_ret|].
  apply confined_seq; [by apply confined_user_secret|]. intros us.
  destruct (secret_error us); [by apply confined_ret|]. case_decide; by apply confined_ret.
Qed.

(** What the loop leaves in its variables. *)
Definition arn_loop_end (arns : list string) (es : list (string * string)) (err : string)
    (l : arn_locals) : Prop :=
  al_isTest l = false ∧
  Forall (λ t, ∃ e, e ∈ es ∧ ticket_of dir task t e.2) (al_tickets l) ∧
  (if str_empty err then
    Forall2 (names_account task) arns es ∧ al_lease_id l = task ∧ Forall2 element_ticket es (al_tickets l) ∧ NoDup es.*2 ∧
    ((λ m, (credential_spec_arn m, am_krb_file_path m)) <$> al_arns l) =
      ((λ e : string * string, (e.1, krb_files_path dir task e.2)) <$> es) else True).

Lemma arn_loop_ended rq es (w : world X) err l w1 :
  names_accounts (rq_credspec_arns rq) es →
  (if credentials_present rq && (0 <? length (rq_credspec_arns rq))%nat
   then arn_loop (V := V) dir rq arn_locals_init (rq_credspec_arns rq)
   else mret ("Error: access credentials should not be empty", arn_locals_init)) w =
    (Ok (err, l), w1) →
  w_fs w1 = w_fs w ∧ arn_loop_end (rq_credspec_arns rq) es err l.
Proof.
  intros [(good & bad & Harns0 & Hes & Hbad) Hplain] Hloop. unfold arn_loop_end.
  destruct (_ && (0 <? _)%nat) eqn:Hreq; [|by injection Hloop as <- <- <-].
  apply andb_true_iff in Hreq as [_ Hlen%Nat.ltb_lt].
  rewrite Harns0 in Hloop, Hlen |- *.
  eapply (arn_loop_run rq _ bad es) in Hloop as (Hw1 & Ht & (ts0 & Hts0 & Hl0) & Hend); [|done..].
  split_and!; [done|done| |].
  { rewrite Hl0. eapply Forall_impl; [exact Hts0|]. intros t (e & Hin & Hpath & _).
    exists e. split; [done|]. split; [by apply Hplain|done]. }
  destruct (str_empty err); [|done]. destruct Hend as (-> & Hid & (ts & Hf & ->) & Hnd & _ & Harns).
  rewrite app_nil_r in Hlen |- *. split_and!; [done| |done|by eapply NoDup_fmap_1|done].
  rewrite Hid. case_decide as Hnil; [|done]. rewrite Hnil in Hlen. by apply Nat.lt_irrefl in Hlen.
Qed.

(** Whatever its outcome, the handler changes the directory of the task only. *)
Lemma arn_lease_unchanged rq es (w : world X) :
  names_accounts (rq_credspec_arns rq) es → dirs_exist (resolve dir) (w_fs w) →
  unchanged (may_change dir task ext) (w_fs w) (w_fs (AddKerberosArnLease (V := V) dir rq w).2).
Proof.
  intros Hes Hdirs. unfold AddKerberosArnLease.
  set (m := if _ && (0 <? _)%nat then _ else _).
  assert (Hm : confined (may_change dir task ext) (w_fs w) m (λ _, True)).
  { subst m. destruct (_ && _); [|by apply confined_ret].
    by eapply confined_elements; [apply _|]. }
  destruct (Hm w) as [Hu _]; [done|]. unfold mbind at 1, M_bind at 1.
  destruct (m w) as [[[err l]|e|e] w1] eqn:Hrun; [|done..].
  apply arn_loop_ended with (es := es) in Hrun as [Hw1 (Htest & Hall & Hl)]; [|done].
  assert (Hfresh : Forall (fresh_ticket dir task) (al_tickets l)).
  { eapply Forall_impl; [exact Hall|]. intros t (e & _ & Hacc & Ht). by exists e.2. }
  rewrite Htest, andb_true_r. refine (proj1 (confined_task_tail (w_fs w) _ l err Hfresh Htest _ w1 Hu)); [done|].
  intros He. rewrite He in Hl. apply Hl.
Qed.

(** The end of a request that fails, with the tickets in the accounts'
    directories. *)
Lemma arn_failed_end arns (es : list (string * string)) e l ts (w w2 : world X) reply w' :
  str_empty e = false → al_isTest l = false → (∀ e, e ∈ es → e.2 ≠ meta_name task) →
  Forall (λ t, ∃ e, e ∈ es ∧ below_account dir task e.2 t) ts →
  w_fs w2 !! (resolve dir ++ [task; meta_name task]) = w_fs w !! (resolve dir ++ [task; meta_name task]) →
  (has_dir (resolve dir ++ [task]) (w_fs w) → has_dir (resolve dir ++ [task]) (w_fs w2)) →
  finish_arn_lease (V := V) dir e l ts w2 = (Ok reply, w') → arn_outcome arns es reply w w'.
Proof.
  intros He Htest Hnot Hts Hmeta Hroot Hfin. unfold finish_arn_lease in Hfin. rewrite He, Htest in Hfin.
  apply bind_ok in Hfin as ([] & w3 & Hrm & [= <- <-]).
  assert (Hkeep : ∀ k, (∀ acc, acc ∈ es.*2 → ¬ (resolve dir ++ [task; acc]) `prefix_of` k) →
    w_fs w3 !! k = w_fs w2 !! k).
  { intros k Hk. eapply remove_tickets_other; [exact Hrm|]. eapply Forall_impl; [exact Hts|].
    intros t (e' & Hin & Hb) Hp. apply (Hk e'.2); [by apply list_elem_of_fmap_2|]. by etrans. }
  split_and!; [done| |].
  - rewrite Hkeep; [done|]. intros acc (e' & -> & Hin)%list_elem_of_fmap Hp%account_dir_prefix.
    by apply (Hnot e').
  - intros [i Hi]%Hroot. exists i. rewrite Hkeep; [done|]. intros acc _ Hp%prefix_length.
    rewrite !length_app in Hp. cbn in Hp. lia.
Qed.

Lemma arn_lease_run `{!JsonCppLaws V} rq es (w : world X) reply w' :
  names_accounts (rq_credspec_arns rq) es → room es (w_fs w) →
  AddKerberosArnLease (V := V) dir rq w = (Ok reply, w') → arn_outcome (rq_credspec_arns rq) es reply w w'.
Proof.
  intros Hes [Hready Hmdir Haccs] Hrun. unfold AddKerberosArnLease in Hrun.
  apply bind_ok in Hrun as ([err l] & w1 & Hloop & Hrun).
  apply arn_loop_ended with (es := es) in Hloop as [Hw1 (Htest & Hall0 & Hl)]; [|done].
  destruct Hes as [_ Hplain]. rewrite Htest, andb_true_r in Hrun.
  assert (Hnot : ∀ e, e ∈ es → e.2 ≠ meta_name task) by (intros e He; by apply Hplain).
  apply bind_ok in Hrun as ([err2 ts2] & w2 & Hct & Hfin). cbn [fst snd] in Hfin.
  destruct (str_empty err) eqn:He.
  2:{ injection Hct as <- <- <-. eapply arn_failed_end; [done..| | | |exact Hfin]; [|by rewrite Hw1..].
      eapply Forall_impl; [exact Hall0|]. intros t (e & Hin & Hacc & Ht).
      exists e. split; [done|]. by apply (cached_below dir task Htask _ t); [..|left]. }
  destruct Hl as (Hall & Hid & Hts & Hnd & Harns).
  apply bind_ok in Hct as ([[err3 ts3] paths] & w3 & Hct & Hret). injection Hret as -> -> ->.
  destruct (create_tickets_run dir task ext Hext Hdir Htask unfiled domainless_user (arn_step (al_secret l))
    (al_tickets l) es.*2 w1 err2 ts2 paths w2) as [Hu Hr Hroot Hbelow Hend];
    [apply arn_step_makes|by eapply element_tickets_of|done|by rewrite Hw1| |exact Hct|].
  { intros acc (e & -> & Hin)%list_elem_of_fmap. rewrite Hw1. by apply Haccs. }
  rewrite Hw1 in Hu, Hroot.
  assert (Hmeta : w_fs w2 !! (resolve dir ++ [task; meta_name task]) =
    w_fs w !! (resolve dir ++ [task; meta_name task])).
  { apply (meta_unchanged dir task ext Hext Hdir Htask es.*2); [|done].
    intros (e & Heq & Hin)%list_elem_of_fmap. by apply (Hnot e). }
  destruct (str_empty err2) eqn:He2.
  2:{ eapply arn_failed_end; [done..| |done|done|exact Hfin].
      apply Forall_forall. intros t (i & Hi)%list_elem_of_lookup.
      destruct (Forall2_lookup_r _ _ _ _ _ Hbelow Hi) as (acc & Ha & Hb).
      apply list_elem_of_lookup_2, list_elem_of_fmap in Ha as (e & -> & Hin). by exists e. }
  destruct (Hend eq_refl) as (Hmade & _ & Hdirs).
  destruct (write_meta_ok (V := V) dir task ext Hext Hdir Htask ts2 w2 Hr) as (w4 & Hwrite & Hread & Hkeep & Hdroot & Hrec);
    [by rewrite Hmeta|].
  unfold finish_arn_lease in Hfin. rewrite He2, Htest in Hfin. cbn [negb andb] in Hfin.
  unfold mbind, M_bind in Hfin. rewrite Hid, Hwrite in Hfin. injection Hfin as <- <-.
  split; [exact Hall|]. exists (al_tickets l), ts2. split_and!; try done.
  intros e Hin. apply Hkeep. rewrite Forall_forall in Hdirs. apply Hdirs, list_elem_of_fmap. eauto.
Qed.

End one_task.

(** ** Renewal: only what external programs write is changed. *)
Lemma confined_renew_arn (P : list string → Prop) s0 dir rq :
  ExternalIn X P → confined P s0 (RenewKerberosArnLease (V := V) dir rq) (λ _, True).
Proof.
  intros Hin. unfold RenewKerberosArnLease.
  apply confined_seq; [|intros err; by apply confined_ret].
  destruct (credentials_present rq); [|by apply confined_ret].
  apply confined_seq.
  { apply confined_same. intros w. unfold get_meta_data_file_paths. by destruct (fs_is_dir _ _). }
  intros files. generalize "" as err. induction files as [|f files IH]; intros err; cbn [renew_arn_files];
    [by apply confined_ret|].
  apply confined_seq; [by apply confined_read_meta|]. intros ts.
  apply confined_seq; [|intros e; apply IH]. generalize (new_ticket, new_mapping) as tm.
  induction ts as [|t ts IHt]; intros tm; cbn [renew_arn_tickets]; [by apply confined_ret|].
  apply confined_seq; [|intros r; destruct (str_empty r.1); [apply IHt|by apply confined_ret]].
  unfold renew_arn_ticket. destruct (str_empty _); [by apply confined_ret|]. cbv zeta.
  apply confined_seq; [by apply confined_s3|]. intros response.
  destruct (str_empty response); [by apply confined_ret|].
  apply confined_seq; [eapply confined_true, confined_lift|]. intros [z tm'].
  destruct (negb _); [by apply confined_ret|]. destruct (str_empty _); [by apply confined_ret|].
  apply confined_seq; [by apply confined_user_secret|]. intros us.
  destruct (secret_error us); [by apply confined_ret|].
  apply confined_seq; [|intros p; by apply confined_ret]. unfold renew_gmsa_ticket.
  by apply confined_renew_loop.
Qed.

(** ** Properties *)

(** C5: the leases from ARNs. Suppose that the elements of a request, up to their end
    or to one that is refused as it stands, name accounts of one task and none is a
    test element ([names_accounts]), that nothing but directories is where the task
    and its accounts go ([room]), and that external programs write nothing of the
    leases but the caches; the task may have a lease already. Then an OK reply of
    [AddKerberosArnLease] means that no element is refused, the accounts are different
    ones, each has its directory and its line in the reply, and the metadata file of
    the task records a ticket for each, with the ARN of its specification, and no
    other; after an error the task has the metadata file it had, if any. *)
Theorem arn_lease_recorded `{!JsonCppLaws V} dir task ext rq es (w : world X) reply w' :
  ExternalIn X ext → external_caches dir ext → plain_path dir → plain_name task →
  names_accounts task (rq_credspec_arns rq) es → room dir task es (w_fs w) →
  AddKerberosArnLease (V := V) dir rq w = (Ok reply, w') →
  arn_outcome dir task (rq_credspec_arns rq) es reply w w'.
Proof.
  intros Hin Hext Hdir Htask Hes Hroom Hrun.
  by apply (arn_lease_run dir task Htask ext Hext Hdir rq es w reply w').
Qed.

End arn_lifecycle.

(** ** At a concrete input *)
#[local] Existing Instance Script.script_platform.
#[local] Existing Instance script_krb5.
#[local] Existing Instance Tree.tree_json.
#[local] Existing Instance Tree.tree_json_laws.
#[local] Existing Instance script_aws.

Definition demo_task_request : arn_request :=
  demo_arn_request ["arn:aws:s3:::bucket/spec.json#task1/webapp01"].
(** The secret names the account, which is not searched for. *)
Definition demo_task_world : world Script.script :=
  World (w_fs demo_joined) ∅ Script.demo_log
    (Script.Sc ([Some (dummy_credspec, 0%Z); Some (demo_secret, 0%Z);
                 demo_which; demo_which] ++ take 1 demo_ldap ++ drop 2 demo_ldap) [] [] []).

Lemma demo_names_accounts :
  names_accounts "task1" (rq_credspec_arns demo_task_request) [("arn:aws:s3:::bucket/spec.json", "webapp01")].
Proof.
  split.
  - eexists [_], []. split_and!; [done| |done]. repeat constructor; vm_compute; reflexivity.
  - intros e ->%list_elem_of_singleton. split; [apply (bool_decide_unpack _); by vm_compute|discriminate].
Qed.

Lemma arn_lease_recorded_witness :
  ∃ reply w' ts', AddKerberosArnLease (X := Script.script) (V := Tree.tree) demo_krbdir
      demo_task_request demo_task_world = (Ok reply, w') ∧
    ar_response_map reply =
      [("arn:aws:s3:::bucket/spec.json", krb_files_path demo_krbdir "task1" "webapp01")] ∧
    length ts' = 1 ∧ recorded (V := Tree.tree) demo_krbdir "task1" ts' (w_fs w').
Proof.
  assert (Hrun : match AddKerberosArnLease (X := Script.script) (V := Tree.tree) demo_krbdir
      demo_task_request demo_task_world with
    | (Ok r, _) => ar_status r = None
    | _ => False end) by (vm_compute; reflexivity).
  pose proof (arn_lease_recorded (X := Script.script) (V := Tree.tree) demo_krbdir "task1" (λ _, False)
    demo_task_request [("arn:aws:s3:::bucket/spec.json", "webapp01")] demo_task_world) as Hall.
  destruct (AddKerberosArnLease _ _ _) as [[reply|e|e] w']; [|done..].
  specialize (Hall reply w'). unfold arn_outcome in Hall. rewrite Hrun in Hall.
  destruct Hall as (_ & ts & ts' & Hts & _ & _ & Hmap & _ & Hmade & _ & Hrec & _).
  - apply _.
  - apply demo_caches.
  - apply demo_plain_path.
  - apply (bool_decide_unpack _). by vm_compute.
  - apply demo_names_accounts.
  - apply fresh_room; [apply (demo_tools_dirs _ : dirs_exist _ (w_fs demo_joined))|].
    intros k. exact (demo_tools_fresh _ "task1" k).
  - done.
  - exists reply, w', ts'. split_and!; [done|exact Hmap| |exact Hrec].
    apply Forall2_length in Hts, Hmade. cbn in Hts. congruence.
Defined.

(** A second request for an account whose cache is there: the handler records the
    account's directory in place of the cache, which the first request recorded. *)
Definition demo_repeated (k : nat) : list string :=
  let request w := AddKerberosArnLease (X := Script.script) (V := Tree.tree) demo_krbdir demo_task_request
    (World (w_fs w) ∅ Script.demo_log (w_ext demo_task_world)) in
  let w := Nat.iter k (λ w, (request w).2) demo_task_world in
  match read_meta_data_json (X := Script.script) (V := Tree.tree) (meta_file_path "task1" demo_krbdir) w with
  | (Ok ts, _) => krb_file_path <$> ts
  | _ => []
  end.

Example second_request_path :
  demo_repeated 1 = [krb_files_path demo_krbdir "task1" "webapp01" +:+ "/krb5cc"] ∧
  demo_repeated 2 = [krb_files_path demo_krbdir "task1" "webapp01"].
Proof. split; vm_compute; reflexivity. Qed.
