(* ===== verification/Renewal.v ===== *)
(** * Renewal ([renewal/src/renewal.cpp])

    The thread that renews the tickets of the domain-joined and the vault modes.
    It works on its own copy of the daemon's record. What the rest of the
    process and the machine do while it sleeps is a parameter. *)
From S2P Require Import Prelude StrUtil Logger World Json CredSpec Metadata Kinit Util Klist Krb Confine.
From stdpp Require Import options.

(** The fields of [class Daemon] the handler reads. *)
Record renewal_daemon := RenewalDaemon {
  krb_files_dir : string;
  krb_ticket_handle_interval : nat;   (* minutes *)
  got_systemd_shutdown_signal : bool
}.

Definition secret_marker : string := "awsdomainlessusersecret".

(** [domainless_user.find( "awsdomainlessusersecret" ) != npos] *)
Definition from_secret (user : string) : bool := bool_decide (is_Some (str_find secret_marker user)).

(** [domainless_user.substr( pos + 1 )]; without a colon [pos] is -1. *)
Definition secret_of_user (user : string) : string :=
  match str_find ":" user with
  | Some pos => str_drop (pos + 1) user
  | None => user
  end.

Section renewal.
Context {X : Type} `{Platform X} {V : Type} `{JsonCpp V} `{Krb5 X}.
Abbreviation MW := (M (world X)).

(** The machine's ticket, or that of the user in the vault. *)
Definition base_ticket (t : krb_ticket_info) (user : string) : MW (Z * string) :=
  if from_secret user
  then generate_krb_ticket_using_secret_vault (V := V) (domain_name t) (secret_of_user user)
  else generate_krb_ticket_from_machine_keytab (domain_name t).

(** [for ( int i = 0; i <= num_retries; i++ )], [n] turns left: a success does not
    leave the loop, a new base ticket does. *)
Fixpoint renew_attempts (n : nat) (t : krb_ticket_info) (krb_cc_name user : string) : MW unit :=
  match n with
  | O => mret tt
  | S n' =>
    r ← fetch_gmsa_password_and_create_krb_ticket (domain_name t) t krb_cc_name;
    let '(gmsa_ticket_result, t) := r in
    if negb (gmsa_ticket_result.1 =? 0)%Z then
      log LOG_ERR ("ERROR: Cannot get gMSA krb ticket using account " +:+ service_account_name t);;
      status ← base_ticket t user;
      if (status.1 <? 0)%Z then
        log LOG_ERR ("Error " +:+ to_string status.1 +:+ ": Cannot get machine krb ticket");;
        renew_attempts n' t krb_cc_name user
      else mret tt
    else renew_attempts n' t krb_cc_name user
  end.

(** One ticket of a metadata file. *)
Definition renew_ticket (t : krb_ticket_info) : MW unit :=
  let krb_cc_name := krb_file_path t in
  let user := domainless_user t in
  ready ← (if str_empty user || from_secret user then is_ticket_ready_for_renewal t else mret false);
  if ready : bool then renew_attempts 2 t krb_cc_name user
  else log LOG_INFO ("gMSA ticket is at " +:+ krb_cc_name).

(** The body of the [try]: the files are found before any is read. *)
Definition renewal_pass (dir : string) : MW unit :=
  metadatafiles ← get_meta_data_file_paths dir;
  for_each (λ _ file_path,
    tickets ← read_meta_data_json (V := V) file_path;
    for_each (λ _ t, renew_ticket t;; mret (Next tt)) tt tickets;; mret (Next tt))
    tt metadatafiles.

(** The [catch]. *)
Definition renewal_failed (what : string) : MW unit :=
  now ← getCurrentTime;
  log LOG_ERR (now +:+ String (char_of 9) "" +:+ "ERROR: '" +:+ what +:+ "'!" +:+ String nl "");;
  now ← getCurrentTime;
  log LOG_ERR (now +:+ String (char_of 9) "" +:+ "ERROR: failed to run ticket renewal").

(** [n] turns of the loop, from turn [i]: [None] while it still runs. *)
Fixpoint renewal_loop (meanwhile : nat → world X → world X) (d : renewal_daemon) (n i : nat)
    : MW (option Z) :=
  match n with
  | O => mret None
  | S n' =>
    if got_systemd_shutdown_signal d then mret (Some (-1)%Z)
    else
      go ← try_catch
             (modify (meanwhile i);; renewal_pass (krb_files_dir d);; mret true)
             (λ ex, renewal_failed ex;; mret false);
      if go : bool then renewal_loop meanwhile d n' (S i) else mret (Some (-1)%Z)
  end.

Definition krb_ticket_renew_handler (meanwhile : nat → world X → world X) (d : renewal_daemon)
    (n : nat) : MW (option Z) :=
  if str_empty (krb_files_dir d) then mret (Some (-1)%Z) else renewal_loop meanwhile d n 0.

(** [i] turns that end normally lead from [w] to [w']. *)
Inductive turns (meanwhile : nat → world X → world X) (dir : string) :
    nat → nat → world X → world X → Prop :=
| turns_none i w : turns meanwhile dir i 0 w w
| turns_more i n w w1 w' :
    renewal_pass dir (meanwhile i w) = (Ok tt, w1) → turns meanwhile dir (S i) n w1 w' →
    turns meanwhile dir i (S n) w w'.

(** ** Lemmas *)
Lemma renewal_loop_turns meanwhile d n m i w w' :
  got_systemd_shutdown_signal d = false →
  turns meanwhile (krb_files_dir d) i n w w' →
  renewal_loop meanwhile d (n + m) i w = renewal_loop meanwhile d m (n + i) w'.
Proof.
  intros Hs Ht. induction Ht as [i w|i n w w1 w' Hpass _ IH]; [done|].
  cbn [Nat.add renewal_loop]. rewrite Hs. unfold mbind, M_bind, try_catch, modify. rewrite Hpass. cbn.
  rewrite IH. by rewrite Nat.add_succ_r.
Qed.

(** *** What a pass changes: only what the programs it runs do. *)
Section confinement.
Context (P : list string → Prop) (s0 : fs) `{!ExternalIn X P}.
#[local] Set Default Proof Using "Type*".
Abbreviation conf m := (confined P s0 m (λ _, True)).

Lemma confined_ready t : conf (is_ticket_ready_for_renewal (X := X) t).
Proof.
  assert (Hin : ∀ results, conf (renewal_in (X := X) results)).
  { induction results as [|r results IH]; cbn [renewal_in]; [by apply confined_ret|].
    destruct (str_find _ r); [|done]. unfold get_ticket_expiration.
    apply confined_seq; [confine|]. intros d. apply confined_seq; [by apply confined_same|]. intros w. confine. }
  unfold is_ticket_ready_for_renewal. confine.
Qed.

Lemma confined_base_ticket t user : conf (base_ticket t user).
Proof. unfold base_ticket. confine. Qed.

Lemma confined_attempts n t cc user : conf (renew_attempts n t cc user).
Proof.
  revert t. induction n as [|n IH]; intros t; cbn [renew_attempts]; [confine|].
  apply confined_seq; [by eapply confined_true, confined_fetch|]. intros [res t'].
  destruct (negb _); [|apply IH]. apply confined_seq; [by apply confined_log|]. intros _.
  apply confined_seq; [by apply confined_base_ticket|]. intros status. confine.
Qed.

Lemma confined_renew_ticket t : conf (renew_ticket t).
Proof.
  unfold renew_ticket. cbv zeta. apply confined_seq.
  - destruct (_ || _); [by apply confined_ready|by apply confined_ret].
  - intros [|]; [by apply confined_attempts|by apply confined_log].
Qed.

Lemma confined_renewal_pass dir : conf (renewal_pass dir).
Proof.
  unfold renewal_pass. apply confined_seq.
  { apply confined_same. intros w. unfold get_meta_data_file_paths. by destruct (fs_is_dir _ _). }
  intros files. apply confined_loop. intros [] file.
  apply confined_seq; [by apply confined_read_meta|]. intros tickets.
  apply confined_seq; [|intros _; by apply confined_ret]. apply confined_loop. intros [] t.
  apply confined_seq; [by apply confined_renew_ticket|]. intros _. by apply confined_ret.
Qed.
End confinement.

(** ** Properties *)

(** The attempts at one ticket, in full: after a success the same ticket is
    fetched again; after a failure a new base ticket ends the attempts without
    the retry it is for, and only a failure to get one leads to the second
    attempt. *)
Theorem renew_attempts_unrolled t krb_cc_name user w :
  let fetch t := fetch_gmsa_password_and_create_krb_ticket (domain_name t) t krb_cc_name in
  let failed t := log LOG_ERR
    ("ERROR: Cannot get gMSA krb ticket using account " +:+ service_account_name t) in
  let no_base code := log LOG_ERR ("Error " +:+ to_string code +:+ ": Cannot get machine krb ticket") in
  renew_attempts 2 t krb_cc_name user w =
  (r1 ← fetch t;
   let again :=
     r2 ← fetch r1.2;
     if (r2.1.1 =? 0)%Z then mret tt
     else failed r2.2;; s ← base_ticket r2.2 user; if (s.1 <? 0)%Z then no_base s.1 else mret tt in
   if (r1.1.1 =? 0)%Z then again
   else
     failed r1.2;; s ← base_ticket r1.2 user;
     if (s.1 <? 0)%Z then no_base s.1;; again else mret tt) w.
Proof.
  cbv zeta. cbn [renew_attempts].
  assert (Hlast : ∀ t w, (r ← fetch_gmsa_password_and_create_krb_ticket (domain_name t) t krb_cc_name;
      let '(gmsa_ticket_result, t) := r in
      if negb (gmsa_ticket_result.1 =? 0)%Z then
        log LOG_ERR ("ERROR: Cannot get gMSA krb ticket using account " +:+ service_account_name t);;
        status ← base_ticket t user;
        if (status.1 <? 0)%Z then
          log LOG_ERR ("Error " +:+ to_string status.1 +:+ ": Cannot get machine krb ticket");; mret ()
        else mret ()
      else mret ()) w =
    (r2 ← fetch_gmsa_password_and_create_krb_ticket (domain_name t) t krb_cc_name;
     if (r2.1.1 =? 0)%Z then mret tt
     else log LOG_ERR ("ERROR: Cannot get gMSA krb ticket using account " +:+ service_account_name r2.2);;
       s ← base_ticket r2.2 user;
       if (s.1 <? 0)%Z then
         log LOG_ERR ("Error " +:+ to_string s.1 +:+ ": Cannot get machine krb ticket")
       else mret tt) w).
  { intros t0 w0. apply M_bind_ext. intros [[c p] t1] w1. cbn [fst snd].
    destruct (c =? 0)%Z; [done|]. apply M_bind_ext. intros [] w2. apply M_bind_ext. intros s w3.
    destruct (s.1 <? 0)%Z; [|done]. apply M_bind_unit. }
  apply M_bind_ext. intros [[c p] t1] w1. cbn [fst snd]. destruct (c =? 0)%Z; [apply Hlast|].
  apply M_bind_ext. intros [] w2. apply M_bind_ext. intros s w3.
  destruct (s.1 <? 0)%Z; [|done]. apply M_bind_ext. intros [] w4. apply Hlast.
Qed.

(** C28: the thread runs until a pass throws: turns that end normally follow
    each other whatever happens meanwhile, a shutdown signal included, for the
    signal is read from the thread's own copy; the first exception ends the
    thread, after two log lines, with no later turn. *)
Theorem krb_ticket_renew_handler_spec meanwhile d w n w' :
  krb_files_dir d ≠ "" → got_systemd_shutdown_signal d = false →
  turns meanwhile (krb_files_dir d) 0 n w w' →
  krb_ticket_renew_handler meanwhile d n w = (Ok None, w') ∧
  (∀ m e w1, renewal_pass (krb_files_dir d) (meanwhile n w') = (Throw e, w1) →
     krb_ticket_renew_handler meanwhile d (n + S m) w = (renewal_failed e;; mret (Some (-1)%Z)) w1).
Proof.
  intros Hdir Hs Ht. apply str_empty_false in Hdir. unfold krb_ticket_renew_handler. rewrite Hdir. split.
  - rewrite <-(Nat.add_0_r n). by rewrite (renewal_loop_turns _ _ _ _ _ _ _ Hs Ht).
  - intros m e w1 Hthrow. rewrite (renewal_loop_turns _ _ _ _ _ _ _ Hs Ht), Nat.add_0_r.
    cbn [renewal_loop]. rewrite Hs. unfold mbind, M_bind, try_catch, modify. rewrite Hthrow.
    by destruct (renewal_failed e w1) as [[[]|e'|e'] w2].
Qed.

End renewal.

(** ** At concrete inputs *)
#[local] Existing Instance Script.script_platform.
#[local] Existing Instance script_krb5.
#[local] Existing Instance Tree.tree_json.

(** Two quiet turns; then the directory of the leases is gone. *)
Lemma krb_ticket_renew_handler_spec_witness :
  let meanwhile (i : nat) (w : world Script.script) := if decide (i = 2) then set_fs ∅ w else w in
  let d := RenewalDaemon demo_krbdir 10 false in
  krb_ticket_renew_handler (V := Tree.tree) meanwhile d 2 (Script.demo_world Script.idle)
    = (Ok None, Script.demo_world Script.idle) ∧
  (krb_ticket_renew_handler (V := Tree.tree) meanwhile d 3 (Script.demo_world Script.idle)).1
    = Ok (Some (-1)%Z).
Proof.
  intros meanwhile d.
  assert (Ht : turns (V := Tree.tree) meanwhile demo_krbdir 0 2 (Script.demo_world Script.idle)
    (Script.demo_world Script.idle)).
  { do 2 (apply (turns_more _ _ _ _ _ (Script.demo_world Script.idle)); [vm_compute; reflexivity|]).
    apply turns_none. }
  destruct (krb_ticket_renew_handler_spec (V := Tree.tree) meanwhile d (Script.demo_world Script.idle) 2
    (Script.demo_world Script.idle) ltac:(discriminate) eq_refl Ht) as [Hrun Hend].
  split; [exact Hrun|].
  assert (Hpass : match renewal_pass (X := Script.script) (V := Tree.tree) demo_krbdir
      (meanwhile 2 (Script.demo_world Script.idle)) with
    | (Throw e, w1) => ((renewal_failed e;; mret (Some (-1)%Z)) w1).1 = Ok (Some (-1)%Z)
    | _ => False
    end) by (vm_compute; reflexivity).
  destruct (renewal_pass demo_krbdir (meanwhile 2 (Script.demo_world Script.idle)))
    as [[[]|e|e] w1] eqn:Hthrow; [done| |done].
  change 3 with (2 + S 0). rewrite (Hend 0 e w1 Hthrow). exact Hpass.
Defined.
