(* ===== verification/SelfTest.v ===== *)
(** * The self tests ([metadata/tests/metadata_test.cpp],
      [renewal/tests/renewal_test.cpp])

    The tests are compiled into the daemon, and [main] runs them under
    [--self_test]; their sample files are looked for in the current directory,
    which is the root here. *)
From S2P Require Import Prelude StrUtil Logger World Json Regex Validation CredSpec Metadata Kinit Util Klist Krb Renewal.
From stdpp Require Import options.

Section self_test.
Context {X : Type} `{Platform X} {V : Type} `{JsonCpp V} `{Krb5 X}.
Abbreviation MW := (M (world X)).

(** ** [metadata_test.cpp] *)
Definition test_krb_files_dir : string := "/usr/share/credentials-fetcher/krbdir".

Definition test_paths : list string :=
  ["/usr/share/credentials-fetcher/krbdir/73099acdb5807b4bbf91/ccname_WebApp01_7K4PEM";
   "/usr/share/credentials-fetcher/krbdir/73099acdb5807b4bbf91/ccname_WebApp03_53Yg4I"].

Definition test_lease_id : string := "test1234567890".

Fixpoint make_caches (paths : list string) : MW unit :=
  match paths with
  | [] => mret tt
  | file_path :: rest =>
    create_directories (parent_path file_path);;
    found ← exists_ file_path;
    (if found : bool then mret tt else write_file file_path "";; mret tt);;
    make_caches rest
  end.

Fixpoint remove_caches (paths : list string) : MW unit :=
  match paths with
  | [] => mret tt
  | file_path :: rest => remove_all file_path;; remove_caches rest
  end.

Definition read_meta_data_json_test : MW Z :=
  make_caches test_paths;;
  result ← read_meta_data_json (V := V) "metadata_sample.json";
  remove_caches test_paths;;
  mret (if length result =? 2 then EXIT_SUCCESS else EXIT_FAILURE).

Definition read_meta_data_invalid_json_test : MW Z :=
  result ← read_meta_data_json (V := V) "metadata_invalid_sample.json";
  mret (if length result =? 0 then EXIT_SUCCESS else EXIT_FAILURE).

Definition write_meta_data_json_test : MW Z :=
  make_caches test_paths;;
  test_ticket_info ← read_meta_data_json (V := V) "metadata_sample.json";
  result ← write_meta_data_json (V := V) test_ticket_info test_lease_id test_krb_files_dir;
  if negb (result =? 0)%Z then remove_caches test_paths;; mret EXIT_FAILURE
  else
    remove_all (test_krb_files_dir +:+ "/" +:+ test_lease_id);;
    remove_caches test_paths;;
    mret EXIT_SUCCESS.

(** ** [renewal_test.cpp] *)

(** [Daemon cf_daemon;] leaves the flag of the shutdown signal unset: [flag] is
    what it happens to hold. Its directory is empty, so the handler takes no
    turn of its loop. *)
Definition renewal_failure_krb_dir_not_found_test (flag : bool) : MW Z :=
  result ← krb_ticket_renew_handler (V := V) (λ _ w, w) (RenewalDaemon "" 10 flag) 0;
  mret (if decide (result = Some (-1)%Z) then EXIT_SUCCESS else EXIT_FAILURE).

(** ** The disjunction of [main]: whether a test failed *)
Definition or_else (a b : MW Z) : MW Z :=
  r ← a; if negb (r =? 0)%Z then mret 1%Z else b.

Definition self_test (flag : bool) : MW Z :=
  or_else read_meta_data_json_test
    (or_else read_meta_data_invalid_json_test
       (or_else (renewal_failure_krb_dir_not_found_test flag) write_meta_data_json_test)).

(** ** Lemmas *)
Abbreviation krb_dir := ["usr"; "share"; "credentials-fetcher"; "krbdir"].
Abbreviation caches_dir := (krb_dir ++ ["73099acdb5807b4bbf91"]).
Abbreviation cache1 := (caches_dir ++ ["ccname_WebApp01_7K4PEM"]).
Abbreviation cache3 := (caches_dir ++ ["ccname_WebApp03_53Yg4I"]).
Abbreviation lease_dir := (krb_dir ++ [test_lease_id]).
Abbreviation lease_meta := (lease_dir ++ [test_lease_id +:+ "_metadata.json"]).

(** The directory of the leases is there, and nothing of the tests is, but
    perhaps the directory of the caches, empty. *)
Record test_ground (s : fs) : Prop := {
  tg_dirs : dirs_exist krb_dir s;
  tg_dir : s !! caches_dir = None ∨ s !! caches_dir = Some (Dir new_dir_info);
  tg_caches k : k ≠ [] → s !! (caches_dir ++ k) = None;
  tg_lease k : s !! (lease_dir ++ k) = None
}.

(** The file system with the caches made. *)
Definition with_dir (s : fs) : fs := <[caches_dir := Dir new_dir_info]> s.
Definition with_caches (s : fs) : fs :=
  <[cache3 := File new_file_info ""]> (<[cache1 := File new_file_info ""]> (with_dir s)).

Lemma with_dir_ground s : test_ground s → test_ground (with_dir s).
Proof.
  intros [Hd _ Hc Hl]. unfold with_dir. split.
  - intros k Hk Hne. rewrite lookup_insert_ne; [by apply Hd|]. intros <-.
    by apply prefix_length in Hk; cbn in Hk; lia.
  - right. apply lookup_insert_eq.
  - intros k Hk. rewrite lookup_insert_ne; [by apply Hc|]. intros Heq.
    apply Hk. by apply (app_inv_head caches_dir); rewrite app_nil_r.
  - intros k. by rewrite lookup_insert_ne.
Qed.

Abbreviation caches_path := "/usr/share/credentials-fetcher/krbdir/73099acdb5807b4bbf91".

Lemma caches_plain : plain_path caches_path ∧ plain_path test_krb_files_dir ∧ resolve caches_path = caches_dir.
Proof. split_and!; [by apply (bool_decide_unpack _); vm_compute..|done]. Qed.

(** One turn of the loop. *)
Lemma make_cache_run a rest (w : world X) :
  plain_name a → test_ground (w_fs w) ∨ w_fs w !! caches_dir = Some (Dir new_dir_info) →
  dirs_exist krb_dir (w_fs w) → w_fs w !! (caches_dir ++ [a]) = None →
  make_caches ((caches_path +:+ "/" +:+ a) :: rest) w =
  make_caches rest (set_fs (<[caches_dir ++ [a] := File new_file_info ""]> (with_dir (w_fs w))) w).
Proof.
  intros Ha Hdir Hd Hn. destruct caches_plain as (Hpc & Hpk & Hres). set (s := w_fs w) in *.
  assert (Hmk : fs_create_directories caches_path s = Ok (with_dir s)).
  { change caches_path with (test_krb_files_dir +:+ "/" +:+ "73099acdb5807b4bbf91").
    rewrite create_one_more; [|exact Hpk|by apply (bool_decide_unpack _); vm_compute|exact Hd].
    change (resolve test_krb_files_dir ++ _) with caches_dir.
    assert (Hor : s !! caches_dir = None ∨ s !! caches_dir = Some (Dir new_dir_info))
      by (destruct Hdir as [[]|]; auto).
    unfold with_dir. destruct Hor as [Hx|Hx]; rewrite Hx; [done|by rewrite insert_id]. }
  cbn [make_caches]. change ("/" +:+ a) with (String slash a).
  rewrite parent_path_app by apply Ha. change (String slash a) with ("/" +:+ a).
  assert (Hn' : with_dir s !! (caches_dir ++ [a]) = None) by (unfold with_dir; by rewrite lookup_insert_ne).
  unfold create_directories, exists_, gets, write_file, mbind, M_bind.
  fold s. rewrite Hmk. cbn [w_fs set_fs].
  assert (Hex : fs_exists (caches_path +:+ "/" +:+ a) (with_dir s) = false).
  { apply (fs_exists_none (caches_path +:+ "/" +:+ a) _ (plain_path_app _ _ Hpc Ha)).
    rewrite (resolve_app_plain caches_path a Ha), Hres. exact Hn'. }
  rewrite Hex. cbn [w_fs set_fs].
  rewrite (fs_write_new caches_path a "" (with_dir s) new_dir_info Hpc Ha);
    rewrite Hres; [done|apply lookup_insert_eq|exact Hn'].
Qed.

Lemma make_caches_run (w : world X) :
  test_ground (w_fs w) → make_caches test_paths w = (Ok tt, set_fs (with_caches (w_fs w)) w).
Proof.
  intros Hg. pose proof (with_dir_ground _ Hg) as Hg'.
  change test_paths with [caches_path +:+ "/" +:+ "ccname_WebApp01_7K4PEM";
    caches_path +:+ "/" +:+ "ccname_WebApp03_53Yg4I"].
  rewrite make_cache_run; [|by apply (bool_decide_unpack _); vm_compute|by left|apply Hg|by apply Hg].
  set (s1 := <[_:=_]> (with_dir _)).
  assert (Hs1 : s1 !! caches_dir = Some (Dir new_dir_info)).
  { unfold s1, with_dir. rewrite lookup_insert_ne by done. apply lookup_insert_eq. }
  rewrite make_cache_run; [|by apply (bool_decide_unpack _); vm_compute|by right| |].
  - cbn [make_caches w_fs set_fs]. unfold with_dir at 1. by rewrite (insert_id s1).
  - cbn [w_fs set_fs]. intros k Hk Hne. unfold s1. rewrite lookup_insert_ne; [by apply (tg_dirs _ Hg')|].
    intros <-. by apply prefix_length in Hk; cbn in Hk; lia.
  - cbn [w_fs set_fs]. unfold s1. rewrite lookup_insert_ne by done. by apply (tg_caches _ Hg').
Qed.

Lemma remove_caches_run (w : world X) s :
  test_ground s → w_fs w = with_caches s →
  remove_caches test_paths w = (Ok tt, set_fs (with_dir s) w).
Proof.
  intros Hg Hw. cbn [remove_caches test_paths]. unfold remove_all, mbind, M_bind. rewrite Hw.
  rewrite fs_remove_all_no_dots by (done || (apply (bool_decide_unpack _); by vm_compute)). cbn [w_fs set_fs].
  rewrite fs_remove_all_no_dots by (done || (apply (bool_decide_unpack _); by vm_compute)).
  enough (Heq : remove_tree cache3 (remove_tree cache1 (with_caches s)) = with_dir s)
    by (unfold mret, M_ret; rewrite <-Heq; done).
  apply map_eq. intros k. rewrite !lookup_remove_tree.
  pose proof (tg_caches _ (with_dir_ground _ Hg)) as Hc.
  case_decide as Hk3; [destruct Hk3 as [t ->]; rewrite <-app_assoc; by rewrite Hc|].
  case_decide as Hk1; [destruct Hk1 as [t ->]; rewrite <-app_assoc; by rewrite Hc|].
  unfold with_caches. rewrite !lookup_insert_ne; [done|intros <-; by apply Hk1|intros <-; by apply Hk3].
Qed.

(** *** The reader *)

(** An element of the sample file. *)
Definition sample_element (v : V) (path : string) : Prop :=
  json_path_string v ["krb_file_path"] = Ok path ∧
  (∃ a d u, json_path_string v ["service_account_name"] = Ok a ∧
     json_path_string v ["domain_name"] = Ok d ∧ json_path_string v ["domainless_user"] = Ok u) ∧
  json_is_member v "distinguished_name" = Ok false ∧ json_is_member v "credspec_info" = Ok false.

(** A file with the elements [vs]. *)
Definition holds_tickets (path : string) (vs : list V) (s : fs) : Prop :=
  ∃ text root l, fs_read path s = Some text ∧ json_parse text = (true, root) ∧
    json_get root "krb_ticket_info" = Ok l ∧ json_elements l = vs.

(** [metadata_sample.json] and [metadata_invalid_sample.json] *)
Record samples (s : fs) : Prop := {
  sample_valid : ∃ vs, holds_tickets "metadata_sample.json" vs s ∧ Forall2 sample_element vs test_paths;
  sample_invalid : ∃ v, holds_tickets "metadata_invalid_sample.json" [v] s ∧
    json_path_string v ["krb_file_path"] = Ok (hd "" test_paths +:+ " && test")
}.

Lemma read_holds path vs (w : world X) :
  path ≠ "" → holds_tickets path vs (w_fs w) →
  read_meta_data_json (V := V) path w = lift (read_tickets (w_fs w) [] vs) w.
Proof.
  intros Hne (text & root & l & Hr & Hp & Hg & <-). unfold read_meta_data_json, read_file, gets, mbind, M_bind.
  apply str_empty_false in Hne as ->. cbn. by rewrite Hr, Hp, Hg.
Qed.

(** The tests make nothing in the current directory. *)
Lemma fs_read_here name s s' :
  plain_name name → s' !! [name] = s !! [name] → fs_read name s' = fs_read name s.
Proof.
  intros Hn Hs. assert (Hp : plain_path name).
  { unfold plain_path. rewrite split_plain by apply Hn. constructor; [split; apply Hn|constructor]. }
  assert (Hr : resolve name = [name]).
  { unfold resolve. rewrite split_plain by apply Hn. cbn. destruct Hn as (Hne & Hd & Hdd & _).
    rewrite decide_False by (by intros [|]). by rewrite decide_False. }
  unfold fs_read, fs_lookup. by rewrite !plain_path_reaches, Hr, Hs.
Qed.

Lemma holds_with_caches name vs s :
  plain_name name → holds_tickets name vs s → holds_tickets name vs (with_caches s).
Proof.
  intros Hn (text & root & l & Hr & Hrest). exists text, root, l. split; [|done].
  rewrite (fs_read_here name s (with_caches s) Hn); [done|].
  unfold with_caches, with_dir. by rewrite !lookup_insert_ne.
Qed.

Lemma sample_run (w : world X) s :
  test_ground s → samples s → w_fs w = with_caches s →
  ∃ t1 t2, read_meta_data_json (V := V) "metadata_sample.json" w = (Ok [t1; t2], w).
Proof.
  intros Hg [(vs & Hh & Hf) _] Hw.
  rewrite (read_holds _ vs); [|done|rewrite Hw; apply holds_with_caches; [by apply (bool_decide_unpack _); vm_compute|done]].
  inversion Hf as [|v1 p1 vs' ps He1 Hf' Heq]; subst. inversion Hf' as [|v3 p3 vs'' ps' He3 Hn]; subst.
  inversion Hn; subst.
  assert (Hex : ∀ p, p ∈ test_paths → fs_exists p (with_caches s) = true).
  { intros p [->|[->|[]%elem_of_nil]%elem_of_cons]%elem_of_cons;
      (rewrite fs_exists_plain; [|by apply (bool_decide_unpack _); vm_compute|done]);
      apply bool_decide_true.
    - change (resolve _) with cache1. unfold with_caches. rewrite lookup_insert_ne by done.
      rewrite lookup_insert_eq. eauto.
    - change (resolve _) with cache3. unfold with_caches. rewrite lookup_insert_eq. eauto. }
  rewrite Hw. unfold lift. cbn [read_tickets]. unfold read_ticket.
  destruct He1 as (Hp1 & (a1 & d1 & u1 & Ha1 & Hd1 & Hu1) & Hm1 & Hc1).
  destruct He3 as (Hp3 & (a3 & d3 & u3 & Ha3 & Hd3 & Hu3) & Hm3 & Hc3).
  rewrite Hp1, Hp3. cbn [mbind outcome_bind].
  rewrite !Hex by (by left || by right; left).
  rewrite Ha1, Hd1, Hu1, Hm1, Hc1, Ha3, Hd3, Hu3, Hm3, Hc3. cbn. eauto.
Qed.

Context `{!JsonCppLaws V}.
#[local] Set Default Proof Using "Type*".

(** The lease of the write test, made and removed. *)
Lemma write_lease_run ts (w : world X) s :
  test_ground s → w_fs w = with_caches s →
  ∃ s', write_meta_data_json (V := V) ts test_lease_id test_krb_files_dir w = (Ok 0%Z, set_fs s' w) ∧
    fs_remove_all (test_krb_files_dir +:+ "/" +:+ test_lease_id) s' = (Ok tt, with_caches s).
Proof.
  intros Hg Hw. destruct (metadata_json_ok (V := V) ts) as (v & p & vs & Hv & _).
  pose proof caches_plain as (_ & Hpk & _). assert (Hid : plain_name test_lease_id) by (by apply (bool_decide_unpack _); vm_compute).
  assert (Hd : dirs_exist krb_dir (with_caches s)).
  { intros k Hk Hne. unfold with_caches.
    assert (Hlen : length k ≤ 4) by (by apply prefix_length in Hk).
    rewrite !lookup_insert_ne by (intros <-; cbn in Hlen; lia). by apply (tg_dirs _ (with_dir_ground _ Hg)). }
  assert (Hfree : ∀ k, with_caches s !! (lease_dir ++ k) = None).
  { intros k. unfold with_caches, with_dir. rewrite !lookup_insert_ne by done. by apply (tg_lease _ Hg). }
  set (s1 := <[lease_dir := Dir new_dir_info]> (with_caches s)).
  assert (Hs1 : fs_create_directories (test_krb_files_dir +:+ "/" +:+ test_lease_id) (with_caches s) = Ok s1).
  { rewrite create_one_more; [|done..]. change (resolve test_krb_files_dir ++ _) with (lease_dir ++ []).
    by rewrite Hfree. }
  exists (<[lease_meta := File new_file_info (json_write v)]> s1). split.
  - apply (write_meta_data_json_run ts _ _ w s1 _ v); [by rewrite Hw|done|].
    change (meta_file_path _ _) with
      ((test_krb_files_dir +:+ "/" +:+ test_lease_id) +:+ "/" +:+ (test_lease_id +:+ "_metadata.json")).
    rewrite (fs_write_new _ _ _ _ new_dir_info); [done|by apply plain_path_app| | |].
    + by apply (bool_decide_unpack _); vm_compute.
    + change (resolve _) with lease_dir. apply lookup_insert_eq.
    + change (resolve (test_krb_files_dir +:+ "/" +:+ test_lease_id)) with lease_dir.
      unfold s1. rewrite lookup_insert_ne by done. apply Hfree.
  - rewrite fs_remove_all_no_dots; [|by apply plain_path_app|done].
    change (resolve _) with lease_dir. f_equal. apply map_eq. intros k. rewrite lookup_remove_tree.
    case_decide as Hk; [destruct Hk as [t ->]; by rewrite Hfree|].
    unfold s1. rewrite !lookup_insert_ne; [done|by intros <-; apply Hk|].
    intros <-. apply Hk. by apply prefix_app_r.
Qed.

(** ** Properties *)

(** C24: the self tests pass on the samples that are shipped, whatever the flag
    the renewal test leaves unset, and fail when the sample is missing; either
    way the caches they make are removed, the lease they write is removed, and
    what stays behind is one empty directory among the leases. *)
Theorem self_test_spec flag w :
  test_ground (w_fs w) →
  (samples (w_fs w) → self_test flag w = (Ok 0%Z, set_fs (with_dir (w_fs w)) w)) ∧
  (fs_read "metadata_sample.json" (w_fs w) = None →
   self_test flag w = (Ok 1%Z, set_fs (with_dir (w_fs w)) w)).
Proof.
  intros Hg. pose proof (with_dir_ground _ Hg) as Hg'. set (s := w_fs w) in *.
  set (w1 := set_fs (with_caches s) w). set (w2 := set_fs (with_dir s) w).
  assert (Htwice : with_caches (with_dir s) = with_caches s)
    by (unfold with_caches, with_dir; by rewrite insert_insert_eq).
  assert (Hmk : make_caches test_paths w = (Ok tt, w1)) by (by apply make_caches_run).
  assert (Hmk2 : make_caches test_paths w2 = (Ok tt, w1)).
  { rewrite make_caches_run by done. unfold w2. cbn [w_fs set_fs]. by rewrite Htwice. }
  assert (Hrm : remove_caches test_paths w1 = (Ok tt, w2)) by (by apply (remove_caches_run w1 s)).
  split.
  - intros Hs. destruct (sample_run w1 s Hg Hs eq_refl) as (t1 & t3 & Hread).
    destruct (write_lease_run [t1; t3] w1 s Hg eq_refl) as (s' & Hwrite & Hdel).
    assert (Hinvalid : read_meta_data_json (V := V) "metadata_invalid_sample.json" w2 = (Ok [], w2)).
    { destruct Hs as [_ (v & Hh & Hp)]. rewrite (read_holds _ [v]); [|done|].
      - unfold lift. cbn [read_tickets]. unfold read_ticket. rewrite Hp. cbn [mbind outcome_bind].
        by assert (contains_invalid_characters (hd "" test_paths +:+ " && test") = true) as -> by by vm_compute.
      - destruct Hh as (text & root & l & Hr & Hrest). exists text, root, l. split; [|done].
        rewrite (fs_read_here _ s); [done|by apply (bool_decide_unpack _); vm_compute|].
        unfold w2, with_dir. cbn [w_fs set_fs]. by rewrite lookup_insert_ne. }
    assert (T1 : read_meta_data_json_test w = (Ok 0%Z, w2))
      by (unfold read_meta_data_json_test, mbind, M_bind; by rewrite Hmk, Hread, Hrm).
    assert (T2 : read_meta_data_invalid_json_test w2 = (Ok 0%Z, w2))
      by (unfold read_meta_data_invalid_json_test, mbind, M_bind; by rewrite Hinvalid).
    assert (T3 : renewal_failure_krb_dir_not_found_test flag w2 = (Ok 0%Z, w2)) by done.
    assert (T4 : write_meta_data_json_test w2 = (Ok 0%Z, w2)).
    { unfold write_meta_data_json_test, remove_all, mbind, M_bind. rewrite Hmk2, Hread, Hwrite.
      cbn [negb Z.eqb w_fs set_fs]. rewrite Hdel. change (set_fs _ (set_fs s' w1)) with w1. by rewrite Hrm. }
    unfold self_test, or_else, mbind, M_bind. rewrite T1. cbn [negb Z.eqb]. rewrite T2. cbn [negb Z.eqb].
    rewrite T3. cbn [negb Z.eqb]. exact T4.
  - intros Hnone. unfold self_test, or_else, read_meta_data_json_test, mbind, M_bind. rewrite Hmk.
    assert (Hread : read_meta_data_json (V := V) "metadata_sample.json" w1 = (Ok [], w1)).
    { unfold read_meta_data_json, read_file, gets, mbind, M_bind. cbn [str_empty].
      rewrite (fs_read_here _ s); [by rewrite Hnone|by apply (bool_decide_unpack _); vm_compute|].
      unfold w1, with_caches, with_dir. cbn [w_fs set_fs]. by rewrite !lookup_insert_ne. }
    rewrite Hread, Hrm. done.
Qed.

End self_test.

(** ** At a concrete input *)
#[local] Existing Instance Script.script_platform.
#[local] Existing Instance script_krb5.
#[local] Existing Instance Tree.tree_json.
#[local] Existing Instance Tree.tree_json_laws.

(** The two samples, and the directory of the leases. *)
Definition sample_tree (path account user : string) : Tree.tree :=
  Tree.TObj [("krb_file_path", Tree.TStr path); ("service_account_name", Tree.TStr account);
             ("domain_name", Tree.TStr "contoso.com"); ("domainless_user", Tree.TStr user)].
Definition sample_root (l : list Tree.tree) : Tree.tree := Tree.TObj [("krb_ticket_info", Tree.TArr l)].
Definition sample_file (l : list Tree.tree) : node := File new_file_info (json_write (sample_root l)).
Definition sample_trees : list Tree.tree :=
  zip_with (λ p au, sample_tree p au.1 au.2) test_paths [("WebApp01", "user1"); ("WebApp03", "user2")].
Definition sample_fs : fs :=
  list_to_map [(["metadata_sample.json"], sample_file sample_trees);
    (["metadata_invalid_sample.json"],
     sample_file [sample_tree (hd "" test_paths +:+ " && test") "WebApp01" ""]);
    (["usr"], Dir new_dir_info); (["usr"; "share"], Dir new_dir_info);
    (["usr"; "share"; "credentials-fetcher"], Dir new_dir_info);
    (["usr"; "share"; "credentials-fetcher"; "krbdir"], Dir new_dir_info)].
Definition sample_world : world Script.script := World sample_fs ∅ Script.demo_log Script.idle.

Lemma sample_ground : test_ground sample_fs.
Proof.
  assert (Hnone : ∀ a k, sample_fs !! (["usr"; "share"; "credentials-fetcher"; "krbdir"; a] ++ k) = None).
  { intros a k. unfold sample_fs, list_to_map. cbn [foldr uncurry app].
    rewrite !lookup_insert_ne; [apply lookup_empty|discriminate..]. }
  split.
  - intros k [k' Hk] Hne. destruct k as [|a k]; [done|]. injection Hk as <- Hk.
    do 3 (destruct k as [|? k]; [eexists; by vm_compute|injection Hk as <- Hk]).
    destruct k; [eexists; by vm_compute|done].
  - left. apply (Hnone "73099acdb5807b4bbf91" []).
  - intros k _. apply Hnone.
  - intros k. apply Hnone.
Qed.

Lemma sample_holds name l :
  fs_read name sample_fs = Some (json_write (sample_root l)) →
  json_parse (json_write (sample_root l)) = (true, sample_root l) →
  holds_tickets (V := Tree.tree) name l sample_fs.
Proof. intros Hr Hp. exists (json_write (sample_root l)), (sample_root l), (Tree.TArr l). by split_and!. Qed.

Lemma sample_samples : samples (V := Tree.tree) sample_fs.
Proof.
  split.
  - exists sample_trees. split; [apply sample_holds; vm_compute; reflexivity|].
    constructor; [|constructor; [|constructor]].
    all: split_and!; [vm_compute; reflexivity| |vm_compute; reflexivity..].
    + exists "WebApp01", "contoso.com", "user1". split_and!; vm_compute; reflexivity.
    + exists "WebApp03", "contoso.com", "user2". split_and!; vm_compute; reflexivity.
  - exists (sample_tree (hd "" test_paths +:+ " && test") "WebApp01" "").
    split; [apply sample_holds; vm_compute; reflexivity|vm_compute; reflexivity].
Qed.

Lemma self_test_spec_witness :
  test_ground sample_fs ∧
  self_test (X := Script.script) (V := Tree.tree) true sample_world =
    (Ok 0%Z, set_fs (with_dir sample_fs) sample_world).
Proof.
  split; [exact sample_ground|].
  exact (proj1 (self_test_spec (X := Script.script) (V := Tree.tree) true sample_world sample_ground)
    sample_samples).
Defined.
