(* ===== verification/Rpc.v ===== *)
(** * The gRPC server ([api/src/gmsa_service.cpp])

    The [CallData...] objects of [CredentialsFetcherImpl], [HandleRpcs],
    [RunServer] and the client half of [HealthCheck]. The gRPC runtime is the
    choice of the next event: a request for an object that waits for one, or the
    end of a reply; its set-up is the class [Grpc]. An object freed and then read
    is undefined behaviour. *)
From S2P Require Import Prelude StrUtil Logger World Json Regex Validation CredSpec Metadata Kinit Util Klist Krb Confine Lease Aws ArnLease.
From stdpp Require Import options.

(** ** Requests and replies ([protos/credentialsfetcher.proto]) *)
Inductive rpc_request :=
| AddKerberosLeaseRequest (credspec_contents : list string)
| AddNonDomainJoinedRequest (username password domain : string) (credspec_contents : list string)
| RenewNonDomainJoinedRequest (username password domain : string)
| DeleteKerberosLeaseRequest (lease_id : string)
| HealthCheckRequest
| AddKerberosArnLeaseRequest (rq : arn_request)
| RenewKerberosArnLeaseRequest (rq : arn_request).

Inductive rpc_reply :=
| LeaseResponse (r : lease_reply)
| HealthCheckResponse (status : string)
| ArnLeaseResponse (r : arn_reply)
| RenewArnResponse (status : string) (rpc_status : option string).

(** gRPC, the part that sets up a server and calls one. *)
Class Grpc (X : Type) := {
  (** [AddListeningPort( address )], [RegisterService], [BuildAndStart()]: whether
      there is a server *)
  build_and_start : string → X → bool * X;
  (** a channel to the address, and [stub->HealthCheck] of the service on it:
      [status.ok()], or an exception *)
  stub_HealthCheck : string → string → X → outcome bool * X
}.

(** The classes, by their cookies. *)
Inductive call_kind :=
| CallDataCreateKerberosLease
| CallDataAddNonDomainJoinedKerberosLease
| CallDataRenewNonDomainJoinedKerberosLease
| CallDataDeleteKerberosLease
| CallDataHealthCheck
| CallDataCreateKerberosArnLease
| CallDataRenewKerberosArnLease.

#[export] Instance call_kind_eq_dec : EqDecision call_kind.
Proof. solve_decision. Defined.

Inductive call_status := CREATE | PROCESS | FINISH.

#[export] Instance call_status_eq_dec : EqDecision call_status.
Proof. solve_decision. Defined.

(** The order of [HandleRpcs]; the last two under [AMAZON_LINUX_DISTRO]. *)
Definition kinds (amazon : bool) : list call_kind :=
  [CallDataCreateKerberosLease; CallDataAddNonDomainJoinedKerberosLease;
   CallDataRenewNonDomainJoinedKerberosLease; CallDataDeleteKerberosLease; CallDataHealthCheck] ++
  (if amazon then [CallDataCreateKerberosArnLease; CallDataRenewKerberosArnLease] else []).

Definition request_kind (r : rpc_request) : call_kind :=
  match r with
  | AddKerberosLeaseRequest _ => CallDataCreateKerberosLease
  | AddNonDomainJoinedRequest _ _ _ _ => CallDataAddNonDomainJoinedKerberosLease
  | RenewNonDomainJoinedRequest _ _ _ => CallDataRenewNonDomainJoinedKerberosLease
  | DeleteKerberosLeaseRequest _ => CallDataDeleteKerberosLease
  | HealthCheckRequest => CallDataHealthCheck
  | AddKerberosArnLeaseRequest _ => CallDataCreateKerberosArnLease
  | RenewKerberosArnLeaseRequest _ => CallDataRenewKerberosArnLease
  end.

(** The message of a new object. *)
Definition empty_request (k : call_kind) : rpc_request :=
  let rq := ArnRequest [] "" "" "" "" in
  match k with
  | CallDataCreateKerberosLease => AddKerberosLeaseRequest []
  | CallDataAddNonDomainJoinedKerberosLease => AddNonDomainJoinedRequest "" "" "" []
  | CallDataRenewNonDomainJoinedKerberosLease => RenewNonDomainJoinedRequest "" "" ""
  | CallDataDeleteKerberosLease => DeleteKerberosLeaseRequest ""
  | CallDataHealthCheck => HealthCheckRequest
  | CallDataCreateKerberosArnLease => AddKerberosArnLeaseRequest rq
  | CallDataRenewKerberosArnLease => RenewKerberosArnLeaseRequest rq
  end.

Record call_data := CallData {
  cookie : call_kind;
  status_ : call_status;
  request_ : rpc_request
}.

(** The server: the objects by address, the next fresh address, the addresses
    the runtime knows as waiting for a request and as being replied to, and the
    replies given, each with the request it answers. *)
Record server (X : Type) := Server {
  sv_world : world X;
  sv_objs : gmap nat call_data;
  sv_next : nat;
  sv_waiting : gset nat;
  sv_finishing : gset nat;
  sv_replies : list (nat * (rpc_request * rpc_reply))
}.
Arguments Server {X}.
Arguments sv_world {X}.
Arguments sv_objs {X}.
Arguments sv_next {X}.
Arguments sv_waiting {X}.
Arguments sv_finishing {X}.
Arguments sv_replies {X}.

(** What is around the server: what the renewal thread and the machine may make of
    the world between two events, and the requests clients may send in it. *)
Record surroundings (X : Type) := Surroundings {
  outside : world X → world X → Prop;
  asks : world X → rpc_request → Prop
}.
Arguments Surroundings {X}.
Arguments outside {X}.
Arguments asks {X}.

Definition any_surroundings {X : Type} : surroundings X := Surroundings (λ _ _, True) (λ _ _, True).

Section rpc.
Context {X : Type} `{Platform X} {V : Type} `{JsonCpp V} `{Krb5 X} `{Aws X}.
Context (amazon : bool) (krb_files_dir aws_sm_secret_name : string).
Abbreviation SM := (M (server X)).

(** The processing of a request. *)
Definition handle (r : rpc_request) : M (world X) rpc_reply :=
  match r with
  | AddKerberosLeaseRequest contents =>
    LeaseResponse <$> CreateKerberosLease (V := V) krb_files_dir aws_sm_secret_name contents
  | AddNonDomainJoinedRequest u p d contents =>
    LeaseResponse <$> AddNonDomainJoinedKerberosLease (V := V) krb_files_dir u p d contents
  | RenewNonDomainJoinedRequest u p d =>
    LeaseResponse <$> RenewNonDomainJoinedKerberosLease (V := V) krb_files_dir u p d
  | DeleteKerberosLeaseRequest lease_id =>
    LeaseResponse <$> DeleteKerberosLease (V := V) krb_files_dir lease_id
  | HealthCheckRequest => mret (HealthCheckResponse "OK")
  | AddKerberosArnLeaseRequest rq => ArnLeaseResponse <$> AddKerberosArnLease (V := V) krb_files_dir rq
  | RenewKerberosArnLeaseRequest rq =>
    (λ r, RenewArnResponse r.1 r.2) <$> RenewKerberosArnLease (V := V) krb_files_dir rq
  end.

Definition on_world {A : Type} (m : M (world X) A) : SM A := λ s,
  let '(r, w) := m (sv_world s) in
  (r, Server w (sv_objs s) (sv_next s) (sv_waiting s) (sv_finishing s) (sv_replies s)).

Definition set_obj (tag : nat) (o : call_data) (s : server X) : server X :=
  Server (sv_world s) (<[tag := o]> (sv_objs s)) (sv_next s) (sv_waiting s) (sv_finishing s)
    (sv_replies s).

(** A new object, before its constructor calls [Proceed()]. *)
Definition construct (k : call_kind) : SM nat := λ s,
  (Ok (sv_next s),
   Server (sv_world s) (<[sv_next s := CallData k CREATE (empty_request k)]> (sv_objs s))
     (S (sv_next s)) (sv_waiting s) (sv_finishing s) (sv_replies s)).

(** The [CREATE] branch: [service_->Request...( ..., this )] *)
Definition request_call (k : call_kind) (tag : nat) : SM unit := modify (λ s,
  Server (sv_world s) (alter (λ o, CallData k PROCESS (request_ o)) tag (sv_objs s)) (sv_next s)
    ({[tag]} ∪ sv_waiting s) (sv_finishing s) (sv_replies s)).

(** [new CallData...( service, cq )]: the constructor calls [Proceed()] in
    [CREATE] ([new_call_proceeds]). *)
Definition new_call (k : call_kind) : SM unit := tag ← construct k; request_call k tag.

(** [responder_.Finish( reply, status, this )] *)
Definition finish (tag : nat) (rq : rpc_request) (reply : rpc_reply) : SM unit := modify (λ s,
  Server (sv_world s) (sv_objs s) (sv_next s) (sv_waiting s) ({[tag]} ∪ sv_finishing s)
    (sv_replies s ++ [(tag, (rq, reply))])).

(** [delete this] *)
Definition delete_call (tag : nat) : SM unit := modify (λ s,
  Server (sv_world s) (delete tag (sv_objs s)) (sv_next s) (sv_waiting s) (sv_finishing s)
    (sv_replies s)).

(** What every [Proceed] has around the processing: the class [k] acts on its own
    cookie only. *)
Definition proceed_with (k : call_kind) (process : rpc_request → M (world X) rpc_reply)
    (tag : nat) : SM unit :=
  o ← gets (λ s, sv_objs s !! tag);
  match o with
  | None => undefined "cookie of a freed object"
  | Some o =>
    if decide (cookie o ≠ k) then mret tt
    else
      match status_ o with
      | CREATE => request_call k tag
      | PROCESS =>
        new_call k;;
        reply ← on_world (process (request_ o));
        modify (set_obj tag (CallData k FINISH (request_ o)));;
        finish tag (request_ o) reply
      | FINISH => delete_call tag
      end
  end.

(** [Proceed( krb_files_dir, cf_logger, aws_sm_secret_name )] of each class *)
Definition CallDataCreateKerberosLease_serve : nat → SM unit :=
  proceed_with CallDataCreateKerberosLease handle.
Definition CallDataAddNonDomainJoinedKerberosLease_serve : nat → SM unit :=
  proceed_with CallDataAddNonDomainJoinedKerberosLease handle.
Definition CallDataRenewNonDomainJoinedKerberosLease_serve : nat → SM unit :=
  proceed_with CallDataRenewNonDomainJoinedKerberosLease handle.
Definition CallDataDeleteKerberosLease_serve : nat → SM unit :=
  proceed_with CallDataDeleteKerberosLease handle.
Definition CallDataHealthCheck_serve : nat → SM unit :=
  proceed_with CallDataHealthCheck handle.
Definition CallDataCreateKerberosArnLease_serve : nat → SM unit :=
  proceed_with CallDataCreateKerberosArnLease handle.
Definition CallDataRenewKerberosArnLease_serve : nat → SM unit :=
  proceed_with CallDataRenewKerberosArnLease handle.

(** [static_cast<CallData...*>( got_tag )->Proceed( krb_files_dir, ... )] *)
Definition Proceed (k : call_kind) : nat → SM unit :=
  match k with
  | CallDataCreateKerberosLease => CallDataCreateKerberosLease_serve
  | CallDataAddNonDomainJoinedKerberosLease => CallDataAddNonDomainJoinedKerberosLease_serve
  | CallDataRenewNonDomainJoinedKerberosLease => CallDataRenewNonDomainJoinedKerberosLease_serve
  | CallDataDeleteKerberosLease => CallDataDeleteKerberosLease_serve
  | CallDataHealthCheck => CallDataHealthCheck_serve
  | CallDataCreateKerberosArnLease => CallDataCreateKerberosArnLease_serve
  | CallDataRenewKerberosArnLease => CallDataRenewKerberosArnLease_serve
  end.

(** The overloads without arguments, which answer with a placeholder; only the
    constructors call them. *)
Definition CallDataHealthCheck_Proceed : nat → SM unit :=
  proceed_with CallDataHealthCheck (λ _, mret (HealthCheckResponse "OK")).
Definition CallDataCreateKerberosArnLease_Proceed : nat → SM unit :=
  proceed_with CallDataCreateKerberosArnLease (λ _, mret (ArnLeaseResponse (ArnReply "12345" [] None))).
Definition CallDataRenewKerberosArnLease_Proceed : nat → SM unit :=
  proceed_with CallDataRenewKerberosArnLease (λ _, mret (RenewArnResponse "Successful" None)).
Definition CallDataCreateKerberosLease_Proceed : nat → SM unit :=
  proceed_with CallDataCreateKerberosLease (λ _, mret (LeaseResponse (LeaseReply "12345" [] None))).
Definition CallDataAddNonDomainJoinedKerberosLease_Proceed : nat → SM unit :=
  proceed_with CallDataAddNonDomainJoinedKerberosLease
    (λ _, mret (LeaseResponse (LeaseReply "12345" [] None))).
Definition CallDataRenewNonDomainJoinedKerberosLease_Proceed : nat → SM unit :=
  proceed_with CallDataRenewNonDomainJoinedKerberosLease
    (λ _, mret (LeaseResponse (LeaseReply "" ["/var/credentials-fetcher/krb5cc"] None))).
Definition CallDataDeleteKerberosLease_Proceed : nat → SM unit :=
  proceed_with CallDataDeleteKerberosLease (λ _, mret (LeaseResponse (LeaseReply "12345" [] None))).

(** The constructors: the cookie, [CREATE], and a call of [Proceed()]. *)
Definition CallDataHealthCheck_new : SM unit :=
  tag ← construct CallDataHealthCheck; CallDataHealthCheck_Proceed tag.
Definition CallDataCreateKerberosArnLease_new : SM unit :=
  tag ← construct CallDataCreateKerberosArnLease; CallDataCreateKerberosArnLease_Proceed tag.
Definition CallDataRenewKerberosArnLease_new : SM unit :=
  tag ← construct CallDataRenewKerberosArnLease; CallDataRenewKerberosArnLease_Proceed tag.
Definition CallDataCreateKerberosLease_new : SM unit :=
  tag ← construct CallDataCreateKerberosLease; CallDataCreateKerberosLease_Proceed tag.
Definition CallDataAddNonDomainJoinedKerberosLease_new : SM unit :=
  tag ← construct CallDataAddNonDomainJoinedKerberosLease; CallDataAddNonDomainJoinedKerberosLease_Proceed tag.
Definition CallDataRenewNonDomainJoinedKerberosLease_new : SM unit :=
  tag ← construct CallDataRenewNonDomainJoinedKerberosLease; CallDataRenewNonDomainJoinedKerberosLease_Proceed tag.
Definition CallDataDeleteKerberosLease_new : SM unit :=
  tag ← construct CallDataDeleteKerberosLease; CallDataDeleteKerberosLease_Proceed tag.

Definition constructor (k : call_kind) : SM unit :=
  match k with
  | CallDataHealthCheck => CallDataHealthCheck_new
  | CallDataCreateKerberosArnLease => CallDataCreateKerberosArnLease_new
  | CallDataRenewKerberosArnLease => CallDataRenewKerberosArnLease_new
  | CallDataCreateKerberosLease => CallDataCreateKerberosLease_new
  | CallDataAddNonDomainJoinedKerberosLease => CallDataAddNonDomainJoinedKerberosLease_new
  | CallDataRenewNonDomainJoinedKerberosLease => CallDataRenewNonDomainJoinedKerberosLease_new
  | CallDataDeleteKerberosLease => CallDataDeleteKerberosLease_new
  end.

Fixpoint proceed_all (ks : list call_kind) (tag : nat) : SM unit :=
  match ks with
  | [] => mret tt
  | k :: ks' => Proceed k tag;; proceed_all ks' tag
  end.

(** The start of [HandleRpcs]. *)
Fixpoint new_calls (ks : list call_kind) : SM unit :=
  match ks with
  | [] => mret tt
  | k :: ks' => new_call k;; new_calls ks'
  end.

(** What [cq_->Next] delivers: a request, whose message the runtime has stored in
    the object, the end of a reply, or, with [ok] false, a reply that did not go out
    because the client is gone. *)
Inductive event :=
| Arrived (tag : nat) (r : rpc_request)
| Replied (tag : nat)
| Unsent (tag : nat).

Definition is_ok (e : event) : bool := match e with Unsent _ => false | _ => true end.

(** The runtime's side of an event. *)
Definition take_event (e : event) (s : server X) : option (nat * server X) :=
  match e with
  | Arrived tag r =>
    match sv_objs s !! tag with
    | Some o =>
      if decide (tag ∈ sv_waiting s ∧ request_kind r = cookie o) then
        Some (tag, Server (sv_world s) (<[tag := CallData (cookie o) (status_ o) r]> (sv_objs s))
                     (sv_next s) (sv_waiting s ∖ {[tag]}) (sv_finishing s) (sv_replies s))
      else None
    | None => None
    end
  | Replied tag | Unsent tag =>
    if decide (tag ∈ sv_finishing s) then
      Some (tag, Server (sv_world s) (sv_objs s) (sv_next s) (sv_waiting s)
                   (sv_finishing s ∖ {[tag]}) (sv_replies s))
    else None
  end.

(** [GPR_ASSERT( ok )] and the calls that follow it. The assertion that fails calls
    [abort], which ends the daemon as an exception that is not caught does. *)
Definition loop_body (ok : bool) (tag : nat) : SM unit :=
  if ok then proceed_all (kinds amazon) tag else throw "GPR_ASSERT( ok )".

(** One turn of the loop of [HandleRpcs]. *)
Inductive turn : server X → event → outcome unit → server X → Prop :=
| turn_event e s tag s1 r s2 :
    take_event e s = Some (tag, s1) → loop_body (is_ok e) tag s1 = (r, s2) → turn s e r s2.

(** The requests there may be. *)
Definition occurs (env : surroundings X) (s : server X) (e : event) : Prop :=
  match e with Arrived _ r => asks env (sv_world s) r | Replied _ | Unsent _ => True end.

Definition with_world (w : world X) (s : server X) : server X :=
  Server w (sv_objs s) (sv_next s) (sv_waiting s) (sv_finishing s) (sv_replies s).

Inductive reachable (env : surroundings X) (w : world X) : server X → Prop :=
| reach_start s :
    new_calls (kinds amazon) (Server w ∅ 0 ∅ ∅ []) = (Ok tt, s) → reachable env w s
| reach_outside s w' :
    reachable env w s → outside env (sv_world s) w' → reachable env w (with_world w' s)
| reach_turn s e s' : reachable env w s → occurs env s e → turn s e (Ok tt) s' → reachable env w s'.

(** The loop of [HandleRpcs]. Each look at the shutdown signal is an element of
    the list: [None] when it is set, else what [cq_->Next] delivers. The result is
    whether the loop was left; when the list ends, [Next] blocks. *)
Inductive HandleRpcs (env : surroundings X) : server X → list (option event) → outcome bool → server X → Prop :=
| rpcs_blocked s : HandleRpcs env s [] (Ok false) s
| rpcs_stopped s rest : HandleRpcs env s (None :: rest) (Ok true) s
| rpcs_outside s w' looks r s2 :
    outside env (sv_world s) w' → HandleRpcs env (with_world w' s) looks r s2 → HandleRpcs env s looks r s2
| rpcs_turn s e s1 rest r s2 :
    occurs env s e → turn s e (Ok tt) s1 → HandleRpcs env s1 rest r s2 → HandleRpcs env s (Some e :: rest) r s2
| rpcs_throw s e what s1 rest :
    occurs env s e → turn s e (Throw what) s1 → HandleRpcs env s (Some e :: rest) (Throw what) s1
| rpcs_undefined s e what s1 rest :
    occurs env s e → turn s e (Undefined what) s1 → HandleRpcs env s (Some e :: rest) (Undefined what) s1.

Definition UNIX_SOCKET_NAME : string := "credentials_fetcher.sock".

Definition server_address (unix_socket_dir : string) : string :=
  "unix:" +:+ unix_socket_dir +:+ "/" +:+ UNIX_SOCKET_NAME.

(** [RunServer], and [RunGrpcServer], which only calls it: without a server the
    first call object asks a service that belongs to none. *)
Inductive RunServer `{Grpc X} (env : surroundings X) (unix_socket_dir : string) (w : world X) (looks : list (option event))
    : outcome bool → server X → Prop :=
| server_runs x s0 r s :
    build_and_start (server_address unix_socket_dir) (w_ext w) = (true, x) →
    new_calls (kinds amazon) (Server (set_ext x w) ∅ 0 ∅ ∅ []) = (Ok tt, s0) →
    HandleRpcs env s0 looks r s → RunServer env unix_socket_dir w looks r s
| server_missing x :
    build_and_start (server_address unix_socket_dir) (w_ext w) = (false, x) →
    RunServer env unix_socket_dir w looks (Undefined "a request to a service without a server")
      (Server (set_ext x w) ∅ 0 ∅ ∅ []).

(** [HealthCheck], the client half of [--healthcheck] *)
Definition HealthCheck `{Grpc X} (serviceName : string) : M (world X) Z :=
  let server_address := "unix:/var/credentials-fetcher/socket/credentials_fetcher.sock" in
  try_catch
    (ok ← (λ w : world X,
       let '(r, x) := stub_HealthCheck server_address serviceName (w_ext w) in (r, set_ext x w));
     mret (if ok : bool then 0%Z else 1%Z))
    (λ _, mret 1%Z).

(** ** Lemmas *)
Lemma kinds_nodup : NoDup (kinds amazon).
Proof. apply (bool_decide_unpack _). by destruct amazon. Qed.

Lemma new_call_eq k s :
  new_call k s =
  (Ok tt, Server (sv_world s) (<[sv_next s := CallData k PROCESS (empty_request k)]> (sv_objs s))
            (S (sv_next s)) ({[sv_next s]} ∪ sv_waiting s) (sv_finishing s) (sv_replies s)).
Proof.
  unfold new_call, mbind, M_bind, construct, request_call, modify. cbn. by rewrite alter_insert_eq.
Qed.

Lemma new_calls_world ks s s' :
  new_calls ks s = (Ok tt, s') → sv_world s' = sv_world s ∧ sv_replies s' = sv_replies s.
Proof.
  revert s. induction ks as [|k ks IH]; intros s; cbn [new_calls]; [by intros [= <-]|].
  unfold mbind, M_bind. rewrite new_call_eq. intros Hrun. by apply IH in Hrun.
Qed.

Lemma new_call_proceeds k s : constructor k s = new_call k s.
Proof.
  assert (Hgen : ∀ process, (tag ← construct k; proceed_with k process tag) s = new_call k s).
  { intros process. unfold new_call, proceed_with, mbind, M_bind, construct, gets. cbn [sv_objs].
    rewrite lookup_insert_eq. cbn [cookie status_]. by rewrite decide_False by (by intros []). }
  destruct k; apply Hgen.
Qed.

Lemma Proceed_with k : Proceed k = proceed_with k handle.
Proof. by destruct k. Qed.

Lemma proceed_other k tag s o :
  sv_objs s !! tag = Some o → cookie o ≠ k → Proceed k tag s = (Ok tt, s).
Proof. intros Ho Hk. rewrite Proceed_with; unfold proceed_with, mbind, M_bind, gets. by rewrite Ho, decide_True. Qed.

Lemma proceed_all_other ks tag s o :
  sv_objs s !! tag = Some o → cookie o ∉ ks → proceed_all ks tag s = (Ok tt, s).
Proof.
  intros Ho. induction ks as [|k ks IH]; [done|]. intros [Hk Hks]%not_elem_of_cons. cbn [proceed_all].
  unfold mbind, M_bind. rewrite (proceed_other k tag s o) by done. by apply IH.
Qed.

(** Only the class of the object acts, as long as the object is there. *)
Lemma proceed_all_own tag s o :
  sv_objs s !! tag = Some o → cookie o ∈ kinds amazon →
  ∃ ks1 ks2, kinds amazon = ks1 ++ (cookie o :: ks2) ∧ (cookie o ∉ ks2) ∧
    proceed_all (kinds amazon) tag s = (Proceed (cookie o) tag;; proceed_all ks2 tag) s.
Proof.
  intros Ho (ks1 & ks2 & Heq)%list_elem_of_split. exists ks1, ks2.
  pose proof kinds_nodup as Hnd. rewrite Heq in Hnd |- *.
  apply NoDup_app in Hnd as (_ & Hdis & [Hk2 _]%NoDup_cons). split_and!; [done..|].
  assert (Hk1 : cookie o ∉ ks1) by (intros Hin; apply (Hdis _ Hin); by left).
  clear Heq Hdis. induction ks1 as [|k ks1 IH]; [done|].
  apply not_elem_of_cons in Hk1 as [Hk Hk1]. cbn [app proceed_all].
  unfold mbind at 1, M_bind at 1. rewrite (proceed_other k tag s o) by done. by apply IH.
Qed.

(** *** The invariant *)
Record inv (s : server X) : Prop := {
  inv_fresh tag : sv_next s ≤ tag → sv_objs s !! tag = None;
  inv_waiting tag : tag ∈ sv_waiting s ↔ ∃ k r, sv_objs s !! tag = Some (CallData k PROCESS r);
  inv_finishing tag : tag ∈ sv_finishing s ↔ ∃ k r, sv_objs s !! tag = Some (CallData k FINISH r);
  inv_cookie tag o : sv_objs s !! tag = Some o → cookie o ∈ kinds amazon ∧ status_ o ≠ CREATE;
  inv_unique tag tag' k r r' : sv_objs s !! tag = Some (CallData k PROCESS r) →
    sv_objs s !! tag' = Some (CallData k PROCESS r') → tag = tag'
}.

(** The classes that have an object waiting. *)
Definition listens (s : server X) (k : call_kind) : Prop :=
  ∃ tag r, sv_objs s !! tag = Some (CallData k PROCESS r).

Lemma new_call_inv k s :
  inv s → k ∈ kinds amazon → ¬ listens s k →
  ∃ s', new_call k s = (Ok tt, s') ∧ inv s' ∧
    (∀ k', listens s' k' ↔ k' = k ∨ listens s k') ∧
    sv_world s' = sv_world s ∧ sv_replies s' = sv_replies s ∧ sv_finishing s' = sv_finishing s ∧
    (∀ tag o, sv_objs s !! tag = Some o → sv_objs s' !! tag = Some o).
Proof.
  intros Hi Hk Hno. eexists. split; [by rewrite new_call_eq|]. cbn.
  pose proof (inv_fresh s Hi) as Hfresh. pose proof (Hfresh (sv_next s) (le_n _)) as Hn.
  assert (Hold : ∀ tag o, sv_objs s !! tag = Some o →
    <[sv_next s := CallData k PROCESS (empty_request k)]> (sv_objs s) !! tag = Some o).
  { intros tag o Ho. rewrite lookup_insert_ne; [done|]. intros <-. congruence. }
  assert (Hnew : ∀ tag o, <[sv_next s := CallData k PROCESS (empty_request k)]> (sv_objs s) !! tag = Some o →
    (tag = sv_next s ∧ o = CallData k PROCESS (empty_request k)) ∨ sv_objs s !! tag = Some o).
  { intros tag o. destruct (decide (tag = sv_next s)) as [->|Hne].
    - rewrite lookup_insert_eq. intros [= <-]. by left.
    - rewrite lookup_insert_ne by done. by right. }
  assert (Hget : ∀ r, sv_objs s !! sv_next s ≠ Some r) by (intros r; by rewrite Hn).
  split_and!; try done.
  - constructor; cbn.
    + intros tag Ht. rewrite lookup_insert_ne by lia. apply Hfresh. lia.
    + intros tag. rewrite elem_of_union, elem_of_singleton, (inv_waiting s Hi). split.
      * intros [->|(k' & r & Ho)]; [rewrite lookup_insert_eq; eauto|eauto].
      * intros (k' & r & [[-> _]|Ho]%Hnew); eauto.
    + intros tag. rewrite (inv_finishing s Hi). split; [naive_solver|].
      intros (k' & r & [[-> Hx]|Ho]%Hnew); [by simplify_eq|eauto].
    + intros tag o [[-> ->]|Ho]%Hnew; [done|]. by eapply inv_cookie.
    + intros tag tag' k' r r' [[-> Ha]|Ha]%Hnew [[-> Hb]|Hb]%Hnew; simplify_eq; [done|..].
      * exfalso. apply Hno. by eexists _, _.
      * exfalso. apply Hno. by eexists _, _.
      * by eapply inv_unique.
  - intros k'. unfold listens. cbn. split.
    + intros (tag & r & [[-> Hx]|Ho]%Hnew); simplify_eq; eauto.
    + intros [->|(tag & r & Ho)]; [|eauto]. eexists (sv_next s), _. by rewrite lookup_insert_eq.
Qed.

Lemma start_inv w s :
  new_calls (kinds amazon) (Server w ∅ 0 ∅ ∅ []) = (Ok tt, s) →
  inv s ∧ ∀ k, k ∈ kinds amazon → listens s k.
Proof.
  assert (Hgen : ∀ ks s0, inv s0 → NoDup ks → (∀ k, k ∈ ks → k ∈ kinds amazon ∧ ¬ listens s0 k) →
    new_calls ks s0 = (Ok tt, s) → inv s ∧ ∀ k, k ∈ ks ∨ listens s0 k → listens s k).
  { induction ks as [|k ks IH]; intros s0 Hi Hnd Hks; cbn [new_calls].
    { intros [= <-]. split; [done|]. by intros k [?%elem_of_nil|?]. }
    apply NoDup_cons in Hnd as [Hk Hnd]. destruct (Hks k) as [Hin Hno]; [by left|].
    destruct (new_call_inv k s0 Hi Hin Hno) as (s1 & Hrun & Hi1 & Hl & _).
    unfold mbind, M_bind. rewrite Hrun. intros Hrest. apply IH in Hrest as [Hi' Hl']; [|done..|].
    - split; [done|]. intros k' [[->|Hk']%elem_of_cons|Hk']; apply Hl'; [right|by left|right]; apply Hl; auto.
    - intros k' Hk'. split; [apply Hks; by right|]. rewrite Hl. intros [->|Hx]; [done|].
      by apply (Hks k'); [right|]. }
  intros Hrun. apply Hgen in Hrun as [Hi Hl].
  - split; [done|]. intros k Hk. apply Hl. by left.
  - constructor; cbn.
    + done.
    + intros tag. split; [by intros ?%not_elem_of_empty|by intros (k & r & Hx)].
    + intros tag. split; [by intros ?%not_elem_of_empty|by intros (k & r & Hx)].
    + done.
    + done.
  - apply kinds_nodup.
  - intros k Hk. split; [done|]. by intros (tag & r & Hx).
Qed.

(** *** An event *)
Lemma arrived_waiting s tag tag' r s1 :
  inv s → take_event (Arrived tag r) s = Some (tag', s1) →
  tag' = tag ∧ ∃ k r0, request_kind r = k ∧ tag ∈ sv_waiting s ∧
    sv_objs s !! tag = Some (CallData k PROCESS r0) ∧
    s1 = Server (sv_world s) (<[tag := CallData k PROCESS r]> (sv_objs s)) (sv_next s)
           (sv_waiting s ∖ {[tag]}) (sv_finishing s) (sv_replies s).
Proof.
  intros Hi. cbn [take_event]. destruct (sv_objs s !! tag) as [o|] eqn:Ho; [|done].
  case_decide as Hd; [|done]. destruct Hd as [Hw Hk]. intros [= <- <-]. split; [done|].
  pose proof Hw as (k & r0 & Hp)%(inv_waiting s Hi). rewrite Ho in Hp. injection Hp as ->.
  exists k, r0. by split_and!.
Qed.

(** The [PROCESS] branch, with the new object made before the processing. *)
Lemma proceed_process k tag s r :
  sv_objs s !! tag = Some (CallData k PROCESS r) →
  let after w objs finishing replies :=
    Server w objs (S (sv_next s)) ({[sv_next s]} ∪ sv_waiting s) finishing replies in
  let objs := <[sv_next s := CallData k PROCESS (empty_request k)]> (sv_objs s) in
  Proceed k tag s =
  match handle r (sv_world s) with
  | (Ok reply, w) =>
    (Ok tt, after w (<[tag := CallData k FINISH r]> objs) ({[tag]} ∪ sv_finishing s)
              (sv_replies s ++ [(tag, (r, reply))]))
  | (Throw e, w) => (Throw e, after w objs (sv_finishing s) (sv_replies s))
  | (Undefined e, w) => (Undefined e, after w objs (sv_finishing s) (sv_replies s))
  end.
Proof.
  intros Ho. cbv zeta. rewrite Proceed_with; unfold proceed_with, mbind, M_bind, gets. rewrite Ho. cbn [cookie status_ request_].
  rewrite decide_False by (by intros []). rewrite new_call_eq. unfold modify, on_world. cbn.
  by destruct (handle r (sv_world s)) as [[reply|e|e] w].
Qed.

(** The object after its request is served, and its successor. *)
Definition served (s : server X) (w : world X) (tag : nat) (k : call_kind) (r : rpc_request)
    (reply : rpc_reply) : server X :=
  Server w (<[tag := CallData k FINISH r]> (<[sv_next s := CallData k PROCESS (empty_request k)]>
             (<[tag := CallData k PROCESS r]> (sv_objs s))))
    (S (sv_next s)) ({[sv_next s]} ∪ sv_waiting s ∖ {[tag]}) ({[tag]} ∪ sv_finishing s)
    (sv_replies s ++ [(tag, (r, reply))]).

Lemma arrived_run s tag tag' r s1 :
  inv s → take_event (Arrived tag r) s = Some (tag', s1) →
  let '(res, w) := handle r (sv_world s) in
  match res with
  | Ok reply => proceed_all (kinds amazon) tag' s1 = (Ok tt, served s w tag (request_kind r) r reply)
  | Throw e => ∃ s', proceed_all (kinds amazon) tag' s1 = (Throw e, s') ∧
      sv_world s' = w ∧ sv_replies s' = sv_replies s
  | Undefined e => ∃ s', proceed_all (kinds amazon) tag' s1 = (Undefined e, s') ∧
      sv_world s' = w ∧ sv_replies s' = sv_replies s
  end.
Proof.
  intros Hi Hev. apply arrived_waiting in Hev as (-> & k & r0 & Hk & Hw & Ho & Hs1); [|done].
  assert (Ho1 : sv_objs s1 !! tag = Some (CallData k PROCESS r))
    by (subst s1; cbn; by rewrite lookup_insert_eq).
  destruct (inv_cookie s Hi tag _ Ho) as [Hin _].
  destruct (proceed_all_own tag s1 _ Ho1 Hin) as (ks1 & ks2 & _ & Hks2 & ->). cbn [cookie] in *.
  unfold mbind, M_bind. rewrite (proceed_process _ _ _ _ Ho1), Hk. subst s1. cbn [sv_world].
  destruct (handle r (sv_world s)) as [[reply|e|e] w]; [|by eexists..]. cbn.
  apply (proceed_all_other _ _ _ (CallData k FINISH r)); [|done].
  cbn. by rewrite lookup_insert_eq.
Qed.

Lemma served_inv s w tag r reply r0 :
  inv s → (∀ k, k ∈ kinds amazon → listens s k) →
  sv_objs s !! tag = Some (CallData (request_kind r) PROCESS r0) →
  let s' := served s w tag (request_kind r) r reply in
  inv s' ∧ ∀ k, k ∈ kinds amazon → listens s' k.
Proof.
  intros Hi Hl Ho. set (k := request_kind r) in *. cbv zeta.
  pose proof (inv_fresh s Hi) as Hfresh.
  assert (Hne : tag ≠ sv_next s) by (intros ->; by rewrite Hfresh in Ho).
  assert (Hlt : tag < sv_next s) by (destruct (Nat.lt_ge_cases tag (sv_next s)); [done|by rewrite Hfresh in Ho]).
  set (s' := served s w tag k r reply).
  assert (Htag : sv_objs s' !! tag = Some (CallData k FINISH r)) by (cbn; by rewrite lookup_insert_eq).
  assert (Hnext : sv_objs s' !! sv_next s = Some (CallData k PROCESS (empty_request k)))
    by (cbn; by rewrite lookup_insert_ne, lookup_insert_eq).
  assert (Hoth : ∀ t, t ≠ tag → t ≠ sv_next s → sv_objs s' !! t = sv_objs s !! t)
    by (intros t H3 H4; cbn; by rewrite !lookup_insert_ne).
  assert (Hcase : ∀ t o, sv_objs s' !! t = Some o →
    (t = tag ∧ o = CallData k FINISH r) ∨ (t = sv_next s ∧ o = CallData k PROCESS (empty_request k)) ∨
    (t ≠ tag ∧ t ≠ sv_next s ∧ sv_objs s !! t = Some o)).
  { intros t o Ht. destruct (decide (t = tag)) as [->|]; [left; rewrite Htag in Ht; by simplify_eq|].
    destruct (decide (t = sv_next s)) as [->|]; [right; left; rewrite Hnext in Ht; by simplify_eq|].
    right; right. by rewrite Hoth in Ht. }
  assert (Honly : ∀ t r', sv_objs s !! t = Some (CallData k PROCESS r') → t = tag)
    by (intros t r' Ht; by eapply (inv_unique s Hi)).
  split; [constructor|].
  - intros t Ht. cbn in Ht. rewrite Hoth by lia. apply Hfresh. lia.
  - intros t. cbn [s' served sv_waiting]. rewrite elem_of_union, elem_of_difference, !elem_of_singleton,
      (inv_waiting s Hi). split.
    + intros [->|[(k' & r' & Ht) Hnt]]; [eauto|]. exists k', r'. rewrite Hoth; [done..|].
      intros ->. by rewrite Hfresh in Ht.
    + intros (k' & r' & [[-> Hx]|[[-> _]|(Hn1 & Hn2 & Ht)]]%Hcase); [by simplify_eq|by left|right; eauto].
  - intros t. cbn [s' served sv_finishing]. rewrite elem_of_union, elem_of_singleton, (inv_finishing s Hi). split.
    + intros [->|(k' & r' & Ht)]; [eauto|]. exists k', r'. rewrite Hoth; [done|..]; intros ->; [congruence|].
      by rewrite Hfresh in Ht.
    + intros (k' & r' & [[-> _]|[[-> Hx]|(_ & _ & Ht)]]%Hcase); [by left|by simplify_eq|right; eauto].
  - destruct (inv_cookie s Hi _ _ Ho) as [Hin _].
    intros t o [[-> ->]|[[-> ->]|(_ & _ & Ht)]]%Hcase; [done..|]. by eapply inv_cookie.
  - intros t t' k' r1 r2 [[-> Ha]|[[-> Ha]|(Hn1 & Hn2 & Ha)]]%Hcase [[-> Hb]|[[-> Hb]|(Hn3 & Hn4 & Hb)]]%Hcase;
      simplify_eq; try done.
    + by apply Honly in Hb.
    + by apply Honly in Ha.
    + by eapply (inv_unique s Hi).
  - intros k' Hk'. destruct (decide (k' = k)) as [->|Hkk]; [by eexists _, _|].
    destruct (Hl k' Hk') as (t & r' & Ht). exists t, r'. rewrite Hoth; [done|..]; intros ->; [|by rewrite Hfresh in Ht].
    congruence.
Qed.

Lemma arrived_finishing s tag r s' :
  inv s → turn s (Arrived tag r) (Ok tt) s' →
  tag ∈ sv_finishing s' ∧ sv_objs s' !! tag = Some (CallData (request_kind r) FINISH r).
Proof.
  intros Hi Hturn. inversion Hturn as [e s0 tag' s1 r' s2 Hev Hrun]; subst. cbn [is_ok loop_body] in Hrun.
  pose proof (arrived_run _ _ _ _ _ Hi Hev) as Ha.
  destruct (handle r (sv_world s)) as [[reply|e|e] w]; rewrite Hrun in Ha;
    [|by destruct Ha as (? & [=] & _)..].
  injection Ha as ->. cbn. split; [set_solver|]. apply lookup_insert_eq.
Qed.

(** The object deleted, the runtime done with it. *)
Definition deleted (s : server X) (tag : nat) : server X :=
  Server (sv_world s) (delete tag (sv_objs s)) (sv_next s) (sv_waiting s)
    (sv_finishing s ∖ {[tag]}) (sv_replies s).

Lemma replied_run s tag tag' s1 :
  inv s → take_event (Replied tag) s = Some (tag', s1) →
  tag' = tag ∧ ∃ k r, sv_objs s !! tag = Some (CallData k FINISH r) ∧
    if decide (last (kinds amazon) = Some k)
    then proceed_all (kinds amazon) tag s1 = (Ok tt, deleted s tag)
    else ∃ e s2, proceed_all (kinds amazon) tag s1 = (Undefined e, s2) ∧
      sv_world s2 = sv_world s ∧ sv_replies s2 = sv_replies s.
Proof.
  intros Hi. cbn [take_event]. case_decide as Hf; [|done]. intros [= <- <-]. split; [done|].
  apply (inv_finishing s Hi) in Hf as (k & r & Ho). exists k, r. split; [done|].
  set (s1 := Server _ _ _ _ _ _).
  assert (Ho1 : sv_objs s1 !! tag = Some (CallData k FINISH r)) by exact Ho.
  destruct (inv_cookie s Hi tag _ Ho) as [Hin _].
  destruct (proceed_all_own tag s1 _ Ho1 Hin) as (ks1 & ks2 & Hks & Hks2 & ->). cbn [cookie] in *.
  assert (Hdel : Proceed k tag s1 = (Ok tt, deleted s tag)).
  { rewrite Proceed_with; unfold proceed_with, mbind, M_bind, gets. rewrite Ho1. cbn [cookie status_].
    by rewrite decide_False by (by intros []). }
  unfold mbind, M_bind. rewrite Hdel, Hks, last_app_cons. destruct ks2 as [|k2 ks2].
  - by rewrite decide_True.
  - rewrite decide_False.
    + cbn [proceed_all]. rewrite Proceed_with; unfold proceed_with, mbind, M_bind, gets, undefined. cbn.
      rewrite lookup_delete_eq. by eexists _, _.
    + change (last (k :: k2 :: ks2)) with (last (k2 :: ks2)). intros Hlast.
      by apply last_Some_elem_of in Hlast.
Qed.

Lemma deleted_inv s tag k r :
  inv s → (∀ k, k ∈ kinds amazon → listens s k) → sv_objs s !! tag = Some (CallData k FINISH r) →
  inv (deleted s tag) ∧ ∀ k, k ∈ kinds amazon → listens (deleted s tag) k.
Proof.
  intros Hi Hl Ho. unfold deleted. split; [constructor; cbn|].
  - intros t Ht. destruct (decide (t = tag)) as [->|Hne]; [apply lookup_delete_eq|].
    rewrite lookup_delete_ne by done. by apply (inv_fresh s Hi).
  - intros t. rewrite (inv_waiting s Hi). setoid_rewrite lookup_delete_Some. split.
    + intros (k' & r' & Ht). exists k', r'. split; [|done]. intros <-. congruence.
    + intros (k' & r' & _ & Ht). eauto.
  - intros t. rewrite elem_of_difference, elem_of_singleton, (inv_finishing s Hi).
    setoid_rewrite lookup_delete_Some. naive_solver.
  - intros t o [_ Ht]%lookup_delete_Some. by eapply inv_cookie.
  - intros t t' k' r1 r2 [_ Ha]%lookup_delete_Some [_ Hb]%lookup_delete_Some. by eapply (inv_unique s Hi).
  - intros k' Hk'. destruct (Hl k' Hk') as (t & r' & Ht). exists t, r'. cbn.
    rewrite lookup_delete_ne; [done|]. intros <-. congruence.
Qed.

Lemma reachable_inv env w s :
  reachable env w s → inv s ∧ ∀ k, k ∈ kinds amazon → listens s k.
Proof.
  induction 1 as [s Hstart|s w' _ [Hi Hl] _|s e s' _ [Hi Hl] _ Hturn]; [by apply start_inv in Hstart| |].
  { split; [by destruct Hi|exact Hl]. }
  inversion Hturn as [e' s0 tag s1 r s2 Hev Hrun]; subst. destruct e as [t r|t|t]; cbn [is_ok loop_body] in Hrun.
  - pose proof (arrived_run _ _ _ _ _ Hi Hev) as Ha.
    apply arrived_waiting in Hev as (-> & k & r0 & <- & _ & Ho & _); [|done].
    destruct (handle r (sv_world s)) as [[reply|e|e] w']; rewrite Hrun in Ha;
      [|by destruct Ha as (? & [=] & _)..].
    injection Ha as ->. by eapply served_inv.
  - destruct (replied_run _ _ _ _ Hi Hev) as (-> & k & r & Ho & Hr). case_decide.
    + rewrite Hrun in Hr. injection Hr as ->. by eapply deleted_inv.
    + destruct Hr as (e & s3 & Hr & _). by rewrite Hrun in Hr.
  - done.
Qed.

(** What a turn does to the world. *)
Lemma turn_arrived s tag r o s' :
  inv s → turn s (Arrived tag r) o s' →
  match o with
  | Ok _ => ∃ reply, handle r (sv_world s) = (Ok reply, sv_world s') ∧
      sv_replies s' = sv_replies s ++ [(tag, (r, reply))]
  | Throw e => handle r (sv_world s) = (Throw e, sv_world s') ∧ sv_replies s' = sv_replies s
  | Undefined e => handle r (sv_world s) = (Undefined e, sv_world s') ∧ sv_replies s' = sv_replies s
  end.
Proof.
  intros Hi Hturn. inversion Hturn as [e s0 tag' s1 r' s2 Hev Hrun]; subst. cbn [is_ok loop_body] in Hrun.
  pose proof (arrived_run _ _ _ _ _ Hi Hev) as Ha. rewrite Hrun in Ha.
  destruct (handle r (sv_world s)) as [[reply|e|e] w].
  - injection Ha as -> ->. by exists reply.
  - destruct Ha as (s3 & [= -> ->] & -> & ->). done.
  - destruct Ha as (s3 & [= -> ->] & -> & ->). done.
Qed.

Lemma turn_replied s tag o s' :
  inv s → turn s (Replied tag) o s' →
  (∀ e, o ≠ Throw e) ∧ sv_world s' = sv_world s ∧ sv_replies s' = sv_replies s.
Proof.
  intros Hi Hturn. inversion Hturn as [e s0 tag' s1 r' s2 Hev Hrun]; subst. cbn [is_ok loop_body] in Hrun.
  destruct (replied_run _ _ _ _ Hi Hev) as (-> & k & r & _ & Hr). rewrite Hrun in Hr. case_decide.
  - by injection Hr as -> ->.
  - by destruct Hr as (e & s3 & [= -> ->] & -> & ->).
Qed.

(** *** Answering *)
(** The requests handled one after the other, as if there were no server. *)
Fixpoint handle_all (rqs : list rpc_request) : M (world X) (list rpc_reply) :=
  match rqs with
  | [] => mret []
  | rq :: rest => reply ← handle rq; replies ← handle_all rest; mret (reply :: replies)
  end.

(** A request of a known class can arrive: an object waits for it. *)
Lemma can_arrive s rq :
  inv s → listens s (request_kind rq) → ∃ tag s1, take_event (Arrived tag rq) s = Some (tag, s1).
Proof.
  intros Hi (tag & r0 & Ho). exists tag. cbn [take_event]. rewrite Ho. cbn [cookie].
  rewrite decide_True; [by eexists|]. split; [apply (inv_waiting s Hi); eauto|done].
Qed.

Definition arrivals (rqs : list rpc_request) (looks : list (option event)) : Prop :=
  Forall2 (λ rq look, ∃ tag, look = Some (Arrived tag rq)) rqs looks.

Lemma turn_unsent s tag o s' :
  turn s (Unsent tag) o s' →
  o = Throw "GPR_ASSERT( ok )" ∧ sv_world s' = sv_world s ∧ sv_replies s' = sv_replies s.
Proof.
  intros Hturn. inversion Hturn as [e s0 tag' s1 r' s2 Hev Hrun]; subst.
  cbn [take_event] in Hev. case_decide; [|done]. injection Hev as <- <-.
  cbn [is_ok loop_body] in Hrun. by injection Hrun as <- <-.
Qed.

(** ** Properties *)

(** C8: at every point of the server's life, whatever happens between events,
    each rpc has exactly one object waiting for a request; a request that arrives
    is processed once, by the handler of its class alone, and answered once with
    that handler's reply, and an exception of the handler ends the loop; the
    overload of [Proceed] without arguments, which would answer with a placeholder,
    only ever asks for a request; but once a reply has been delivered the object is
    freed and its cookie read again, unless its class is the last of the loop, and a
    reply that cannot be delivered fails an assertion, which ends the daemon. *)
Theorem rpc_server_spec env w s :
  reachable env w s →
  (∀ k, k ∈ kinds amazon → ∃ tag, tag ∈ sv_waiting s ∧
     ∀ tag', tag' ∈ sv_waiting s → (cookie <$> sv_objs s !! tag' = Some k ↔ tag' = tag)) ∧
  (∀ tag r tag' s1, take_event (Arrived tag r) s = Some (tag', s1) →
     match handle r (sv_world s) with
     | (Ok reply, w') => ∃ s', turn s (Arrived tag r) (Ok tt) s' ∧ sv_world s' = w' ∧
         sv_replies s' = sv_replies s ++ [(tag, (r, reply))]
     | (Throw e, _) => ∃ s', turn s (Arrived tag r) (Throw e) s'
     | (Undefined e, _) => ∃ s', turn s (Arrived tag r) (Undefined e) s'
     end) ∧
  (∀ k s', constructor k s' = new_call k s' ∧
     ∃ s2, new_call k s' = (Ok tt, s2) ∧ sv_replies s2 = sv_replies s' ∧
       cookie <$> sv_objs s2 !! sv_next s' = Some k ∧ sv_next s' ∈ sv_waiting s2) ∧
  (∀ tag tag' s1, take_event (Replied tag) s = Some (tag', s1) →
     ∃ k r, sv_objs s !! tag = Some (CallData k FINISH r) ∧
     if decide (last (kinds amazon) = Some k)
     then ∃ s', turn s (Replied tag) (Ok tt) s' ∧ sv_objs s' !! tag = None
     else ∃ e s', turn s (Replied tag) (Undefined e) s') ∧
  (∀ tag, tag ∈ sv_finishing s → ∃ s', turn s (Unsent tag) (Throw "GPR_ASSERT( ok )") s').
Proof.
  intros [Hi Hl]%reachable_inv. split_and!.
  - intros k Hk. destruct (Hl k Hk) as (tag & r & Ho). exists tag. split; [apply (inv_waiting s Hi); eauto|].
    intros tag' (k' & r' & Ho')%(inv_waiting s Hi). rewrite Ho'. cbn. split.
    + intros [= ->]. by eapply (inv_unique s Hi).
    + intros ->. congruence.
  - intros tag r tag' s1 Hev. pose proof (arrived_run _ _ _ _ _ Hi Hev) as Ha.
    destruct (handle r (sv_world s)) as [[reply|e|e] w'].
    + eexists. split; [by eapply turn_event|done].
    + destruct Ha as (s' & Ha & _). exists s'. by eapply turn_event.
    + destruct Ha as (s' & Ha & _). exists s'. by eapply turn_event.
  - intros k s'. split; [apply new_call_proceeds|]. eexists. split; [apply new_call_eq|].
    cbn. split_and!; [done|by rewrite lookup_insert_eq|set_solver].
  - intros tag tag' s1 Hev. destruct (replied_run _ _ _ _ Hi Hev) as (-> & k & r & Ho & Hr).
    exists k, r. split; [done|]. case_decide.
    + eexists. split; [by eapply turn_event|]. cbn. apply lookup_delete_eq.
    + destruct Hr as (e & s2 & Hr & _). exists e, s2. by eapply turn_event.
  - intros tag Htag. eexists. eapply turn_event; [|done]. cbn [take_event]. by rewrite decide_True.
Qed.

(** C9: the server answers. In every state it reaches, whatever requests of the
    classes it serves are sent, an object waits for each, and there is a run of the
    loop that handles them as if they were handled one after the other without it:
    it answers them in order and goes on until the shutdown signal is set, or ends
    with the exception, or the undefined behaviour, of the first that does not
    return. *)
Theorem rpc_server_answers env w s rqs :
  reachable env w s → (∀ rq, rq ∈ rqs → request_kind rq ∈ kinds amazon ∧ ∀ w, asks env w rq) →
  ∃ looks s', let '(r, w') := handle_all rqs (sv_world s) in
    sv_world s' = w' ∧
    match r with
    | Ok replies => arrivals rqs looks ∧ HandleRpcs env s (looks ++ [None]) (Ok true) s' ∧
        (sv_replies s').*2 = (sv_replies s).*2 ++ zip rqs replies
    | Throw e => (∃ n, arrivals (take n rqs) looks) ∧ HandleRpcs env s looks (Throw e) s'
    | Undefined e => (∃ n, arrivals (take n rqs) looks) ∧ HandleRpcs env s looks (Undefined e) s'
    end.
Proof.
  intros Hreach Hrqs. revert s Hreach.
  induction rqs as [|rq rqs IH]; intros s Hreach; cbn [handle_all].
  { exists [], s. split; [done|]. split_and!; [constructor|constructor|by rewrite app_nil_r]. }
  destruct (reachable_inv _ _ _ Hreach) as [Hi Hl].
  destruct (Hrqs rq) as [Hk Hasks]; [by left|].
  destruct (can_arrive s rq Hi (Hl _ Hk)) as (tag & s1 & Hev).
  pose proof (arrived_run _ _ _ _ _ Hi Hev) as Ha. unfold mbind, M_bind.
  destruct (handle rq (sv_world s)) as [[reply|e|e] w1].
  - apply (turn_event _ _ _ _ _ _ Hev) in Ha. set (s2 := served _ _ _ _ _ _) in Ha.
    assert (Hreach2 : reachable env w s2) by (by eapply reach_turn; [| |exact Ha]; [|apply Hasks]).
    destruct (IH (λ rq' Hin, Hrqs rq' (list_elem_of_further _ _ _ Hin)) s2 Hreach2) as (looks & s' & Hrest).
    exists (Some (Arrived tag rq) :: looks), s'. cbn [s2 served sv_world] in Hrest.
    destruct (handle_all rqs w1) as [[replies|e|e] w2]; destruct Hrest as [Hw Hrest]; (split; [done|]).
    + destruct Hrest as (Harr & Hrun & Hrep). split_and!; [constructor; eauto| |].
      * cbn [app]. eapply rpcs_turn; [apply Hasks|done..].
      * rewrite Hrep. cbn [s2 served sv_replies]. by rewrite fmap_app, <-app_assoc.
    + destruct Hrest as ((n & Harr) & Hrun). split; [exists (S n); constructor; eauto|].
      eapply rpcs_turn; [apply Hasks|done..].
    + destruct Hrest as ((n & Harr) & Hrun). split; [exists (S n); constructor; eauto|].
      eapply rpcs_turn; [apply Hasks|done..].
  - destruct Ha as (s' & Ha & Hw & _). exists [Some (Arrived tag rq)], s'. split; [done|].
    split; [exists 1; repeat constructor; eauto|].
    eapply rpcs_throw; [apply Hasks|]. by eapply turn_event.
  - destruct Ha as (s' & Ha & Hw & _). exists [Some (Arrived tag rq)], s'. split; [done|].
    split; [exists 1; repeat constructor; eauto|].
    eapply rpcs_undefined; [apply Hasks|]. by eapply turn_event.
Qed.

End rpc.

(** ** At concrete inputs *)
#[local] Existing Instance Script.script_platform.
#[local] Existing Instance script_krb5.
#[local] Existing Instance Tree.tree_json.
#[local] Existing Instance script_aws.

(** A health check is answered, and the end of the reply reads the freed object. *)
Definition demo_server : server Script.script :=
  Server (Script.demo_world Script.idle)
    (list_to_map (imap (λ i k, (i, CallData k PROCESS (empty_request k))) (kinds true)))
    7 (list_to_set (seq 0 7)) ∅ [].

Lemma demo_server_reachable :
  reachable (X := Script.script) (V := Tree.tree) true demo_krbdir "" any_surroundings
    (Script.demo_world Script.idle) demo_server.
Proof. apply reach_start. vm_compute. reflexivity. Qed.

Lemma rpc_server_spec_witness :
  ∃ s1 e s2,
    turn (X := Script.script) (V := Tree.tree) true demo_krbdir "" demo_server
      (Arrived 4 HealthCheckRequest) (Ok tt) s1 ∧
    sv_replies s1 = [(4, (HealthCheckRequest, HealthCheckResponse "OK"))] ∧
    turn (X := Script.script) (V := Tree.tree) true demo_krbdir "" s1 (Replied 4) (Undefined e) s2.
Proof.
  destruct (rpc_server_spec (X := Script.script) (V := Tree.tree) true demo_krbdir "" any_surroundings
    (Script.demo_world Script.idle) demo_server demo_server_reachable) as (_ & Harr & _).
  destruct (Harr 4 HealthCheckRequest 4 _ ltac:(vm_compute; reflexivity)) as (s1 & Hturn & _ & Hreplies).
  exists s1.
  assert (Hreach : reachable (X := Script.script) (V := Tree.tree) true demo_krbdir "" any_surroundings
    (Script.demo_world Script.idle) s1) by (eapply reach_turn; [apply demo_server_reachable| |exact Hturn]; done).
  destruct (rpc_server_spec (X := Script.script) (V := Tree.tree) true demo_krbdir "" any_surroundings
    (Script.demo_world Script.idle) s1 Hreach) as (_ & _ & _ & Hrep & _).
  destruct (arrived_finishing true demo_krbdir "" demo_server 4 HealthCheckRequest s1
    (proj1 (reachable_inv _ _ _ _ _ _ demo_server_reachable)) Hturn) as [Hf Hk].
  destruct (Hrep 4 4 (Server (sv_world s1) (sv_objs s1) (sv_next s1) (sv_waiting s1)
    (sv_finishing s1 ∖ {[4]}) (sv_replies s1))) as (k & r & Ho & Hr);
    [cbn [take_event]; by rewrite decide_True|].
  rewrite Hk in Ho. injection Ho as <- <-.
  rewrite decide_False in Hr by discriminate. destruct Hr as (e & s2 & Hr).
  exists e, s2. split; [exact Hturn|]. split; [exact Hreplies|exact Hr].
Defined.

(** Two requests, and the shutdown signal. *)
Lemma rpc_server_answers_witness :
  ∃ tag tag' s',
    HandleRpcs (X := Script.script) (V := Tree.tree) true demo_krbdir "" any_surroundings demo_server
      [Some (Arrived tag HealthCheckRequest); Some (Arrived tag' (DeleteKerberosLeaseRequest "")); None]
      (Ok true) s' ∧
    (sv_replies s').*2.*1 = [HealthCheckRequest; DeleteKerberosLeaseRequest ""].
Proof.
  destruct (rpc_server_answers (X := Script.script) (V := Tree.tree) true demo_krbdir "" any_surroundings
    (Script.demo_world Script.idle) demo_server [HealthCheckRequest; DeleteKerberosLeaseRequest ""]
    demo_server_reachable) as (looks & s' & Hall).
  { intros rq Hin. split; [|done]. apply list_elem_of_In in Hin.
    destruct Hin as [<-|[<-|[]]]; apply (bool_decide_unpack _); by vm_compute. }
  destruct (handle_all _ _ _ _) as [r w'] eqn:Hr. destruct Hall as [_ Hall].
  assert (Hok : ∃ a b, r = Ok [a; b]).
  { apply (f_equal fst) in Hr. cbn [fst] in Hr. subst r. vm_compute. by eexists _, _. }
  destruct Hok as (a & b & ->). destruct Hall as (Harr & Hrun & Hrep).
  inversion Harr as [|? look1 ? looks1 [tag ->] Harr1]; subst.
  inversion Harr1 as [|? look2 ? looks2 [tag' ->] Harr2]; subst.
  inversion Harr2; subst. exists tag, tag', s'. split; [exact Hrun|]. rewrite Hrep. reflexivity.
Defined.
