(* ===== verification/Store.v ===== *)
(** * The store of leases

    What the service promises, without files: a map from lease ids to the
    tickets recorded for them, and the ids whose last request was not answered, of
    which nothing is promised. [store_step] says what a request may do to it; the
    handlers of [Rpc] refine it, whatever the programs outside the daemon and the
    renewal thread write in between to the caches and elsewhere. Of the requests
    for leases from ARNs it speaks of those that are refused as they stand and of
    those whose elements name accounts of one task, which may have a lease already;
    other mount paths may be anywhere below the directory of the leases
    ([ArnLease]). *)
From S2P Require Import Prelude StrUtil Logger World Json Regex Validation CredSpec Metadata Kinit Util Klist Krb Confine Lease Lifecycle Aws ArnLease ArnLifecycle Renewal Rpc.
From stdpp Require Import options.

(** ** The specification *)
Record store := Store {
  leases : gmap string (list krb_ticket_info);
  unsettled : gset string
}.

Definition no_leases : store := Store ∅ ∅.
(** A lease is recorded, is no longer, or is left to an unanswered request. *)
Definition record_lease (id : string) (ts : list krb_ticket_info) (σ : store) : store :=
  Store (<[id := ts]> (leases σ)) (unsettled σ ∖ {[id]}).
Definition drop_lease (id : string) (σ : store) : store :=
  Store (delete id (leases σ)) (unsettled σ).
Definition lose_lease (id : string) (σ : store) : store :=
  Store (delete id (leases σ)) ({[id]} ∪ unsettled σ).

(** Two stores that differ in one lease. *)
Definition same_but (id : string) (σ σ' : store) : Prop :=
  ∀ id', id' ≠ id → leases σ' !! id' = leases σ !! id' ∧ (id' ∈ unsettled σ' ↔ id' ∈ unsettled σ).

Lemma same_but_record id ts σ : same_but id σ (record_lease id ts σ).
Proof. intros id' Hne. cbn. split; [by rewrite lookup_insert_ne|set_solver]. Qed.
Lemma same_but_drop id σ : same_but id σ (drop_lease id σ).
Proof. intros id' Hne. cbn. by rewrite lookup_delete_ne. Qed.
Lemma same_but_lose id σ : same_but id σ (lose_lease id σ).
Proof. intros id' Hne. cbn. split; [by rewrite lookup_delete_ne|set_solver]. Qed.
Lemma same_but_refl id σ : same_but id σ σ.
Proof. done. Qed.

Section specification.
Context {V : Type} `{JsonCpp V}.
Context (krb_files_dir aws_sm_secret_name : string).

(** The requests that create a lease: the user its tickets start with, the
    specifications, and the user recorded in the end. *)
Definition creates (rq : rpc_request)
    : option (string * list string * (krb_ticket_info → string)) :=
  match rq with
  | AddKerberosLeaseRequest contents => Some ("", contents, secret_user aws_sm_secret_name)
  | AddNonDomainJoinedRequest user _ _ contents => Some (user, contents, domainless_user)
  | _ => None
  end.

(** A step answers the request or, when the handler does not return, does not. *)
Inductive store_step (σ : store) : rpc_request → option rpc_reply → store → Prop :=
(** A lease is made: under an id not in use, with a ticket for each account. *)
| step_created rq user contents u id ts ts' :
    creates rq = Some (user, contents, u) → leases σ !! id = None →
    covers (V := V) krb_files_dir id user contents ts →
    Forall2 (λ t t', made_of (u t) t t') ts ts' →
    store_step σ rq (Some (LeaseResponse (LeaseReply id (krb_file_path <$> ts) None)))
      (record_lease id ts' σ)
(** It is not, and an error says so. *)
| step_refused rq id paths err :
    is_Some (creates rq) → str_empty err = false →
    store_step σ rq (Some (LeaseResponse (LeaseReply id paths (Some err)))) σ
| step_deleted id paths :
    store_step σ (DeleteKerberosLeaseRequest id) (Some (LeaseResponse (LeaseReply id paths None)))
      (drop_lease id σ)
(** The renewal of tickets and the health check leave the store alone. *)
| step_renewed user pass domain r :
    store_step σ (RenewNonDomainJoinedRequest user pass domain) (Some (LeaseResponse r)) σ
(** A lease from ARNs goes under the id of its task, in the place of the one there. *)
| step_arn_created rq task es ts ts' :
    Forall2 (names_account task) (rq_credspec_arns rq) es → NoDup es.*2 →
    Forall2 (element_ticket krb_files_dir task) es ts →
    Forall2 (λ t t', made_of (domainless_user t) t t') ts ts' →
    store_step σ (AddKerberosArnLeaseRequest rq)
      (Some (ArnLeaseResponse (ArnReply task
        ((λ e : string * string, (e.1, krb_files_path krb_files_dir task e.2)) <$> es) None)))
      (record_lease task ts' σ)
| step_arn_refused rq r err :
    ar_status r = Some err → str_empty err = false →
    store_step σ (AddKerberosArnLeaseRequest rq) (Some (ArnLeaseResponse r)) σ
| step_arn_renewed rq status rpc :
    store_step σ (RenewKerberosArnLeaseRequest rq) (Some (RenewArnResponse status rpc)) σ
| step_healthy : store_step σ HealthCheckRequest (Some (HealthCheckResponse "OK")) σ
(** Without a reply either nothing has changed, or one id is unsettled: an id not in
    use, the lease to be deleted, or the task of the request. *)
| step_unanswered rq : store_step σ rq None σ
| step_uncreated rq id :
    is_Some (creates rq) → leases σ !! id = None → store_step σ rq None (lose_lease id σ)
| step_undeleted id : store_step σ (DeleteKerberosLeaseRequest id) None (lose_lease id σ)
| step_arn_lost rq task es :
    arn_refused rq = false → names_accounts task (rq_credspec_arns rq) es →
    store_step σ (AddKerberosArnLeaseRequest rq) None (lose_lease task σ).

Inductive store_steps : store → list (rpc_request * option rpc_reply) → store → Prop :=
| steps_nil σ : store_steps σ [] σ
| steps_cons σ rq reply σ1 trace σ2 :
    store_step σ rq reply σ1 → store_steps σ1 trace σ2 → store_steps σ ((rq, reply) :: trace) σ2.
End specification.

(** ** The implementation *)
Section implementation.
Context {X : Type} `{Platform X} {V : Type} `{JsonCpp V} `{Krb5 X} `{Aws X}.
Context (dir aws : string) (ext : list string → Prop) `{!ExternalIn X ext}.

(** A store as the file system holds it: a recorded lease has its directory and its
    metadata, and any other id that is a file name and not unsettled has no
    metadata file. *)
Record represents (σ : store) (s : fs) : Prop := {
  rep_dirs : dirs_exist (resolve dir) s;
  rep_settled id ts : leases σ !! id = Some ts → id ∉ unsettled σ;
  rep_some id ts : leases σ !! id = Some ts →
    plain_name id ∧ has_dir (resolve dir ++ [id]) s ∧ recorded (V := V) dir id ts s;
  rep_none id : plain_name id → id ∉ unsettled σ → leases σ !! id = None →
    s !! (resolve dir ++ [id; meta_name id]) = None
}.

(** The lease a request is about. *)
Definition touches (w : world X) (rq : rpc_request) (id : string) : Prop :=
  match rq with
  | AddKerberosLeaseRequest _ | AddNonDomainJoinedRequest _ _ _ _ => (generate_lease_id w).1 = Ok id
  | DeleteKerberosLeaseRequest lease_id => id = lease_id
  | AddKerberosArnLeaseRequest rq =>
    arn_refused rq = false ∧ ∃ es, names_accounts id (rq_credspec_arns rq) es
  | RenewNonDomainJoinedRequest _ _ _ | RenewKerberosArnLeaseRequest _ | HealthCheckRequest => False
  end.

(** The requests the promise is about, in the world that takes them: the id
    drawn for a lease is not in use, accounts are not named like parts of the
    store, the id of a deletion is a file name, and a request for ARNs is refused
    before anything is read, or its elements, up to one that is refused as it
    stands, name accounts of one task, for which there is room. *)
Definition acceptable (w : world X) (rq : rpc_request) : Prop :=
  match rq with
  | AddKerberosLeaseRequest contents | AddNonDomainJoinedRequest _ _ _ contents =>
    accounts_plain (V := V) contents ∧
    ∀ id, (generate_lease_id w).1 = Ok id →
      (∀ k, w_fs w !! (resolve dir ++ id :: k) = None) ∧ accounts_known (V := V) id contents
  | DeleteKerberosLeaseRequest id => plain_name id ∧ has_char nul id = false
  | AddKerberosArnLeaseRequest rq => arn_refused rq = true ∨ ∃ task es,
      plain_name task ∧ names_accounts task (rq_credspec_arns rq) es ∧ room dir task es (w_fs w)
  | RenewNonDomainJoinedRequest _ _ _ | RenewKerberosArnLeaseRequest _ | HealthCheckRequest => True
  end.

(** The requests that stay with the lease they are about, whatever is there: as
    before, but for what is in use and for the room. *)
Definition contained (rq : rpc_request) : Prop :=
  match rq with
  | AddKerberosLeaseRequest contents | AddNonDomainJoinedRequest _ _ _ contents =>
    accounts_plain (V := V) contents
  | DeleteKerberosLeaseRequest id => plain_name id ∧ has_char nul id = false
  | AddKerberosArnLeaseRequest rq => arn_refused rq = true ∨ ∃ task es,
      plain_name task ∧ names_accounts task (rq_credspec_arns rq) es
  | RenewNonDomainJoinedRequest _ _ _ | RenewKerberosArnLeaseRequest _ | HealthCheckRequest => True
  end.

(** What happens around the handlers: a pass of the renewal thread, however it
    ends, or something that leaves the leases alone. *)
Definition meanwhile_ok (w w' : world X) : Prop :=
  unchanged ext (w_fs w) (w_fs w') ∨ ∃ r, renewal_pass (V := V) dir w = (r, w').

(** A history: requests handled one after the other; an exception ends the daemon,
    and systemd starts it again; of undefined behaviour nothing is said but what
    came before it. *)
Inductive history : world X → list (rpc_request * option rpc_reply) → world X → Prop :=
| history_nil w : history w [] w
| history_meanwhile w w1 trace w2 :
    meanwhile_ok w w1 → history w1 trace w2 → history w trace w2
| history_request w rq reply w1 trace w2 :
    acceptable w rq → handle (V := V) dir aws rq w = (Ok reply, w1) →
    history w1 trace w2 → history w ((rq, Some reply) :: trace) w2
| history_crash w rq e w1 trace w2 :
    acceptable w rq → handle (V := V) dir aws rq w = (Throw e, w1) →
    history w1 trace w2 → history w ((rq, None) :: trace) w2
| history_undefined w rq e w1 :
    acceptable w rq → handle (V := V) dir aws rq w = (Undefined e, w1) →
    history w [(rq, None)] w1.

Context `{!PlatformLaws X} `{!JsonCppLaws V}.
Hypothesis Hext : external_caches dir ext.
Hypothesis Hdir : plain_path dir.
Hypothesis Hnul : has_char nul dir = false.
Hypothesis Hnonempty : str_empty dir = false.
#[local] Set Default Proof Using "Type*".

Lemma represents_outside σ s s' : represents σ s → unchanged ext s s' → represents σ s'.
Proof.
  intros [Hd Hset Hs Hn] Hu.
  assert (Hl : ∀ l, length l ≤ 2 → s' !! (resolve dir ++ l) = s !! (resolve dir ++ l))
    by (intros l Hl; by apply Hu, external_not_lease).
  split; [|done|..].
  - intros k Hk Hne. rewrite Hu; [by apply Hd|]. by eapply external_not_above.
  - intros id ts Hid. destruct (Hs id ts Hid) as (Hp & [i Hi] & (j & v & Hv & Hf)). split_and!; [done| |].
    + exists i. by rewrite Hl by (cbn; lia).
    + exists j, v. split; [done|]. by rewrite Hl by (cbn; lia).
  - intros id Hp Hnl Hid. rewrite Hl by (cbn; lia). by apply Hn.
Qed.

(** *** Below one lease *)
Abbreviation root id := (resolve dir ++ [id]).

Lemma not_below id id' l : id ≠ id' → ¬ root id `prefix_of` resolve dir ++ id' :: l.
Proof using. intros Hne Hp%prefix_app_inv. destruct Hp as [k Hk]. cbn in Hk. by simplify_eq. Qed.

(** A change below one lease leaves the others, once it is known what became of
    that one. *)
Lemma represents_lease σ σ' s s' id :
  represents σ s → plain_name id → unchanged (may_change dir id ext) s s' → same_but id σ σ' →
  match leases σ' !! id with
  | Some ts => (id ∉ unsettled σ') ∧ has_dir (root id) s' ∧ recorded (V := V) dir id ts s'
  | None => (id ∉ unsettled σ') → s' !! (resolve dir ++ [id; meta_name id]) = None
  end →
  represents σ' s'.
Proof.
  intros [Hd Hset Hs Hn] Hid Hu Hsame Ho.
  assert (Hl : ∀ id' l, id' ≠ id → length l ≤ 1 →
    s' !! (resolve dir ++ id' :: l) = s !! (resolve dir ++ id' :: l)).
  { intros id' l Hne Hlen. apply Hu. intros [Hp|Hx]; [by eapply (not_below id); [|exact Hp]|].
    eapply external_not_lease; [exact Hext| |exact Hx]. cbn. lia. }
  split.
  - intros k Hk Hne. rewrite Hu; [by apply Hd|]. intros [Hp|Hx].
    + assert (Hlen := prefix_length _ _ Hk). apply prefix_length in Hp.
      unfold lease_dir in Hp. rewrite length_app in Hp. cbn in Hp. lia.
    + by eapply external_not_above.
  - intros id' ts Hid'. destruct (decide (id' = id)) as [->|Hne]; [rewrite Hid' in Ho; apply Ho|].
    destruct (Hsame id' Hne) as [Heq ->]. rewrite Heq in Hid'. by eapply Hset.
  - intros id' ts Hid'. destruct (decide (id' = id)) as [->|Hne]; [rewrite Hid' in Ho; split; [done|apply Ho]|].
    destruct (Hsame id' Hne) as [Heq _]. rewrite Heq in Hid'.
    destruct (Hs id' ts Hid') as (Hp & [i Hi] & (j & v & Hv & Hf)). split_and!; [done| |].
    + exists i. by rewrite Hl by (done || cbn; lia).
    + exists j, v. split; [done|]. by rewrite Hl by (done || cbn; lia).
  - intros id' Hp Hnl Hid'. destruct (decide (id' = id)) as [->|Hne]; [rewrite Hid' in Ho; by apply Ho|].
    destruct (Hsame id' Hne) as [Heq Hiff]. rewrite Hl by (done || cbn; lia).
    apply Hn; [done|by rewrite <-Hiff|by rewrite <-Heq].
Qed.

(** The four ways it may end. *)
Lemma represents_record σ s s' id ts :
  represents σ s → plain_name id → unchanged (may_change dir id ext) s s' →
  has_dir (root id) s' → recorded (V := V) dir id ts s' → represents (record_lease id ts σ) s'.
Proof.
  intros Hrep Hid Hu Hroot Hrec. eapply represents_lease; [done..|apply same_but_record|].
  cbn. rewrite lookup_insert_eq. split_and!; [set_solver|done..].
Qed.

Lemma represents_drop σ s s' id :
  represents σ s → plain_name id → unchanged (may_change dir id ext) s s' →
  s' !! (resolve dir ++ [id; meta_name id]) = None → represents (drop_lease id σ) s'.
Proof.
  intros Hrep Hid Hu Hnone. eapply represents_lease; [done..|apply same_but_drop|].
  cbn. by rewrite lookup_delete_eq.
Qed.

Lemma represents_lose σ s s' id :
  represents σ s → plain_name id → unchanged (may_change dir id ext) s s' →
  represents (lose_lease id σ) s'.
Proof.
  intros Hrep Hid Hu. eapply represents_lease; [done..|apply same_but_lose|].
  cbn. rewrite lookup_delete_eq. set_solver.
Qed.

Lemma represents_kept σ s s' id :
  represents σ s → plain_name id → unchanged (may_change dir id ext) s s' →
  s' !! (resolve dir ++ [id; meta_name id]) = s !! (resolve dir ++ [id; meta_name id]) →
  (has_dir (root id) s → has_dir (root id) s') → represents σ s'.
Proof.
  intros Hrep Hid Hu Hmeta Hroot. eapply represents_lease; [done..|apply same_but_refl|].
  destruct (leases σ !! id) as [ts|] eqn:Hts.
  - destruct (rep_some _ _ Hrep _ _ Hts) as (_ & Hd & (i & v & Hv & Hf)).
    split_and!; [by eapply rep_settled|by apply Hroot|]. exists i, v. by rewrite Hmeta.
  - intros Hn. rewrite Hmeta. by apply (rep_none _ _ Hrep).
Qed.

Lemma represents_fresh σ s id :
  represents σ s → (∀ k, s !! (resolve dir ++ id :: k) = None) → leases σ !! id = None.
Proof using.
  intros [_ _ Hs _] Hfresh. destruct (leases σ !! id) as [ts|] eqn:Hid; [|done].
  destruct (Hs id ts Hid) as (_ & [i Hi] & _). by rewrite Hfresh in Hi.
Qed.

(** *** What a request may change *)
Lemma fmap_world {A B : Type} (f : A → B) (m : M (world X) A) w : ((f <$> m) w).2 = (m w).2.
Proof using. unfold fmap, M_fmap, mbind, M_bind. by destruct (m w) as [[a|e|e] w']. Qed.

Lemma create_unchanged contents id x (w : world X) :
  generate_lease_id w = (Ok id, set_ext x w) → plain_name id → dirs_exist (resolve dir) (w_fs w) →
  accounts_plain (V := V) contents →
  unchanged (may_change dir id ext) (w_fs w)
    (w_fs (CreateKerberosLease (V := V) dir aws contents w).2).
Proof.
  intros Hgen Hid Hdirs Hplain. unfold CreateKerberosLease. unfold mbind at 1, M_bind at 1. rewrite Hgen.
  pose proof (external_not_above dir ext) as Habove.
  refine (proj1 (confined_create_lease dir id ext (w_fs w) "" None contents (create_lease_step aws)
    _ Hdir Hid Hdirs _ Hplain _ (set_ext x w) _)); [by intros k Hk; apply Habove| |done].
  intros t Ht. apply confined_create_step; try done; [apply _|by intros k Hk; apply Habove].
Qed.

Lemma domainless_unchanged user pass domain contents id x (w : world X) :
  generate_lease_id w = (Ok id, set_ext x w) → plain_name id → dirs_exist (resolve dir) (w_fs w) →
  accounts_plain (V := V) contents →
  unchanged (may_change dir id ext) (w_fs w)
    (w_fs (AddNonDomainJoinedKerberosLease (V := V) dir user pass domain contents w).2).
Proof.
  intros Hgen Hid Hdirs Hplain. unfold AddNonDomainJoinedKerberosLease.
  unfold mbind at 1, M_bind at 1. rewrite Hgen. cbv beta.
  pose proof (external_not_above dir ext) as Habove.
  destruct (names_ok user domain); [destruct (_ && _)|]; [|done..]. rewrite bind_lift_pair.
  refine (proj1 (confined_create_lease dir id ext (w_fs w) user
    (Some "Error: credentialspec content shouldn't be empty formatted") contents
    (nondomain_step domain user pass) _ Hdir Hid Hdirs _ Hplain _ (set_ext x w) _));
    [by intros k Hk; apply Habove| |done].
  intros t Ht. apply confined_nondomain_step; try done; [apply _|by intros k Hk; apply Habove].
Qed.

(** *** Creating *)
Lemma created_refines σ (w : world X) user contents u empty_err step id reply (w' : world X) rq :
  creates aws rq = Some (user, contents, u) → represents σ (w_fs w) → plain_name id →
  (∀ err, empty_err = Some err → str_empty err = false) →
  step_makes dir id ext vacant u step →
  (∀ t, fresh_ticket dir id t →
    confined (may_change dir id ext) (w_fs w) (step t) (made_inside dir id)) →
  accounts_plain (V := V) contents →
  (∀ k, w_fs w !! (resolve dir ++ id :: k) = None) → accounts_known (V := V) id contents →
  (parsed ← lift (parse_credspecs (V := V) dir id user empty_err contents ∅ []);
   let '(err_msg, tickets) := parsed in
   r ← (if str_empty err_msg then create_tickets step tickets else mret (err_msg, tickets, []));
   finish_lease (V := V) dir id id r) w = (Ok reply, w') →
  ∃ σ', store_step (V := V) dir aws σ rq (Some (LeaseResponse reply)) σ' ∧ represents σ' (w_fs w').
Proof.
  intros Hrq Hrep Hid Herr Hstep Hconf Hplain Hfresh Hknown Hrun.
  pose proof (represents_fresh _ _ _ Hrep Hfresh) as Hnew.
  assert (Hlid : lr_lease_id reply = id) by (by eapply finished_id).
  assert (Hu : unchanged (may_change dir id ext) (w_fs w) (w_fs w')).
  { apply (confined_run (may_change dir id ext) _ (λ r, lr_lease_id r = id)) in Hrun; [by destruct Hrun|].
    apply confined_create_lease; try done.
    - apply (rep_dirs _ _ Hrep).
    - intros k Hk. by eapply external_not_above. }
  assert (Hout : lease_outcome dir id user u contents reply w').
  { eapply (lease_tail dir id ext Hext Hdir Hid user u empty_err contents step w); try done.
    - apply (rep_dirs _ _ Hrep).
    - intros k. rewrite <-app_assoc. apply Hfresh. }
  unfold lease_outcome in Hout. destruct reply as [rid paths [err|]]; cbn in Hlid, Hout; subst rid.
  - destruct Hout as [He Hmeta]. exists σ. split; [by eapply step_refused|].
    eapply represents_lease; [done..|apply same_but_refl|]. rewrite Hnew. by rewrite meta_resolve in Hmeta.
  - destruct Hout as (ts & ts' & Hcov & -> & _ & Hmade & Hroot & Hrec & _).
    exists (record_lease id ts' σ). split; [by eapply step_created|]. by eapply represents_record.
Qed.

(** From ARNs: the outcome of [arn_lease_run] is a step. *)
Lemma arn_created_refines σ (w : world X) rq task es reply (w' : world X) :
  represents σ (w_fs w) → plain_name task → names_accounts task (rq_credspec_arns rq) es →
  room dir task es (w_fs w) → AddKerberosArnLease (V := V) dir rq w = (Ok reply, w') →
  ∃ σ', store_step (V := V) dir aws σ (AddKerberosArnLeaseRequest rq) (Some (ArnLeaseResponse reply)) σ' ∧
    represents σ' (w_fs w').
Proof.
  intros Hrep Htask Hes Hroom Hrun.
  pose proof (arn_lease_unchanged dir task Htask ext Hext Hdir rq es w Hes (rep_dirs _ _ Hrep)) as Hu.
  rewrite Hrun in Hu.
  apply (arn_lease_run dir task Htask ext Hext Hdir rq es) in Hrun as Hout; [|done..].
  unfold arn_outcome in Hout. destruct reply as [rid lines [err|]]; cbn in Hout.
  - destruct Hout as (He & Hmeta & Hroot). exists σ. split; [by eapply step_arn_refused|].
    by eapply represents_kept.
  - destruct Hout as (Hall & ts & ts' & Hts & Hnd & -> & -> & _ & Hmade & Hroot & Hrec & _).
    exists (record_lease task ts' σ). split; [by eapply step_arn_created|]. by eapply represents_record.
Qed.

(** *** Renewing and deleting *)
(** A plain id: the directory is looked for where it should be. *)
Lemma delete_run id (w : world X) :
  plain_name id → has_char nul id = false →
  delete_krb_tickets (V := V) dir id w =
  (if is_dir (root id) (w_fs w) then
     paths ← for_each (delete_entry (V := V) (dir +:+ "/" +:+ id)) [] (dir_entries (root id) (w_fs w));
     try_catch (remove_all (dir +:+ "/" +:+ id);; mret paths)
       (λ _, undefined "closedir of a closed directory")
   else mret []) w.
Proof.
  intros Hid Hn. unfold delete_krb_tickets.
  destruct (lease_plain dir id Hdir Hid) as [Hp Hr].
  assert (Hide : str_empty id = false) by (apply str_empty_false, Hid).
  rewrite Hide, Hnonempty. cbn [orb]. rewrite c_str_id by by rewrite !has_char_app, Hnul, Hn.
  unfold mbind at 1, M_bind at 1, get_world. unfold fs_is_dir.
  rewrite plain_path_reaches, Hr by done.
  by assert (str_empty (dir +:+ "/" +:+ id) = false) as -> by (by destruct dir).
Qed.

Lemma delete_missing id (w : world X) paths w' :
  plain_name id → has_char nul id = false → is_dir (root id) (w_fs w) = false →
  delete_krb_tickets (V := V) dir id w = (Ok paths, w') → w' = w.
Proof. intros Hid Hn Hd. rewrite delete_run, Hd by done. by intros [= _ <-]. Qed.

Lemma delete_tree id (w : world X) paths w' :
  plain_name id → has_char nul id = false → is_dir (root id) (w_fs w) = true →
  delete_krb_tickets (V := V) dir id w = (Ok paths, w') →
  unchanged (may_change dir id ext) (w_fs w) (w_fs w') ∧
  ∀ k, root id `prefix_of` k → w_fs w' !! k = None.
Proof.
  intros Hid Hn Hd. rewrite delete_run, Hd by done. intros (ps & w1 & Hloop & Hrm)%bind_ok.
  destruct (lease_plain dir id Hdir Hid) as [Hp Hr].
  apply (confined_run _ _ _ _ _ _ (confined_delete_loop ext _ _ _ _)) in Hloop as [Hu _].
  unfold try_catch, mbind, M_bind, remove_all in Hrm.
  rewrite fs_remove_all_no_dots in Hrm by (done || by destruct dir).
  injection Hrm as <- <-. cbn [w_fs set_fs]. rewrite Hr. split.
  - intros k Hk. rewrite lookup_remove_tree, decide_False;
      [apply Hu; intros Hx; apply Hk; by right|intros Hx; apply Hk; by left].
  - intros k Hk. by rewrite lookup_remove_tree, decide_True.
Qed.

Lemma delete_unchanged id (w : world X) :
  plain_name id → has_char nul id = false → dirs_exist (resolve dir) (w_fs w) →
  unchanged (may_change dir id ext) (w_fs w) (w_fs (DeleteKerberosLease (V := V) dir id w).2).
Proof.
  intros Hid Hn Hdirs. destruct (lease_plain dir id Hdir Hid) as [_ Hr].
  assert (Hc : confined (may_change dir id ext) (w_fs w)
    (if is_dir (root id) (w_fs w) then
       paths ← for_each (delete_entry (X := X) (V := V) (dir +:+ "/" +:+ id)) [] (dir_entries (root id) (w_fs w));
       try_catch (remove_all (dir +:+ "/" +:+ id);; mret paths)
         (λ _, undefined "closedir of a closed directory")
     else mret []) (λ _, True)).
  { destruct (is_dir _ _); [|by apply confined_ret].
    apply confined_seq.
    { apply (confined_delete_loop (may_change dir id ext)); apply _. }
    intros paths. apply confined_catch.
    { apply confined_seq; [|intros ?; by apply confined_ret].
      apply confined_remove; [apply _|done..| |by rewrite Hr].
      intros k Hk. by eapply external_not_above. }
    intros e w0 Hw0. by split. }
  destruct (Hc w) as [Hu _]; [done|]. rewrite <-delete_run in Hu by done. unfold DeleteKerberosLease.
  assert (Hide : str_empty id = false) by (apply str_empty_false, Hid). rewrite Hide. cbn [negb].
  unfold mbind at 1, M_bind at 1.
  destruct (delete_krb_tickets _ id w) as [[a|e|e] w1]; exact Hu.
Qed.

(** *** A request *)
(** The renewals leave the leases alone, whatever their outcome. *)
Lemma confined_renewals s0 rq :
  match rq with
  | RenewNonDomainJoinedRequest user pass domain =>
    confined ext s0 (RenewNonDomainJoinedKerberosLease (X := X) (V := V) dir user pass domain) (λ _, True)
  | RenewKerberosArnLeaseRequest rq =>
    confined ext s0 (RenewKerberosArnLease (X := X) (V := V) dir rq) (λ _, True)
  | _ => True
  end.
Proof.
  destruct rq; try done; [|by apply confined_renew_arn].
  unfold RenewNonDomainJoinedKerberosLease.
  destruct (names_ok _ _); [|by apply confined_ret]. destruct (credentials_ok _ _ _); [|by apply confined_ret].
  apply confined_seq; [by apply confined_renew_domainless|]. intros paths. by apply confined_ret.
Qed.

(** Whatever its outcome, a request leaves all leases but its own alone. *)
Lemma handle_unchanged rq (w : world X) :
  dirs_exist (resolve dir) (w_fs w) → contained rq →
  unchanged ext (w_fs w) (w_fs (handle (V := V) dir aws rq w).2) ∨
  ∃ id, plain_name id ∧ touches w rq id ∧
    unchanged (may_change dir id ext) (w_fs w) (w_fs (handle (V := V) dir aws rq w).2).
Proof.
  intros Hdirs Hok. pose proof (confined_renewals (w_fs w) rq) as Hrenew.
  destruct rq; cbn [handle contained touches] in *; rewrite ?fmap_world.
  - destruct (generate_lease_id_run w) as (id & x & Hp & _ & Hgen).
    right. exists id. rewrite Hgen. split_and!; [done|done|by eapply create_unchanged].
  - destruct (generate_lease_id_run w) as (id & x & Hp & _ & Hgen).
    right. exists id. rewrite Hgen. split_and!; [done|done|by eapply domainless_unchanged].
  - left. by apply (confined_unchanged _ _ (λ _, True)).
  - destruct Hok as [Hid Hn]. right. exists lease_id. split_and!; [done|done|by apply delete_unchanged].
  - by left.
  - destruct (arn_refused rq) eqn:Hrefused.
    { left. by destruct (arn_refused_run (V := V) dir rq w Hrefused) as (reply & err & -> & _). }
    destruct Hok as [|(task & es & Htask & Hes)]; [done|]. right. exists task.
    split_and!; [done|done|by exists es|]. by eapply arn_lease_unchanged.
  - left. by apply (confined_unchanged _ _ (λ _, True)).
Qed.

Lemma acceptable_contained w rq : acceptable w rq → contained rq.
Proof using.
  destruct rq; cbn; try done; try by intros [? _].
  intros [?|(task & es & ? & ? & _)]; [by left|right]. by exists task, es.
Qed.

(** No reply. *)
Lemma lost_step σ w rq id :
  represents σ (w_fs w) → acceptable w rq → touches w rq id →
  store_step (V := V) dir aws σ rq None (lose_lease id σ).
Proof using.
  intros Hrep Hok Ht. destruct rq; cbn in Hok, Ht; try done.
  1-2: destruct Hok as [_ Hfresh]; apply step_uncreated; [done|];
    by eapply represents_fresh, (proj1 (Hfresh id Ht)).
  - subst. apply step_undeleted.
  - destruct Ht as [Hr (es & Hes)]. by eapply step_arn_lost.
Qed.

Lemma crash_refines σ w rq o w1 :
  represents σ (w_fs w) → acceptable w rq → handle (V := V) dir aws rq w = (o, w1) →
  ∃ σ', store_step (V := V) dir aws σ rq None σ' ∧ represents σ' (w_fs w1).
Proof.
  intros Hrep Hok Hrun.
  pose proof (handle_unchanged rq w (rep_dirs _ _ Hrep) (acceptable_contained _ _ Hok)) as Hu.
  rewrite Hrun in Hu. cbn in Hu. destruct Hu as [Hu|(id & Hid & Ht & Hu)].
  - exists σ. split; [constructor|]. by eapply represents_outside.
  - exists (lose_lease id σ). split; [by eapply lost_step|by eapply represents_lose].
Qed.

(** A reply. *)
Abbreviation steps_to σ rq reply w' :=
  (∃ σ', store_step (V := V) dir aws σ rq (Some reply) σ' ∧ represents σ' (w_fs w')).

Lemma add_refines σ (w : world X) contents reply (w' : world X) :
  represents σ (w_fs w) → acceptable w (AddKerberosLeaseRequest contents) →
  CreateKerberosLease (V := V) dir aws contents w = (Ok reply, w') →
  steps_to σ (AddKerberosLeaseRequest contents) (LeaseResponse reply) w'.
Proof.
  intros Hrep [Hplain Hfresh] Hrun.
  destruct (generate_lease_id_run w) as (id & x & Hid & _ & Hgen). rewrite Hgen in Hfresh.
  destruct (Hfresh id eq_refl) as [Hfresh' Hknown].
  unfold CreateKerberosLease in Hrun. unfold mbind at 1, M_bind at 1 in Hrun. rewrite Hgen in Hrun.
  apply (created_refines σ (set_ext x w) "" contents (secret_user aws) None
    (create_lease_step (V := V) aws) id reply w'); try done.
  - by apply create_lease_step_makes.
  - intros t Ht. apply confined_create_step; try done; [apply _|apply (rep_dirs _ _ Hrep)|].
    intros k Hk. by eapply external_not_above.
Qed.

Lemma domainless_refines σ (w : world X) user pass domain contents reply (w' : world X) :
  represents σ (w_fs w) → acceptable w (AddNonDomainJoinedRequest user pass domain contents) →
  AddNonDomainJoinedKerberosLease (V := V) dir user pass domain contents w = (Ok reply, w') →
  steps_to σ (AddNonDomainJoinedRequest user pass domain contents) (LeaseResponse reply) w'.
Proof.
  intros Hrep [Hplain Hfresh] Hrun.
  destruct (generate_lease_id_run w) as (id & x & Hid & _ & Hgen). rewrite Hgen in Hfresh.
  destruct (Hfresh id eq_refl) as [Hfresh' Hknown].
  unfold AddNonDomainJoinedKerberosLease in Hrun.
  unfold mbind at 1, M_bind at 1 in Hrun. rewrite Hgen in Hrun. cbv beta in Hrun.
  destruct (names_ok user domain); [destruct (_ && _)|].
  2-3: (injection Hrun as <- <-; exists σ; split; [by apply step_refused|done]).
  rewrite bind_lift_pair in Hrun. apply (created_refines σ (set_ext x w) user contents domainless_user
    (Some "Error: credentialspec content shouldn't be empty formatted")
    (nondomain_step (V := V) domain user pass) id reply w'); try done.
  - by intros err [= <-].
  - by apply nondomain_step_makes.
  - intros t Ht. apply confined_nondomain_step; try done; [apply _|apply (rep_dirs _ _ Hrep)|].
    intros k Hk. by eapply external_not_above.
Qed.

Lemma delete_refines σ (w : world X) id reply (w' : world X) :
  represents σ (w_fs w) → acceptable w (DeleteKerberosLeaseRequest id) →
  DeleteKerberosLease (V := V) dir id w = (Ok reply, w') →
  steps_to σ (DeleteKerberosLeaseRequest id) (LeaseResponse reply) w'.
Proof.
  intros Hrep [Hid Hidn] Hrun. unfold DeleteKerberosLease in Hrun.
  assert (Hide : str_empty id = false) by (apply str_empty_false, Hid).
  rewrite Hide in Hrun. cbn [negb] in Hrun. apply bind_ok in Hrun as (paths & w2 & Hrun & [= <- <-]).
  exists (drop_lease id σ). split; [constructor|].
  destruct (is_dir (root id) (w_fs w)) eqn:Hd.
  - apply delete_tree in Hrun as [Hu Hgone]; [|done..].
    eapply represents_drop; [done..|].
    apply Hgone. exists [meta_name id]. by rewrite <-app_assoc.
  - apply delete_missing in Hrun; [|done..]. subst w2.
    eapply represents_lease; [done|done|by intros k _|apply same_but_drop|]. cbn.
    rewrite lookup_delete_eq. intros Hn. apply (rep_none _ _ Hrep); [done..|].
    destruct (leases σ !! id) as [ts|] eqn:Hs; [|done].
    destruct (rep_some _ _ Hrep _ _ Hs) as (_ & [i Hi] & _). unfold is_dir in Hd. by rewrite Hi in Hd.
Qed.

Lemma request_refines σ w rq reply w1 :
  represents σ (w_fs w) → acceptable w rq → handle (V := V) dir aws rq w = (Ok reply, w1) →
  steps_to σ rq reply w1.
Proof.
  intros Hrep Hok Hrun. pose proof (confined_renewals (w_fs w) rq) as Hrenew.
  destruct rq; cbn [handle] in Hrun; try (apply fmap_ok in Hrun as (r & Hrun & ->)).
  - by eapply add_refines.
  - by eapply domainless_refines.
  - exists σ. split; [constructor|]. eapply represents_outside; [done|].
    by destruct (confined_run _ _ _ _ _ _ Hrenew Hrun).
  - by eapply delete_refines.
  - injection Hrun as <- <-. exists σ. split; [constructor|done].
  - destruct Hok as [Hrefused|(task & es & Htask & Hes & Hroom)]; [|by eapply arn_created_refines].
    destruct (arn_refused_run (V := V) dir rq w Hrefused) as (reply & err & Hrun' & Hst & He).
    rewrite Hrun' in Hrun. injection Hrun as <- <-. exists σ. split; [by eapply step_arn_refused|done].
  - exists σ. split; [constructor|]. eapply represents_outside; [done|].
    by destruct (confined_run _ _ _ _ _ _ Hrenew Hrun).
Qed.

Lemma is_metadata_meta_name id : is_metadata_name (meta_name id) = true.
Proof using.
  unfold is_metadata_name, meta_name. apply andb_true_iff. split.
  - apply negb_true_iff, str_empty_false. by destruct id.
  - apply bool_decide_true, str_find_is_Some. exists id, ".json". done.
Qed.

(** ** Histories *)
Lemma meanwhile_refines σ w w1 :
  represents σ (w_fs w) → meanwhile_ok w w1 → represents σ (w_fs w1).
Proof.
  intros Hrep [Hu|[r Hpass]]; (eapply represents_outside; [exact Hrep|]); [done|].
  destruct (confined_renewal_pass ext (w_fs w) dir w) as [Hu _]; [done|]. by rewrite Hpass in Hu.
Qed.

(** The handlers refine the store of leases. From a file system that holds a
    store, any history of requests, with passes of the renewal thread and anything
    outside the leases in between, is one the specification allows, request by
    request and reply by reply, and the file system holds the store the
    specification ends with: a lease that was created is recorded under its id
    until that id is deleted, or replaced by a request for ARNs of its task, with
    one ticket for each account of its request; a request answered with an error
    records nothing; no request touches the lease of another; and an exception,
    after which the daemon starts again, costs at most the lease whose request it
    ended. *)
Lemma lease_store_refinement σ w trace w' :
  represents σ (w_fs w) → history w trace w' →
  ∃ σ', store_steps (V := V) dir aws σ trace σ' ∧ represents σ' (w_fs w').
Proof.
  intros Hrep Hh. revert σ Hrep.
  induction Hh as [w|w w1 trace w2 Hm _ IH|w rq reply w1 trace w2 Hok Hrun _ IH
    |w rq e w1 trace w2 Hok Hrun _ IH|w rq e w1 Hok Hrun]; intros σ Hrep.
  - exists σ. split; [constructor|done].
  - eapply IH. by eapply meanwhile_refines.
  - destruct (request_refines _ _ _ _ _ Hrep Hok Hrun) as (σ1 & Hstep & Hrep1).
    destruct (IH _ Hrep1) as (σ2 & Hsteps & Hrep2). exists σ2.
    split; [by econstructor|done].
  - destruct (crash_refines _ _ _ _ _ Hrep Hok Hrun) as (σ1 & Hstep & Hrep1).
    destruct (IH _ Hrep1) as (σ2 & Hsteps & Hrep2). exists σ2.
    split; [by econstructor|done].
  - destruct (crash_refines _ _ _ _ _ Hrep Hok Hrun) as (σ1 & Hstep & Hrep1).
    exists σ1. split; [|done]. econstructor; [done|constructor].
Qed.

(** ** Properties *)

(** C2: a request that stays with the lease it is about ([contained]: its accounts
    are not named [.] or [..], the id it deletes is a file name, and its ARNs name
    accounts of one task, without a test element, up to an element that is refused),
    however it ends, leaves every other lease recorded as it was, if external programs
    write nothing of the leases but the caches. *)
Theorem requests_isolated σ w rq id ts :
  represents σ (w_fs w) → contained rq → leases σ !! id = Some ts → ¬ touches w rq id →
  let w' := (handle (V := V) dir aws rq w).2 in
  has_dir (root id) (w_fs w') ∧ recorded (V := V) dir id ts (w_fs w').
Proof.
  intros Hrep Hok Hid Hnot. cbv zeta.
  destruct (handle_unchanged rq w (rep_dirs _ _ Hrep) Hok) as [Hu|(id' & Hp & Ht & Hu)].
  - by apply (rep_some _ _ (represents_outside _ _ _ Hrep Hu)).
  - assert (id ≠ id') by (by intros ->).
    eapply (rep_some (lose_lease id' σ)); [by eapply represents_lose|].
    cbn. by rewrite lookup_delete_ne.
Qed.

(** C20: what was stored can be renewed. In a file system that holds a store the
    renewal finds the metadata file of every lease, whatever else is below the
    directory. If the fields of its tickets are ASCII it reads back those before the
    first whose path it refuses, less those whose cache is gone: all of them, when
    no path is refused and no cache is gone. And from the user recorded for a
    ticket made with a secret it reads the name of that secret. *)
Theorem stored_leases_renewable σ w :
  represents σ (w_fs w) → fs_is_dir dir (w_fs w) = true →
  (∃ files, get_meta_data_file_paths dir w = (Ok files, w) ∧
     ∀ id ts, leases σ !! id = Some ts → meta_file_path id dir ∈ files ∧
       (Forall ticket_ascii ts →
        read_meta_data_json (V := V) (meta_file_path id dir) w = (Ok (read_back (w_fs w) ts), w) ∧
        (Forall (ticket_usable (w_fs w)) ts → read_back (w_fs w) ts = stored_ticket <$> ts))) ∧
  (∀ t, aws ≠ "" → from_secret (secret_user aws t) = true ∧
     secret_of_user (secret_user aws t) = aws).
Proof.
  intros Hrep Hd. split.
  - destruct (get_meta_data_file_paths_ok dir w Hd) as (files & Hfiles & Hin). exists files.
    split; [done|]. intros id ts Hid. destruct (rep_some _ _ Hrep _ _ Hid) as (Hp & _ & (i & v & Hv & Hf)).
    split.
    + apply Hin. exists [id; meta_name id], i, (json_write v). split_and!; [done|done|done|].
      cbn [last default]. apply is_metadata_meta_name.
    + intros Hascii. split; [|by apply read_back_all]. apply (read_recorded ts v); [done|done|unfold meta_file_path; by destruct dir|].
      unfold fs_read, fs_lookup. rewrite meta_resolve by done. rewrite Hf.
      rewrite plain_path_reaches; [done|]. rewrite meta_is_account.
      apply krb_files_path_plain; [done..|by apply meta_name_plain].
  - intros t Haws. unfold secret_user. destruct aws as [|c rest]; [done|]. cbn [String.length Nat.eqb].
    split; [|by vm_compute].
    unfold from_secret, secret_marker. apply bool_decide_true. apply str_find_is_Some.
    by exists "", (":" +:+ String c rest).
Qed.

End implementation.

(** ** At concrete inputs *)
#[local] Existing Instance Script.script_platform.
#[local] Existing Instance Script.script_platform_laws.
#[local] Existing Instance script_krb5.
#[local] Existing Instance Tree.tree_json.
#[local] Existing Instance Tree.tree_json_laws.
#[local] Existing Instance script_aws.

Definition demo_id : string := "00000000000000000000".
Definition demo_reply : lease_reply :=
  LeaseReply demo_id [krb_files_path demo_krbdir demo_id "webapp01"] None.

Abbreviation demo_handle rq w :=
  (handle (X := Script.script) (V := Tree.tree) demo_krbdir "" rq w).

Lemma demo_empty_store : represents (V := Tree.tree) demo_krbdir no_leases (w_fs demo_joined).
Proof.
  split; [apply demo_tools_dirs|done|done|]. intros id _ _ _. apply (demo_tools_fresh _ id [meta_name id]).
Qed.

Lemma run_outcome {W A} (m : M W A) w o : (m w).1 = o → m w = (o, (m w).2).
Proof. intros <-. by destruct (m w). Qed.

(** A lease is created and deleted. *)
Definition demo_create := AddKerberosLeaseRequest [dummy_credspec].
Definition demo_delete := DeleteKerberosLeaseRequest demo_id.
Definition demo_trace : list (rpc_request * option rpc_reply) :=
  [(demo_create, Some (LeaseResponse demo_reply));
   (demo_delete, Some (LeaseResponse (LeaseReply demo_id
      [krb_files_path demo_krbdir demo_id "webapp01" +:+ "/krb5cc"] None)))].

Lemma demo_acceptable : acceptable (V := Tree.tree) demo_krbdir demo_joined demo_create.
Proof.
  split; [apply demo_accounts_plain|]. intros id Hid. vm_compute in Hid. injection Hid as <-.
  split; [intros k; apply demo_tools_fresh|by apply demo_accounts_known].
Qed.

Lemma demo_history :
  ∃ w', history (V := Tree.tree) demo_krbdir "" (λ _, False) demo_joined demo_trace w'.
Proof.
  assert (Hc : (demo_handle demo_create demo_joined).1 = Ok (LeaseResponse demo_reply))
    by (vm_compute; reflexivity).
  assert (Hd : (demo_handle demo_delete (demo_handle demo_create demo_joined).2).1 =
    Ok (LeaseResponse (LeaseReply demo_id [krb_files_path demo_krbdir demo_id "webapp01" +:+ "/krb5cc"] None)))
    by (vm_compute; reflexivity).
  apply run_outcome in Hc, Hd.
  eexists. eapply history_request; [|exact Hc|eapply history_request; [|exact Hd|constructor]].
  - apply demo_acceptable.
  - split; [apply (bool_decide_unpack _); by vm_compute|done].
Qed.

Lemma demo_history_refines :
  ∃ w' σ', history (V := Tree.tree) demo_krbdir "" (λ _, False) demo_joined demo_trace w' ∧
    store_steps (V := Tree.tree) demo_krbdir "" no_leases demo_trace σ'.
Proof.
  destruct demo_history as [w' Hh].
  destruct (lease_store_refinement (X := Script.script) (V := Tree.tree) demo_krbdir "" (λ _, False)
    (demo_caches _) demo_plain_path eq_refl eq_refl no_leases demo_joined _ _ demo_empty_store Hh)
    as (σ' & Hsteps & _).
  by exists w', σ'.
Qed.

(** The lease just created. *)
Lemma demo_created :
  ∃ (σ : store) (w : world Script.script) ts, leases σ !! demo_id = Some ts ∧
    represents (V := Tree.tree) demo_krbdir σ (w_fs w) ∧
    fs_is_dir demo_krbdir (w_fs w) = true.
Proof.
  assert (Hc : (demo_handle demo_create demo_joined).1 = Ok (LeaseResponse demo_reply))
    by (vm_compute; reflexivity).
  apply run_outcome in Hc.
  destruct (request_refines (V := Tree.tree) demo_krbdir "" (λ _, False) (demo_caches _) demo_plain_path
    eq_refl eq_refl no_leases demo_joined demo_create (LeaseResponse demo_reply) _ demo_empty_store
    demo_acceptable Hc) as (σ & Hstep & Hrep).
  assert (Hid : ∃ ts, leases σ !! demo_id = Some ts)
    by (inversion Hstep; subst; eexists; apply lookup_insert_eq).
  destruct Hid as [ts Hid]. exists σ, (demo_handle demo_create demo_joined).2, ts.
  split_and!; [done|done|by vm_compute].
Qed.

(** It survives the deletion of another. *)
Lemma requests_isolated_witness :
  ∃ (σ : store) (w : world Script.script) ts, leases σ !! demo_id = Some ts ∧
    recorded (V := Tree.tree) demo_krbdir demo_id ts
      (w_fs (demo_handle (DeleteKerberosLeaseRequest "other") w).2).
Proof.
  destruct demo_created as (σ & w & ts & Hid & Hrep & _). exists σ, w, ts. split; [exact Hid|].
  apply (requests_isolated (V := Tree.tree) demo_krbdir "" (λ _, False) (demo_caches _) demo_plain_path
    eq_refl eq_refl σ w (DeleteKerberosLeaseRequest "other") demo_id ts Hrep); [|exact Hid|discriminate].
  split; [apply (bool_decide_unpack _); by vm_compute|done].
Defined.

(** It is found. *)
Lemma stored_leases_renewable_witness :
  ∃ (σ : store) (w : world Script.script) ts files, leases σ !! demo_id = Some ts ∧
    get_meta_data_file_paths (X := Script.script) demo_krbdir w = (Ok files, w) ∧
    meta_file_path demo_id demo_krbdir ∈ files.
Proof.
  destruct demo_created as (σ & w & ts & Hid & Hrep & Hd).
  destruct (stored_leases_renewable (V := Tree.tree) demo_krbdir "" (λ _, False) (demo_caches _)
    demo_plain_path eq_refl eq_refl σ w Hrep Hd) as [(files & Hfiles & Hall) _].
  destruct (Hall demo_id ts Hid) as [Hin _].
  exists σ, w, ts, files. split; [exact Hid|]. split; [exact Hfiles|exact Hin].
Defined.
