(* ===== verification/Service.v ===== *)
(** * The service: the server on the store of leases

    The server of [Rpc] run on a file system that holds a store ([Store]): the
    requests it answers are the steps of the store, over any number of runs, each
    ended by the shutdown signal or by the exception of a handler, and each start
    makes the lease of the credential specification file, if there is one. *)
From S2P Require Import Prelude StrUtil Logger World Json Regex Validation CredSpec Metadata Kinit Util Klist Krb Confine Lease Lifecycle Aws ArnLease ArnLifecycle Renewal Rpc Store.
From stdpp Require Import options.

Section service.
Context {X : Type} `{Platform X} {V : Type} `{JsonCpp V} `{Krb5 X} `{Aws X} `{Grpc X}.
Context (amazon : bool) (dir aws : string) (ext : list string → Prop) `{!ExternalIn X ext}.
Abbreviation trace := (list (rpc_request * option rpc_reply)).

(** Between the events of the server: passes of the renewal thread, and what leaves
    the leases alone; the clients send requests the store speaks of. *)
Definition store_surroundings : surroundings X :=
  Surroundings (meanwhile_ok (V := V) dir ext) (acceptable (V := V) dir).

Abbreviation HandleRpcs := (HandleRpcs (V := V) amazon dir aws store_surroundings).
Abbreviation RunServer := (RunServer (V := V) amazon dir aws store_surroundings).
Abbreviation reachable := (reachable (V := V) amazon dir aws store_surroundings).
Abbreviation history := (history (V := V) dir aws ext).

(** The requests a server has answered. *)
Definition answered (replies : list (nat * (rpc_request * rpc_reply))) : trace :=
  (λ p : rpc_request * rpc_reply, (p.1, Some p.2)) <$> replies.*2.

(** The request that a run ended without an answer, if any: one that arrived. *)
Definition unanswered (looks : list (option event)) (r : outcome bool) (tr : trace) : Prop :=
  match r with
  | Ok _ => tr = []
  | _ => tr = [] ∨ ∃ tag rq, Some (Arrived tag rq) ∈ looks ∧ tr = [(rq, None)]
  end.

Lemma unanswered_later look looks r tr : unanswered looks r tr → unanswered (look :: looks) r tr.
Proof.
  destruct r; [done|..]; (intros [?|(tag & rq & Hin & ->)]; [by left|]);
    right; exists tag, rq; (split; [by right|done]).
Qed.

(** The periods of the service's life: main makes the lease of the credential
    specification file, with the given id and text, and the server runs. *)
Inductive period :=
| Started (lease_id text : string) (r : outcome Z)
| Served (looks : list (option event)) (r : outcome bool) (s : server X).

(** The file can be used: its account is not named like a part of the store, and
    where the metadata goes there is no directory. *)
Definition startable (w : world X) (file lease_id text : string) : Prop :=
  plain_name lease_id ∧ ready dir lease_id (w_fs w) ∧
  fs_exists file (w_fs w) = true ∧ fs_read file (w_fs w) = Some text ∧
  accounts_plain (V := V) [text] ∧ accounts_known (V := V) lease_id [text] ∧
  ∀ i, w_fs w !! resolve (meta_file_path lease_id dir) ≠ Some (Dir i).

Inductive runs (unix_socket_dir : string) : world X → period → world X → Prop :=
| runs_started w file lease_id text r w1 :
    startable w file lease_id text →
    ProcessCredSpecFile (V := V) dir file lease_id w = (r, w1) →
    runs unix_socket_dir w (Started lease_id text r) w1
| runs_served w looks r s :
    RunServer unix_socket_dir w looks r s →
    runs unix_socket_dir w (Served looks r s) (sv_world s).

(** A period after which the next may begin: of undefined behaviour nothing is
    said but what came before it. *)
Definition defined (p : period) : Prop :=
  match p with
  | Started _ _ r => ∀ e, r ≠ Undefined e
  | Served _ r _ => ∀ e, r ≠ Undefined e
  end.

Inductive life (unix_socket_dir : string) : world X → list period → world X → Prop :=
| life_nil w : life unix_socket_dir w [] w
| life_meanwhile w w1 ps w2 :
    meanwhile_ok (V := V) dir ext w w1 → life unix_socket_dir w1 ps w2 →
    life unix_socket_dir w ps w2
| life_period w p w1 ps w2 :
    runs unix_socket_dir w p w1 → defined p → life unix_socket_dir w1 ps w2 →
    life unix_socket_dir w (p :: ps) w2
| life_last w p w1 : runs unix_socket_dir w p w1 → life unix_socket_dir w [p] w1.

(** What a period may do to the store. *)
Inductive period_step (σ : store) : period → store → Prop :=
| step_recorded lease_id text t t' :
    parse_cred_spec (V := V) text new_ticket = Ok (0%Z, t) →
    made_of "" (file_ticket dir lease_id t) t' →
    period_step σ (Started lease_id text (Ok EXIT_SUCCESS)) (record_lease lease_id [t'] σ)
(** Without success what is recorded under the id is not relied on any more. *)
| step_failed lease_id text r :
    r ≠ Ok EXIT_SUCCESS → period_step σ (Started lease_id text r) (lose_lease lease_id σ)
| step_served looks r s last σ' :
    unanswered looks r last → store_steps (V := V) dir aws σ (answered (sv_replies s) ++ last) σ' →
    period_step σ (Served looks r s) σ'.

Inductive period_steps : store → list period → store → Prop :=
| periods_nil σ : period_steps σ [] σ
| periods_cons σ p σ1 ps σ2 :
    period_step σ p σ1 → period_steps σ1 ps σ2 → period_steps σ (p :: ps) σ2.

Lemma answered_app l l' : answered (l ++ l') = answered l ++ answered l'.
Proof. unfold answered. by rewrite !fmap_app. Qed.

(** A run of the loop is a history of the handlers. *)
Lemma rpcs_history w s0 looks r s :
  reachable w s0 → HandleRpcs s0 looks r s →
  ∃ new last, sv_replies s = sv_replies s0 ++ new ∧ unanswered looks r last ∧
    history (sv_world s0) (answered new ++ last) (sv_world s).
Proof.
  intros Hreach Hrun. revert Hreach.
  induction Hrun as [s|s rest|s w' looks r s2 Hout Hrun IH|s e s1 rest r s2 Hocc Hturn Hrun IH
    |s e what s1 rest Hocc Hturn|s e what s1 rest Hocc Hturn]; intros Hreach.
  - exists [], []. split_and!; [by rewrite app_nil_r|done|constructor].
  - exists [], []. split_and!; [by rewrite app_nil_r|done|constructor].
  - destruct IH as (new & last & Hnew & Hlast & Hh); [by eapply reach_outside|].
    exists new, last. split_and!; [done|done|]. eapply history_meanwhile; [exact Hout|exact Hh].
  - destruct IH as (new & last & Hnew & Hlast & Hh); [by eapply reach_turn|].
    destruct (reachable_inv _ _ _ _ _ _ Hreach) as [Hi _].
    apply (unanswered_later (Some e)) in Hlast. destruct e as [tag rq|tag|tag].
    + apply turn_arrived in Hturn as (reply & Hhandle & Hreplies); [|done].
      exists ((tag, (rq, reply)) :: new), last. rewrite Hnew, Hreplies, <-app_assoc.
      split_and!; [done|done|]. by eapply history_request.
    + apply turn_replied in Hturn as (_ & Hw & Hreplies); [|done].
      exists new, last. rewrite Hnew, Hreplies, <-Hw. done.
    + by apply turn_unsent in Hturn as [Heq _].
  - destruct (reachable_inv _ _ _ _ _ _ Hreach) as [Hi _]. destruct e as [tag rq|tag|tag].
    + apply turn_arrived in Hturn as [Hhandle Hreplies]; [|done].
      exists [], [(rq, None)]. split_and!; [by rewrite app_nil_r| |].
      * right. exists tag, rq. split; [by left|done].
      * eapply history_crash; [done|done|constructor].
    + apply turn_replied in Hturn as [Hno _]; [|done]. by destruct (Hno what).
    + apply turn_unsent in Hturn as (_ & Hw & Hreplies).
      exists [], []. split_and!; [by rewrite app_nil_r|by left|]. rewrite Hw. apply history_nil.
  - destruct (reachable_inv _ _ _ _ _ _ Hreach) as [Hi _]. destruct e as [tag rq|tag|tag].
    + apply turn_arrived in Hturn as [Hhandle Hreplies]; [|done].
      exists [], [(rq, None)]. split_and!; [by rewrite app_nil_r| |].
      * right. exists tag, rq. split; [by left|done].
      * by eapply history_undefined.
    + apply turn_replied in Hturn as (_ & Hw & Hreplies); [|done].
      exists [], []. split_and!; [by rewrite app_nil_r|by left|]. rewrite Hw. apply history_nil.
    + by apply turn_unsent in Hturn as [Heq _].
Qed.

Lemma server_history unix_socket_dir w looks r s :
  RunServer unix_socket_dir w looks r s →
  ∃ last, unanswered looks r last ∧ history w (answered (sv_replies s) ++ last) (sv_world s).
Proof.
  intros Hrun. destruct Hrun as [x s0 r s Hbuild Hstart Hrun|x Hbuild].
  2: { exists []. split; [by left|]. cbn. apply (history_meanwhile _ _ _ _ (set_ext x w)); [by left|apply history_nil]. }
  assert (Hreach : reachable (set_ext x w) s0) by by apply reach_start.
  destruct (rpcs_history _ _ _ _ _ Hreach Hrun) as (new & last & Hnew & Hlast & Hh).
  apply new_calls_world in Hstart as [Hw0 Hr0]. cbn [sv_world sv_replies] in Hw0, Hr0.
  rewrite Hnew, Hr0. rewrite Hw0 in Hh. exists last. split; [done|].
  eapply history_meanwhile; [|exact Hh]. by left.
Qed.

(** ** Properties *)
Context `{!PlatformLaws X} `{!JsonCppLaws V}.
Hypothesis Hext : external_caches dir ext.
Hypothesis Hdir : plain_path dir.
Hypothesis Hnul : has_char nul dir = false.
Hypothesis Hnonempty : str_empty dir = false.
#[local] Set Default Proof Using "Type*".

(** The credential specification file. *)
Lemma started_unchanged file lease_id text (w : world X) :
  dirs_exist (resolve dir) (w_fs w) → startable w file lease_id text →
  unchanged (may_change dir lease_id ext) (w_fs w)
    (w_fs (ProcessCredSpecFile (V := V) dir file lease_id w).2).
Proof.
  intros Hdirs (Hid & _ & Hex & Hread & Hplain & _ & _). unfold ProcessCredSpecFile.
  assert (Habove : ∀ k, k `prefix_of` resolve dir → ¬ ext k)
    by (intros k Hk; by eapply external_not_above).
  unfold mbind at 1, M_bind at 1.
  destruct (log LOG_INFO _ w) as [[[]|e|e] w1] eqn:Hlog.
  2-3: apply log_fs in Hlog as Hw1; cbn [snd]; intros k _; by rewrite Hw1.
  apply log_fs in Hlog. unfold exists_, read_file, gets, mbind at 1, M_bind at 1.
  rewrite Hlog, Hex. cbn [negb]. unfold mbind at 1, M_bind at 1. rewrite Hlog, Hread, <-Hlog.
  apply (confined_unchanged _ _ (λ _, True)).
  eapply confined_bind; [apply confined_lift|]. intros [z t] Hparse.
  eapply (confined_bind _ _ _ _ (λ r, match r with
    | Some (err, t') => inside dir lease_id t' ∨ krb_file_path t' = "" | None => True end)).
  - destruct (z =? EXIT_SUCCESS)%Z eqn:Hz.
    + apply Z.eqb_eq in Hz as ->. cbv zeta. eapply confined_weaken.
      { apply confined_credspec_file_ticket; [apply _|done|done|by rewrite Hlog|done|].
        exists (service_account_name t). split; [|done].
        destruct (Hplain text t ltac:(by left) Hparse) as [Hd Hdd].
        by apply (parsed_account_plain text). }
      intros [[err t']|]; [by left|done].
    + apply confined_ret. destruct (parse_cred_spec_codes _ _ _ _ Hparse) as [-> | [-> ->]]; [done|by right].
  - intros [[err t']|] Ht'; [|by apply confined_ret].
    destruct (negb _).
    + apply confined_seq.
      { destruct Ht' as [Hin|Hnil].
        - apply confined_remove; [apply _|done|done|by rewrite Hlog|done|exact Hin].
        - rewrite Hnil. intros w2 Hw2. by split. }
      intros ?. apply confined_seq; [apply confined_log; apply _|]. intros _. by apply confined_ret.
    + apply confined_seq; [|intros ?; by apply confined_ret]. unfold write_meta_data_json_one.
      apply confined_write_metadata; [apply _|done|done|by rewrite Hlog|done].
Qed.

Lemma started_refines σ file lease_id text (w : world X) r w1 :
  represents (V := V) dir σ (w_fs w) → startable w file lease_id text →
  ProcessCredSpecFile (V := V) dir file lease_id w = (r, w1) →
  ∃ σ', period_step σ (Started lease_id text r) σ' ∧ represents (V := V) dir σ' (w_fs w1).
Proof.
  intros Hrep Hok Hrun.
  pose proof (started_unchanged file lease_id text w (rep_dirs _ _ _ Hrep) Hok) as Hu.
  rewrite Hrun in Hu. cbn [snd] in Hu. destruct Hok as (Hid & Hready & Hex & Hread & Hplain & Hknown & Hmeta).
  assert (Hfail : r ≠ Ok EXIT_SUCCESS → ∃ σ', period_step σ (Started lease_id text r) σ' ∧
    represents (V := V) dir σ' (w_fs w1)).
  { intros Hne. exists (lose_lease lease_id σ). split; [by constructor|].
    by apply (represents_lose dir ext Hext Hdir Hnul Hnonempty σ (w_fs w)). }
  destruct r as [code|e|e]; [|by apply Hfail..].
  rewrite (meta_resolve dir lease_id Hid) in Hmeta.
  destruct (process_cred_spec_run dir lease_id ext Hext Hdir Hid file text w code w1 Hready Hex Hread
    Hplain Hknown Hmeta Hrun) as [(-> & t & t' & Hparse & Hmade & _ & Hrec & Hroot & _)|[-> _]];
    [|by apply Hfail].
  exists (record_lease lease_id [t'] σ). split; [by econstructor|].
  by apply (represents_record dir ext Hext Hdir Hnul Hnonempty σ (w_fs w)).
Qed.

Lemma period_refines unix_socket_dir σ w p w1 :
  represents (V := V) dir σ (w_fs w) → runs unix_socket_dir w p w1 →
  ∃ σ', period_step σ p σ' ∧ represents (V := V) dir σ' (w_fs w1).
Proof.
  intros Hrep Hruns. destruct Hruns as [w file id text r w1 Hok Hrun|w looks r s Hrun].
  - by eapply started_refines.
  - apply server_history in Hrun as (last & Hlast & Hh).
    destruct (lease_store_refinement dir aws ext Hext Hdir Hnul Hnonempty _ _ _ _ Hrep Hh)
      as (σ1 & Hsteps1 & Hrep1).
    exists σ1. split; [by econstructor|done].
Qed.


End service.

(** ** At a concrete input *)
#[local] Existing Instance Script.script_platform.
#[local] Existing Instance Script.script_platform_laws.
#[local] Existing Instance script_krb5.
#[local] Existing Instance Tree.tree_json.
#[local] Existing Instance Tree.tree_json_laws.
#[local] Existing Instance script_aws.

(** A server that starts. *)
#[local] Instance script_grpc : Grpc Script.script := {|
  build_and_start _ x := (true, x);
  stub_HealthCheck _ _ x := (Ok true, x)
|}.

Definition demo_env : surroundings Script.script :=
  store_surroundings (V := Tree.tree) demo_krbdir (λ _, False).

(** The server started, and the request for a lease handled. *)
Definition demo_start : server Script.script :=
  (new_calls (X := Script.script) (kinds true)
    (Server (set_ext (w_ext demo_joined) demo_joined) ∅ 0 ∅ ∅ [])).2.
Definition demo_arrived : server Script.script :=
  match take_event (Arrived 0 demo_create) demo_start with Some (_, s) => s | None => demo_start end.
Definition demo_served : server Script.script :=
  (proceed_all (V := Tree.tree) demo_krbdir "" (kinds true) 0 demo_arrived).2.

Lemma demo_started :
  new_calls (X := Script.script) (kinds true)
    (Server (set_ext (w_ext demo_joined) demo_joined) ∅ 0 ∅ ∅ []) = (Ok tt, demo_start).
Proof. unfold demo_start. apply run_outcome. vm_compute. reflexivity. Qed.

Lemma demo_start_world : sv_world demo_start = demo_joined.
Proof.
  destruct (new_calls_world _ _ _ demo_started) as [-> _]. cbn [sv_world]. by destruct demo_joined.
Qed.

Lemma demo_arrives : take_event (Arrived 0 demo_create) demo_start = Some (0, demo_arrived).
Proof.
  assert (Ht : fst <$> take_event (Arrived 0 demo_create) demo_start = Some 0) by (vm_compute; reflexivity).
  unfold demo_arrived. destruct (take_event _ _) as [[t s]|]; [by injection Ht as ->|done].
Qed.

Lemma demo_answers :
  proceed_all (V := Tree.tree) demo_krbdir "" (kinds true) 0 demo_arrived = (Ok tt, demo_served).
Proof. unfold demo_served. apply run_outcome. vm_compute. reflexivity. Qed.

Lemma demo_run :
  RunServer (V := Tree.tree) true demo_krbdir "" demo_env "/run" demo_joined
    [Some (Arrived 0 demo_create); None] (Ok true) demo_served.
Proof.
  eapply server_runs; [reflexivity|exact demo_started|].
  eapply rpcs_turn; [| |apply rpcs_stopped].
  - cbn [occurs demo_env store_surroundings asks]. rewrite demo_start_world. exact demo_acceptable.
  - exact (turn_event _ _ _ _ _ _ _ _ _ demo_arrives demo_answers).
Qed.

(** The credential specification file, read before a server runs. *)
Example demo_file_period :
  ∃ σ t (w : world Script.script), period_steps (X := Script.script) (V := Tree.tree) demo_krbdir ""
      no_leases [Started DEFAULT_CRED_FILE_LEASE_ID dummy_credspec (Ok EXIT_SUCCESS)] σ ∧
    leases σ = {[DEFAULT_CRED_FILE_LEASE_ID := [t]]} ∧ represents (V := Tree.tree) demo_krbdir σ (w_fs w).
Proof.
  assert (Hrun : (ProcessCredSpecFile (X := Script.script) (V := Tree.tree) demo_krbdir "/spec.json"
    DEFAULT_CRED_FILE_LEASE_ID demo_spec_file).1 = Ok EXIT_SUCCESS) by (vm_compute; reflexivity).
  apply run_outcome in Hrun. set (w := (ProcessCredSpecFile _ _ _ _).2) in Hrun.
  assert (Hrep : represents (V := Tree.tree) demo_krbdir no_leases (w_fs demo_spec_file)).
  { split; [apply demo_spec_dirs|done|done|]. intros id _ _ _. apply (demo_spec_fresh id [meta_name id]). }
  destruct (started_refines (X := Script.script) (V := Tree.tree) demo_krbdir "" (λ _, False)
    (demo_caches _) demo_plain_path eq_refl eq_refl no_leases "/spec.json" DEFAULT_CRED_FILE_LEASE_ID
    dummy_credspec demo_spec_file (Ok EXIT_SUCCESS) w Hrep) with (2 := Hrun) as (σ & Hstep & Hrep'); clearbody w.
  - split_and!; [apply (bool_decide_unpack _); by vm_compute|apply demo_spec_ready|by vm_compute..
      |apply demo_accounts_plain|apply demo_spec_known|apply demo_spec_meta].
  - assert (Hσ : ∃ t, leases σ = {[DEFAULT_CRED_FILE_LEASE_ID := [t]]}).
    { clear - Hstep. inversion Hstep; [eexists; subst; reflexivity|congruence]. }
    destruct Hσ as [t Hσ]. exists σ, t, w. split_and!; [|exact Hσ|exact Hrep'].
    econstructor; [exact Hstep|constructor].
Qed.

