(* ===== verification/Daemon.v ===== *)
(** * The daemon ([daemon/src/daemon.cpp], [configuration/src/config.cpp])

    The command line, the creation of the threads and [main] up to and with its
    watchdog loop. libc, pthread and systemd are the class [System], the client
    half of gRPC the class [Grpc] of [Rpc]. *)
From S2P Require Import Prelude StrUtil Logger World Json Regex Validation CredSpec Metadata Kinit Util Klist Krb Confine Lease Aws ArnLease Renewal SelfTest Rpc.
From stdpp Require Import options.

(** What the build generates: [config.h]. *)
Class Config := {
  CF_KRB_DIR : string;
  CF_LOGGING_DIR : string;
  CF_UNIX_DOMAIN_SOCKET_DIR : string;
  CF_TEST_DOMAIN_NAME : string;
  CF_TEST_GMSA_ACCOUNT : string
}.

(** The fields of [class Daemon] that [main] and [parse_options] set, less the
    logger, which is part of the world. *)
Record daemon := Daemon {
  krb_files_dir : string;
  cred_file : string;
  unix_socket_dir : string;
  logging_dir : string;
  domain_name : string;
  gmsa_account_name : string;
  run_diagnostic : bool;
  aws_sm_secret_name : string;
  watchdog_interval_usecs : Z
}.

Definition cf_daemon_init : daemon := Daemon "" "" "" "" "" "" false "" 0.

Definition set_run_diagnostic (d : daemon) : daemon :=
  Daemon (krb_files_dir d) (cred_file d) (unix_socket_dir d) (logging_dir d) (domain_name d)
    (gmsa_account_name d) true (aws_sm_secret_name d) (watchdog_interval_usecs d).
Definition set_aws_sm_secret_name (n : string) (d : daemon) : daemon :=
  Daemon (krb_files_dir d) (cred_file d) (unix_socket_dir d) (logging_dir d) (domain_name d)
    (gmsa_account_name d) (run_diagnostic d) n (watchdog_interval_usecs d).
Definition set_dirs (k l u : string) (d : daemon) : daemon :=
  Daemon k (cred_file d) u l (domain_name d)
    (gmsa_account_name d) (run_diagnostic d) (aws_sm_secret_name d) (watchdog_interval_usecs d).
Definition set_cred_file (f : string) (d : daemon) : daemon :=
  Daemon (krb_files_dir d) f (unix_socket_dir d) (logging_dir d) (domain_name d)
    (gmsa_account_name d) (run_diagnostic d) (aws_sm_secret_name d) (watchdog_interval_usecs d).
Definition set_names (n g : string) (d : daemon) : daemon :=
  Daemon (krb_files_dir d) (cred_file d) (unix_socket_dir d) (logging_dir d) n g
    (run_diagnostic d) (aws_sm_secret_name d) (watchdog_interval_usecs d).
Definition set_watchdog (u : Z) (d : daemon) : daemon :=
  Daemon (krb_files_dir d) (cred_file d) (unix_socket_dir d) (logging_dir d) (domain_name d)
    (gmsa_account_name d) (run_diagnostic d) (aws_sm_secret_name d) u.

(** libc, pthread and systemd. *)
Class System (X : Type) := {
  (** [pthread_attr_init], [pthread_attr_setstacksize]: 0 or an error number *)
  pthread_attr_init : X → Z * X;
  pthread_attr_setstacksize : Z → X → Z * X;
  (** [calloc]: whether it succeeds *)
  calloc : X → bool * X;
  (** [pthread_create]: 0 or an error number, and the address as text *)
  pthread_create : string → X → Z * string * X;
  pthread_attr_destroy : X → Z * X;
  (** [sigaction] for a signal: 0 or -1 *)
  sigaction : string → X → Z * X;
  (** [sd_watchdog_enabled]: its result and the interval it stores *)
  sd_watchdog_enabled : Z → X → Z * Z * X
}.

(** What successive calls of [getopt_long] return, less the final -1. *)
Inductive option_seen :=
| OptHelp | OptSelfTest | OptVerbosity | OptSecret (optarg : string) | OptVersion
| OptHealthcheck | OptUnknown.

(** What becomes of the process: it goes on with a value, or ends with a code. *)
Inductive flow (A : Type) := Continue (a : A) | Exit (code : Z).
Arguments Continue {A} a.
Arguments Exit {A} code.

Section daemon.
Context {X : Type} `{Platform X} {V : Type} `{JsonCpp V} `{Krb5 X} `{System X} `{Grpc X} `{Config}.
Abbreviation MW := (M (world X)).

Definition sys {A : Type} (f : X → A * X) : MW A := λ w,
  let '(a, x) := f (w_ext w) in (Ok a, set_ext x w).

(** *** [print_help] *)

(** [std::left << std::setw( n ) << s] *)
Definition pad_right (n : nat) (s : string) : string :=
  s +:+ string_of (replicate (n - String.length s) " "%char).

Definition long_options : list (string * bool) :=
  [("help", false); ("self_test", false); ("verbosity", true); ("aws_sm_secret_name", true);
   ("version", false); ("healthcheck", false)].

Definition options_descriptions : gmap string string :=
  list_to_map
    [("help", "produce help message"); ("self_test", "Run tests such as utf16 decode");
     ("verbosity", "set verbosity level");
     ("aws_sm_secret_name", "Name of secret containing username/password in AWS Secrets " +:+
        "Manager (in same region)");
     ("healthcheck", "health of credentials-fetcher");
     ("version", "Version of credentials-fetcher")].

Definition tab : string := String (char_of 9) "".
Definition endl : string := String nl "".

Fixpoint max_option_length (opts : list (string * bool)) (acc : nat) : nat :=
  match opts with
  | [] => acc
  | (name, required) :: rest =>
    let option_length := String.length name + (if required : bool then 5 else 2) in
    max_option_length rest (if decide (acc < option_length) then option_length else acc)
  end.

Definition option_line (width : nat) (descriptions : gmap string string) (name : string) : string :=
  "  " +:+ pad_right width ("--" +:+ name) +:+ tab +:+ default name (descriptions !! name) +:+ endl.

Definition print_help (opts : list (string * bool)) (descriptions : gmap string string) : string :=
  "Usage: " +:+ endl +:+ "Runtime Environment Variables:" +:+ endl +:+
  "CF_CRED_SPEC_FILE=<credential spec file>:<optional lease_id>" +:+ endl +:+
  tab +:+ "<credential spec file>" +:+ tab +:+ "Set to a path of a json credential file." +:+ endl +:+
  tab +:+ "<optional lease_id>" +:+ tab +:+
  "Use an optional colon followed by a lease identifier (Default: " +:+
  DEFAULT_CRED_FILE_LEASE_ID +:+ ")" +:+ endl +:+ endl +:+ "Allowed options" +:+ endl +:+
  str_join "" (option_line (max_option_length opts 0) descriptions <$> opts.*1).

(** *** [parse_options] *)

(** The loop over the options: [Continue (inl d)] after the last one,
    [Continue (inr code)] for an early return. *)
Fixpoint options_loop (opts : list option_seen) (d : daemon) : MW (flow (daemon * option Z)) :=
  match opts with
  | [] => mret (Continue (d, None))
  | o :: rest =>
    match o with
    | OptHelp | OptVersion | OptUnknown => mret (Continue (d, Some EXIT_FAILURE))
    | OptSelfTest => options_loop rest (set_run_diagnostic d)
    | OptVerbosity => options_loop rest d
    | OptSecret optarg => options_loop rest (set_aws_sm_secret_name (c_str optarg) d)
    | OptHealthcheck =>
      healthCheckResponse ← HealthCheck "test";
      mret (Exit (if (healthCheckResponse =? 0)%Z then EXIT_SUCCESS else EXIT_FAILURE))
    end
  end.

Definition parse_options (opts : list option_seen) (d : daemon) : MW (flow (Z * daemon)) :=
  r ← options_loop opts d;
  match r with
  | Exit code => mret (Exit code)
  | Continue (d, Some code) => mret (Continue (code, d))
  | Continue (d, None) =>
    try_catch
      (if str_empty (aws_sm_secret_name d) then
         name ← retrieve_variable_from_ecs_config "CREDENTIALS_FETCHER_SECRET_NAME_FOR_DOMAINLESS_GMSA";
         mret (Continue (EXIT_SUCCESS, set_aws_sm_secret_name name d))
       else mret (Continue (EXIT_SUCCESS, d)))
      (λ _, mret (Continue (EXIT_FAILURE, d)))
  end.

(** *** [create_pthread]: the code, and the thread's address unless null *)
Definition create_pthread (func_null : bool) (pthread_arg : option string) (stack_size : Z)
    : MW (Z * option string) :=
  match func_null, pthread_arg with
  | true, _ | _, None => mret (EXIT_FAILURE, None)
  | false, Some arg =>
    status ← sys pthread_attr_init;
    if negb (status =? 0)%Z then mret (EXIT_FAILURE, None)
    else
      status ← (if (0 <? stack_size)%Z then sys (pthread_attr_setstacksize stack_size) else mret 0%Z);
      if negb (status =? 0)%Z then mret (EXIT_FAILURE, None)
      else
        tinfo ← sys calloc;
        if negb tinfo then mret (EXIT_FAILURE, None)
        else
          r ← sys (pthread_create arg);
          if negb (r.1 =? 0)%Z then mret (EXIT_FAILURE, None)
          else
            status ← sys pthread_attr_destroy;
            if negb (status =? 0)%Z then mret (EXIT_FAILURE, None)
            else mret (EXIT_SUCCESS, Some r.2)
  end.

(** What [main] does with the result of [create_pthread]. *)
Definition start_thread (what : string) (arg : string) : MW (flow (option string)) :=
  pthread_status ← create_pthread false (Some arg) (-1);
  if (pthread_status.1 <? 0)%Z then
    log LOG_ERR ("Error " +:+ to_string pthread_status.1 +:+ ": Cannot create pthreads");;
    mret (Exit EXIT_FAILURE)
  else
    log LOG_INFO (match pthread_status.2 with
                  | None => "Warning: " +:+ what +:+ "_pthread is null"
                  | Some address =>
                    (if decide (what = "grpc") then "grpc pthread is at "
                     else "krb refresh pthread is at ") +:+ address
                  end);;
    mret (Continue pthread_status.2).

(** *** [main] *)

(** The credential specification named by [CF_CRED_SPEC_FILE]: the daemon and
    the lease id. *)
Definition cred_spec_env (d : daemon) : MW (flow (daemon * string)) :=
  env ← getenv "CF_CRED_SPEC_FILE";
  match env with
  | None => mret (Continue (d, ""))
  | Some path =>
    let '(parseResult, file, lease_id) := parse_cred_file_path path "" "" in
    if (parseResult =? EXIT_FAILURE)%Z then
      log LOG_ERR ("Failed parsing environment variable " +:+ path);; mret (Exit EXIT_FAILURE)
    else
      found ← exists_ file;
      mret (Continue (if negb found then (d, "") else (set_cred_file file d, lease_id)))
  end.

Definition log_settings (d : daemon) (lease_id : string) : MW unit :=
  log LOG_ERR ("krb_files_dir = " +:+ krb_files_dir d);;
  log LOG_ERR ("cred_file = " +:+ cred_file d +:+ " (lease id: " +:+ lease_id +:+ ")");;
  log LOG_ERR ("logging_dir = " +:+ logging_dir d);;
  log LOG_ERR ("unix_socket_dir = " +:+ unix_socket_dir d).

(** The handlers of the three signals; the first failure stops. *)
Definition install_signals : MW bool :=
  a ← sys (sigaction "SIGTERM");
  if (a =? -1)%Z then mret false else
  a ← sys (sigaction "SIGINT");
  if (a =? -1)%Z then mret false else
  a ← sys (sigaction "SIGHUP"); mret (negb (a =? -1)%Z).

(** The credential specification file, if there is one, is processed. *)
Definition process_cred_file (d : daemon) (lease_id : string) : MW (flow unit) :=
  if negb (str_empty (cred_file d)) then
    log LOG_INFO ("Credential file exists " +:+ cred_file d);;
    specFileReturn ← ProcessCredSpecFile (V := V) (krb_files_dir d) (cred_file d) lease_id;
    mret (if (specFileReturn =? EXIT_FAILURE)%Z then Exit EXIT_FAILURE else Continue tt)
  else mret (Continue tt).

Definition bind_flow {A B : Type} (m : MW (flow A)) (k : A → MW (flow B)) : MW (flow B) :=
  r ← m; match r with Continue a => k a | Exit code => mret (Exit code) end.

(** systemd's watchdog, when systemd started the daemon. *)
Definition setup_watchdog (d : daemon) : MW (flow daemon) :=
  env ← getenv "CREDENTIALS_FETCHERD_STARTED_BY_SYSTEMD";
  match env with
  | None => mret (Continue d)
  | Some _ =>
    r ← sys (sd_watchdog_enabled (watchdog_interval_usecs d));
    let '(result, usecs) := r in
    mret (if (0 <? result)%Z then Continue (set_watchdog usecs d) else Exit EXIT_FAILURE)
  end.

(** [main] up to its loop: the daemon and the two threads, or the exit code.
    [unset_flag] is what the daemon of the renewal test happens to hold. *)
Definition main_start (unset_flag : bool) (opts : list option_seen) : MW (flow (daemon * option string * option string)) :=
  bind_flow (parse_options opts cf_daemon_init) (λ '(status, d),
  if negb (status =? EXIT_SUCCESS)%Z then mret (Exit EXIT_FAILURE) else
  let d := set_dirs CF_KRB_DIR CF_LOGGING_DIR CF_UNIX_DOMAIN_SOCKET_DIR d in
  log LOG_ERR "Credentials-fetcher daemon has started running";;
  bind_flow (cred_spec_env d) (λ '(d, lease_id),
  let d := set_names CF_TEST_DOMAIN_NAME CF_TEST_GMSA_ACCOUNT d in
  log_settings d lease_id;;
  if run_diagnostic d then
    failed ← self_test (V := V) unset_flag; mret (Exit failed)
  else
    installed ← install_signals;
    if negb installed then mret (Exit EXIT_FAILURE) else
    bind_flow (process_cred_file d lease_id) (λ _,
    bind_flow (start_thread "grpc" "grpc_thread") (λ grpc_pthread,
    bind_flow (start_thread "krb_refresh" "krb_ticket_refresh_thread") (λ krb_refresh_pthread,
    modify (λ w, set_log (set_log_level LOG_NOTICE (w_log w).1, (w_log w).2) w);;
    bind_flow (setup_watchdog d) (λ d,
    mret (Continue (d, grpc_pthread, krb_refresh_pthread)))))))).

(** The two threads: what [pthread_create] runs. *)
Definition grpc_thread_start `{Aws X} (amazon : bool)
    (env : surroundings X) (d : daemon) (w : world X) (looks : list (option event))
    (r : outcome bool) (s : server X) : Prop :=
  RunServer (V := V) amazon (krb_files_dir d) (aws_sm_secret_name d) env (unix_socket_dir d)
    w looks r s.

(** The thread works on a copy of the daemon: [shutdown] is the flag in it. *)
Definition refresh_krb_tickets_thread_start (meanwhile : nat → world X → world X) (d : daemon)
    (shutdown : bool) (n : nat) : MW (option Z) :=
  krb_ticket_renew_handler (V := V) meanwhile (RenewalDaemon (krb_files_dir d) 10 shutdown) n.

(** The loop of [main] under systemd's watchdog: what it asks of systemd. *)
Inductive sd_action := Usleep (usecs : Z) | SdNotify (state : string).

(** One look at the flag: whether a signal has set it, and whether the file that
    [EXIT_USING_FILE] looks for is there in the turn that follows. *)
Record look := Look { lk_signal : bool; lk_exit_file : bool }.

Definition INT_MAX : Z := 2147483647.

(** The calls of one turn; [usleep] takes 32 bits. *)
Definition turn_actions (interval i : Z) : list sd_action :=
  [Usleep ((interval / 2) mod 2 ^ 32); SdNotify "WATCHDOG=1";
   SdNotify ("STATUS=Watchdog notify count = " +:+ to_string i)].

(** [flag] is [got_systemd_shutdown_signal] as the turn before left it; the result
    is [None] while the loop still runs. *)
Fixpoint watchdog_loop (exit_using_file : bool) (interval : Z) (flag : bool) (looks : list look)
    (i : Z) : list sd_action * option (outcome Z) :=
  match looks with
  | [] => ([], None)
  | l :: rest =>
    if flag || lk_signal l then ([], Some (Ok EXIT_SUCCESS))
    else if (i =? INT_MAX)%Z then
      (turn_actions interval i, Some (Undefined "signed overflow of i"))
    else
      let '(actions, code) :=
        watchdog_loop exit_using_file interval (exit_using_file && lk_exit_file l) rest (i + 1) in
      (turn_actions interval i ++ actions, code)
  end.

(** [main] from the start of the loop on. *)
Definition main_loop (exit_using_file : bool) (d : daemon) (looks : list look)
    : list sd_action * option (outcome Z) :=
  let '(actions, code) :=
    watchdog_loop exit_using_file (watchdog_interval_usecs d) false looks 0 in
  (SdNotify "READY=1" :: actions, code).

(** ** Lemmas *)
Lemma create_pthread_code func_null arg size w :
  match create_pthread func_null arg size w with
  | (Ok (code, t), _) => code = EXIT_SUCCESS ∧ is_Some t ∨ code = EXIT_FAILURE ∧ t = None
  | _ => False
  end.
Proof.
  unfold create_pthread. destruct func_null, arg as [a|]; try (right; done).
  unfold mbind, M_bind, sys. destruct (pthread_attr_init _) as [s1 x1]. destruct (s1 =? 0)%Z; [|by right].
  cbn [negb]. destruct (0 <? size)%Z.
  1: destruct (pthread_attr_setstacksize _ _) as [s2 x2]; destruct (s2 =? 0)%Z; [|by right].
  all: cbn; destruct (calloc _) as [[] x3]; [|by right].
  all: cbn; destruct (pthread_create _ _) as [[s4 t] x4]; cbn; destruct (s4 =? 0)%Z; [|by right].
  all: cbn; destruct (pthread_attr_destroy _) as [s5 x5]; destruct (s5 =? 0)%Z; [left; eauto|by right].
Qed.

(** *** The command line *)

(** The options that end [parse_options] at once. *)
Definition ends (o : option_seen) : bool :=
  match o with OptHelp | OptVersion | OptUnknown | OptHealthcheck => true | _ => false end.

(** What the others leave in the daemon. *)
Definition apply_option (d : daemon) (o : option_seen) : daemon :=
  match o with
  | OptSelfTest => set_run_diagnostic d
  | OptSecret optarg => set_aws_sm_secret_name (c_str optarg) d
  | _ => d
  end.

Lemma options_loop_run pre post d w :
  Forall (λ o, ends o = false) pre →
  options_loop (pre ++ post) d w = options_loop post (foldl apply_option d pre) w.
Proof.
  intros Hp. revert d. induction Hp as [|o pre Ho _ IH]; intros d; [done|].
  destruct o; cbn in Ho; try done; apply IH.
Qed.

Lemma apply_option_diagnostic pre d :
  OptSelfTest ∈ pre ∨ run_diagnostic d = true → run_diagnostic (foldl apply_option d pre) = true.
Proof using.
  revert d. induction pre as [|o pre IH]; intros d; [by intros [?%elem_of_nil|]|].
  intros [[<-|Hin]%elem_of_cons|Hd]; cbn; apply IH; [by right|by left|right; by destruct o].
Qed.

Lemma log_settings_run d lease_id (w : world X) :
  log_ready (w_log w) → ∃ l, log_settings d lease_id w = (Ok tt, set_log l w) ∧ log_ready l.
Proof using.
  intros Hr. unfold log_settings, mbind, M_bind.
  destruct (log_run LOG_ERR ("krb_files_dir = " +:+ krb_files_dir d) w Hr) as (l1 & -> & Hl1).
  destruct (log_run LOG_ERR ("cred_file = " +:+ cred_file d +:+ " (lease id: " +:+ lease_id +:+ ")")
    (set_log l1 w) Hl1) as (l2 & -> & Hl2).
  destruct (log_run LOG_ERR ("logging_dir = " +:+ logging_dir d) (set_log l2 (set_log l1 w)) Hl2)
    as (l3 & -> & Hl3).
  apply (log_run _ _ (set_log l3 (set_log l2 (set_log l1 w))) Hl3).
Qed.

(** Without an option that ends it, [parse_options] succeeds, wherever the name of
    the secret comes from. *)
Lemma parse_options_run opts d (w : world X) :
  Forall (λ o, ends o = false) opts →
  ∃ d', parse_options opts d w = (Ok (Continue (EXIT_SUCCESS, d')), w) ∧
    run_diagnostic d' = run_diagnostic (foldl apply_option d opts).
Proof using.
  intros Hopts. unfold parse_options, mbind, M_bind.
  pose proof (options_loop_run opts [] d w Hopts) as Hrun. rewrite app_nil_r in Hrun. rewrite Hrun.
  cbn [options_loop]. unfold mret, M_ret, try_catch. cbn beta iota.
  destruct (str_empty _); by eexists.
Qed.

(** Only an empty [CF_CRED_SPEC_FILE] cannot be parsed. *)
Lemma parse_cred_file_path_fails path file id :
  ((parse_cred_file_path path file id).1.1 =? EXIT_FAILURE)%Z = str_empty path.
Proof using.
  unfold parse_cred_file_path. destruct (str_empty path); [done|]. by destruct (str_find _ _).
Qed.

Lemma cred_spec_env_run d (w : world X) :
  log_ready (w_log w) →
  (w_env w !! "CF_CRED_SPEC_FILE" ≠ Some "" → ∃ d' id, cred_spec_env d w = (Ok (Continue (d', id)), w) ∧
     run_diagnostic d' = run_diagnostic d) ∧
  (w_env w !! "CF_CRED_SPEC_FILE" = Some "" →
     ∃ l, cred_spec_env d w = (Ok (Exit EXIT_FAILURE), set_log l w)).
Proof using.
  intros Hlog. unfold cred_spec_env, getenv, gets, mbind, M_bind. split.
  - destruct (w_env w !! "CF_CRED_SPEC_FILE") as [path|]; [|by intros _; eexists d, ""].
    intros Hne. pose proof (parse_cred_file_path_fails path "" "") as Hp.
    destruct (parse_cred_file_path path "" "") as [[z file] id]. cbn [fst] in Hp.
    rewrite Hp. rewrite (proj2 (str_empty_false path)) by congruence.
    unfold exists_, gets. destruct (fs_exists file _); cbn [negb]; by eexists _, _.
  - intros ->. destruct (log_run LOG_ERR ("Failed parsing environment variable " +:+ "") w Hlog) as (l & Hl & _).
    exists l. change (parse_cred_file_path "" "" "") with (EXIT_FAILURE, "", ""). cbn beta iota.
    rewrite Z.eqb_refl. unfold mbind, M_bind. by rewrite Hl.
Qed.

(** *** The watchdog loop *)

(** The flag as turn [k] finds it. *)
Definition raised (exit_using_file flag : bool) (looks : list look) (k : nat) : bool :=
  match k with
  | O => flag
  | S j => exit_using_file && from_option lk_exit_file false (looks !! j)
  end.

Definition stops (exit_using_file flag : bool) (looks : list look) (k : nat) : bool :=
  raised exit_using_file flag looks k || from_option lk_signal false (looks !! k).

Lemma raised_cons ex flag l rest k :
  raised ex (ex && lk_exit_file l) rest k = raised ex flag (l :: rest) (S k).
Proof. by destruct k. Qed.

(** [k] turns that do not stop. *)
Lemma watchdog_turns ex interval k flag looks i :
  (i + Z.of_nat k ≤ INT_MAX)%Z → k ≤ length looks → (∀ j, j < k → stops ex flag looks j = false) →
  watchdog_loop ex interval flag looks i =
  let '(actions, code) :=
    watchdog_loop ex interval (raised ex flag looks k) (drop k looks) (i + Z.of_nat k) in
  (mjoin ((λ j, turn_actions interval (i + Z.of_nat j)) <$> seq 0 k) ++ actions, code).
Proof using.
  revert flag looks i. induction k as [|k IH]; intros flag looks i Hi Hlen Hgo.
  { cbn. rewrite Z.add_0_r. by destruct (watchdog_loop _ _ _ _ _). }
  destruct looks as [|l rest]; [cbn in Hlen; lia|]. cbn [watchdog_loop drop].
  pose proof (Hgo 0 ltac:(lia)) as H0go. unfold stops in H0go. cbn in H0go. rewrite H0go.
  rewrite (proj2 (Z.eqb_neq i INT_MAX)) by lia.
  rewrite IH; [|lia|cbn in Hlen; lia|].
  - rewrite (raised_cons ex flag). replace (i + 1 + Z.of_nat k)%Z with (i + Z.of_nat (S k))%Z by lia.
    destruct (watchdog_loop _ _ _ _ _) as [actions code]. f_equal.
    cbn [seq fmap list_fmap mjoin list_join]. rewrite Z.add_0_r, <-app_assoc. do 2 f_equal.
    rewrite <-fmap_S_seq, <-list_fmap_compose. f_equal. apply list_fmap_ext. intros j x _. cbn. f_equal. lia.
  - intros j Hj. rewrite <-(Hgo (S j)) by lia. unfold stops. by rewrite (raised_cons ex flag).
Qed.

(** ** Properties *)

(** C23: the command line. The first of [--help], [--version] and an unknown option
    ends the daemon with [EXIT_FAILURE], whatever comes after it, and nothing is
    done; [--healthcheck] asks the running daemon and exits with its answer;
    without these, and with a logger able to write, [--self_test], wherever it
    stands and whether or not a secret is named, runs the self tests and exits with
    their result, when only the log has been written: no credential file is
    processed and no thread made. The exception is a [CF_CRED_SPEC_FILE] that is set
    and empty: the daemon then fails before any test. *)
Theorem main_command_line unset_flag opts w :
  (∀ pre o post, opts = pre ++ o :: post → Forall (λ o, ends o = false) pre →
     (o = OptHelp ∨ o = OptVersion ∨ o = OptUnknown →
        main_start unset_flag opts w = (Ok (Exit EXIT_FAILURE), w)) ∧
     (o = OptHealthcheck →
        main_start unset_flag opts w =
        (r ← HealthCheck "test"; mret (Exit (if (r =? 0)%Z then EXIT_SUCCESS else EXIT_FAILURE))) w)) ∧
  (Forall (λ o, ends o = false) opts → OptSelfTest ∈ opts → log_ready (w_log w) →
   ∃ l, main_start unset_flag opts w =
     if decide (w_env w !! "CF_CRED_SPEC_FILE" = Some "") then (Ok (Exit EXIT_FAILURE), set_log l w)
     else (r ← self_test (V := V) unset_flag; mret (Exit r)) (set_log l w)).
Proof.
  split.
  - intros pre o post -> Hpre.
    unfold main_start, bind_flow, parse_options, mbind, M_bind.
    rewrite (options_loop_run pre (o :: post) _ w Hpre). split.
    + intros [->|[->| ->]]; done.
    + intros ->. cbn [options_loop]. unfold mbind, M_bind.
      by destruct (HealthCheck "test" w) as [[r|e|e] w1].
  - intros Hopts Hself Hlog. unfold main_start, bind_flow, mbind, M_bind.
    destruct (parse_options_run opts cf_daemon_init w Hopts) as (d0 & -> & Hd0). cbn [Z.eqb negb EXIT_SUCCESS].
    rewrite apply_option_diagnostic in Hd0 by by left.
    destruct (log_run LOG_ERR "Credentials-fetcher daemon has started running" w Hlog) as (l1 & -> & Hl1).
    destruct (cred_spec_env_run (set_dirs CF_KRB_DIR CF_LOGGING_DIR CF_UNIX_DOMAIN_SOCKET_DIR d0)
      (set_log l1 w) Hl1) as [Hgo Hstop]. cbn [w_env set_log] in Hgo, Hstop. case_decide as Henv.
    { destruct (Hstop Henv) as [l ->]. by exists l. }
    destruct (Hgo Henv) as (d & id & -> & Hd).
    destruct (log_settings_run (set_names CF_TEST_DOMAIN_NAME CF_TEST_GMSA_ACCOUNT d) id (set_log l1 w) Hl1)
      as (l2 & Hset & _).
    rewrite Hset. exists l2. change (run_diagnostic (set_names _ _ d)) with (run_diagnostic d).
    rewrite Hd. change (run_diagnostic (set_dirs _ _ _ d0)) with (run_diagnostic d0). rewrite Hd0.
    change (set_log l2 (set_log l1 w)) with (set_log l2 w).
    by destruct (self_test unset_flag (set_log l2 w)) as [[r|e|e] w1].
Qed.

(** C22: the loop of [main] ends. The first turn [k] that finds the flag set, by a
    signal or, in a build with [EXIT_USING_FILE], by the file of the turn
    before, ends it with [EXIT_SUCCESS]; until then each turn sleeps half the
    watchdog's interval and notifies systemd of its number, and as long as no
    turn stops the loop is still running after [k] turns. Only the first
    [INT_MAX] turns are defined: the turn after them overflows the count. A
    daemon that systemd did not start has the interval 0 and never sleeps. *)
Theorem main_loop_spec exit_using_file d looks k :
  (Z.of_nat k ≤ INT_MAX)%Z → k ≤ length looks →
  (∀ j, j < k → stops exit_using_file false looks j = false) →
  let interval := watchdog_interval_usecs d in
  let turns := SdNotify "READY=1" :: mjoin ((λ j, turn_actions interval (Z.of_nat j)) <$> seq 0 k) in
  (k < length looks → stops exit_using_file false looks k = true →
   main_loop exit_using_file d looks = (turns, Some (Ok EXIT_SUCCESS))) ∧
  (k = length looks → main_loop exit_using_file d looks = (turns, None)) ∧
  (k < length looks → stops exit_using_file false looks k = false → Z.of_nat k = INT_MAX →
   ∃ e, main_loop exit_using_file d looks = (turns ++ turn_actions interval INT_MAX, Some (Undefined e))) ∧
  (interval = 0%Z → ∀ u, Usleep u ∈ turns → u = 0%Z).
Proof using.
  intros Hk Hlen Hgo interval turns. unfold main_loop. fold interval.
  rewrite (watchdog_turns exit_using_file interval k false looks 0 Hk Hlen Hgo).
  change (λ j, turn_actions interval (0 + Z.of_nat j)) with (λ j, turn_actions interval (Z.of_nat j)).
  rewrite Z.add_0_l. split_and!.
  - intros Hlt Hstop. destruct (lookup_lt_is_Some_2 looks k Hlt) as [l Hl].
    rewrite (drop_S _ _ _ Hl). unfold stops in Hstop. rewrite Hl in Hstop. cbn in Hstop. cbn [watchdog_loop].
    rewrite Hstop. by rewrite app_nil_r.
  - intros ->. rewrite drop_all. cbn [watchdog_loop]. by rewrite app_nil_r.
  - intros Hlt Hstop ->. destruct (lookup_lt_is_Some_2 looks k Hlt) as [l Hl].
    rewrite (drop_S _ _ _ Hl). unfold stops in Hstop. rewrite Hl in Hstop. cbn in Hstop. cbn [watchdog_loop].
    rewrite Hstop, Z.eqb_refl. by eexists.
  - intros H0i u. unfold turns. rewrite H0i. intros [?|Hin]%elem_of_cons; [done|].
    apply list_elem_of_join in Hin as (acts & Hu & (j & -> & _)%list_elem_of_fmap).
    unfold turn_actions in Hu. rewrite !elem_of_cons, elem_of_nil in Hu.
    destruct Hu as [[= ->]|[|[|]]]; done.
Qed.

(** C34: a thread that cannot be created is never an error: [create_pthread]
    reports failure with [EXIT_FAILURE], which is positive, and [main] looks for
    a negative code; so it logs a warning and goes on without the gRPC server or
    the renewal. *)
Theorem start_thread_never_exits what arg w :
  (∀ code w', start_thread what arg w ≠ (Ok (Exit code), w')) ∧
  (∀ code w1, create_pthread false (Some arg) (-1) w = (Ok (code, None), w1) →
     code = EXIT_FAILURE ∧
     start_thread what arg w =
       (log LOG_INFO ("Warning: " +:+ what +:+ "_pthread is null");; mret (Continue None)) w1).
Proof.
  pose proof (create_pthread_code false (Some arg) (-1) w) as Hc.
  unfold start_thread, mbind, M_bind, mret, M_ret.
  destruct (create_pthread false (Some arg) (-1) w) as [[[code t]|e|e] w1]; [|done..].
  assert (Hneg : (code <? 0)%Z = false)
    by (unfold EXIT_SUCCESS, EXIT_FAILURE in Hc; destruct Hc as [[-> _]|[-> _]]; done).
  cbn [fst snd]. rewrite Hneg. split.
  - intros code' w'. by destruct (log LOG_INFO _ w1) as [[[]|e|e] w2].
  - intros code' w1' [= <- -> <-]. destruct Hc as [[_ [x Hx]]|[-> _]]; done.
Qed.

End daemon.

(** ** At concrete inputs *)
#[local] Existing Instance Script.script_platform.
#[local] Existing Instance script_krb5.
#[local] Existing Instance Tree.tree_json.

(** A machine that cannot create threads. *)
#[export] Instance no_threads : System Script.script := {|
  pthread_attr_init x := (0%Z, x);
  pthread_attr_setstacksize _ x := (0%Z, x);
  calloc x := (true, x);
  pthread_create _ x := (11%Z, "", x);
  pthread_attr_destroy x := (0%Z, x);
  sigaction _ x := (0%Z, x);
  sd_watchdog_enabled usecs x := (1%Z, usecs, x)
|}.

Lemma start_thread_never_exits_witness :
  ∃ w', start_thread (X := Script.script) "grpc" "grpc_thread" (Script.demo_world Script.idle)
    = (Ok (Continue None), w').
Proof.
  destruct (start_thread_never_exits (X := Script.script) "grpc" "grpc_thread"
    (Script.demo_world Script.idle)) as [_ Hfail].
  destruct (Hfail EXIT_FAILURE (Script.demo_world Script.idle) eq_refl) as [_ Hrun].
  exists (start_thread (X := Script.script) "grpc" "grpc_thread" (Script.demo_world Script.idle)).2.
  assert (Hok : (start_thread (X := Script.script) "grpc" "grpc_thread"
    (Script.demo_world Script.idle)).1 = Ok (Continue None)) by (rewrite Hrun; vm_compute; reflexivity).
  destruct (start_thread _ _ _) as [r w']. cbn in Hok |- *. by rewrite Hok.
Defined.

(** A machine without a server, and the paths of the packages. *)
#[export] Instance no_grpc : Grpc Script.script := {|
  build_and_start _ x := (false, x);
  stub_HealthCheck _ _ x := (Ok false, x)
|}.

#[export] Instance package_config : Config := {|
  CF_KRB_DIR := "/var/credentials-fetcher/krbdir";
  CF_LOGGING_DIR := "/var/credentials-fetcher/logging";
  CF_UNIX_DOMAIN_SOCKET_DIR := "/var/credentials-fetcher/socket";
  CF_TEST_DOMAIN_NAME := "contoso.com";
  CF_TEST_GMSA_ACCOUNT := "webapp01"
|}.

(** The self tests run, as the build runs them; with an empty [CF_CRED_SPEC_FILE]
    they do not; a health check without a server fails. *)
Definition empty_cred_spec_world : world Script.script :=
  World (w_fs sample_world) {["CF_CRED_SPEC_FILE" := ""]} (w_log sample_world) (w_ext sample_world).

Lemma main_command_line_witness :
  (∃ l, main_start (X := Script.script) (V := Tree.tree) false [OptVerbosity; OptSelfTest] sample_world =
     (r ← self_test (V := Tree.tree) false; mret (Exit r)) (set_log l sample_world)) ∧
  (∃ l, main_start (X := Script.script) (V := Tree.tree) false [OptSelfTest] empty_cred_spec_world =
     (Ok (Exit EXIT_FAILURE), set_log l empty_cred_spec_world)) ∧
  (main_start (X := Script.script) (V := Tree.tree) false
     [OptSelfTest; OptHealthcheck; OptHelp] sample_world).1 = Ok (Exit EXIT_FAILURE).
Proof.
  split_and!.
  - destruct (main_command_line (X := Script.script) (V := Tree.tree) false
      [OptVerbosity; OptSelfTest] sample_world) as [_ Hself].
    destruct Hself as [l Hl]; [by repeat constructor|by right; left|split; [reflexivity|apply ring_start]|].
    exists l. rewrite decide_False in Hl by discriminate. exact Hl.
  - destruct (main_command_line (X := Script.script) (V := Tree.tree) false
      [OptSelfTest] empty_cred_spec_world) as [_ Hself].
    destruct Hself as [l Hl]; [by repeat constructor|by left|split; [reflexivity|apply ring_start]|].
    exists l. rewrite decide_True in Hl by reflexivity. exact Hl.
  - destruct (main_command_line (X := Script.script) (V := Tree.tree) false
      [OptSelfTest; OptHealthcheck; OptHelp] sample_world) as [Hends _].
    destruct (Hends [OptSelfTest] OptHealthcheck [OptHelp] eq_refl) as [_ Hhealth]; [by repeat constructor|].
    by rewrite (Hhealth eq_refl).
Defined.

(** The exit file is seen in the second turn; there is no third. *)
Lemma main_loop_spec_witness :
  main_loop true (set_watchdog 10000000 cf_daemon_init)
    [Look false false; Look false true; Look false false] =
  (SdNotify "READY=1" :: turn_actions 10000000 0 ++ turn_actions 10000000 1, Some (Ok EXIT_SUCCESS)).
Proof.
  destruct (main_loop_spec true (set_watchdog 10000000 cf_daemon_init)
    [Look false false; Look false true; Look false false] 2) as [Hend _]; [done|cbn; lia| |].
  - intros j Hj. destruct j as [|[|j]]; [reflexivity|reflexivity|lia].
  - rewrite Hend; [reflexivity|cbn; lia|reflexivity].
Defined.
